(** * Import of xarch hardware intrinsics

    A shallow embedding of [src/coreclr/jit/hwintrinsicxarch.cpp]: the
    instruction-set name lookup, the per-intrinsic metadata queries, the
    non-constant immediate fallback and the special-import dispatch
    [impSpecialIntrinsic], followed by the properties established for them.

    Conventions.
    - A C++ enumeration is an inductive type with the enumerators' names.
    - A [const char*] is an [option string]; [None] is [nullptr].
    - Fixed-width integers are [Z] with the wrap-around written out.
    - [assert(e)] only exists in DEBUG builds: [assert_] checks [e] when the
      build flag [DEBUG] is set and does nothing otherwise.  [unreached()],
      a null dereference and a read below the bottom of the expression stack
      are fatal in every build. *)

From Stdlib Require Import ZArith List String Ascii Bool Lia.
From Stdlib Require Import Floats.SpecFloat.
Import ListNotations.

Set Implicit Arguments.
Set Warnings "-register-all".

Local Open Scope Z_scope.

(** ** Enumerations *)

(** [CORINFO_InstructionSet]: the members this file names. *)
Inductive CORINFO_InstructionSet : Type :=
  | InstructionSet_X86Base
  | InstructionSet_X86Base_X64
  | InstructionSet_SSE
  | InstructionSet_SSE_X64
  | InstructionSet_SSE2
  | InstructionSet_SSE2_X64
  | InstructionSet_SSE3
  | InstructionSet_SSE3_X64
  | InstructionSet_SSSE3
  | InstructionSet_SSSE3_X64
  | InstructionSet_SSE41
  | InstructionSet_SSE41_X64
  | InstructionSet_SSE42
  | InstructionSet_SSE42_X64
  | InstructionSet_AVX
  | InstructionSet_AVX_X64
  | InstructionSet_AVX2
  | InstructionSet_AVX2_X64
  | InstructionSet_AVX512BW
  | InstructionSet_AVX512BW_X64
  | InstructionSet_AVX512BW_VL
  | InstructionSet_AVX512BW_VL_X64
  | InstructionSet_AVX512CD
  | InstructionSet_AVX512CD_X64
  | InstructionSet_AVX512CD_VL
  | InstructionSet_AVX512CD_VL_X64
  | InstructionSet_AVX512DQ
  | InstructionSet_AVX512DQ_X64
  | InstructionSet_AVX512DQ_VL
  | InstructionSet_AVX512DQ_VL_X64
  | InstructionSet_AVX512F
  | InstructionSet_AVX512F_X64
  | InstructionSet_AVX512F_VL
  | InstructionSet_AVX512F_VL_X64
  | InstructionSet_AVXVNNI
  | InstructionSet_AVXVNNI_X64
  | InstructionSet_AES
  | InstructionSet_AES_X64
  | InstructionSet_BMI1
  | InstructionSet_BMI1_X64
  | InstructionSet_BMI2
  | InstructionSet_BMI2_X64
  | InstructionSet_FMA
  | InstructionSet_FMA_X64
  | InstructionSet_LZCNT
  | InstructionSet_LZCNT_X64
  | InstructionSet_PCLMULQDQ
  | InstructionSet_PCLMULQDQ_X64
  | InstructionSet_POPCNT
  | InstructionSet_POPCNT_X64
  | InstructionSet_X86Serialize
  | InstructionSet_X86Serialize_X64
  | InstructionSet_NONE
  | InstructionSet_Vector128
  | InstructionSet_Vector256
  | InstructionSet_Vector512
  | InstructionSet_ILLEGAL.

(** [NamedIntrinsic]: every identifier named in the file, in order of first
    appearance; [NI_Unlisted] stands for the remaining members of the
    enumeration, which the file reaches only through [default:] labels. *)
Inductive NamedIntrinsic : Type :=
  | NI_AVX_Compare
  | NI_AVX_CompareScalar
  | NI_AVX2_GatherVector128
  | NI_AVX2_GatherVector256
  | NI_AVX2_GatherMaskVector128
  | NI_AVX2_GatherMaskVector256
  | NI_SSE2_ShiftLeftLogical
  | NI_SSE2_ShiftRightArithmetic
  | NI_SSE2_ShiftRightLogical
  | NI_AVX2_ShiftLeftLogical
  | NI_AVX2_ShiftRightArithmetic
  | NI_AVX2_ShiftRightLogical
  | NI_AVX512F_ShiftLeftLogical
  | NI_AVX512F_ShiftRightArithmetic
  | NI_AVX512F_ShiftRightLogical
  | NI_AVX512F_VL_ShiftRightArithmetic
  | NI_AVX512BW_ShiftLeftLogical
  | NI_AVX512BW_ShiftRightArithmetic
  | NI_AVX512BW_ShiftRightLogical
  | NI_SSE2_ConvertScalarToVector128Int32
  | NI_Vector128_Abs
  | NI_Vector256_Abs
  | NI_Vector128_Add
  | NI_Vector256_Add
  | NI_Vector512_Add
  | NI_Vector128_op_Addition
  | NI_Vector256_op_Addition
  | NI_Vector512_op_Addition
  | NI_Vector128_AndNot
  | NI_Vector256_AndNot
  | NI_Vector512_AndNot
  | NI_Vector128_As
  | NI_Vector128_AsByte
  | NI_Vector128_AsDouble
  | NI_Vector128_AsInt16
  | NI_Vector128_AsInt32
  | NI_Vector128_AsInt64
  | NI_Vector128_AsNInt
  | NI_Vector128_AsNUInt
  | NI_Vector128_AsSByte
  | NI_Vector128_AsSingle
  | NI_Vector128_AsUInt16
  | NI_Vector128_AsUInt32
  | NI_Vector128_AsUInt64
  | NI_Vector128_AsVector4
  | NI_Vector256_As
  | NI_Vector256_AsByte
  | NI_Vector256_AsDouble
  | NI_Vector256_AsInt16
  | NI_Vector256_AsInt32
  | NI_Vector256_AsInt64
  | NI_Vector256_AsNInt
  | NI_Vector256_AsNUInt
  | NI_Vector256_AsSByte
  | NI_Vector256_AsSingle
  | NI_Vector256_AsUInt16
  | NI_Vector256_AsUInt32
  | NI_Vector256_AsUInt64
  | NI_Vector512_As
  | NI_Vector512_AsByte
  | NI_Vector512_AsDouble
  | NI_Vector512_AsInt16
  | NI_Vector512_AsInt32
  | NI_Vector512_AsInt64
  | NI_Vector512_AsNInt
  | NI_Vector512_AsNUInt
  | NI_Vector512_AsSByte
  | NI_Vector512_AsSingle
  | NI_Vector512_AsUInt16
  | NI_Vector512_AsUInt32
  | NI_Vector512_AsUInt64
  | NI_Vector128_AsVector
  | NI_Vector128_ToVector256
  | NI_Vector128_AsVector2
  | NI_Vector128_AsVector3
  | NI_Vector128_AsVector128
  | NI_Vector256_GetLower
  | NI_Vector256_AsVector
  | NI_Vector256_AsVector256
  | NI_Vector512_AsVector
  | NI_Vector512_AsVector512
  | NI_Vector512_GetLower
  | NI_Vector256_ToVector512
  | NI_Vector512_GetLower128
  | NI_Vector128_ToVector512
  | NI_Vector128_BitwiseAnd
  | NI_Vector256_BitwiseAnd
  | NI_Vector512_BitwiseAnd
  | NI_Vector128_op_BitwiseAnd
  | NI_Vector256_op_BitwiseAnd
  | NI_Vector512_op_BitwiseAnd
  | NI_Vector128_BitwiseOr
  | NI_Vector256_BitwiseOr
  | NI_Vector512_BitwiseOr
  | NI_Vector128_op_BitwiseOr
  | NI_Vector256_op_BitwiseOr
  | NI_Vector512_op_BitwiseOr
  | NI_Vector128_Ceiling
  | NI_Vector256_Ceiling
  | NI_Vector128_ConditionalSelect
  | NI_Vector256_ConditionalSelect
  | NI_Vector128_ConvertToDouble
  | NI_Vector256_ConvertToDouble
  | NI_Vector128_ConvertToInt64
  | NI_Vector256_ConvertToInt64
  | NI_Vector128_ConvertToUInt32
  | NI_Vector256_ConvertToUInt32
  | NI_Vector128_ConvertToUInt64
  | NI_Vector256_ConvertToUInt64
  | NI_Vector128_ConvertToInt32
  | NI_Vector256_ConvertToInt32
  | NI_AVX_ConvertToVector256Int32WithTruncation
  | NI_SSE2_ConvertToVector128Int32WithTruncation
  | NI_Vector128_ConvertToSingle
  | NI_Vector256_ConvertToSingle
  | NI_AVX_ConvertToVector256Single
  | NI_SSE2_ConvertToVector128Single
  | NI_Vector128_Create
  | NI_Vector256_Create
  | NI_Vector512_Create
  | NI_Vector128_CreateScalar
  | NI_Vector256_CreateScalar
  | NI_Vector512_CreateScalar
  | NI_Vector128_CreateScalarUnsafe
  | NI_Vector256_CreateScalarUnsafe
  | NI_Vector512_CreateScalarUnsafe
  | NI_Vector128_Divide
  | NI_Vector256_Divide
  | NI_Vector128_op_Division
  | NI_Vector256_op_Division
  | NI_Vector128_Dot
  | NI_Vector256_Dot
  | NI_Vector128_Equals
  | NI_Vector256_Equals
  | NI_Vector512_Equals
  | NI_Vector512_EqualsAll
  | NI_Vector512_op_Equality
  | NI_Vector128_EqualsAll
  | NI_Vector256_EqualsAll
  | NI_Vector128_op_Equality
  | NI_Vector256_op_Equality
  | NI_Vector512_EqualsAny
  | NI_Vector128_EqualsAny
  | NI_Vector256_EqualsAny
  | NI_Vector512_ExtractMostSignificantBits
  | NI_AVX512F_MoveMaskSpecial
  | NI_Vector128_ExtractMostSignificantBits
  | NI_Vector256_ExtractMostSignificantBits
  | NI_Illegal
  | NI_AVX2_MoveMask
  | NI_SSE2_MoveMask
  | NI_AVX2_Shuffle
  | NI_SSSE3_Shuffle
  | NI_AVX2_Permute4x64
  | NI_AVX_MoveMask
  | NI_SSE_MoveMask
  | NI_Vector128_Floor
  | NI_Vector256_Floor
  | NI_Vector128_get_AllBitsSet
  | NI_Vector256_get_AllBitsSet
  | NI_Vector512_get_AllBitsSet
  | NI_Vector128_get_One
  | NI_Vector256_get_One
  | NI_Vector512_get_One
  | NI_Vector128_get_Zero
  | NI_Vector256_get_Zero
  | NI_Vector512_get_Zero
  | NI_Vector128_GetElement
  | NI_Vector256_GetElement
  | NI_Vector512_GetElement
  | NI_Vector128_GreaterThan
  | NI_Vector256_GreaterThan
  | NI_Vector128_GreaterThanAll
  | NI_Vector256_GreaterThanAll
  | NI_Vector128_GreaterThanAny
  | NI_Vector256_GreaterThanAny
  | NI_Vector128_GreaterThanOrEqual
  | NI_Vector256_GreaterThanOrEqual
  | NI_Vector128_GreaterThanOrEqualAll
  | NI_Vector256_GreaterThanOrEqualAll
  | NI_Vector128_GreaterThanOrEqualAny
  | NI_Vector256_GreaterThanOrEqualAny
  | NI_Vector128_LessThan
  | NI_Vector256_LessThan
  | NI_Vector128_LessThanAll
  | NI_Vector256_LessThanAll
  | NI_Vector128_LessThanAny
  | NI_Vector256_LessThanAny
  | NI_Vector128_LessThanOrEqual
  | NI_Vector256_LessThanOrEqual
  | NI_Vector128_LessThanOrEqualAll
  | NI_Vector256_LessThanOrEqualAll
  | NI_Vector128_LessThanOrEqualAny
  | NI_Vector256_LessThanOrEqualAny
  | NI_SSE_LoadVector128
  | NI_SSE2_LoadVector128
  | NI_AVX_LoadVector256
  | NI_AVX512F_LoadVector512
  | NI_AVX512BW_LoadVector512
  | NI_Vector128_Load
  | NI_Vector256_Load
  | NI_Vector512_Load
  | NI_Vector128_LoadUnsafe
  | NI_Vector256_LoadUnsafe
  | NI_Vector512_LoadUnsafe
  | NI_Vector128_LoadAligned
  | NI_Vector256_LoadAligned
  | NI_Vector512_LoadAligned
  | NI_Vector128_LoadAlignedNonTemporal
  | NI_Vector256_LoadAlignedNonTemporal
  | NI_Vector512_LoadAlignedNonTemporal
  | NI_Vector128_Max
  | NI_Vector256_Max
  | NI_Vector128_Min
  | NI_Vector256_Min
  | NI_Vector128_Multiply
  | NI_Vector256_Multiply
  | NI_Vector128_op_Multiply
  | NI_Vector256_op_Multiply
  | NI_Vector128_Narrow
  | NI_Vector256_Narrow
  | NI_Vector512_Narrow
  | NI_Vector128_Negate
  | NI_Vector256_Negate
  | NI_Vector128_op_UnaryNegation
  | NI_Vector256_op_UnaryNegation
  | NI_Vector128_OnesComplement
  | NI_Vector256_OnesComplement
  | NI_Vector512_OnesComplement
  | NI_Vector128_op_OnesComplement
  | NI_Vector256_op_OnesComplement
  | NI_Vector512_op_OnesComplement
  | NI_Vector128_op_Inequality
  | NI_Vector256_op_Inequality
  | NI_Vector512_op_Inequality
  | NI_Vector128_op_UnaryPlus
  | NI_Vector256_op_UnaryPlus
  | NI_Vector128_Subtract
  | NI_Vector256_Subtract
  | NI_Vector512_Subtract
  | NI_Vector128_op_Subtraction
  | NI_Vector256_op_Subtraction
  | NI_Vector512_op_Subtraction
  | NI_Vector128_ShiftLeft
  | NI_Vector256_ShiftLeft
  | NI_Vector128_op_LeftShift
  | NI_Vector256_op_LeftShift
  | NI_Vector128_ShiftRightArithmetic
  | NI_Vector256_ShiftRightArithmetic
  | NI_Vector128_op_RightShift
  | NI_Vector256_op_RightShift
  | NI_Vector128_ShiftRightLogical
  | NI_Vector256_ShiftRightLogical
  | NI_Vector128_op_UnsignedRightShift
  | NI_Vector256_op_UnsignedRightShift
  | NI_Vector128_Shuffle
  | NI_Vector256_Shuffle
  | NI_Vector128_Sqrt
  | NI_Vector256_Sqrt
  | NI_SSE_Store
  | NI_SSE2_Store
  | NI_AVX_Store
  | NI_AVX512F_Store
  | NI_AVX512BW_Store
  | NI_Vector128_Store
  | NI_Vector256_Store
  | NI_Vector512_Store
  | NI_Vector128_StoreUnsafe
  | NI_Vector256_StoreUnsafe
  | NI_Vector512_StoreUnsafe
  | NI_Vector128_StoreAligned
  | NI_Vector256_StoreAligned
  | NI_Vector512_StoreAligned
  | NI_Vector128_StoreAlignedNonTemporal
  | NI_Vector256_StoreAlignedNonTemporal
  | NI_Vector512_StoreAlignedNonTemporal
  | NI_Vector128_Sum
  | NI_Vector256_Sum
  | NI_Vector128_ToScalar
  | NI_Vector256_ToScalar
  | NI_Vector512_ToScalar
  | NI_Vector128_ToVector256Unsafe
  | NI_Vector256_GetUpper
  | NI_Vector512_GetUpper
  | NI_Vector256_ToVector512Unsafe
  | NI_Vector128_WidenLower
  | NI_Vector256_WidenLower
  | NI_Vector512_WidenLower
  | NI_Vector128_WidenUpper
  | NI_Vector256_WidenUpper
  | NI_Vector512_WidenUpper
  | NI_Vector128_WithElement
  | NI_Vector256_WithElement
  | NI_Vector512_WithElement
  | NI_Vector256_WithLower
  | NI_Vector256_WithUpper
  | NI_Vector512_WithLower
  | NI_Vector512_WithUpper
  | NI_Vector128_Xor
  | NI_Vector256_Xor
  | NI_Vector512_Xor
  | NI_Vector128_op_ExclusiveOr
  | NI_Vector256_op_ExclusiveOr
  | NI_Vector512_op_ExclusiveOr
  | NI_X86Base_Pause
  | NI_X86Serialize_Serialize
  | NI_X86Base_DivRem
  | NI_X86Base_X64_DivRem
  | NI_SSE_CompareScalarGreaterThan
  | NI_SSE_CompareScalarGreaterThanOrEqual
  | NI_SSE_CompareScalarNotGreaterThan
  | NI_SSE_CompareScalarNotGreaterThanOrEqual
  | NI_SSE_MoveScalar
  | NI_SSE_Prefetch0
  | NI_SSE_Prefetch1
  | NI_SSE_Prefetch2
  | NI_SSE_PrefetchNonTemporal
  | NI_SSE_StoreFence
  | NI_SSE2_CompareScalarGreaterThan
  | NI_SSE2_CompareScalarGreaterThanOrEqual
  | NI_SSE2_CompareScalarNotGreaterThan
  | NI_SSE2_CompareScalarNotGreaterThanOrEqual
  | NI_SSE2_MoveScalar
  | NI_SSE2_LoadFence
  | NI_SSE2_MemoryFence
  | NI_SSE2_StoreNonTemporal
  | NI_AVX2_PermuteVar8x32
  | NI_BMI2_ZeroHighBits
  | NI_BMI2_X64_ZeroHighBits
  | NI_BMI1_BitFieldExtract
  | NI_BMI1_X64_BitFieldExtract
  | NI_Unlisted (id : nat).

(** [enum class FloatComparisonMode]: the 32 comparison predicates. *)
Module FloatComparisonMode.
Inductive t : Type :=
  | OrderedEqualNonSignaling
  | UnorderedNonSignaling
  | UnorderedNotEqualNonSignaling
  | OrderedNonSignaling
  | UnorderedEqualNonSignaling
  | OrderedFalseNonSignaling
  | OrderedNotEqualNonSignaling
  | UnorderedTrueNonSignaling
  | OrderedEqualSignaling
  | UnorderedSignaling
  | UnorderedNotEqualSignaling
  | OrderedSignaling
  | UnorderedEqualSignaling
  | OrderedFalseSignaling
  | OrderedNotEqualSignaling
  | UnorderedTrueSignaling
  | OrderedLessThanSignaling
  | OrderedGreaterThanSignaling
  | OrderedLessThanOrEqualSignaling
  | OrderedGreaterThanOrEqualSignaling
  | UnorderedNotLessThanSignaling
  | UnorderedNotGreaterThanSignaling
  | UnorderedNotLessThanOrEqualSignaling
  | UnorderedNotGreaterThanOrEqualSignaling
  | OrderedLessThanNonSignaling
  | OrderedGreaterThanNonSignaling
  | OrderedLessThanOrEqualNonSignaling
  | OrderedGreaterThanOrEqualNonSignaling
  | UnorderedNotLessThanNonSignaling
  | UnorderedNotGreaterThanNonSignaling
  | UnorderedNotLessThanOrEqualNonSignaling
  | UnorderedNotGreaterThanOrEqualNonSignaling.

Scheme Equality for t.
End FloatComparisonMode.

(** [var_types]: the JIT's value types that the file mentions, and [TYP_REF]
    for the ones it does not. *)
Inductive var_types : Type :=
  | TYP_UNDEF | TYP_UNKNOWN | TYP_VOID
  | TYP_BYTE | TYP_UBYTE | TYP_SHORT | TYP_USHORT
  | TYP_INT | TYP_UINT | TYP_LONG | TYP_ULONG
  | TYP_FLOAT | TYP_DOUBLE
  | TYP_REF | TYP_BYREF | TYP_STRUCT
  | TYP_SIMD8 | TYP_SIMD12 | TYP_SIMD16 | TYP_SIMD32 | TYP_SIMD64.

Scheme Equality for var_types.

(** [CorInfoType]: the base types a SIMD class can be instantiated at. *)
Inductive CorInfoType : Type :=
  | CORINFO_TYPE_UNDEF
  | CORINFO_TYPE_BYTE | CORINFO_TYPE_UBYTE
  | CORINFO_TYPE_SHORT | CORINFO_TYPE_USHORT
  | CORINFO_TYPE_INT | CORINFO_TYPE_UINT
  | CORINFO_TYPE_LONG | CORINFO_TYPE_ULONG
  | CORINFO_TYPE_NATIVEINT | CORINFO_TYPE_NATIVEUINT
  | CORINFO_TYPE_FLOAT | CORINFO_TYPE_DOUBLE.

Scheme Equality for CorInfoType.

(** [genTreeOps]: the operators handed to the node constructors. *)
Inductive genTreeOps : Type :=
  | GT_ADD | GT_SUB | GT_MUL | GT_DIV
  | GT_AND | GT_OR | GT_XOR | GT_AND_NOT | GT_NOT | GT_NEG
  | GT_LSH | GT_RSH | GT_RSZ
  | GT_EQ | GT_NE | GT_LT | GT_LE | GT_GE | GT_GT
  | GT_IND.

(** [HWIntrinsicCategory]; only [HW_Category_IMM] is named in the file. *)
Inductive HWIntrinsicCategory : Type :=
  | HW_Category_SimpleSIMD | HW_Category_IMM | HW_Category_Scalar
  | HW_Category_SIMDScalar | HW_Category_MemoryLoad | HW_Category_MemoryStore
  | HW_Category_Helper | HW_Category_Special.

(** ** Vector constants *)

(** Modelled from the spec: the value of a constant-vector literal, lanes
    of an element kind within 16, 32 or 64 bytes.  [simd_t] is declared in
    simd.h: a union of lane arrays over the same 64 bytes ([u8], [u16],
    [u32], [u64], [f32], [f64]).  It is given by its bytes, each a [Z] in
    [0, 256); a lane of [w] bytes is read and written little-endian, as on
    the target.  An index past the end is undefined behaviour in the source;
    here such a read gives zero bytes and such a write is dropped. *)
Definition simd_t : Type := list Z.

Definition simd_zero : simd_t := repeat 0 64.

Fixpoint list_set (l : list Z) (i : nat) (x : Z) : list Z :=
  match l, i with
  | [], _ => []
  | _ :: t, O => x :: t
  | h :: t, S i' => h :: list_set t i' x
  end.

(** The [w] bytes of [x], least significant first. *)
Fixpoint le_bytes (w : nat) (x : Z) : list Z :=
  match w with
  | O => []
  | S w' => (x mod 256) :: le_bytes w' (x / 256)
  end.

Fixpoint le_value (bs : list Z) : Z :=
  match bs with
  | [] => 0
  | b :: t => b + 256 * le_value t
  end.

(** Overwrite the bytes of [v] from offset [off] with [bs]. *)
Fixpoint simd_blit (v : simd_t) (off : nat) (bs : list Z) : simd_t :=
  match bs with
  | [] => v
  | b :: t => simd_blit (list_set v off b) (S off) t
  end.

Fixpoint simd_bytes (v : simd_t) (off : nat) (w : nat) : list Z :=
  match w with
  | O => []
  | S w' => nth off v 0 :: simd_bytes v (S off) w'
  end.

(** [v.uW[i] = x] for a lane of [w] bytes: the value wraps to the lane. *)
Definition simd_store (w : nat) (v : simd_t) (i : Z) (x : Z) : simd_t :=
  if (i <? 0) then v else simd_blit v (Z.to_nat i * w) (le_bytes w x).

(** [v.uW[i]] for a lane of [w] bytes. *)
Definition simd_load (w : nat) (v : simd_t) (i : Z) : Z :=
  if (i <? 0) then 0 else le_value (simd_bytes v (Z.to_nat i * w) w).

(** ** Trees *)

(** Modelled from the spec: the IR subtree the engine consumes and builds;
    [GenTree] is declared in gentree.h.  Constants, locals, casts and the hardware
    intrinsic node are the source's own node kinds.  A floating constant
    holds the bits of its IEEE-754 double.  [GT_HELPER] is the tree one of
    the JIT's node constructors returns ([gtNewSimdBinOpNode],
    [gtNewSimdHWIntrinsicNode], ...): they are defined outside this file, so
    the result is recorded symbolically, as the constructor's name, the type
    of the node and every other argument in the order it was passed.
    [GT_OTHER] is any other tree the importer may have pushed.
    [HelperArg] is an argument of such a constructor. *)
Inductive HelperArg (T : Type) : Type :=
  | A_tree (t : T)
  | A_oper (oper : genTreeOps)
  | A_type (ty : var_types)
  | A_jitType (ty : CorInfoType)
  | A_intrinsic (id : NamedIntrinsic)
  | A_size (n : Z).

Arguments A_oper {T} oper.
Arguments A_type {T} ty.
Arguments A_jitType {T} ty.
Arguments A_intrinsic {T} id.
Arguments A_size {T} n.

(** The trees themselves. *)
Inductive GenTree : Type :=
  | GT_CNS_INT (gtType : var_types) (iconValue : Z)
  | GT_CNS_DBL (gtType : var_types) (dconValue : Z)
  | GT_CNS_VEC (gtType : var_types) (gtSimdVal : simd_t)
  | GT_LCL_VAR (gtType : var_types) (lclNum : nat)
  | GT_CAST (gtType : var_types) (op1 : GenTree)
  | GT_HWINTRINSIC (gtType : var_types) (ops : list GenTree)
                   (id : NamedIntrinsic) (simdBaseJitType : CorInfoType)
                   (simdSize : Z) (auxiliaryJitType : CorInfoType)
  | GT_HELPER (helper : string) (gtType : var_types)
              (args : list (HelperArg GenTree))
  | GT_OTHER (gtType : var_types) (tag : nat).

(** Modelled from the spec: the queries on a tree the engine makes of its
    operands ([TypeGet], [TypeIs], [IsIntegralConst], [IsCnsFltOrDbl],
    [IsCnsVec], [IsVectorConst], [OperIsConst], [OperIs]); they are methods
    of [GenTree], declared in gentree.h, and read the node kind and type. *)
Definition TypeGet (t : GenTree) : var_types :=
  match t with
  | GT_CNS_INT ty _ | GT_CNS_DBL ty _ | GT_CNS_VEC ty _ | GT_LCL_VAR ty _
  | GT_CAST ty _ | GT_HWINTRINSIC ty _ _ _ _ _ | GT_HELPER _ ty _
  | GT_OTHER ty _ => ty
  end.

Definition TypeIs (t : GenTree) (ty : var_types) : bool :=
  var_types_beq (TypeGet t) ty.

Definition IsIntegralConst (t : GenTree) : bool :=
  match t with GT_CNS_INT _ _ => true | _ => false end.

Definition IsCnsFltOrDbl (t : GenTree) : bool :=
  match t with GT_CNS_DBL _ _ => true | _ => false end.

Definition IsCnsVec (t : GenTree) : bool :=
  match t with GT_CNS_VEC _ _ => true | _ => false end.

Definition IsVectorConst (t : GenTree) : bool := IsCnsVec t.

Definition OperIsConst (t : GenTree) : bool :=
  match t with
  | GT_CNS_INT _ _ | GT_CNS_DBL _ _ | GT_CNS_VEC _ _ => true
  | _ => false
  end.

Definition OperIs_GT_CAST (t : GenTree) : bool :=
  match t with GT_CAST _ _ => true | _ => false end.

(** ** The compilation the importer runs in

    What the file consumes from the rest of the JIT without defining it:
    the build flavour, the target, the capability oracle, the per-intrinsic
    table of [hwintrinsiclistxarch.h] and a few tree queries. *)
Class Jit : Type := {
  (** [assert] is live *)
  DEBUG : bool;
  (** [#if defined(TARGET_X86)] *)
  TARGET_X86 : bool;
  compExactlyDependsOn : CORINFO_InstructionSet -> bool;
  compOpportunisticallyDependsOn : CORINFO_InstructionSet -> bool;
  compIsaSupportedDebugOnly : CORINFO_InstructionSet -> bool;
  IsBaselineVector512IsaSupported : bool;
  IsBaselineVector512IsaSupportedDebugOnly : bool;
  getSIMDVectorRegisterByteLength : Z;
  lookupCategory : NamedIntrinsic -> HWIntrinsicCategory;
  HasFullRangeImm : NamedIntrinsic -> bool;
  NoJmpTableImm : NamedIntrinsic -> bool;
  BaseTypeFromFirstArg : NamedIntrinsic -> bool;
  IsMultiReg : NamedIntrinsic -> bool;
  lookupIval : NamedIntrinsic -> bool -> Z;
  (** [static_cast<float>] of a double, on the bits *)
  double_to_float : Z -> Z;
  (** the tree carries one of the side-effect flags a spill looks for *)
  gtHasSideEffects : GenTree -> bool;
  areArgumentsContiguous : GenTree -> GenTree -> bool
}.

(** ** Outcomes *)

Inductive Checked (A : Type) : Type :=
  | Done (a : A)
  | Fatal (msg : string).

Arguments Fatal {A} msg.

Definition bindC {A B : Type} (m : Checked A) (k : A -> Checked B) : Checked B :=
  match m with
  | Done a => k a
  | Fatal msg => Fatal msg
  end.

Section Lookups.

Context {jit : Jit}.

Local Open Scope string_scope.
Local Open Scope Z_scope.

Definition assertC (cond : bool) (msg : string) : Checked unit :=
  if DEBUG && negb cond then Fatal msg else Done tt.

(** ** Instruction sets *)

Definition X64VersionOfIsa (isa : CORINFO_InstructionSet) : CORINFO_InstructionSet :=
  match isa with
  | InstructionSet_X86Base => InstructionSet_X86Base_X64
  | InstructionSet_SSE => InstructionSet_SSE_X64
  | InstructionSet_SSE2 => InstructionSet_SSE2_X64
  | InstructionSet_SSE3 => InstructionSet_SSE3_X64
  | InstructionSet_SSSE3 => InstructionSet_SSSE3_X64
  | InstructionSet_SSE41 => InstructionSet_SSE41_X64
  | InstructionSet_SSE42 => InstructionSet_SSE42_X64
  | InstructionSet_AVX => InstructionSet_AVX_X64
  | InstructionSet_AVX2 => InstructionSet_AVX2_X64
  | InstructionSet_AVX512BW => InstructionSet_AVX512BW_X64
  | InstructionSet_AVX512BW_VL => InstructionSet_AVX512BW_VL_X64
  | InstructionSet_AVX512CD => InstructionSet_AVX512CD_X64
  | InstructionSet_AVX512CD_VL => InstructionSet_AVX512CD_VL_X64
  | InstructionSet_AVX512DQ => InstructionSet_AVX512DQ_X64
  | InstructionSet_AVX512DQ_VL => InstructionSet_AVX512DQ_VL_X64
  | InstructionSet_AVX512F => InstructionSet_AVX512F_X64
  | InstructionSet_AVX512F_VL => InstructionSet_AVX512F_VL_X64
  | InstructionSet_AVXVNNI => InstructionSet_AVXVNNI_X64
  | InstructionSet_AES => InstructionSet_AES_X64
  | InstructionSet_BMI1 => InstructionSet_BMI1_X64
  | InstructionSet_BMI2 => InstructionSet_BMI2_X64
  | InstructionSet_FMA => InstructionSet_FMA_X64
  | InstructionSet_LZCNT => InstructionSet_LZCNT_X64
  | InstructionSet_PCLMULQDQ => InstructionSet_PCLMULQDQ_X64
  | InstructionSet_POPCNT => InstructionSet_POPCNT_X64
  | InstructionSet_X86Serialize => InstructionSet_X86Serialize_X64
  | _ => InstructionSet_NONE
  end.

Definition VLVersionOfIsa (isa : CORINFO_InstructionSet) : CORINFO_InstructionSet :=
  match isa with
  | InstructionSet_AVX512BW => InstructionSet_AVX512BW_VL
  | InstructionSet_AVX512CD => InstructionSet_AVX512CD_VL
  | InstructionSet_AVX512DQ => InstructionSet_AVX512DQ_VL
  | InstructionSet_AVX512F => InstructionSet_AVX512F_VL
  | _ => InstructionSet_NONE
  end.

(** [className[0] == c]; the first character of the empty string is the
    terminating NUL. *)
Definition first_char_is (className : string) (c : ascii) : bool :=
  match className with
  | EmptyString => false
  | String c0 _ => Ascii.eqb c0 c
  end.

(** [strcmp(a, b) == 0] *)
Definition strcmp_eq (a b : string) : bool := String.eqb a b.

(** [strncmp(a, b, strlen(b)) == 0] *)
Definition strncmp_eq (a b : string) : bool := String.prefix b a.

Definition VL_not_implemented : string :=
  "VL.X64 support doesn't exist in the managed libraries and so is not yet implemented".

Definition lookupInstructionSet (className : option string) : Checked CORINFO_InstructionSet :=
  bindC (assertC (match className with Some _ => true | None => false end)
                 "className != nullptr") (fun _ =>
  match className with
  | None => Fatal "null dereference"
  | Some className =>
    if first_char_is className "A" then
      if strcmp_eq className "Aes" then Done InstructionSet_AES
      else if strcmp_eq className "Avx" then Done InstructionSet_AVX
      else if strcmp_eq className "Avx2" then Done InstructionSet_AVX2
      else if strcmp_eq className "Avx512BW" then Done InstructionSet_AVX512BW
      else if strcmp_eq className "Avx512CD" then Done InstructionSet_AVX512CD
      else if strcmp_eq className "Avx512DQ" then Done InstructionSet_AVX512DQ
      else if strcmp_eq className "Avx512F" then Done InstructionSet_AVX512F
      else if strcmp_eq className "AvxVnni" then Done InstructionSet_AVXVNNI
      else Done InstructionSet_ILLEGAL
    else if first_char_is className "S" then
      if strcmp_eq className "Sse" then Done InstructionSet_SSE
      else if strcmp_eq className "Sse2" then Done InstructionSet_SSE2
      else if strcmp_eq className "Sse3" then Done InstructionSet_SSE3
      else if strcmp_eq className "Ssse3" then Done InstructionSet_SSSE3
      else if strcmp_eq className "Sse41" then Done InstructionSet_SSE41
      else if strcmp_eq className "Sse42" then Done InstructionSet_SSE42
      else Done InstructionSet_ILLEGAL
    else if first_char_is className "B" then
      if strcmp_eq className "Bmi1" then Done InstructionSet_BMI1
      else if strcmp_eq className "Bmi2" then Done InstructionSet_BMI2
      else Done InstructionSet_ILLEGAL
    else if first_char_is className "P" then
      if strcmp_eq className "Pclmulqdq" then Done InstructionSet_PCLMULQDQ
      else if strcmp_eq className "Popcnt" then Done InstructionSet_POPCNT
      else Done InstructionSet_ILLEGAL
    else if first_char_is className "V" then
      if strncmp_eq className "Vector128" then Done InstructionSet_Vector128
      else if strncmp_eq className "Vector256" then Done InstructionSet_Vector256
      else if strncmp_eq className "Vector512" then Done InstructionSet_Vector512
      else if strcmp_eq className "VL" then
        bindC (assertC false VL_not_implemented) (fun _ =>
        Done InstructionSet_ILLEGAL)
      else Done InstructionSet_ILLEGAL
    else if strcmp_eq className "Fma" then Done InstructionSet_FMA
    else if strcmp_eq className "Lzcnt" then Done InstructionSet_LZCNT
    else if strcmp_eq className "X86Base" then Done InstructionSet_X86Base
    else if strcmp_eq className "X86Serialize" then Done InstructionSet_X86Serialize
    else Done InstructionSet_ILLEGAL
  end).

Definition lookupIsa (className enclosingClassName : option string)
  : Checked CORINFO_InstructionSet :=
  bindC (assertC (match className with Some _ => true | None => false end)
                 "className != nullptr") (fun _ =>
  match className with
  | None => Fatal "null dereference"
  | Some name =>
    if strcmp_eq name "X64" then
      bindC (assertC (match enclosingClassName with Some _ => true | None => false end)
                     "enclosingClassName != nullptr") (fun _ =>
      bindC (lookupInstructionSet enclosingClassName) (fun isa =>
      Done (X64VersionOfIsa isa)))
    else if strcmp_eq name "VL" then
      bindC (assertC (match enclosingClassName with Some _ => true | None => false end)
                     "enclosingClassName != nullptr") (fun _ =>
      bindC (lookupInstructionSet enclosingClassName) (fun isa =>
      Done (VLVersionOfIsa isa)))
    else lookupInstructionSet className
  end).

End Lookups.

(** ** Per-intrinsic metadata *)

Section Metadata.

Context {jit : Jit}.

Local Open Scope string_scope.
Local Open Scope Z_scope.

Definition HWIntrinsicCategory_eqb (a b : HWIntrinsicCategory) : bool :=
  match a, b with
  | HW_Category_SimpleSIMD, HW_Category_SimpleSIMD
  | HW_Category_IMM, HW_Category_IMM
  | HW_Category_Scalar, HW_Category_Scalar
  | HW_Category_SIMDScalar, HW_Category_SIMDScalar
  | HW_Category_MemoryLoad, HW_Category_MemoryLoad
  | HW_Category_MemoryStore, HW_Category_MemoryStore
  | HW_Category_Helper, HW_Category_Helper
  | HW_Category_Special, HW_Category_Special => true
  | _, _ => false
  end.

Definition lookupImmUpperBound (id : NamedIntrinsic) : Checked Z :=
  bindC (assertC (HWIntrinsicCategory_eqb (lookupCategory id) HW_Category_IMM)
                 "HWIntrinsicInfo::lookupCategory(id) == HW_Category_IMM") (fun _ =>
  match id with
  | NI_AVX_Compare
  | NI_AVX_CompareScalar =>
      bindC (assertC (negb (HasFullRangeImm id)) "!HWIntrinsicInfo::HasFullRangeImm(id)") (fun _ =>
      Done 31)
  | NI_AVX2_GatherVector128
  | NI_AVX2_GatherVector256
  | NI_AVX2_GatherMaskVector128
  | NI_AVX2_GatherMaskVector256 =>
      Done 8
  | _ =>
      bindC (assertC (HasFullRangeImm id) "HWIntrinsicInfo::HasFullRangeImm(id)") (fun _ =>
      Done 255)
  end).

Definition isAVX2GatherIntrinsic (id : NamedIntrinsic) : bool :=
  match id with
  | NI_AVX2_GatherVector128
  | NI_AVX2_GatherVector256
  | NI_AVX2_GatherMaskVector128
  | NI_AVX2_GatherMaskVector256 => true
  | _ => false
  end.

(** The enumeration is closed, so the [default: unreached()] of the source
    has no counterpart here. *)
Definition lookupFloatComparisonModeForSwappedArgs
  (comparison : FloatComparisonMode.t) : FloatComparisonMode.t :=
  match comparison with
  | FloatComparisonMode.OrderedEqualNonSignaling => FloatComparisonMode.OrderedEqualNonSignaling
  | FloatComparisonMode.UnorderedNonSignaling => FloatComparisonMode.UnorderedNonSignaling
  | FloatComparisonMode.UnorderedNotEqualNonSignaling => FloatComparisonMode.UnorderedNotEqualNonSignaling
  | FloatComparisonMode.OrderedNonSignaling => FloatComparisonMode.OrderedNonSignaling
  | FloatComparisonMode.UnorderedEqualNonSignaling => FloatComparisonMode.UnorderedEqualNonSignaling
  | FloatComparisonMode.OrderedFalseNonSignaling => FloatComparisonMode.OrderedFalseNonSignaling
  | FloatComparisonMode.OrderedNotEqualNonSignaling => FloatComparisonMode.OrderedNotEqualNonSignaling
  | FloatComparisonMode.UnorderedTrueNonSignaling => FloatComparisonMode.UnorderedTrueNonSignaling
  | FloatComparisonMode.OrderedEqualSignaling => FloatComparisonMode.OrderedEqualSignaling
  | FloatComparisonMode.UnorderedSignaling => FloatComparisonMode.UnorderedSignaling
  | FloatComparisonMode.UnorderedNotEqualSignaling => FloatComparisonMode.UnorderedNotEqualSignaling
  | FloatComparisonMode.OrderedSignaling => FloatComparisonMode.OrderedSignaling
  | FloatComparisonMode.UnorderedEqualSignaling => FloatComparisonMode.UnorderedEqualSignaling
  | FloatComparisonMode.OrderedFalseSignaling => FloatComparisonMode.OrderedFalseSignaling
  | FloatComparisonMode.OrderedNotEqualSignaling => FloatComparisonMode.OrderedNotEqualSignaling
  | FloatComparisonMode.UnorderedTrueSignaling => FloatComparisonMode.UnorderedTrueSignaling
  | FloatComparisonMode.OrderedLessThanSignaling => FloatComparisonMode.OrderedGreaterThanSignaling
  | FloatComparisonMode.OrderedLessThanOrEqualSignaling => FloatComparisonMode.OrderedGreaterThanOrEqualSignaling
  | FloatComparisonMode.UnorderedNotLessThanSignaling => FloatComparisonMode.UnorderedNotGreaterThanSignaling
  | FloatComparisonMode.UnorderedNotLessThanOrEqualSignaling => FloatComparisonMode.UnorderedNotGreaterThanOrEqualSignaling
  | FloatComparisonMode.UnorderedNotGreaterThanOrEqualSignaling => FloatComparisonMode.UnorderedNotLessThanOrEqualSignaling
  | FloatComparisonMode.UnorderedNotGreaterThanSignaling => FloatComparisonMode.UnorderedNotLessThanSignaling
  | FloatComparisonMode.OrderedGreaterThanOrEqualSignaling => FloatComparisonMode.OrderedLessThanOrEqualSignaling
  | FloatComparisonMode.OrderedGreaterThanSignaling => FloatComparisonMode.OrderedLessThanSignaling
  | FloatComparisonMode.OrderedLessThanNonSignaling => FloatComparisonMode.OrderedGreaterThanNonSignaling
  | FloatComparisonMode.OrderedLessThanOrEqualNonSignaling => FloatComparisonMode.OrderedGreaterThanOrEqualNonSignaling
  | FloatComparisonMode.UnorderedNotLessThanNonSignaling => FloatComparisonMode.UnorderedNotGreaterThanNonSignaling
  | FloatComparisonMode.UnorderedNotLessThanOrEqualNonSignaling => FloatComparisonMode.UnorderedNotGreaterThanOrEqualNonSignaling
  | FloatComparisonMode.UnorderedNotGreaterThanOrEqualNonSignaling => FloatComparisonMode.UnorderedNotLessThanOrEqualNonSignaling
  | FloatComparisonMode.UnorderedNotGreaterThanNonSignaling => FloatComparisonMode.UnorderedNotLessThanNonSignaling
  | FloatComparisonMode.OrderedGreaterThanOrEqualNonSignaling => FloatComparisonMode.OrderedLessThanOrEqualNonSignaling
  | FloatComparisonMode.OrderedGreaterThanNonSignaling => FloatComparisonMode.OrderedLessThanNonSignaling
  end.

Definition isFullyImplementedIsa (isa : CORINFO_InstructionSet) : bool :=
  match isa with
  | InstructionSet_AES
  | InstructionSet_AES_X64
  | InstructionSet_AVX
  | InstructionSet_AVX_X64
  | InstructionSet_AVX2
  | InstructionSet_AVX2_X64
  | InstructionSet_AVX512F
  | InstructionSet_AVX512F_VL
  | InstructionSet_AVX512F_VL_X64
  | InstructionSet_AVX512F_X64
  | InstructionSet_AVX512BW
  | InstructionSet_AVX512BW_VL
  | InstructionSet_AVX512BW_VL_X64
  | InstructionSet_AVX512BW_X64
  | InstructionSet_AVX512CD
  | InstructionSet_AVX512CD_VL
  | InstructionSet_AVX512CD_VL_X64
  | InstructionSet_AVX512CD_X64
  | InstructionSet_AVX512DQ
  | InstructionSet_AVX512DQ_VL
  | InstructionSet_AVX512DQ_VL_X64
  | InstructionSet_AVX512DQ_X64
  | InstructionSet_AVXVNNI
  | InstructionSet_AVXVNNI_X64
  | InstructionSet_BMI1
  | InstructionSet_BMI1_X64
  | InstructionSet_BMI2
  | InstructionSet_BMI2_X64
  | InstructionSet_FMA
  | InstructionSet_FMA_X64
  | InstructionSet_LZCNT
  | InstructionSet_LZCNT_X64
  | InstructionSet_PCLMULQDQ
  | InstructionSet_PCLMULQDQ_X64
  | InstructionSet_POPCNT
  | InstructionSet_POPCNT_X64
  | InstructionSet_SSE
  | InstructionSet_SSE_X64
  | InstructionSet_SSE2
  | InstructionSet_SSE2_X64
  | InstructionSet_SSE3
  | InstructionSet_SSE3_X64
  | InstructionSet_SSSE3
  | InstructionSet_SSSE3_X64
  | InstructionSet_SSE41
  | InstructionSet_SSE41_X64
  | InstructionSet_SSE42
  | InstructionSet_SSE42_X64
  | InstructionSet_Vector128
  | InstructionSet_Vector256
  | InstructionSet_Vector512
  | InstructionSet_X86Base
  | InstructionSet_X86Base_X64
  | InstructionSet_X86Serialize
  | InstructionSet_X86Serialize_X64
      => true
  | _ => false
  end.

(** [InstructionSet_POPCNT] and [InstructionSet_POPCNT_X64] are left out on
    purpose: Popcnt.IsSupported implies Sse42.IsSupported. *)
Definition isScalarIsa (isa : CORINFO_InstructionSet) : bool :=
  match isa with
  | InstructionSet_BMI1
  | InstructionSet_BMI1_X64
  | InstructionSet_BMI2
  | InstructionSet_BMI2_X64
  | InstructionSet_LZCNT
  | InstructionSet_LZCNT_X64
  | InstructionSet_X86Base
  | InstructionSet_X86Base_X64 => true
  | _ => false
  end.

End Metadata.

(** ** Type queries

    [vartype.h], [simd.h] and the EE interface are not part of this file;
    the queries below follow their names and the element kinds of the
    data model. *)

(** Modelled from the spec: floating point elements are the 32- and 64-bit
    kinds; [varTypeIsFloating] is declared in vartype.h. *)
Definition varTypeIsFloating (ty : var_types) : bool :=
  match ty with TYP_FLOAT | TYP_DOUBLE => true | _ => false end.

(** Modelled from the spec: integer elements are the signed and unsigned
    kinds of 1, 2, 4 and 8 bytes; [varTypeIsIntegral] is declared in
    vartype.h. *)
Definition varTypeIsIntegral (ty : var_types) : bool :=
  match ty with
  | TYP_BYTE | TYP_UBYTE | TYP_SHORT | TYP_USHORT
  | TYP_INT | TYP_UINT | TYP_LONG | TYP_ULONG => true
  | _ => false
  end.

(** Modelled from the spec: the arithmetic primitive kinds are the integer
    and the floating ones; [varTypeIsArithmetic] is declared in vartype.h. *)
Definition varTypeIsArithmetic (ty : var_types) : bool :=
  varTypeIsIntegral ty || varTypeIsFloating ty.

(** Modelled from the spec: the unsigned integer kinds; [varTypeIsUnsigned]
    is declared in vartype.h. *)
Definition varTypeIsUnsigned (ty : var_types) : bool :=
  match ty with TYP_UBYTE | TYP_USHORT | TYP_UINT | TYP_ULONG => true | _ => false end.

(** Modelled from the spec: the byte-sized integer kinds; [varTypeIsByte] is
    declared in vartype.h. *)
Definition varTypeIsByte (ty : var_types) : bool :=
  match ty with TYP_BYTE | TYP_UBYTE => true | _ => false end.

(** Modelled from the spec: the 64-bit integer kinds; [varTypeIsLong] is
    declared in vartype.h. *)
Definition varTypeIsLong (ty : var_types) : bool :=
  match ty with TYP_LONG | TYP_ULONG => true | _ => false end.

(** Modelled from the spec: the integer kinds smaller than 4 bytes;
    [varTypeIsSmallInt] is declared in vartype.h. *)
Definition varTypeIsSmallInt (ty : var_types) : bool :=
  match ty with TYP_BYTE | TYP_UBYTE | TYP_SHORT | TYP_USHORT => true | _ => false end.

(** Modelled from the spec: element sizes are 1, 2, 4 and 8 bytes and the
    vector shapes are as wide as their names say; [genTypeSize] is declared
    in vartype.h.  The types that are neither are given size 0. *)
Definition genTypeSize (ty : var_types) : Z :=
  match ty with
  | TYP_BYTE | TYP_UBYTE => 1
  | TYP_SHORT | TYP_USHORT => 2
  | TYP_INT | TYP_UINT | TYP_FLOAT => 4
  | TYP_LONG | TYP_ULONG | TYP_DOUBLE => 8
  | TYP_SIMD8 => 8
  | TYP_SIMD12 => 12
  | TYP_SIMD16 => 16
  | TYP_SIMD32 => 32
  | TYP_SIMD64 => 64
  | _ => 0
  end.

(** Modelled from the spec: a vector shape is named by its width in bytes;
    [getSIMDTypeForSize] is declared in compiler.h and stops the compilation
    on any other size. *)
Definition getSIMDTypeForSize (size : Z) : Checked var_types :=
  if size =? 8 then Done TYP_SIMD8
  else if size =? 12 then Done TYP_SIMD12
  else if size =? 16 then Done TYP_SIMD16
  else if size =? 32 then Done TYP_SIMD32
  else if size =? 64 then Done TYP_SIMD64
  else Fatal "Unexpected size for SIMD type".

(** Modelled from the spec: lane count = width / element-size;
    [getSIMDVectorLength] is declared in compiler.h.  For a type of size 0
    the source divides by zero; here the quotient is 0. *)
Definition getSIMDVectorLength (simdSize : Z) (baseType : var_types) : Z :=
  simdSize / genTypeSize baseType.

(** Modelled from the spec: the narrow and the middle vector widths, 16
    and 32 bytes; the two constants are declared in the target headers. *)
Definition XMM_REGSIZE_BYTES : Z := 16.
Definition YMM_REGSIZE_BYTES : Z := 32.

(** Modelled from the spec: a vector shape is a width in bytes and an
    element type; this is what the EE reports for the class handle of a
    SIMD type, through [getBaseJitTypeAndSizeOfSIMDType]. *)
Record CORINFO_CLASS : Type := {
  clsBaseJitType : CorInfoType;
  clsSize : Z
}.

(** Modelled from the spec: the call signature description, with its
    argument count and per-argument type and class; [CORINFO_SIG_INFO] is
    declared in the EE interface.  [sigArgs] gives, for each parameter in
    order, its stripped [CorInfoType] and its class. *)
Record CORINFO_SIG_INFO : Type := {
  numArgs : Z;
  sigRetType : var_types;
  retTypeClass : CORINFO_CLASS;
  retTypeSigClass : CORINFO_CLASS;
  sigArgs : list (CorInfoType * CORINFO_CLASS)
}.

(** Modelled from the spec: the width of a vector shape;
    [getSIMDTypeSizeInBytes] is declared in compiler.h. *)
Definition getSIMDTypeSizeInBytes (cls : CORINFO_CLASS) : Z := clsSize cls.

(** Modelled from the spec: the element type of a vector shape;
    [getBaseJitTypeOfSIMDType] is declared in compiler.h. *)
Definition getBaseJitTypeOfSIMDType (cls : CORINFO_CLASS) : CorInfoType := clsBaseJitType cls.

Definition undef_class : CORINFO_CLASS :=
  {| clsBaseJitType := CORINFO_TYPE_UNDEF; clsSize := 0 |}.

(** ** The importer's state

    [esStack] is [verCurrentState.esStack] with the top of the stack first,
    so [esStackDepth] is its length.  A spill appends a statement storing a
    tree to a fresh temporary: [impStmts] lists them, newest first, and
    [lvaCount] is the next temporary.  [lvaSIMDRelated] collects the locals
    marked by [SetOpLclRelatedToSIMDIntrinsic]. *)
Record ImpState : Type := {
  esStack : list GenTree;
  impStmts : list (nat * GenTree);
  lvaCount : nat;
  lvaSIMDRelated : list nat
}.

Definition esStackDepth (s : ImpState) : Z := Z.of_nat (List.length (esStack s)).

Definition Imp (A : Type) : Type := ImpState -> Checked (A * ImpState).

Definition ret {A : Type} (a : A) : Imp A := fun s => Done (a, s).

Definition bind {A B : Type} (m : Imp A) (k : A -> Imp B) : Imp B :=
  fun s =>
    match m s with
    | Done (a, s') => k a s'
    | Fatal msg => Fatal msg
    end.

Definition fatal {A : Type} (msg : string) : Imp A := fun _ => Fatal msg.

Definition liftC {A : Type} (c : Checked A) : Imp A :=
  fun s =>
    match c with
    | Done a => Done (a, s)
    | Fatal msg => Fatal msg
    end.

Declare Scope imp_scope.
Delimit Scope imp_scope with imp.
Notation "x <- m ;; k" := (bind m (fun x => k))
  (at level 61, m at next level, right associativity) : imp_scope.
Notation "m ;; k" := (bind m (fun _ => k))
  (at level 61, right associativity) : imp_scope.
Notation "' pat <- m ;; k" := (bind m (fun x => match x with pat => k end))
  (at level 61, pat pattern, m at next level, right associativity) : imp_scope.

Local Open Scope imp_scope.

Definition unreached {A : Type} : Imp A := fatal "unreached".

(** *** The expression stack

    [impPopStack], [impStackTop], [impSIMDPopStack], [impSpillSideEffect],
    [impCloneExpr] and the rest of the stack collaborator live in
    importer.cpp. *)

(** Modelled from the spec: [pop()] of the stack collaborator, impPopStack of
    importer.cpp.  Popping the empty stack is fatal. *)
Definition impPopStack : Imp GenTree :=
  fun s =>
    match esStack s with
    | [] => Fatal "stack underflow"
    | t :: rest =>
        Done (t, {| esStack := rest; impStmts := impStmts s;
                     lvaCount := lvaCount s; lvaSIMDRelated := lvaSIMDRelated s |})
    end.

(** Modelled from the spec: [peek(depthFromTop)], impStackTop of
    importer.cpp.  Peeking below the bottom is fatal. *)
Definition impStackTop (n : Z) : Imp GenTree :=
  fun s =>
    if n <? 0 then Fatal "stack underflow"
    else match nth_error (esStack s) (Z.to_nat n) with
         | Some t => Done (t, s)
         | None => Fatal "stack underflow"
         end.

(** Modelled from the spec: [popTypedVector(shape)], impSIMDPopStack of
    importer.cpp: the top of the stack, taken as a vector of the given
    shape. *)
Definition impSIMDPopStack (type : var_types) : Imp GenTree := impPopStack.

(** Modelled from the spec: getArgForHWIntrinsic of hwintrinsic.cpp pops the
    next operand, as a vector when the parameter is one. *)
Definition getArgForHWIntrinsic (argType : CorInfoType) (argClass : CORINFO_CLASS)
  : Imp GenTree := impPopStack.

Fixpoint list_set_tree (l : list GenTree) (i : nat) (x : GenTree) : list GenTree :=
  match l, i with
  | [], _ => []
  | _ :: t, O => x :: t
  | h :: t, S i' => h :: list_set_tree t i' x
  end.

Section Importer.

Context {jit : Jit}.

Local Open Scope string_scope.
Local Open Scope Z_scope.

Definition assert_ (cond : bool) (msg : string) : Imp unit :=
  liftC (assertC cond msg).

(** [assert(e)] where evaluating [e] can itself stop the compilation: [e]
    is not evaluated at all outside DEBUG builds. *)
Definition assertM (cond : Checked bool) (msg : string) : Imp unit :=
  if DEBUG then
    b <- liftC cond;;
    if b then ret tt else fatal msg
  else ret tt.

(** Modelled from the spec: [forceSideEffectsToTemporary(depthFromTop)],
    impSpillSideEffect of importer.cpp, with [spillGlobEffects] set.  [i] is
    the level counted from the bottom of the stack, an unsigned number; when
    the tree there has side effects it is stored to a fresh temporary and
    the stack entry becomes a use of that temporary. *)
Definition impSpillSideEffect (spillGlobEffects : bool) (i : Z) : Imp unit :=
  fun s =>
    if (i <? 0) || (esStackDepth s <=? i) then Fatal "stack underflow"
    else
      let fromTop := Z.to_nat (esStackDepth s - 1 - i) in
      match nth_error (esStack s) fromTop with
      | None => Fatal "stack underflow"
      | Some tree =>
          if gtHasSideEffects tree then
            let tmp := lvaCount s in
            Done (tt, {| esStack := list_set_tree (esStack s) fromTop
                                      (GT_LCL_VAR (TypeGet tree) tmp);
                         impStmts := (tmp, tree) :: impStmts s;
                         lvaCount := S tmp;
                         lvaSIMDRelated := lvaSIMDRelated s |})
          else Done (tt, s)
      end.

Definition getStackDepth : Imp Z := fun s => Done (esStackDepth s, s).

(** Modelled from the spec: [duplicateExpression(expr) -> (original, copy)],
    impCloneExpr of importer.cpp: a tree without side effects is used twice,
    any other is stored to a fresh temporary that is used twice. *)
Definition impCloneExpr (tree : GenTree) : Imp (GenTree * GenTree) :=
  fun s =>
    if gtHasSideEffects tree then
      let tmp := lvaCount s in
      let use := GT_LCL_VAR (TypeGet tree) tmp in
      Done ((use, use),
            {| esStack := esStack s;
               impStmts := (tmp, tree) :: impStmts s;
               lvaCount := S tmp;
               lvaSIMDRelated := lvaSIMDRelated s |})
    else Done ((tree, tree), s).

(** Modelled from the spec: impAssignMultiRegTypeToVar of importer.cpp stores
    a multi-register value to a fresh temporary and returns its use. *)
Definition impAssignMultiRegTypeToVar (op : GenTree) (hClass : CORINFO_CLASS) : Imp GenTree :=
  fun s =>
    let tmp := lvaCount s in
    Done (GT_LCL_VAR (TypeGet op) tmp,
          {| esStack := esStack s;
             impStmts := (tmp, op) :: impStmts s;
             lvaCount := S tmp;
             lvaSIMDRelated := lvaSIMDRelated s |}).

(** Modelled from the spec: SetOpLclRelatedToSIMDIntrinsic of simd.cpp marks
    the local an operand reads as used by a SIMD intrinsic. *)
Definition SetOpLclRelatedToSIMDIntrinsic (op : GenTree) : Imp unit :=
  fun s =>
    match op with
    | GT_LCL_VAR _ lclNum =>
        Done (tt, {| esStack := esStack s;
                     impStmts := impStmts s;
                     lvaCount := lvaCount s;
                     lvaSIMDRelated := lclNum :: lvaSIMDRelated s |})
    | _ => Done (tt, s)
    end.

(** Modelled from the spec: the element kind a base type denotes;
    [JitType2PreciseVarType] is declared in the EE interface headers.  The
    native integers are as wide as a pointer of the target. *)
Definition JitType2PreciseVarType (t : CorInfoType) : var_types :=
  match t with
  | CORINFO_TYPE_UNDEF => TYP_UNDEF
  | CORINFO_TYPE_BYTE => TYP_BYTE
  | CORINFO_TYPE_UBYTE => TYP_UBYTE
  | CORINFO_TYPE_SHORT => TYP_SHORT
  | CORINFO_TYPE_USHORT => TYP_USHORT
  | CORINFO_TYPE_INT => TYP_INT
  | CORINFO_TYPE_UINT => TYP_UINT
  | CORINFO_TYPE_LONG => TYP_LONG
  | CORINFO_TYPE_ULONG => TYP_ULONG
  | CORINFO_TYPE_NATIVEINT => if TARGET_X86 then TYP_INT else TYP_LONG
  | CORINFO_TYPE_NATIVEUINT => if TARGET_X86 then TYP_UINT else TYP_ULONG
  | CORINFO_TYPE_FLOAT => TYP_FLOAT
  | CORINFO_TYPE_DOUBLE => TYP_DOUBLE
  end.

(** *** Node constructors *)

(** Modelled from the spec: an integer constant of the given type;
    [gtNewIconNode] is declared in compiler.h. *)
Definition gtNewIconNode (value : Z) (type : var_types) : GenTree :=
  GT_CNS_INT type value.

(** Modelled from the spec: a fresh vector constant has every byte zero;
    [gtNewVconNode] is declared in gentree.h. *)
Definition gtNewVconNode (type : var_types) : GenTree :=
  GT_CNS_VEC type simd_zero.

(** Modelled from the spec: the node of a hardware intrinsic over a vector
    shape, with its operands in order; [gtNewSimdHWIntrinsicNode] is
    declared in compiler.h and builds the [GT_HWINTRINSIC] node this file
    also builds directly for the masked gathers. *)
Definition gtNewSimdHWIntrinsicNode (type : var_types) (ops : list GenTree)
  (hwIntrinsicID : NamedIntrinsic) (simdBaseJitType : CorInfoType) (simdSize : Z) : GenTree :=
  GT_HWINTRINSIC type ops hwIntrinsicID simdBaseJitType simdSize CORINFO_TYPE_UNDEF.

(** Modelled from the spec: the node of a scalar hardware intrinsic, which
    has no vector shape; [gtNewScalarHWIntrinsicNode] is declared in
    compiler.h. *)
Definition gtNewScalarHWIntrinsicNode (type : var_types) (ops : list GenTree)
  (hwIntrinsicID : NamedIntrinsic) : GenTree :=
  GT_HWINTRINSIC type ops hwIntrinsicID CORINFO_TYPE_UNDEF 0 CORINFO_TYPE_UNDEF.

(** Modelled from the spec: the setters of the two base types a hardware
    intrinsic node carries; they are methods of [GenTreeHWIntrinsic]. *)
Definition SetSimdBaseJitType (t : GenTree) (simdBaseJitType : CorInfoType) : GenTree :=
  match t with
  | GT_HWINTRINSIC ty ops id _ sz aux => GT_HWINTRINSIC ty ops id simdBaseJitType sz aux
  | _ => t
  end.

Definition SetAuxiliaryJitType (t : GenTree) (auxiliaryJitType : CorInfoType) : GenTree :=
  match t with
  | GT_HWINTRINSIC ty ops id bjt sz _ => GT_HWINTRINSIC ty ops id bjt sz auxiliaryJitType
  | _ => t
  end.

(** Modelled from the spec: the "build node for operation X over shape S"
    constructors, of which the engine is a pure client.  [simdNode] is the
    call [name(type, ops..., simdBaseJitType, simdSize)] and [simdOperNode]
    the call [name(oper, type, ops..., simdBaseJitType, simdSize)]; the
    definitions after them give each constructor used in the file. *)
Definition simdNode (name : string) (type : var_types) (ops : list GenTree)
  (simdBaseJitType : CorInfoType) (simdSize : Z) : GenTree :=
  GT_HELPER name type (map (@A_tree GenTree) ops ++ [A_jitType simdBaseJitType; A_size simdSize]).

Definition simdOperNode (name : string) (oper : genTreeOps) (type : var_types)
  (ops : list GenTree) (simdBaseJitType : CorInfoType) (simdSize : Z) : GenTree :=
  GT_HELPER name type
    (A_oper oper :: map (@A_tree GenTree) ops ++ [A_jitType simdBaseJitType; A_size simdSize]).

(** Modelled from the spec: the other constructors the engine is a client
    of, each the recorded call of a function declared in compiler.h: a plain
    operator node, the all-zero, all-ones and all-one-lanes constants, and
    the address of the contiguous memory a [Create] reads. *)
Definition gtNewOperNode (oper : genTreeOps) (type : var_types) (ops : list GenTree) : GenTree :=
  GT_HELPER "gtNewOperNode" type (A_oper oper :: map (@A_tree GenTree) ops).

Definition gtNewZeroConNode (type : var_types) : GenTree :=
  GT_HELPER "gtNewZeroConNode" type [].

Definition gtNewAllBitsSetConNode (type : var_types) : GenTree :=
  GT_HELPER "gtNewAllBitsSetConNode" type [].

Definition gtNewOneConNode (type simdBaseType : var_types) : GenTree :=
  GT_HELPER "gtNewOneConNode" type [A_type simdBaseType].

Definition CreateAddressNodeForSimdHWIntrinsicCreate (tree : GenTree)
  (simdBaseType : var_types) (simdSize : Z) : GenTree :=
  GT_HELPER "CreateAddressNodeForSimdHWIntrinsicCreate" TYP_BYREF
    [A_tree tree; A_type simdBaseType; A_size simdSize].

(** Modelled from the spec: one constructor per operation over a shape,
    each named as in compiler.h. *)
Definition gtNewSimdAbsNode := simdNode "gtNewSimdAbsNode".
Definition gtNewSimdBinOpNode := simdOperNode "gtNewSimdBinOpNode".
Definition gtNewSimdCeilNode := simdNode "gtNewSimdCeilNode".
Definition gtNewSimdCmpOpNode := simdOperNode "gtNewSimdCmpOpNode".
Definition gtNewSimdCmpOpAllNode := simdOperNode "gtNewSimdCmpOpAllNode".
Definition gtNewSimdCmpOpAnyNode := simdOperNode "gtNewSimdCmpOpAnyNode".
Definition gtNewSimdCndSelNode := simdNode "gtNewSimdCndSelNode".
Definition gtNewSimdCreateBroadcastNode := simdNode "gtNewSimdCreateBroadcastNode".
Definition gtNewSimdCreateScalarNode := simdNode "gtNewSimdCreateScalarNode".
Definition gtNewSimdCreateScalarUnsafeNode := simdNode "gtNewSimdCreateScalarUnsafeNode".
Definition gtNewSimdDotProdNode := simdNode "gtNewSimdDotProdNode".
Definition gtNewSimdFloorNode := simdNode "gtNewSimdFloorNode".
Definition gtNewSimdGetElementNode := simdNode "gtNewSimdGetElementNode".
Definition gtNewSimdGetLowerNode := simdNode "gtNewSimdGetLowerNode".
Definition gtNewSimdGetUpperNode := simdNode "gtNewSimdGetUpperNode".
Definition gtNewSimdLoadNode := simdNode "gtNewSimdLoadNode".
Definition gtNewSimdLoadAlignedNode := simdNode "gtNewSimdLoadAlignedNode".
Definition gtNewSimdLoadNonTemporalNode := simdNode "gtNewSimdLoadNonTemporalNode".
Definition gtNewSimdMaxNode := simdNode "gtNewSimdMaxNode".
Definition gtNewSimdMinNode := simdNode "gtNewSimdMinNode".
Definition gtNewSimdNarrowNode := simdNode "gtNewSimdNarrowNode".
Definition gtNewSimdShuffleNode := simdNode "gtNewSimdShuffleNode".
Definition gtNewSimdSqrtNode := simdNode "gtNewSimdSqrtNode".
Definition gtNewSimdStoreNode := simdNode "gtNewSimdStoreNode" TYP_VOID.
Definition gtNewSimdStoreAlignedNode := simdNode "gtNewSimdStoreAlignedNode" TYP_VOID.
Definition gtNewSimdStoreNonTemporalNode := simdNode "gtNewSimdStoreNonTemporalNode" TYP_VOID.
Definition gtNewSimdSumNode := simdNode "gtNewSimdSumNode".
Definition gtNewSimdUnOpNode := simdOperNode "gtNewSimdUnOpNode".
Definition gtNewSimdWidenLowerNode := simdNode "gtNewSimdWidenLowerNode".
Definition gtNewSimdWidenUpperNode := simdNode "gtNewSimdWidenUpperNode".
Definition gtNewSimdWithElementNode := simdNode "gtNewSimdWithElementNode".
Definition gtNewSimdWithLowerNode := simdNode "gtNewSimdWithLowerNode".
Definition gtNewSimdWithUpperNode := simdNode "gtNewSimdWithUpperNode".

(** [op->OperIs(GT_CAST) && op->gtGetOp1()->TypeIs(TYP_BYREF)]: if what we
    have is a BYREF, that is what we really want, so throw away the cast. *)
Definition throwAwayByrefCast (op : GenTree) : GenTree :=
  match op with
  | GT_CAST _ inner => if TypeIs inner TYP_BYREF then inner else op
  | _ => op
  end.

End Importer.

(** ** Non-constant immediate fallback *)

Section Fallback.

Context {jit : Jit}.

Local Open Scope string_scope.
Local Open Scope Z_scope.

Definition impNonConstFallback (intrinsic : NamedIntrinsic) (simdType : var_types)
  (simdBaseJitType : CorInfoType) : Imp (option GenTree) :=
  assert_ (NoJmpTableImm intrinsic) "HWIntrinsicInfo::NoJmpTableImm(intrinsic)";;
  match intrinsic with
  | NI_SSE2_ShiftLeftLogical
  | NI_SSE2_ShiftRightArithmetic
  | NI_SSE2_ShiftRightLogical
  | NI_AVX2_ShiftLeftLogical
  | NI_AVX2_ShiftRightArithmetic
  | NI_AVX2_ShiftRightLogical
  | NI_AVX512F_ShiftLeftLogical
  | NI_AVX512F_ShiftRightArithmetic
  | NI_AVX512F_ShiftRightLogical
  | NI_AVX512F_VL_ShiftRightArithmetic
  | NI_AVX512BW_ShiftLeftLogical
  | NI_AVX512BW_ShiftRightArithmetic
  | NI_AVX512BW_ShiftRightLogical =>
      depth <- getStackDepth;;
      impSpillSideEffect true (depth - 2);;
      op2 <- impPopStack;;
      op1 <- impSIMDPopStack simdType;;
      let tmpOp :=
        gtNewSimdHWIntrinsicNode TYP_SIMD16 [op2] NI_SSE2_ConvertScalarToVector128Int32
                                 CORINFO_TYPE_INT 16 in
      ret (Some (gtNewSimdHWIntrinsicNode simdType [op1; tmpOp] intrinsic simdBaseJitType
                                          (genTypeSize simdType)))
  | _ => ret None
  end.

End Fallback.

(** ** The special-import dispatch

    [impSpecialIntrinsic] is one [switch] over the intrinsic.  Each group of
    [case] labels is a definition below, named after its first label and
    written over the parameters and locals of the function, which are the
    variables of the section; [impSpecialIntrinsic_body] is the [switch]
    itself.  A case that leaves [retNode] null and breaks returns [None]. *)

Section Cases.

Context {jit : Jit}.

Local Open Scope string_scope.
Local Open Scope Z_scope.

(** the function itself, for the cases that re-dispatch *)
Variable impSpecialIntrinsic_self :
  NamedIntrinsic -> CORINFO_SIG_INFO -> CorInfoType -> var_types -> Z -> Imp (option GenTree).

Variable intrinsic : NamedIntrinsic.
Variable sig : CORINFO_SIG_INFO.
Variable simdBaseJitType : CorInfoType.
Variable retType : var_types.
Variable simdSize : Z.
Variable simdBaseType : var_types.

Definition sigArg (n : nat) : CorInfoType * CORINFO_CLASS :=
  nth n (sigArgs sig) (CORINFO_TYPE_UNDEF, undef_class).

Definition popArg (n : nat) : Imp GenTree :=
  getArgForHWIntrinsic (fst (sigArg n)) (snd (sigArg n)).

(** [op1 = impSIMDPopStack(type); retNode = build(op1);] *)
Definition unary (type : var_types) (build : GenTree -> GenTree) : Imp (option GenTree) :=
  op1 <- impSIMDPopStack type;;
  ret (Some (build op1)).

(** [op2 = impSIMDPopStack(type); op1 = impSIMDPopStack(type);
    retNode = build(op1, op2);] *)
Definition binary (type : var_types) (build : GenTree -> GenTree -> GenTree)
  : Imp (option GenTree) :=
  op2 <- impSIMDPopStack type;;
  op1 <- impSIMDPopStack type;;
  ret (Some (build op1 op2)).

(** [op2 = impPopStack().val; op1 = impSIMDPopStack(type);
    retNode = build(op1, op2);] *)
Definition binaryScalar2 (type : var_types) (build : GenTree -> GenTree -> GenTree)
  : Imp (option GenTree) :=
  op2 <- impPopStack;;
  op1 <- impSIMDPopStack type;;
  ret (Some (build op1 op2)).

(** [(simdSize != 32) || varTypeIsFloating(simdBaseType) ||
    compExactlyDependsOn(InstructionSet_AVX2)] *)
Definition not32_or_floating_or_AVX2 : bool :=
  negb (simdSize =? 32) || varTypeIsFloating simdBaseType
  || compExactlyDependsOn InstructionSet_AVX2.

(** [(simdSize != 32) || compExactlyDependsOn(InstructionSet_AVX2)] *)
Definition not32_or_AVX2 : bool :=
  negb (simdSize =? 32) || compExactlyDependsOn InstructionSet_AVX2.

(** We fold away the cast here, as it only exists to satisfy the type
    system. *)
Definition foldAwayCast : Imp (option GenTree) :=
  retNode <- impSIMDPopStack retType;;
  SetOpLclRelatedToSIMDIntrinsic retNode;;
  assertM (bindC (getSIMDTypeForSize (getSIMDTypeSizeInBytes (retTypeSigClass sig)))
                 (fun ty => Done (var_types_beq (TypeGet retNode) ty)))
          "retNode->gtType == getSIMDTypeForSize(getSIMDTypeSizeInBytes(sig->retTypeSigClass))";;
  ret (Some retNode).

Definition case_Abs : Imp (option GenTree) :=
  assert_ (numArgs sig =? 1) "sig->numArgs == 1";;
  if negb (simdSize =? 32) || varTypeIsFloating simdBaseType
     || varTypeIsUnsigned simdBaseType || compExactlyDependsOn InstructionSet_AVX2
  then unary retType (fun op1 => gtNewSimdAbsNode retType [op1] simdBaseJitType simdSize)
  else ret None.

Definition case_Add : Imp (option GenTree) :=
  assert_ (numArgs sig =? 2) "sig->numArgs == 2";;
  if not32_or_floating_or_AVX2
  then binary retType (fun op1 op2 =>
         gtNewSimdBinOpNode GT_ADD retType [op1; op2] simdBaseJitType simdSize)
  else ret None.

Definition case_AndNot : Imp (option GenTree) :=
  assert_ (numArgs sig =? 2) "sig->numArgs == 2";;
  depth <- getStackDepth;;
  impSpillSideEffect true (depth - 2);;
  binary retType (fun op1 op2 =>
    gtNewSimdBinOpNode GT_AND_NOT retType [op1; op2] simdBaseJitType simdSize).

Definition case_As : Imp (option GenTree) :=
  assert_ (numArgs sig =? 1) "sig->numArgs == 1";;
  foldAwayCast.

Definition case_Vector128_AsVector : Imp (option GenTree) :=
  assert_ (numArgs sig =? 1) "sig->numArgs == 1";;
  if getSIMDVectorRegisterByteLength =? YMM_REGSIZE_BYTES then
    (* Vector<T> is TYP_SIMD32, so we should treat this as a call to
       Vector128.ToVector256 *)
    impSpecialIntrinsic_self NI_Vector128_ToVector256 sig simdBaseJitType retType simdSize
  else
    assert_ (getSIMDVectorRegisterByteLength =? XMM_REGSIZE_BYTES)
            "getSIMDVectorRegisterByteLength() == XMM_REGSIZE_BYTES";;
    foldAwayCast.

Definition case_Vector128_AsVector2 : Imp (option GenTree) :=
  assert_ (numArgs sig =? 1) "sig->numArgs == 1";;
  assert_ ((simdSize =? 16) && var_types_beq simdBaseType TYP_FLOAT)
          "(simdSize == 16) && (simdBaseType == TYP_FLOAT)";;
  assert_ (var_types_beq retType TYP_SIMD8 || var_types_beq retType TYP_SIMD12)
          "(retType == TYP_SIMD8) || (retType == TYP_SIMD12)";;
  unary TYP_SIMD16 (fun op1 =>
    gtNewSimdHWIntrinsicNode retType [op1] intrinsic simdBaseJitType simdSize).

Definition set_f32_zero (t : GenTree) (lanes : list Z) : GenTree :=
  match t with
  | GT_CNS_VEC _ val =>
      GT_CNS_VEC TYP_SIMD16 (fold_left (fun v i => simd_store 4 v i 0) lanes val)
  | _ => t
  end.

Definition case_Vector128_AsVector128 : Imp (option GenTree) :=
  assert_ (numArgs sig =? 1) "sig->numArgs == 1";;
  assert_ (var_types_beq retType TYP_SIMD16) "retType == TYP_SIMD16";;
  assert_ (BaseTypeFromFirstArg intrinsic) "HWIntrinsicInfo::BaseTypeFromFirstArg(intrinsic)";;
  (* getBaseJitTypeAndSizeOfSIMDType(getArgClass(sig, sig->args), &simdSize) *)
  let op1SimdBaseJitType := getBaseJitTypeOfSIMDType (snd (sigArg 0)) in
  let simdSize := getSIMDTypeSizeInBytes (snd (sigArg 0)) in
  assert_ (CorInfoType_beq simdBaseJitType op1SimdBaseJitType)
          "simdBaseJitType == op1SimdBaseJitType";;
  simdType <- liftC (getSIMDTypeForSize simdSize);;
  match simdType with
  | TYP_SIMD8 =>
      assert_ ((simdSize =? 8) && var_types_beq simdBaseType TYP_FLOAT)
              "(simdSize == 8) && (simdBaseType == TYP_FLOAT)";;
      op1 <- impSIMDPopStack TYP_SIMD8;;
      if IsCnsVec op1 then
        ret (Some (set_f32_zero op1 [2; 3]))
      else
        let idx := gtNewIconNode 2 TYP_INT in
        let zero := gtNewZeroConNode TYP_FLOAT in
        let op1 := gtNewSimdWithElementNode retType [op1; idx; zero] simdBaseJitType 16 in
        let idx := gtNewIconNode 3 TYP_INT in
        let zero := gtNewZeroConNode TYP_FLOAT in
        ret (Some (gtNewSimdWithElementNode retType [op1; idx; zero] simdBaseJitType 16))
  | TYP_SIMD12 =>
      assert_ ((simdSize =? 12) && var_types_beq simdBaseType TYP_FLOAT)
              "(simdSize == 12) && (simdBaseType == TYP_FLOAT)";;
      op1 <- impSIMDPopStack TYP_SIMD12;;
      if IsCnsVec op1 then
        ret (Some (set_f32_zero op1 [3]))
      else
        let idx := gtNewIconNode 3 TYP_INT in
        let zero := gtNewZeroConNode TYP_FLOAT in
        ret (Some (gtNewSimdWithElementNode retType [op1; idx; zero] simdBaseJitType 16))
  | TYP_SIMD16 => foldAwayCast
  | TYP_SIMD32 =>
      (* Vector<T> is TYP_SIMD32, so we should treat this as a call to
         Vector256.GetLower *)
      impSpecialIntrinsic_self NI_Vector256_GetLower sig simdBaseJitType retType simdSize
  | _ => unreached
  end.

Definition case_Vector256_AsVector : Imp (option GenTree) :=
  assert_ (numArgs sig =? 1) "sig->numArgs == 1";;
  if getSIMDVectorRegisterByteLength =? YMM_REGSIZE_BYTES then foldAwayCast
  else
    assert_ (getSIMDVectorRegisterByteLength =? XMM_REGSIZE_BYTES)
            "getSIMDVectorRegisterByteLength() == XMM_REGSIZE_BYTES";;
    if compExactlyDependsOn InstructionSet_AVX then
      (* We support Vector256 but Vector<T> is only 16-bytes, so we should
         treat this method as a call to Vector256.GetLower or
         Vector128.ToVector256 *)
      match intrinsic with
      | NI_Vector256_AsVector =>
          impSpecialIntrinsic_self NI_Vector256_GetLower sig simdBaseJitType retType simdSize
      | _ =>
          assert_ (match intrinsic with NI_Vector256_AsVector256 => true | _ => false end)
                  "intrinsic == NI_Vector256_AsVector256";;
          impSpecialIntrinsic_self NI_Vector128_ToVector256 sig simdBaseJitType retType 16
      end
    else ret None.

Definition case_Vector512_AsVector : Imp (option GenTree) :=
  assert_ (numArgs sig =? 1) "sig->numArgs == 1";;
  if getSIMDVectorRegisterByteLength =? YMM_REGSIZE_BYTES then
    assert_ IsBaselineVector512IsaSupported "IsBaselineVector512IsaSupported()";;
    (* We support Vector512 but Vector<T> is only 32-bytes, so we should
       treat this method as a call to Vector512.GetLower or
       Vector256.ToVector512 *)
    match intrinsic with
    | NI_Vector512_AsVector =>
        impSpecialIntrinsic_self NI_Vector512_GetLower sig simdBaseJitType retType simdSize
    | _ =>
        assert_ (match intrinsic with NI_Vector512_AsVector512 => true | _ => false end)
                "intrinsic == NI_Vector512_AsVector512";;
        impSpecialIntrinsic_self NI_Vector256_ToVector512 sig simdBaseJitType retType 32
    end
  else
    assert_ (getSIMDVectorRegisterByteLength =? XMM_REGSIZE_BYTES)
            "getSIMDVectorRegisterByteLength() == XMM_REGSIZE_BYTES";;
    if compExactlyDependsOn InstructionSet_AVX512F then
      (* We support Vector512 but Vector<T> is only 16-bytes, so we should
         treat this method as a call to Vector512.GetLower128 or
         Vector128.ToVector512 *)
      match intrinsic with
      | NI_Vector512_AsVector =>
          impSpecialIntrinsic_self NI_Vector512_GetLower128 sig simdBaseJitType retType simdSize
      | _ =>
          assert_ (match intrinsic with NI_Vector512_AsVector512 => true | _ => false end)
                  "intrinsic == NI_Vector512_AsVector512";;
          impSpecialIntrinsic_self NI_Vector128_ToVector512 sig simdBaseJitType retType 16
      end
    else ret None.

Definition case_BitwiseAnd : Imp (option GenTree) :=
  assert_ (numArgs sig =? 2) "sig->numArgs == 2";;
  binary retType (fun op1 op2 =>
    gtNewSimdBinOpNode GT_AND retType [op1; op2] simdBaseJitType simdSize).

Definition case_BitwiseOr : Imp (option GenTree) :=
  assert_ (numArgs sig =? 2) "sig->numArgs == 2";;
  binary retType (fun op1 op2 =>
    gtNewSimdBinOpNode GT_OR retType [op1; op2] simdBaseJitType simdSize).

Definition case_Ceiling : Imp (option GenTree) :=
  assert_ (numArgs sig =? 1) "sig->numArgs == 1";;
  assert_ (varTypeIsFloating simdBaseType) "varTypeIsFloating(simdBaseType)";;
  if negb (simdSize =? 32) && negb (compExactlyDependsOn InstructionSet_SSE41) then
    (* Ceiling is only supported for floating-point types on SSE4.1 or later *)
    ret None
  else unary retType (fun op1 => gtNewSimdCeilNode retType [op1] simdBaseJitType simdSize).

Definition case_ConditionalSelect : Imp (option GenTree) :=
  assert_ (numArgs sig =? 3) "sig->numArgs == 3";;
  op3 <- impSIMDPopStack retType;;
  op2 <- impSIMDPopStack retType;;
  op1 <- impSIMDPopStack retType;;
  ret (Some (gtNewSimdCndSelNode retType [op1; op2; op3] simdBaseJitType simdSize)).

Definition case_ConvertToDouble : Imp (option GenTree) :=
  assert_ (numArgs sig =? 1) "sig->numArgs == 1";;
  (* TODO-XARCH-CQ: These intrinsics should be accelerated *)
  ret None.

Definition case_ConvertToInt32 : Imp (option GenTree) :=
  assert_ (numArgs sig =? 1) "sig->numArgs == 1";;
  assert_ (var_types_beq simdBaseType TYP_FLOAT) "simdBaseType == TYP_FLOAT";;
  let intrinsic := if simdSize =? 32 then NI_AVX_ConvertToVector256Int32WithTruncation
                   else NI_SSE2_ConvertToVector128Int32WithTruncation in
  unary retType (fun op1 =>
    gtNewSimdHWIntrinsicNode retType [op1] intrinsic simdBaseJitType simdSize).

Definition case_ConvertToSingle : Imp (option GenTree) :=
  assert_ (numArgs sig =? 1) "sig->numArgs == 1";;
  if var_types_beq simdBaseType TYP_INT then
    let intrinsic := if simdSize =? 32 then NI_AVX_ConvertToVector256Single
                     else NI_SSE2_ConvertToVector128Single in
    unary retType (fun op1 =>
      gtNewSimdHWIntrinsicNode retType [op1] intrinsic simdBaseJitType simdSize)
  else
    (* TODO-XARCH-CQ: These intrinsics should be accelerated *)
    assert_ (var_types_beq simdBaseType TYP_UINT) "simdBaseType == TYP_UINT";;
    ret None.

(** Modelled from the spec: the value of an integer literal,
    [AsIntConCommon()->IntegralValue()] of gentree.h; on a tree that is no
    integral constant the source reads a field of the wrong node kind. *)
Definition IntegralValue (t : GenTree) : Checked Z :=
  match t with
  | GT_CNS_INT _ v => Done v
  | _ => Fatal "AsIntConCommon"
  end.

(** Modelled from the spec: the value of a floating literal,
    [AsDblCon()->DconValue()] of gentree.h. *)
Definition DconValue (t : GenTree) : Checked Z :=
  match t with
  | GT_CNS_DBL _ v => Done v
  | _ => Fatal "AsDblCon"
  end.

(** Modelled from the spec: the value of an integer literal,
    [AsIntCon()->IconValue()] of gentree.h. *)
Definition IconValue (t : GenTree) : Checked Z :=
  match t with
  | GT_CNS_INT _ v => Done v
  | _ => Fatal "AsIntCon"
  end.

(** Conversion to an unsigned integer of [bits] bits. *)
Definition wrap (bits : Z) (x : Z) : Z := x mod 2 ^ bits.

(** [vecCon->gtSimdVal.uW[i] = x] *)
Definition vecCon_store (w : nat) (vecCon : GenTree) (i x : Z) : GenTree :=
  match vecCon with
  | GT_CNS_VEC ty v => GT_CNS_VEC ty (simd_store w v i x)
  | _ => vecCon
  end.

(** [for (index = 0; index < sig->numArgs; index++)
      if (!pred(impStackTop(index).val)) { isConstant = false; break; }]
    with [n] iterations left. *)
Fixpoint allArgsAre (pred : GenTree -> bool) (n : nat) (index : Z) : Imp bool :=
  match n with
  | O => ret true
  | S n' =>
      arg <- impStackTop index;;
      if negb (pred arg) then ret false
      else allArgsAre pred n' (index + 1)
  end.

(** [for (index = 0; index < sig->numArgs; index++)
      { cnsVal = cast(impPopStack().val);
        vecCon->gtSimdVal.uW[simdLength - 1 - index] = cnsVal; }]
    with [n] iterations left; [cnsVal] is the local declared before the
    loop.  The lane index is computed in [uint32_t]. *)
Fixpoint foldLanes (w : nat) (cast : GenTree -> Checked Z) (simdLength : Z)
  (n : nat) (index : Z) (cnsVal : Z) (vecCon : GenTree) : Imp (Z * GenTree) :=
  match n with
  | O => ret (cnsVal, vecCon)
  | S n' =>
      arg <- impPopStack;;
      v <- liftC (cast arg);;
      let cnsVal := v in
      let vecCon := vecCon_store w vecCon (wrap 32 (simdLength - 1 - index)) cnsVal in
      foldLanes w cast simdLength n' (index + 1) cnsVal vecCon
  end.

(** The loop of the [TYP_DOUBLE] case.  Its body declares a second
    [cnsVal], which hides the one declared before the loop: the popped
    value goes to the inner variable, the lane is written from the inner
    variable, and the outer one is never assigned. *)
Fixpoint foldLanes_double (simdLength : Z) (n : nat) (index : Z)
  (cnsVal : Z) (vecCon : GenTree) : Imp (Z * GenTree) :=
  match n with
  | O => ret (cnsVal, vecCon)
  | S n' =>
      arg <- impPopStack;;
      v <- liftC (DconValue arg);;
      let cnsVal_inner := v in
      let vecCon := vecCon_store 8 vecCon (wrap 32 (simdLength - 1 - index)) cnsVal_inner in
      foldLanes_double simdLength n' (index + 1) cnsVal vecCon
  end.

(** [static_cast<uintN_t>(...->IntegralValue())] *)
Definition castIntegral (bits : Z) (t : GenTree) : Checked Z :=
  bindC (IntegralValue t) (fun v => Done (wrap bits v)).

(** [static_cast<float>(...->DconValue())] *)
Definition castFloat (t : GenTree) : Checked Z :=
  bindC (DconValue t) (fun v => Done (double_to_float v)).

(** [for (int i = sig->numArgs - 1; i >= 0; i--)
      { arg = impPopStack().val; ...; nodeBuilder.AddOperand(i, arg); }]
    with [n] iterations left.  Operand [i] is added after the operands
    above it, so the builder's operands are listed in argument order. *)
Fixpoint popCreateArgs (n : nat) (prevArg : option GenTree) (areArgsContiguous : bool)
  (operands : list GenTree) : Imp (bool * list GenTree) :=
  match n with
  | O => ret (areArgsContiguous, operands)
  | S n' =>
      arg <- impPopStack;;
      let areArgsContiguous' :=
        if areArgsContiguous then
          match prevArg with
          | Some prev =>
              (* Recall that we are popping the args off the stack in
                 reverse order. *)
              areArgumentsContiguous arg prev
          | None => areArgsContiguous
          end
        else areArgsContiguous in
      let prevArg' := if areArgsContiguous then Some arg else prevArg in
      popCreateArgs n' prevArg' areArgsContiguous' (arg :: operands)
  end.

(** [#if defined(TARGET_X86)
      if (varTypeIsLong(simdBaseType) && !impStackTop(0).val->IsIntegralConst())] *)
Definition x86_long_nonconstant : Imp bool :=
  if TARGET_X86 && varTypeIsLong simdBaseType then
    top <- impStackTop 0;;
    ret (negb (IsIntegralConst top))
  else ret false.

Definition case_Create : Imp (option GenTree) :=
  if numArgs sig =? 1 then
    skip <- x86_long_nonconstant;;
    if skip then
      (* TODO-XARCH-CQ: It may be beneficial to emit the movq instruction *)
      ret None
    else
      op1 <- impPopStack;;
      ret (Some (gtNewSimdCreateBroadcastNode retType [op1] simdBaseJitType simdSize))
  else
    let simdLength := getSIMDVectorLength simdSize simdBaseType in
    assert_ (numArgs sig =? simdLength) "sig->numArgs == simdLength";;
    isConstant <-
      (if varTypeIsFloating simdBaseType then
         allArgsAre IsCnsFltOrDbl (Z.to_nat (numArgs sig)) 0
       else
         assert_ (varTypeIsIntegral simdBaseType) "varTypeIsIntegral(simdBaseType)";;
         allArgsAre IsIntegralConst (Z.to_nat (numArgs sig)) 0);;
    if isConstant then
      (* Some of the below code assumes 16/32/64 byte SIMD types *)
      assert_ ((simdSize =? 16) || (simdSize =? 32) || (simdSize =? 64))
              "(simdSize == 16) || (simdSize == 32) || (simdSize == 64)";;
      let vecCon := gtNewVconNode retType in
      let n := Z.to_nat (numArgs sig) in
      match simdBaseType with
      | TYP_BYTE | TYP_UBYTE =>
          r <- foldLanes 1 (castIntegral 8) simdLength n 0 0 vecCon;;
          ret (Some (snd r))
      | TYP_SHORT | TYP_USHORT =>
          r <- foldLanes 2 (castIntegral 16) simdLength n 0 0 vecCon;;
          ret (Some (snd r))
      | TYP_INT | TYP_UINT =>
          r <- foldLanes 4 (castIntegral 32) simdLength n 0 0 vecCon;;
          ret (Some (snd r))
      | TYP_LONG | TYP_ULONG =>
          r <- foldLanes 8 (castIntegral 64) simdLength n 0 0 vecCon;;
          ret (Some (snd r))
      | TYP_FLOAT =>
          r <- foldLanes 4 castFloat simdLength n 0 0 vecCon;;
          ret (Some (snd r))
      | TYP_DOUBLE =>
          r <- foldLanes_double simdLength n 0 0 vecCon;;
          ret (Some (snd r))
      | _ => unreached
      end
    else if TARGET_X86 && varTypeIsLong simdBaseType then
      (* TODO-XARCH-CQ: It may be beneficial to emit the movq instruction *)
      ret None
    else
      (* TODO-CQ: We don't handle contiguous args for anything except
         TYP_FLOAT today *)
      r <- popCreateArgs (Z.to_nat (numArgs sig)) None
                         (var_types_beq simdBaseType TYP_FLOAT) [];;
      if fst r then
        match snd r with
        | op1 :: _ =>
            let op1Address :=
              CreateAddressNodeForSimdHWIntrinsicCreate op1 simdBaseType simdSize in
            ret (Some (gtNewOperNode GT_IND retType [op1Address]))
        | [] => fatal "GetOperand(0)"
        end
      else
        ret (Some (gtNewSimdHWIntrinsicNode retType (snd r) intrinsic simdBaseJitType simdSize)).

Definition case_CreateScalar : Imp (option GenTree) :=
  assert_ (numArgs sig =? 1) "sig->numArgs == 1";;
  skip <- x86_long_nonconstant;;
  if skip then ret None
  else
    op1 <- impPopStack;;
    ret (Some (gtNewSimdCreateScalarNode retType [op1] simdBaseJitType simdSize)).

Definition case_CreateScalarUnsafe : Imp (option GenTree) :=
  assert_ (numArgs sig =? 1) "sig->numArgs == 1";;
  skip <- x86_long_nonconstant;;
  if skip then ret None
  else
    op1 <- impPopStack;;
    ret (Some (gtNewSimdCreateScalarUnsafeNode retType [op1] simdBaseJitType simdSize)).

Definition case_Divide : Imp (option GenTree) :=
  assert_ (numArgs sig =? 2) "sig->numArgs == 2";;
  if negb (varTypeIsFloating simdBaseType) then
    (* We can't trivially handle division for integral types using SIMD *)
    ret None
  else
    op2 <- popArg 1;;
    op1 <- popArg 0;;
    ret (Some (gtNewSimdBinOpNode GT_DIV retType [op1; op2] simdBaseJitType simdSize)).

Definition case_Dot : Imp (option GenTree) :=
  assert_ (numArgs sig =? 2) "sig->numArgs == 2";;
  simdType <- liftC (getSIMDTypeForSize simdSize);;
  if varTypeIsByte simdBaseType || varTypeIsLong simdBaseType then
    (* TODO-XARCH-CQ: We could support dot product for 8-bit and 64-bit
       integers if we support multiplication for the same *)
    ret None
  else if (simdSize =? 32) && negb (varTypeIsFloating simdBaseType)
          && negb (compExactlyDependsOn InstructionSet_AVX2) then
    (* We can't deal with TYP_SIMD32 for integral types if the compiler
       doesn't support AVX2 *)
    ret None
  else if negb (simdSize =? 32)
          && (var_types_beq simdBaseType TYP_INT || var_types_beq simdBaseType TYP_UINT)
          && negb (compExactlyDependsOn InstructionSet_SSE41) then
    ret None
  else
    binary simdType (fun op1 op2 =>
      gtNewSimdDotProdNode retType [op1; op2] simdBaseJitType simdSize).

(** [Equals], [GreaterThan], [GreaterThanOrEqual], [LessThan] and
    [LessThanOrEqual] differ in the operator only. *)
Definition case_CmpOp (oper : genTreeOps) : Imp (option GenTree) :=
  assert_ (numArgs sig =? 2) "sig->numArgs == 2";;
  if not32_or_floating_or_AVX2
  then binary retType (fun op1 op2 =>
         gtNewSimdCmpOpNode oper retType [op1; op2] simdBaseJitType simdSize)
  else ret None.

Definition case_Vector512_EqualsAll : Imp (option GenTree) :=
  assert_ (numArgs sig =? 2) "sig->numArgs == 2";;
  assert_ IsBaselineVector512IsaSupportedDebugOnly "IsBaselineVector512IsaSupportedDebugOnly()";;
  simdType <- liftC (getSIMDTypeForSize simdSize);;
  binary simdType (fun op1 op2 =>
    gtNewSimdCmpOpAllNode GT_EQ retType [op1; op2] simdBaseJitType simdSize).

Definition case_EqualsAll : Imp (option GenTree) :=
  assert_ (numArgs sig =? 2) "sig->numArgs == 2";;
  if not32_or_floating_or_AVX2 then
    simdType <- liftC (getSIMDTypeForSize simdSize);;
    binary simdType (fun op1 op2 =>
      gtNewSimdCmpOpAllNode GT_EQ retType [op1; op2] simdBaseJitType simdSize)
  else ret None.

Definition case_Vector512_EqualsAny : Imp (option GenTree) :=
  assert_ (numArgs sig =? 2) "sig->numArgs == 2";;
  assert_ (simdSize =? 64) "simdSize == 64";;
  assert_ IsBaselineVector512IsaSupportedDebugOnly "IsBaselineVector512IsaSupportedDebugOnly()";;
  simdType <- liftC (getSIMDTypeForSize simdSize);;
  binary simdType (fun op1 op2 =>
    gtNewSimdCmpOpAnyNode GT_EQ retType [op1; op2] simdBaseJitType simdSize).

(** [EqualsAny], [GreaterThanAny], [GreaterThanOrEqualAny], [LessThanAny]
    and [LessThanOrEqualAny] differ in the operator only. *)
Definition case_CmpOpAny (oper : genTreeOps) : Imp (option GenTree) :=
  assert_ (numArgs sig =? 2) "sig->numArgs == 2";;
  if not32_or_AVX2 then
    simdType <- liftC (getSIMDTypeForSize simdSize);;
    binary simdType (fun op1 op2 =>
      gtNewSimdCmpOpAnyNode oper retType [op1; op2] simdBaseJitType simdSize)
  else ret None.

(** [GreaterThanAll], [GreaterThanOrEqualAll], [LessThanAll] and
    [LessThanOrEqualAll] differ in the operator only. *)
Definition case_CmpOpAll (oper : genTreeOps) : Imp (option GenTree) :=
  assert_ (numArgs sig =? 2) "sig->numArgs == 2";;
  if not32_or_AVX2 then
    simdType <- liftC (getSIMDTypeForSize simdSize);;
    binary simdType (fun op1 op2 =>
      gtNewSimdCmpOpAllNode oper retType [op1; op2] simdBaseJitType simdSize)
  else ret None.

Definition case_Vector512_ExtractMostSignificantBits : Imp (option GenTree) :=
  if TARGET_X86 then
    (* TODO-XARCH-CQ: It may be beneficial to decompose this operation *)
    ret None
  else if IsBaselineVector512IsaSupported then
    simdType <- liftC (getSIMDTypeForSize simdSize);;
    unary simdType (fun op1 =>
      gtNewSimdHWIntrinsicNode retType [op1] NI_AVX512F_MoveMaskSpecial simdBaseJitType simdSize)
  else ret None.

(** [memcpy(&dst, &src, n)] on two [simd_t] *)
Definition simd_memcpy (dst src : simd_t) (n : Z) : simd_t :=
  (firstn (Z.to_nat n) src ++ skipn (Z.to_nat n) dst)%list.

Definition vecCon_memcpy (vecCon : GenTree) (src : simd_t) (n : Z) : GenTree :=
  match vecCon with
  | GT_CNS_VEC ty v => GT_CNS_VEC ty (simd_memcpy v src n)
  | _ => vecCon
  end.

Definition case_ExtractMostSignificantBits : Imp (option GenTree) :=
  assert_ (numArgs sig =? 1) "sig->numArgs == 1";;
  if not32_or_floating_or_AVX2 then
    simdType <- liftC (getSIMDTypeForSize simdSize);;
    match simdBaseType with
    | TYP_BYTE | TYP_UBYTE =>
        op1 <- impSIMDPopStack simdType;;
        let moveMaskIntrinsic := if simdSize =? 32 then NI_AVX2_MoveMask else NI_SSE2_MoveMask in
        ret (Some (gtNewSimdHWIntrinsicNode retType [op1] moveMaskIntrinsic
                                            simdBaseJitType simdSize))
    | TYP_SHORT | TYP_USHORT =>
        assert_ ((simdSize =? 16) || (simdSize =? 32) || (simdSize =? 64))
                "(simdSize == 16) || (simdSize == 32) || (simdSize == 64)";;
        let simdBaseJitType :=
          if varTypeIsUnsigned simdBaseType then CORINFO_TYPE_UBYTE else CORINFO_TYPE_BYTE in
        (* We want to tightly pack the most significant byte of each
           short/ushort and then zero the tightly packed least significant
           bytes.  The most significant bit being set means zero the value *)
        let simdVal := simd_store 8 simd_zero 0 0x0F0D0B0907050301 in
        let simdVal := simd_store 8 simdVal 1 0x8080808080808080 in
        let build (simdVal : simd_t) (shuffleIntrinsic moveMaskIntrinsic : NamedIntrinsic) :=
          let op2 := vecCon_memcpy (gtNewVconNode simdType) simdVal simdSize in
          op1 <- impSIMDPopStack simdType;;
          let op1 := gtNewSimdHWIntrinsicNode simdType [op1; op2] shuffleIntrinsic
                                              simdBaseJitType simdSize in
          if simdSize =? 32 then
            (* Since Vector256 is 2x128-bit lanes we need a full width
               permutation so we get the lower 64-bits of each lane next to
               eachother. *)
            let simdOtherJitType :=
              if var_types_beq simdBaseType TYP_UBYTE then CORINFO_TYPE_ULONG
              else CORINFO_TYPE_LONG in
            let op1 := gtNewSimdHWIntrinsicNode simdType [op1; gtNewIconNode 0xD8 TYP_INT]
                                                NI_AVX2_Permute4x64 simdOtherJitType simdSize in
            let simdType := TYP_SIMD16 in
            let op1 := gtNewSimdGetLowerNode simdType [op1] simdBaseJitType simdSize in
            let simdSize := 16 in
            ret (Some (gtNewSimdHWIntrinsicNode retType [op1] moveMaskIntrinsic
                                                simdBaseJitType simdSize))
          else
            ret (Some (gtNewSimdHWIntrinsicNode retType [op1] moveMaskIntrinsic
                                                simdBaseJitType simdSize)) in
        if simdSize =? 32 then
          (* Vector256 works on 2x128-bit lanes, so repeat the same indices
             for the upper lane *)
          let simdVal := simd_store 8 simdVal 2 0x0F0D0B0907050301 in
          let simdVal := simd_store 8 simdVal 3 0x8080808080808080 in
          build simdVal NI_AVX2_Shuffle NI_SSE2_MoveMask
        else if compOpportunisticallyDependsOn InstructionSet_SSSE3 then
          build simdVal NI_SSSE3_Shuffle NI_SSE2_MoveMask
        else ret None
    | TYP_INT | TYP_UINT | TYP_FLOAT =>
        let simdBaseJitType := CORINFO_TYPE_FLOAT in
        op1 <- impSIMDPopStack simdType;;
        let moveMaskIntrinsic := if simdSize =? 32 then NI_AVX_MoveMask else NI_SSE_MoveMask in
        ret (Some (gtNewSimdHWIntrinsicNode retType [op1] moveMaskIntrinsic
                                            simdBaseJitType simdSize))
    | TYP_LONG | TYP_ULONG | TYP_DOUBLE =>
        let simdBaseJitType := CORINFO_TYPE_DOUBLE in
        op1 <- impSIMDPopStack simdType;;
        let moveMaskIntrinsic := if simdSize =? 32 then NI_AVX_MoveMask else NI_SSE2_MoveMask in
        ret (Some (gtNewSimdHWIntrinsicNode retType [op1] moveMaskIntrinsic
                                            simdBaseJitType simdSize))
    | _ => unreached
    end
  else ret None.

Definition case_Floor : Imp (option GenTree) :=
  assert_ (numArgs sig =? 1) "sig->numArgs == 1";;
  assert_ (varTypeIsFloating simdBaseType) "varTypeIsFloating(simdBaseType)";;
  if negb (simdSize =? 32) && negb (compExactlyDependsOn InstructionSet_SSE41) then
    ret None
  else unary retType (fun op1 => gtNewSimdFloorNode retType [op1] simdBaseJitType simdSize).

Definition case_get_AllBitsSet : Imp (option GenTree) :=
  assert_ (numArgs sig =? 0) "sig->numArgs == 0";;
  ret (Some (gtNewAllBitsSetConNode retType)).

Definition case_get_One : Imp (option GenTree) :=
  assert_ (numArgs sig =? 0) "sig->numArgs == 0";;
  ret (Some (gtNewOneConNode retType simdBaseType)).

Definition case_get_Zero : Imp (option GenTree) :=
  assert_ (numArgs sig =? 0) "sig->numArgs == 0";;
  ret (Some (gtNewZeroConNode retType)).

Definition case_GetElement : Imp (option GenTree) :=
  assert_ (numArgs sig =? 2) "sig->numArgs == 2";;
  supported <-
    match simdBaseType with
    (* Using software fallback if simdBaseType is not supported by hardware *)
    | TYP_BYTE | TYP_UBYTE | TYP_INT | TYP_UINT | TYP_LONG | TYP_ULONG =>
        ret (compExactlyDependsOn InstructionSet_SSE41)
    | TYP_DOUBLE | TYP_FLOAT | TYP_SHORT | TYP_USHORT =>
        (* short/ushort/float/double is supported by SSE2 *)
        ret true
    | _ => unreached
    end;;
  if negb supported then ret None
  else
    op2 <- impPopStack;;
    simdType <- liftC (getSIMDTypeForSize simdSize);;
    op1 <- impSIMDPopStack simdType;;
    ret (Some (gtNewSimdGetElementNode retType [op1; op2] simdBaseJitType simdSize)).

Definition case_Load : Imp (option GenTree) :=
  if numArgs sig =? 2 then
    op2 <- impPopStack;;
    op1 <- impPopStack;;
    let op1 := throwAwayByrefCast op1 in
    let op3 := gtNewIconNode (genTypeSize simdBaseType) (TypeGet op2) in
    let op2 := gtNewOperNode GT_MUL (TypeGet op2) [op2; op3] in
    let op1 := gtNewOperNode GT_ADD (TypeGet op1) [op1; op2] in
    ret (Some (gtNewSimdLoadNode retType [op1] simdBaseJitType simdSize))
  else
    assert_ (numArgs sig =? 1) "sig->numArgs == 1";;
    op1 <- impPopStack;;
    let op1 := throwAwayByrefCast op1 in
    ret (Some (gtNewSimdLoadNode retType [op1] simdBaseJitType simdSize)).

Definition case_LoadAligned : Imp (option GenTree) :=
  assert_ (numArgs sig =? 1) "sig->numArgs == 1";;
  op1 <- impPopStack;;
  let op1 := throwAwayByrefCast op1 in
  ret (Some (gtNewSimdLoadAlignedNode retType [op1] simdBaseJitType simdSize)).

Definition case_LoadAlignedNonTemporal : Imp (option GenTree) :=
  assert_ (numArgs sig =? 1) "sig->numArgs == 1";;
  op1 <- impPopStack;;
  let op1 := throwAwayByrefCast op1 in
  ret (Some (gtNewSimdLoadNonTemporalNode retType [op1] simdBaseJitType simdSize)).

Definition case_Max : Imp (option GenTree) :=
  assert_ (numArgs sig =? 2) "sig->numArgs == 2";;
  if not32_or_floating_or_AVX2
  then binary retType (fun op1 op2 =>
         gtNewSimdMaxNode retType [op1; op2] simdBaseJitType simdSize)
  else ret None.

Definition case_Min : Imp (option GenTree) :=
  assert_ (numArgs sig =? 2) "sig->numArgs == 2";;
  if not32_or_floating_or_AVX2
  then binary retType (fun op1 op2 =>
         gtNewSimdMinNode retType [op1; op2] simdBaseJitType simdSize)
  else ret None.

Definition case_Multiply : Imp (option GenTree) :=
  assert_ (numArgs sig =? 2) "sig->numArgs == 2";;
  if (simdSize =? 32) && negb (varTypeIsFloating simdBaseType)
     && negb (compExactlyDependsOn InstructionSet_AVX2) then
    (* We can't deal with TYP_SIMD32 for integral types if the compiler
       doesn't support AVX2 *)
    ret None
  else if var_types_beq simdBaseType TYP_BYTE || var_types_beq simdBaseType TYP_UBYTE then
    (* TODO-XARCH-CQ: We should support byte/sbyte multiplication *)
    ret None
  else
    let pops :=
      op2 <- popArg 1;;
      op1 <- popArg 0;;
      ret (Some (gtNewSimdBinOpNode GT_MUL retType [op1; op2] simdBaseJitType simdSize)) in
    if varTypeIsLong simdBaseType then
      assert_ ((simdSize =? 16) || (simdSize =? 32)) "(simdSize == 16) || (simdSize == 32)";;
      if negb (compOpportunisticallyDependsOn InstructionSet_AVX512DQ_VL) then
        (* TODO-XARCH-CQ: We should support long/ulong multiplication *)
        ret None
      else if TARGET_X86 then
        (* TODO-XARCH-CQ: We need to support 64-bit CreateBroadcast *)
        ret None
      else pops
    else pops.

Definition case_Narrow : Imp (option GenTree) :=
  assert_ (numArgs sig =? 2) "sig->numArgs == 2";;
  if not32_or_floating_or_AVX2 then
    assert_ (negb (simdSize =? 64) || IsBaselineVector512IsaSupportedDebugOnly)
            "(simdSize != 64) || IsBaselineVector512IsaSupportedDebugOnly()";;
    binary retType (fun op1 op2 =>
      gtNewSimdNarrowNode retType [op1; op2] simdBaseJitType simdSize)
  else ret None.

Definition case_Negate : Imp (option GenTree) :=
  assert_ (numArgs sig =? 1) "sig->numArgs == 1";;
  if not32_or_floating_or_AVX2
  then unary retType (fun op1 =>
         gtNewSimdUnOpNode GT_NEG retType [op1] simdBaseJitType simdSize)
  else ret None.

Definition case_OnesComplement : Imp (option GenTree) :=
  assert_ (numArgs sig =? 1) "sig->numArgs == 1";;
  unary retType (fun op1 => gtNewSimdUnOpNode GT_NOT retType [op1] simdBaseJitType simdSize).

Definition case_op_Inequality : Imp (option GenTree) :=
  assert_ (numArgs sig =? 2) "sig->numArgs == 2";;
  if not32_or_floating_or_AVX2 then
    simdType <- liftC (getSIMDTypeForSize simdSize);;
    binary simdType (fun op1 op2 =>
      gtNewSimdCmpOpAnyNode GT_NE retType [op1; op2] simdBaseJitType simdSize)
  else ret None.

Definition case_Vector512_op_Inequality : Imp (option GenTree) :=
  assert_ (numArgs sig =? 2) "sig->numArgs == 2";;
  if IsBaselineVector512IsaSupported then
    simdType <- liftC (getSIMDTypeForSize simdSize);;
    binary simdType (fun op1 op2 =>
      gtNewSimdCmpOpAnyNode GT_NE retType [op1; op2] simdBaseJitType simdSize)
  else ret None.

Definition case_op_UnaryPlus : Imp (option GenTree) :=
  assert_ (numArgs sig =? 1) "sig->numArgs == 1";;
  unary retType (fun op1 => op1).

Definition case_Subtract : Imp (option GenTree) :=
  assert_ (numArgs sig =? 2) "sig->numArgs == 2";;
  if not32_or_floating_or_AVX2
  then binary retType (fun op1 op2 =>
         gtNewSimdBinOpNode GT_SUB retType [op1; op2] simdBaseJitType simdSize)
  else ret None.

Definition case_ShiftLeft : Imp (option GenTree) :=
  assert_ (numArgs sig =? 2) "sig->numArgs == 2";;
  if varTypeIsByte simdBaseType then
    (* byte and sbyte would require more work to support *)
    ret None
  else if not32_or_AVX2
  then binaryScalar2 retType (fun op1 op2 =>
         gtNewSimdBinOpNode GT_LSH retType [op1; op2] simdBaseJitType simdSize)
  else ret None.

Definition case_ShiftRightArithmetic : Imp (option GenTree) :=
  assert_ (numArgs sig =? 2) "sig->numArgs == 2";;
  if varTypeIsByte simdBaseType then
    (* byte and sbyte would require more work to support *)
    ret None
  else if (varTypeIsLong simdBaseType || var_types_beq simdBaseType TYP_DOUBLE)
          && negb (compOpportunisticallyDependsOn InstructionSet_AVX512F_VL) then
    (* long, ulong, and double would require more work to support *)
    ret None
  else if not32_or_AVX2 then
    let op := if varTypeIsUnsigned simdBaseType then GT_RSZ else GT_RSH in
    binaryScalar2 retType (fun op1 op2 =>
      gtNewSimdBinOpNode op retType [op1; op2] simdBaseJitType simdSize)
  else ret None.

Definition case_ShiftRightLogical : Imp (option GenTree) :=
  assert_ (numArgs sig =? 2) "sig->numArgs == 2";;
  if varTypeIsByte simdBaseType then
    (* byte and sbyte would require more work to support *)
    ret None
  else if not32_or_AVX2
  then binaryScalar2 retType (fun op1 op2 =>
         gtNewSimdBinOpNode GT_RSZ retType [op1; op2] simdBaseJitType simdSize)
  else ret None.

(** Modelled from the spec: lane [index] of a vector constant for an integer
    element kind, as a [uint64_t]; [GetIntegralVectorConstElement] is
    declared in gentree.h.  A lane of a signed kind is sign-extended. *)
Definition GetIntegralVectorConstElement (t : GenTree) (index : Z) (simdBaseType : var_types)
  : Z :=
  let signed (bits : Z) (x : Z) := if x <? 2 ^ (bits - 1) then x else x - 2 ^ bits in
  match t with
  | GT_CNS_VEC _ v =>
      match simdBaseType with
      | TYP_BYTE => wrap 64 (signed 8 (simd_load 1 v index))
      | TYP_UBYTE => simd_load 1 v index
      | TYP_SHORT => wrap 64 (signed 16 (simd_load 2 v index))
      | TYP_USHORT => simd_load 2 v index
      | TYP_INT => wrap 64 (signed 32 (simd_load 4 v index))
      | TYP_UINT => simd_load 4 v index
      | TYP_LONG | TYP_ULONG => simd_load 8 v index
      | _ => 0
      end
  | _ => 0
  end.

(** [for (index = 0; index < elementCount; index++) { ... }] of the shuffle
    case, with [n] iterations left; the result is [crossLane]. *)
Fixpoint crossLaneLoop (indices : GenTree) (elementCount : Z) (n : nat) (index : Z) : bool :=
  match n with
  | O => false
  | S n' =>
      let value := GetIntegralVectorConstElement indices index simdBaseType in
      if elementCount <=? value then
        crossLaneLoop indices elementCount n' (index + 1)
      else if index <? elementCount / 2 then
        if elementCount / 2 <=? value then true
        else crossLaneLoop indices elementCount n' (index + 1)
      else if value <? elementCount / 2 then true
      else crossLaneLoop indices elementCount n' (index + 1)
  end.

Definition case_Shuffle : Imp (option GenTree) :=
  assert_ ((numArgs sig =? 2) || (numArgs sig =? 3)) "(sig->numArgs == 2) || (sig->numArgs == 3)";;
  assert_ ((simdSize =? 16) || (simdSize =? 32)) "(simdSize == 16) || (simdSize == 32)";;
  indices <- impStackTop 0;;
  if negb (IsVectorConst indices) then
    (* TODO-XARCH-CQ: Handling non-constant indices is a bit more complex *)
    ret None
  else
    let elementSize := genTypeSize simdBaseType in
    if elementSize =? 0 then fatal "division by zero"
    else
    let elementCount := simdSize / elementSize in
    let pops :=
      if numArgs sig =? 2 then
        binary retType (fun op1 op2 =>
          gtNewSimdShuffleNode retType [op1; op2] simdBaseJitType simdSize)
      else ret None in
    if simdSize =? 32 then
      if negb (compExactlyDependsOn InstructionSet_AVX2) then
        (* While we could accelerate some functions on hardware with only
           AVX support it's likely not worth it overall given that
           IsHardwareAccelerated reports false *)
        ret None
      else if varTypeIsSmallInt simdBaseType then
        let crossLane := crossLaneLoop indices elementCount (Z.to_nat elementCount) 0 in
        if crossLane then
          (* TODO-XARCH-CQ: We should emulate cross-lane shuffling for
             byte/sbyte and short/ushort *)
          ret None
        else pops
      else pops
    else
      assert_ (simdSize =? 16) "simdSize == 16";;
      if varTypeIsSmallInt simdBaseType && negb (compExactlyDependsOn InstructionSet_SSSE3) then
        (* TYP_BYTE, TYP_UBYTE, TYP_SHORT, and TYP_USHORT need SSSE3 to be
           able to shuffle any operation *)
        ret None
      else pops.

Definition case_Sqrt : Imp (option GenTree) :=
  assert_ (numArgs sig =? 1) "sig->numArgs == 1";;
  if varTypeIsFloating simdBaseType
  then unary retType (fun op1 => gtNewSimdSqrtNode retType [op1] simdBaseJitType simdSize)
  else ret None.

Definition case_SSE_Store : Imp (option GenTree) :=
  assert_ (var_types_beq retType TYP_VOID) "retType == TYP_VOID";;
  assert_ (numArgs sig =? 2) "sig->numArgs == 2";;
  simdType <- liftC (getSIMDTypeForSize simdSize);;
  op2 <- impSIMDPopStack simdType;;
  op1 <- impPopStack;;
  let op1 := throwAwayByrefCast op1 in
  ret (Some (gtNewSimdStoreNode [op1; op2] simdBaseJitType simdSize)).

Definition case_Store : Imp (option GenTree) :=
  assert_ (var_types_beq retType TYP_VOID) "retType == TYP_VOID";;
  simdType <- liftC (getSIMDTypeForSize simdSize);;
  depth <- getStackDepth;;
  if numArgs sig =? 3 then
    impSpillSideEffect true (depth - 3);;
    op3 <- impPopStack;;
    op2 <- impPopStack;;
    let op2 := throwAwayByrefCast op2 in
    let op4 := gtNewIconNode (genTypeSize simdBaseType) (TypeGet op3) in
    let op3 := gtNewOperNode GT_MUL (TypeGet op3) [op3; op4] in
    let op2 := gtNewOperNode GT_ADD (TypeGet op2) [op2; op3] in
    op1 <- impSIMDPopStack simdType;;
    ret (Some (gtNewSimdStoreNode [op2; op1] simdBaseJitType simdSize))
  else
    assert_ (numArgs sig =? 2) "sig->numArgs == 2";;
    impSpillSideEffect true (depth - 2);;
    op2 <- impPopStack;;
    let op2 := throwAwayByrefCast op2 in
    op1 <- impSIMDPopStack simdType;;
    ret (Some (gtNewSimdStoreNode [op2; op1] simdBaseJitType simdSize)).

Definition case_StoreAligned : Imp (option GenTree) :=
  assert_ (numArgs sig =? 2) "sig->numArgs == 2";;
  assert_ (var_types_beq retType TYP_VOID) "retType == TYP_VOID";;
  simdType <- liftC (getSIMDTypeForSize simdSize);;
  depth <- getStackDepth;;
  impSpillSideEffect true (depth - 2);;
  op2 <- impPopStack;;
  let op2 := throwAwayByrefCast op2 in
  op1 <- impSIMDPopStack simdType;;
  ret (Some (gtNewSimdStoreAlignedNode [op2; op1] simdBaseJitType simdSize)).

Definition case_StoreAlignedNonTemporal : Imp (option GenTree) :=
  assert_ (numArgs sig =? 2) "sig->numArgs == 2";;
  assert_ (var_types_beq retType TYP_VOID) "retType == TYP_VOID";;
  simdType <- liftC (getSIMDTypeForSize simdSize);;
  depth <- getStackDepth;;
  impSpillSideEffect true (depth - 2);;
  op2 <- impPopStack;;
  let op2 := throwAwayByrefCast op2 in
  op1 <- impSIMDPopStack simdType;;
  ret (Some (gtNewSimdStoreNonTemporalNode [op2; op1] simdBaseJitType simdSize)).

Definition case_Sum : Imp (option GenTree) :=
  assert_ (numArgs sig =? 1) "sig->numArgs == 1";;
  simdType <- liftC (getSIMDTypeForSize simdSize);;
  let pops :=
    unary simdType (fun op1 => gtNewSimdSumNode retType [op1] simdBaseJitType simdSize) in
  if (simdSize =? 32) && negb (compOpportunisticallyDependsOn InstructionSet_AVX2) then
    (* Vector256 for integer types requires AVX2 *)
    ret None
  else if varTypeIsFloating simdBaseType then
    if negb (compOpportunisticallyDependsOn InstructionSet_SSE3) then
      (* Floating-point types require SSE3.HorizontalAdd *)
      ret None
    else pops
  else if negb (compOpportunisticallyDependsOn InstructionSet_SSSE3) then
    (* Integral types require SSSE3.HorizontalAdd *)
    ret None
  else if varTypeIsByte simdBaseType || varTypeIsLong simdBaseType then
    (* byte, sbyte, long, and ulong all would require more work to support *)
    ret None
  else pops.

Definition case_ToScalar : Imp (option GenTree) :=
  assert_ (numArgs sig =? 1) "sig->numArgs == 1";;
  if TARGET_X86 && varTypeIsLong simdBaseType then
    (* TODO-XARCH-CQ: It may be beneficial to decompose this operation *)
    ret None
  else
    (* TODO-XARCH-CQ: It may be beneficial to import this as GetElement(0) *)
    simdType <- liftC (getSIMDTypeForSize simdSize);;
    unary simdType (fun op1 =>
      gtNewSimdHWIntrinsicNode retType [op1] intrinsic simdBaseJitType simdSize).

Definition case_ToVector256 : Imp (option GenTree) :=
  assert_ (numArgs sig =? 1) "sig->numArgs == 1";;
  assert_ (compIsaSupportedDebugOnly InstructionSet_AVX) "compIsaSupportedDebugOnly(InstructionSet_AVX)";;
  simdType <- liftC (getSIMDTypeForSize simdSize);;
  unary simdType (fun op1 =>
    gtNewSimdHWIntrinsicNode retType [op1] intrinsic simdBaseJitType simdSize).

Definition case_Vector256_GetLower : Imp (option GenTree) :=
  assert_ (numArgs sig =? 1) "sig->numArgs == 1";;
  assert_ (compIsaSupportedDebugOnly InstructionSet_AVX) "compIsaSupportedDebugOnly(InstructionSet_AVX)";;
  simdType <- liftC (getSIMDTypeForSize simdSize);;
  unary simdType (fun op1 => gtNewSimdGetLowerNode retType [op1] simdBaseJitType simdSize).

Definition case_Vector256_GetUpper : Imp (option GenTree) :=
  assert_ (numArgs sig =? 1) "sig->numArgs == 1";;
  assert_ (compIsaSupportedDebugOnly InstructionSet_AVX) "compIsaSupportedDebugOnly(InstructionSet_AVX)";;
  simdType <- liftC (getSIMDTypeForSize simdSize);;
  unary simdType (fun op1 => gtNewSimdGetUpperNode retType [op1] simdBaseJitType simdSize).

Definition case_Vector512_GetLower : Imp (option GenTree) :=
  assert_ (numArgs sig =? 1) "sig->numArgs == 1";;
  assert_ IsBaselineVector512IsaSupportedDebugOnly "IsBaselineVector512IsaSupportedDebugOnly()";;
  simdType <- liftC (getSIMDTypeForSize simdSize);;
  unary simdType (fun op1 => gtNewSimdGetLowerNode retType [op1] simdBaseJitType simdSize).

Definition case_Vector512_GetUpper : Imp (option GenTree) :=
  assert_ (numArgs sig =? 1) "sig->numArgs == 1";;
  assert_ IsBaselineVector512IsaSupportedDebugOnly "IsBaselineVector512IsaSupportedDebugOnly()";;
  simdType <- liftC (getSIMDTypeForSize simdSize);;
  unary simdType (fun op1 => gtNewSimdGetUpperNode retType [op1] simdBaseJitType simdSize).

Definition case_ToVector512 : Imp (option GenTree) :=
  assert_ (numArgs sig =? 1) "sig->numArgs == 1";;
  assert_ IsBaselineVector512IsaSupportedDebugOnly "IsBaselineVector512IsaSupportedDebugOnly()";;
  simdType <- liftC (getSIMDTypeForSize simdSize);;
  unary simdType (fun op1 =>
    gtNewSimdHWIntrinsicNode retType [op1] intrinsic simdBaseJitType simdSize).

Definition case_WidenLower : Imp (option GenTree) :=
  assert_ (numArgs sig =? 1) "sig->numArgs == 1";;
  if not32_or_floating_or_AVX2 then
    assert_ (negb (simdSize =? 64) || IsBaselineVector512IsaSupportedDebugOnly)
            "(simdSize != 64) || IsBaselineVector512IsaSupportedDebugOnly()";;
    unary retType (fun op1 => gtNewSimdWidenLowerNode retType [op1] simdBaseJitType simdSize)
  else ret None.

Definition case_WidenUpper : Imp (option GenTree) :=
  assert_ (numArgs sig =? 1) "sig->numArgs == 1";;
  if not32_or_floating_or_AVX2 then
    assert_ (negb (simdSize =? 64) || IsBaselineVector512IsaSupportedDebugOnly)
            "(simdSize != 64) || IsBaselineVector512IsaSupportedDebugOnly()";;
    unary retType (fun op1 => gtNewSimdWidenUpperNode retType [op1] simdBaseJitType simdSize)
  else ret None.

Definition case_WithElement : Imp (option GenTree) :=
  assert_ (numArgs sig =? 3) "sig->numArgs == 3";;
  indexOp <- impStackTop 1;;
  if negb (OperIsConst indexOp) then
    (* TODO-XARCH-CQ: We should always import these like we do with
       GetElement.  Index is not a constant, use the software fallback *)
    ret None
  else
    imm8 <- liftC (IconValue indexOp);;
    if genTypeSize simdBaseType =? 0 then fatal "division by zero"
    else
    let count := simdSize / genTypeSize simdBaseType in
    if (count <=? imm8) || (imm8 <? 0) then
      (* Using software fallback if index is out of range (throw
         exception) *)
      ret None
    else
      supported <-
        match simdBaseType with
        (* Using software fallback if simdBaseType is not supported by
           hardware *)
        | TYP_BYTE | TYP_UBYTE | TYP_INT | TYP_UINT =>
            ret (compExactlyDependsOn InstructionSet_SSE41)
        | TYP_LONG | TYP_ULONG =>
            ret (compExactlyDependsOn InstructionSet_SSE41_X64)
        | TYP_DOUBLE | TYP_FLOAT | TYP_SHORT | TYP_USHORT =>
            (* short/ushort/float/double is supported by SSE2 *)
            ret true
        | _ => unreached
        end;;
      if negb supported then ret None
      else
        valueOp <- impPopStack;;
        (* Pop the indexOp now that we know its valid *)
        impPopStack;;
        simdType <- liftC (getSIMDTypeForSize simdSize);;
        vectorOp <- impSIMDPopStack simdType;;
        ret (Some (gtNewSimdWithElementNode retType [vectorOp; indexOp; valueOp]
                                            simdBaseJitType simdSize)).

Definition case_Vector256_WithLower : Imp (option GenTree) :=
  assert_ (numArgs sig =? 2) "sig->numArgs == 2";;
  assert_ (compIsaSupportedDebugOnly InstructionSet_AVX) "compIsaSupportedDebugOnly(InstructionSet_AVX)";;
  op2 <- impSIMDPopStack TYP_SIMD16;;
  op1 <- impSIMDPopStack TYP_SIMD32;;
  ret (Some (gtNewSimdWithLowerNode retType [op1; op2] simdBaseJitType simdSize)).

Definition case_Vector256_WithUpper : Imp (option GenTree) :=
  assert_ (numArgs sig =? 2) "sig->numArgs == 2";;
  assert_ (compIsaSupportedDebugOnly InstructionSet_AVX) "compIsaSupportedDebugOnly(InstructionSet_AVX)";;
  op2 <- impSIMDPopStack TYP_SIMD16;;
  op1 <- impSIMDPopStack TYP_SIMD32;;
  ret (Some (gtNewSimdWithUpperNode retType [op1; op2] simdBaseJitType simdSize)).

Definition case_Vector512_WithLower : Imp (option GenTree) :=
  assert_ (numArgs sig =? 2) "sig->numArgs == 2";;
  assert_ IsBaselineVector512IsaSupportedDebugOnly "IsBaselineVector512IsaSupportedDebugOnly()";;
  op2 <- impSIMDPopStack TYP_SIMD32;;
  op1 <- impSIMDPopStack TYP_SIMD64;;
  ret (Some (gtNewSimdWithLowerNode retType [op1; op2] simdBaseJitType simdSize)).

Definition case_Vector512_WithUpper : Imp (option GenTree) :=
  assert_ (numArgs sig =? 2) "sig->numArgs == 2";;
  assert_ IsBaselineVector512IsaSupportedDebugOnly "IsBaselineVector512IsaSupportedDebugOnly()";;
  op2 <- impSIMDPopStack TYP_SIMD32;;
  op1 <- impSIMDPopStack TYP_SIMD64;;
  ret (Some (gtNewSimdWithUpperNode retType [op1; op2] simdBaseJitType simdSize)).

Definition case_Xor : Imp (option GenTree) :=
  assert_ (numArgs sig =? 2) "sig->numArgs == 2";;
  binary retType (fun op1 op2 =>
    gtNewSimdBinOpNode GT_XOR retType [op1; op2] simdBaseJitType simdSize).

Definition case_X86Base_Pause : Imp (option GenTree) :=
  assert_ (numArgs sig =? 0) "sig->numArgs == 0";;
  assert_ (var_types_beq (sigRetType sig) TYP_VOID) "JITtype2varType(sig->retType) == TYP_VOID";;
  assert_ (simdSize =? 0) "simdSize == 0";;
  ret (Some (gtNewScalarHWIntrinsicNode TYP_VOID [] intrinsic)).

Definition case_X86Base_DivRem : Imp (option GenTree) :=
  assert_ (numArgs sig =? 3) "sig->numArgs == 3";;
  assert_ (IsMultiReg intrinsic) "HWIntrinsicInfo::IsMultiReg(intrinsic)";;
  assert_ (var_types_beq retType TYP_STRUCT) "retType == TYP_STRUCT";;
  assert_ (negb (CorInfoType_beq simdBaseJitType CORINFO_TYPE_UNDEF))
          "simdBaseJitType != CORINFO_TYPE_UNDEF";;
  op3 <- impPopStack;;
  op2 <- impPopStack;;
  op1 <- impPopStack;;
  let divRemIntrinsic := gtNewScalarHWIntrinsicNode retType [op1; op2; op3] intrinsic in
  (* Store the type from signature into SIMD base type for convenience *)
  let divRemIntrinsic := SetSimdBaseJitType divRemIntrinsic simdBaseJitType in
  retNode <- impAssignMultiRegTypeToVar divRemIntrinsic (retTypeSigClass sig);;
  ret (Some retNode).

(** [Sse.CompareScalarGreaterThan] and its three siblings, and their
    [Sse2] twins, differ in where the base type comes from, in the element
    kind they assert and in the intrinsic of the outer node. *)
Definition compareScalarGreater (baseJitType : CorInfoType) (expected : var_types)
  (moveScalar : NamedIntrinsic) : Imp (option GenTree) :=
  let supportsAvx := compOpportunisticallyDependsOn InstructionSet_AVX in
  depth <- getStackDepth;;
  (if negb supportsAvx then impSpillSideEffect true (depth - 2) else ret tt);;
  op2 <- impSIMDPopStack TYP_SIMD16;;
  op1 <- impSIMDPopStack TYP_SIMD16;;
  let simdBaseJitType := baseJitType in
  assert_ (var_types_beq (JitType2PreciseVarType simdBaseJitType) expected)
          "JitType2PreciseVarType(simdBaseJitType) == expected";;
  if supportsAvx then
    (* These intrinsics are "special import" because the non-AVX path isn't
       directly hardware supported.  Instead, they start with "swapped
       operands" and we fix that here. *)
    let comparison := lookupIval intrinsic true in
    ret (Some (gtNewSimdHWIntrinsicNode TYP_SIMD16 [op1; op2; gtNewIconNode comparison TYP_INT]
                                        NI_AVX_CompareScalar simdBaseJitType simdSize))
  else
    clone <- impCloneExpr op1;;
    let op1 := fst clone in
    let clonedOp1 := snd clone in
    let retNode := gtNewSimdHWIntrinsicNode TYP_SIMD16 [op2; op1] intrinsic
                                            simdBaseJitType simdSize in
    ret (Some (gtNewSimdHWIntrinsicNode TYP_SIMD16 [clonedOp1; retNode] moveScalar
                                        simdBaseJitType simdSize)).

Definition case_SSE_CompareScalarGreaterThan : Imp (option GenTree) :=
  assert_ (numArgs sig =? 2) "sig->numArgs == 2";;
  compareScalarGreater (getBaseJitTypeOfSIMDType (retTypeSigClass sig)) TYP_FLOAT
                       NI_SSE_MoveScalar.

Definition case_SSE_Prefetch : Imp (option GenTree) :=
  assert_ (numArgs sig =? 1) "sig->numArgs == 1";;
  assert_ (var_types_beq (sigRetType sig) TYP_VOID) "JITtype2varType(sig->retType) == TYP_VOID";;
  op1 <- impPopStack;;
  ret (Some (gtNewSimdHWIntrinsicNode TYP_VOID [op1] intrinsic CORINFO_TYPE_UBYTE 0)).

Definition case_SSE_StoreFence : Imp (option GenTree) :=
  assert_ (numArgs sig =? 0) "sig->numArgs == 0";;
  assert_ (var_types_beq (sigRetType sig) TYP_VOID) "JITtype2varType(sig->retType) == TYP_VOID";;
  ret (Some (gtNewScalarHWIntrinsicNode TYP_VOID [] intrinsic)).

Definition case_SSE2_CompareScalarGreaterThan : Imp (option GenTree) :=
  assert_ (numArgs sig =? 2) "sig->numArgs == 2";;
  compareScalarGreater simdBaseJitType TYP_DOUBLE NI_SSE2_MoveScalar.

Definition case_SSE2_LoadFence : Imp (option GenTree) :=
  assert_ (numArgs sig =? 0) "sig->numArgs == 0";;
  assert_ (var_types_beq (sigRetType sig) TYP_VOID) "JITtype2varType(sig->retType) == TYP_VOID";;
  assert_ (simdSize =? 0) "simdSize == 0";;
  ret (Some (gtNewScalarHWIntrinsicNode TYP_VOID [] intrinsic)).

Definition case_SSE2_StoreNonTemporal : Imp (option GenTree) :=
  assert_ (numArgs sig =? 2) "sig->numArgs == 2";;
  assert_ (var_types_beq (sigRetType sig) TYP_VOID) "JITtype2varType(sig->retType) == TYP_VOID";;
  let argJitType := fst (sigArg 1) in
  op2 <- impPopStack;;
  op1 <- impPopStack;;
  ret (Some (gtNewSimdHWIntrinsicNode TYP_VOID [op1; op2] NI_SSE2_StoreNonTemporal argJitType 0)).

Definition case_AVX2_PermuteVar8x32 : Imp (option GenTree) :=
  let simdBaseJitType := getBaseJitTypeOfSIMDType (retTypeSigClass sig) in
  depth <- getStackDepth;;
  impSpillSideEffect true (depth - 2);;
  (* swap the two operands *)
  indexVector <- impSIMDPopStack TYP_SIMD32;;
  sourceVector <- impSIMDPopStack TYP_SIMD32;;
  ret (Some (gtNewSimdHWIntrinsicNode TYP_SIMD32 [indexVector; sourceVector]
                                      NI_AVX2_PermuteVar8x32 simdBaseJitType 32)).

Definition case_AVX2_GatherMaskVector : Imp (option GenTree) :=
  let simdBaseJitType := getBaseJitTypeOfSIMDType (retTypeSigClass sig) in
  let sizeBytes := getSIMDTypeSizeInBytes (retTypeSigClass sig) in
  retType <- liftC (getSIMDTypeForSize sizeBytes);;
  assert_ (numArgs sig =? 5) "sig->numArgs == 5";;
  op5 <- popArg 4;;
  SetOpLclRelatedToSIMDIntrinsic op5;;
  op4 <- popArg 3;;
  SetOpLclRelatedToSIMDIntrinsic op4;;
  let indexBaseJitType := getBaseJitTypeOfSIMDType (snd (sigArg 2)) in
  op3 <- popArg 2;;
  SetOpLclRelatedToSIMDIntrinsic op3;;
  op2 <- popArg 1;;
  SetOpLclRelatedToSIMDIntrinsic op2;;
  op1 <- popArg 0;;
  SetOpLclRelatedToSIMDIntrinsic op1;;
  let retNode := GT_HWINTRINSIC retType [op1; op2; op3; op4; op5] intrinsic simdBaseJitType
                                simdSize CORINFO_TYPE_UNDEF in
  ret (Some (SetAuxiliaryJitType retNode indexBaseJitType)).

Definition case_BMI2_ZeroHighBits : Imp (option GenTree) :=
  assert_ (numArgs sig =? 2) "sig->numArgs == 2";;
  op2 <- impPopStack;;
  op1 <- impPopStack;;
  (* Instruction BZHI requires to encode op2 (3rd register) in VEX.vvvv
     and op1 maybe memory operand, so swap op1 and op2 to unify the backend
     code. *)
  ret (Some (gtNewScalarHWIntrinsicNode retType [op2; op1] intrinsic)).

Definition case_BMI1_BitFieldExtract : Imp (option GenTree) :=
  (* The 3-arg version is implemented in managed code *)
  if numArgs sig =? 3 then ret None
  else
    assert_ (numArgs sig =? 2) "sig->numArgs == 2";;
    op2 <- impPopStack;;
    op1 <- impPopStack;;
    (* Instruction BEXTR requires to encode op2 (3rd register) in VEX.vvvv
       and op1 maybe memory operand, so swap op1 and op2 to unify the
       backend code. *)
    ret (Some (gtNewScalarHWIntrinsicNode retType [op2; op1] intrinsic)).

(** The [switch (intrinsic)] of [impSpecialIntrinsic]. *)
Definition dispatch : Imp (option GenTree) :=
  match intrinsic with
  | NI_Vector128_Abs
  | NI_Vector256_Abs =>
      case_Abs
  | NI_Vector128_Add
  | NI_Vector256_Add
  | NI_Vector512_Add
  | NI_Vector128_op_Addition
  | NI_Vector256_op_Addition
  | NI_Vector512_op_Addition =>
      case_Add
  | NI_Vector128_AndNot
  | NI_Vector256_AndNot
  | NI_Vector512_AndNot =>
      case_AndNot
  | NI_Vector128_As
  | NI_Vector128_AsByte
  | NI_Vector128_AsDouble
  | NI_Vector128_AsInt16
  | NI_Vector128_AsInt32
  | NI_Vector128_AsInt64
  | NI_Vector128_AsNInt
  | NI_Vector128_AsNUInt
  | NI_Vector128_AsSByte
  | NI_Vector128_AsSingle
  | NI_Vector128_AsUInt16
  | NI_Vector128_AsUInt32
  | NI_Vector128_AsUInt64
  | NI_Vector128_AsVector4
  | NI_Vector256_As
  | NI_Vector256_AsByte
  | NI_Vector256_AsDouble
  | NI_Vector256_AsInt16
  | NI_Vector256_AsInt32
  | NI_Vector256_AsInt64
  | NI_Vector256_AsNInt
  | NI_Vector256_AsNUInt
  | NI_Vector256_AsSByte
  | NI_Vector256_AsSingle
  | NI_Vector256_AsUInt16
  | NI_Vector256_AsUInt32
  | NI_Vector256_AsUInt64
  | NI_Vector512_As
  | NI_Vector512_AsByte
  | NI_Vector512_AsDouble
  | NI_Vector512_AsInt16
  | NI_Vector512_AsInt32
  | NI_Vector512_AsInt64
  | NI_Vector512_AsNInt
  | NI_Vector512_AsNUInt
  | NI_Vector512_AsSByte
  | NI_Vector512_AsSingle
  | NI_Vector512_AsUInt16
  | NI_Vector512_AsUInt32
  | NI_Vector512_AsUInt64 =>
      case_As
  | NI_Vector128_AsVector =>
      case_Vector128_AsVector
  | NI_Vector128_AsVector2
  | NI_Vector128_AsVector3 =>
      case_Vector128_AsVector2
  | NI_Vector128_AsVector128 =>
      case_Vector128_AsVector128
  | NI_Vector256_AsVector
  | NI_Vector256_AsVector256 =>
      case_Vector256_AsVector
  | NI_Vector512_AsVector
  | NI_Vector512_AsVector512 =>
      case_Vector512_AsVector
  | NI_Vector128_BitwiseAnd
  | NI_Vector256_BitwiseAnd
  | NI_Vector512_BitwiseAnd
  | NI_Vector128_op_BitwiseAnd
  | NI_Vector256_op_BitwiseAnd
  | NI_Vector512_op_BitwiseAnd =>
      case_BitwiseAnd
  | NI_Vector128_BitwiseOr
  | NI_Vector256_BitwiseOr
  | NI_Vector512_BitwiseOr
  | NI_Vector128_op_BitwiseOr
  | NI_Vector256_op_BitwiseOr
  | NI_Vector512_op_BitwiseOr =>
      case_BitwiseOr
  | NI_Vector128_Ceiling
  | NI_Vector256_Ceiling =>
      case_Ceiling
  | NI_Vector128_ConditionalSelect
  | NI_Vector256_ConditionalSelect =>
      case_ConditionalSelect
  | NI_Vector128_ConvertToDouble
  | NI_Vector256_ConvertToDouble
  | NI_Vector128_ConvertToInt64
  | NI_Vector256_ConvertToInt64
  | NI_Vector128_ConvertToUInt32
  | NI_Vector256_ConvertToUInt32
  | NI_Vector128_ConvertToUInt64
  | NI_Vector256_ConvertToUInt64 =>
      case_ConvertToDouble
  | NI_Vector128_ConvertToInt32
  | NI_Vector256_ConvertToInt32 =>
      case_ConvertToInt32
  | NI_Vector128_ConvertToSingle
  | NI_Vector256_ConvertToSingle =>
      case_ConvertToSingle
  | NI_Vector128_Create
  | NI_Vector256_Create
  | NI_Vector512_Create =>
      case_Create
  | NI_Vector128_CreateScalar
  | NI_Vector256_CreateScalar
  | NI_Vector512_CreateScalar =>
      case_CreateScalar
  | NI_Vector128_CreateScalarUnsafe
  | NI_Vector256_CreateScalarUnsafe
  | NI_Vector512_CreateScalarUnsafe =>
      case_CreateScalarUnsafe
  | NI_Vector128_Divide
  | NI_Vector256_Divide
  | NI_Vector128_op_Division
  | NI_Vector256_op_Division =>
      case_Divide
  | NI_Vector128_Dot
  | NI_Vector256_Dot =>
      case_Dot
  | NI_Vector128_Equals
  | NI_Vector256_Equals
  | NI_Vector512_Equals =>
      case_CmpOp GT_EQ
  | NI_Vector512_EqualsAll
  | NI_Vector512_op_Equality =>
      case_Vector512_EqualsAll
  | NI_Vector128_EqualsAll
  | NI_Vector256_EqualsAll
  | NI_Vector128_op_Equality
  | NI_Vector256_op_Equality =>
      case_EqualsAll
  | NI_Vector512_EqualsAny =>
      case_Vector512_EqualsAny
  | NI_Vector128_EqualsAny
  | NI_Vector256_EqualsAny =>
      case_CmpOpAny GT_EQ
  | NI_Vector512_ExtractMostSignificantBits =>
      case_Vector512_ExtractMostSignificantBits
  | NI_Vector128_ExtractMostSignificantBits
  | NI_Vector256_ExtractMostSignificantBits =>
      case_ExtractMostSignificantBits
  | NI_Vector128_Floor
  | NI_Vector256_Floor =>
      case_Floor
  | NI_Vector128_get_AllBitsSet
  | NI_Vector256_get_AllBitsSet
  | NI_Vector512_get_AllBitsSet =>
      case_get_AllBitsSet
  | NI_Vector128_get_One
  | NI_Vector256_get_One
  | NI_Vector512_get_One =>
      case_get_One
  | NI_Vector128_get_Zero
  | NI_Vector256_get_Zero
  | NI_Vector512_get_Zero =>
      case_get_Zero
  | NI_Vector128_GetElement
  | NI_Vector256_GetElement
  | NI_Vector512_GetElement =>
      case_GetElement
  | NI_Vector128_GreaterThan
  | NI_Vector256_GreaterThan =>
      case_CmpOp GT_GT
  | NI_Vector128_GreaterThanAll
  | NI_Vector256_GreaterThanAll =>
      case_CmpOpAll GT_GT
  | NI_Vector128_GreaterThanAny
  | NI_Vector256_GreaterThanAny =>
      case_CmpOpAny GT_GT
  | NI_Vector128_GreaterThanOrEqual
  | NI_Vector256_GreaterThanOrEqual =>
      case_CmpOp GT_GE
  | NI_Vector128_GreaterThanOrEqualAll
  | NI_Vector256_GreaterThanOrEqualAll =>
      case_CmpOpAll GT_GE
  | NI_Vector128_GreaterThanOrEqualAny
  | NI_Vector256_GreaterThanOrEqualAny =>
      case_CmpOpAny GT_GE
  | NI_Vector128_LessThan
  | NI_Vector256_LessThan =>
      case_CmpOp GT_LT
  | NI_Vector128_LessThanAll
  | NI_Vector256_LessThanAll =>
      case_CmpOpAll GT_LT
  | NI_Vector128_LessThanAny
  | NI_Vector256_LessThanAny =>
      case_CmpOpAny GT_LT
  | NI_Vector128_LessThanOrEqual
  | NI_Vector256_LessThanOrEqual =>
      case_CmpOp GT_LE
  | NI_Vector128_LessThanOrEqualAll
  | NI_Vector256_LessThanOrEqualAll =>
      case_CmpOpAll GT_LE
  | NI_Vector128_LessThanOrEqualAny
  | NI_Vector256_LessThanOrEqualAny =>
      case_CmpOpAny GT_LE
  | NI_SSE_LoadVector128
  | NI_SSE2_LoadVector128
  | NI_AVX_LoadVector256
  | NI_AVX512F_LoadVector512
  | NI_AVX512BW_LoadVector512
  | NI_Vector128_Load
  | NI_Vector256_Load
  | NI_Vector512_Load
  | NI_Vector128_LoadUnsafe
  | NI_Vector256_LoadUnsafe
  | NI_Vector512_LoadUnsafe =>
      case_Load
  | NI_Vector128_LoadAligned
  | NI_Vector256_LoadAligned
  | NI_Vector512_LoadAligned =>
      case_LoadAligned
  | NI_Vector128_LoadAlignedNonTemporal
  | NI_Vector256_LoadAlignedNonTemporal
  | NI_Vector512_LoadAlignedNonTemporal =>
      case_LoadAlignedNonTemporal
  | NI_Vector128_Max
  | NI_Vector256_Max =>
      case_Max
  | NI_Vector128_Min
  | NI_Vector256_Min =>
      case_Min
  | NI_Vector128_Multiply
  | NI_Vector256_Multiply
  | NI_Vector128_op_Multiply
  | NI_Vector256_op_Multiply =>
      case_Multiply
  | NI_Vector128_Narrow
  | NI_Vector256_Narrow
  | NI_Vector512_Narrow =>
      case_Narrow
  | NI_Vector128_Negate
  | NI_Vector256_Negate
  | NI_Vector128_op_UnaryNegation
  | NI_Vector256_op_UnaryNegation =>
      case_Negate
  | NI_Vector128_OnesComplement
  | NI_Vector256_OnesComplement
  | NI_Vector512_OnesComplement
  | NI_Vector128_op_OnesComplement
  | NI_Vector256_op_OnesComplement
  | NI_Vector512_op_OnesComplement =>
      case_OnesComplement
  | NI_Vector128_op_Inequality
  | NI_Vector256_op_Inequality =>
      case_op_Inequality
  | NI_Vector512_op_Inequality =>
      case_Vector512_op_Inequality
  | NI_Vector128_op_UnaryPlus
  | NI_Vector256_op_UnaryPlus =>
      case_op_UnaryPlus
  | NI_Vector128_Subtract
  | NI_Vector256_Subtract
  | NI_Vector512_Subtract
  | NI_Vector128_op_Subtraction
  | NI_Vector256_op_Subtraction
  | NI_Vector512_op_Subtraction =>
      case_Subtract
  | NI_Vector128_ShiftLeft
  | NI_Vector256_ShiftLeft
  | NI_Vector128_op_LeftShift
  | NI_Vector256_op_LeftShift =>
      case_ShiftLeft
  | NI_Vector128_ShiftRightArithmetic
  | NI_Vector256_ShiftRightArithmetic
  | NI_Vector128_op_RightShift
  | NI_Vector256_op_RightShift =>
      case_ShiftRightArithmetic
  | NI_Vector128_ShiftRightLogical
  | NI_Vector256_ShiftRightLogical
  | NI_Vector128_op_UnsignedRightShift
  | NI_Vector256_op_UnsignedRightShift =>
      case_ShiftRightLogical
  | NI_Vector128_Shuffle
  | NI_Vector256_Shuffle =>
      case_Shuffle
  | NI_Vector128_Sqrt
  | NI_Vector256_Sqrt =>
      case_Sqrt
  | NI_SSE_Store
  | NI_SSE2_Store
  | NI_AVX_Store
  | NI_AVX512F_Store
  | NI_AVX512BW_Store =>
      case_SSE_Store
  | NI_Vector128_Store
  | NI_Vector256_Store
  | NI_Vector512_Store
  | NI_Vector128_StoreUnsafe
  | NI_Vector256_StoreUnsafe
  | NI_Vector512_StoreUnsafe =>
      case_Store
  | NI_Vector128_StoreAligned
  | NI_Vector256_StoreAligned
  | NI_Vector512_StoreAligned =>
      case_StoreAligned
  | NI_Vector128_StoreAlignedNonTemporal
  | NI_Vector256_StoreAlignedNonTemporal
  | NI_Vector512_StoreAlignedNonTemporal =>
      case_StoreAlignedNonTemporal
  | NI_Vector128_Sum
  | NI_Vector256_Sum =>
      case_Sum
  | NI_Vector128_ToScalar
  | NI_Vector256_ToScalar
  | NI_Vector512_ToScalar =>
      case_ToScalar
  | NI_Vector128_ToVector256
  | NI_Vector128_ToVector256Unsafe =>
      case_ToVector256
  | NI_Vector256_GetLower =>
      case_Vector256_GetLower
  | NI_Vector256_GetUpper =>
      case_Vector256_GetUpper
  | NI_Vector512_GetLower =>
      case_Vector512_GetLower
  | NI_Vector512_GetUpper =>
      case_Vector512_GetUpper
  | NI_Vector128_ToVector512
  | NI_Vector256_ToVector512
  | NI_Vector256_ToVector512Unsafe
  | NI_Vector512_GetLower128 =>
      case_ToVector512
  | NI_Vector128_WidenLower
  | NI_Vector256_WidenLower
  | NI_Vector512_WidenLower =>
      case_WidenLower
  | NI_Vector128_WidenUpper
  | NI_Vector256_WidenUpper
  | NI_Vector512_WidenUpper =>
      case_WidenUpper
  | NI_Vector128_WithElement
  | NI_Vector256_WithElement
  | NI_Vector512_WithElement =>
      case_WithElement
  | NI_Vector256_WithLower =>
      case_Vector256_WithLower
  | NI_Vector256_WithUpper =>
      case_Vector256_WithUpper
  | NI_Vector512_WithLower =>
      case_Vector512_WithLower
  | NI_Vector512_WithUpper =>
      case_Vector512_WithUpper
  | NI_Vector128_Xor
  | NI_Vector256_Xor
  | NI_Vector512_Xor
  | NI_Vector128_op_ExclusiveOr
  | NI_Vector256_op_ExclusiveOr
  | NI_Vector512_op_ExclusiveOr =>
      case_Xor
  | NI_X86Base_Pause
  | NI_X86Serialize_Serialize =>
      case_X86Base_Pause
  | NI_X86Base_DivRem
  | NI_X86Base_X64_DivRem =>
      case_X86Base_DivRem
  | NI_SSE_CompareScalarGreaterThan
  | NI_SSE_CompareScalarGreaterThanOrEqual
  | NI_SSE_CompareScalarNotGreaterThan
  | NI_SSE_CompareScalarNotGreaterThanOrEqual =>
      case_SSE_CompareScalarGreaterThan
  | NI_SSE_Prefetch0
  | NI_SSE_Prefetch1
  | NI_SSE_Prefetch2
  | NI_SSE_PrefetchNonTemporal =>
      case_SSE_Prefetch
  | NI_SSE_StoreFence =>
      case_SSE_StoreFence
  | NI_SSE2_CompareScalarGreaterThan
  | NI_SSE2_CompareScalarGreaterThanOrEqual
  | NI_SSE2_CompareScalarNotGreaterThan
  | NI_SSE2_CompareScalarNotGreaterThanOrEqual =>
      case_SSE2_CompareScalarGreaterThan
  | NI_SSE2_LoadFence
  | NI_SSE2_MemoryFence =>
      case_SSE2_LoadFence
  | NI_SSE2_StoreNonTemporal =>
      case_SSE2_StoreNonTemporal
  | NI_AVX2_PermuteVar8x32 =>
      case_AVX2_PermuteVar8x32
  | NI_AVX2_GatherMaskVector128
  | NI_AVX2_GatherMaskVector256 =>
      case_AVX2_GatherMaskVector
  | NI_BMI2_ZeroHighBits
  | NI_BMI2_X64_ZeroHighBits =>
      case_BMI2_ZeroHighBits
  | NI_BMI1_BitFieldExtract
  | NI_BMI1_X64_BitFieldExtract =>
      case_BMI1_BitFieldExtract
  | _ => ret None
  end.

End Cases.

Section Dispatch.

Context {jit : Jit}.

Local Open Scope string_scope.
Local Open Scope Z_scope.

(** The element kind of the call: [simdBaseType] as the function computes it
    before the [switch].  The function also looks up the instruction set of
    the intrinsic, into a local it never reads. *)
Definition getSimdBaseType (simdBaseJitType : CorInfoType) (simdSize : Z) : Imp var_types :=
  if negb (simdSize =? 0) then
    let simdBaseType := JitType2PreciseVarType simdBaseJitType in
    assert_ (varTypeIsArithmetic simdBaseType) "varTypeIsArithmetic(simdBaseType)";;
    ret simdBaseType
  else ret TYP_UNKNOWN.

(** The body of [impSpecialIntrinsic], over the function to call where the
    source calls itself. *)
Definition impSpecialIntrinsic_body
  (self : NamedIntrinsic -> CORINFO_SIG_INFO -> CorInfoType -> var_types -> Z
          -> Imp (option GenTree))
  (intrinsic : NamedIntrinsic) (sig : CORINFO_SIG_INFO) (simdBaseJitType : CorInfoType)
  (retType : var_types) (simdSize : Z) : Imp (option GenTree) :=
  simdBaseType <- getSimdBaseType simdBaseJitType simdSize;;
  dispatch self intrinsic sig simdBaseJitType retType simdSize simdBaseType.

(** [impSpecialIntrinsic] with a bound on the depth of its calls to itself:
    [depth] calls may be open at once. *)
Fixpoint impSpecialIntrinsic_depth (depth : nat) (intrinsic : NamedIntrinsic)
  (sig : CORINFO_SIG_INFO) (simdBaseJitType : CorInfoType) (retType : var_types)
  (simdSize : Z) : Imp (option GenTree) :=
  match depth with
  | O => fatal "call depth"
  | S depth' =>
      impSpecialIntrinsic_body (impSpecialIntrinsic_depth depth')
                               intrinsic sig simdBaseJitType retType simdSize
  end.

(** A case re-dispatches at most once, and to a case that does not: two
    open calls are all [impSpecialIntrinsic] ever needs (see
    [impSpecialIntrinsic_depth_enough]). *)
Definition impSpecialIntrinsic : NamedIntrinsic -> CORINFO_SIG_INFO -> CorInfoType
  -> var_types -> Z -> Imp (option GenTree) :=
  impSpecialIntrinsic_depth 2.

End Dispatch.

(** * Vocabulary of the properties

    The notions the theorems are stated with, and the concrete compilations
    and calls they are evaluated on. *)

Unset Implicit Arguments.

Section Vocabulary.

Context {jit : Jit}.

Local Open Scope string_scope.
Local Open Scope Z_scope.

Definition all_FloatComparisonModes : list FloatComparisonMode.t :=
  [ FloatComparisonMode.OrderedEqualNonSignaling;
    FloatComparisonMode.UnorderedNonSignaling;
    FloatComparisonMode.UnorderedNotEqualNonSignaling;
    FloatComparisonMode.OrderedNonSignaling;
    FloatComparisonMode.UnorderedEqualNonSignaling;
    FloatComparisonMode.OrderedFalseNonSignaling;
    FloatComparisonMode.OrderedNotEqualNonSignaling;
    FloatComparisonMode.UnorderedTrueNonSignaling;
    FloatComparisonMode.OrderedEqualSignaling;
    FloatComparisonMode.UnorderedSignaling;
    FloatComparisonMode.UnorderedNotEqualSignaling;
    FloatComparisonMode.OrderedSignaling;
    FloatComparisonMode.UnorderedEqualSignaling;
    FloatComparisonMode.OrderedFalseSignaling;
    FloatComparisonMode.OrderedNotEqualSignaling;
    FloatComparisonMode.UnorderedTrueSignaling;
    FloatComparisonMode.OrderedLessThanSignaling;
    FloatComparisonMode.OrderedGreaterThanSignaling;
    FloatComparisonMode.OrderedLessThanOrEqualSignaling;
    FloatComparisonMode.OrderedGreaterThanOrEqualSignaling;
    FloatComparisonMode.UnorderedNotLessThanSignaling;
    FloatComparisonMode.UnorderedNotGreaterThanSignaling;
    FloatComparisonMode.UnorderedNotLessThanOrEqualSignaling;
    FloatComparisonMode.UnorderedNotGreaterThanOrEqualSignaling;
    FloatComparisonMode.OrderedLessThanNonSignaling;
    FloatComparisonMode.OrderedGreaterThanNonSignaling;
    FloatComparisonMode.OrderedLessThanOrEqualNonSignaling;
    FloatComparisonMode.OrderedGreaterThanOrEqualNonSignaling;
    FloatComparisonMode.UnorderedNotLessThanNonSignaling;
    FloatComparisonMode.UnorderedNotGreaterThanNonSignaling;
    FloatComparisonMode.UnorderedNotLessThanOrEqualNonSignaling;
    FloatComparisonMode.UnorderedNotGreaterThanOrEqualNonSignaling ].

(** The modes left alone by a swap of the operands. *)
Definition swap_fixed_points : list FloatComparisonMode.t :=
  filter (fun p => FloatComparisonMode.t_beq (lookupFloatComparisonModeForSwappedArgs p) p)
         all_FloatComparisonModes.

Definition is_AVX_Compare (id : NamedIntrinsic) : bool :=
  match id with
  | NI_AVX_Compare | NI_AVX_CompareScalar => true
  | _ => false
  end.

(** The class names compared with [strcmp], with their instruction sets. *)
Definition isa_class_names : list (string * CORINFO_InstructionSet) :=
  [ ("Aes", InstructionSet_AES); ("Avx", InstructionSet_AVX);
    ("Avx2", InstructionSet_AVX2); ("Avx512BW", InstructionSet_AVX512BW);
    ("Avx512CD", InstructionSet_AVX512CD); ("Avx512DQ", InstructionSet_AVX512DQ);
    ("Avx512F", InstructionSet_AVX512F); ("AvxVnni", InstructionSet_AVXVNNI);
    ("Sse", InstructionSet_SSE); ("Sse2", InstructionSet_SSE2);
    ("Sse3", InstructionSet_SSE3); ("Ssse3", InstructionSet_SSSE3);
    ("Sse41", InstructionSet_SSE41); ("Sse42", InstructionSet_SSE42);
    ("Bmi1", InstructionSet_BMI1); ("Bmi2", InstructionSet_BMI2);
    ("Pclmulqdq", InstructionSet_PCLMULQDQ); ("Popcnt", InstructionSet_POPCNT);
    ("Fma", InstructionSet_FMA); ("Lzcnt", InstructionSet_LZCNT);
    ("X86Base", InstructionSet_X86Base); ("X86Serialize", InstructionSet_X86Serialize) ].

(** The class names compared with [strncmp]: any name that starts so. *)
Definition vector_class_prefixes : list (string * CORINFO_InstructionSet) :=
  [ ("Vector128", InstructionSet_Vector128); ("Vector256", InstructionSet_Vector256);
    ("Vector512", InstructionSet_Vector512) ].

(** A name no comparison of [lookupInstructionSet] accepts. *)
Definition unrecognized (className : string) : Prop :=
  (forall isa, ~ In (className, isa) isa_class_names)
  /\ (forall p isa, In (p, isa) vector_class_prefixes -> String.prefix p className = false)
  /\ className <> "VL".

Definition withStack (s : ImpState) (stack : list GenTree) : ImpState :=
  {| esStack := stack; impStmts := impStmts s;
     lvaCount := lvaCount s; lvaSIMDRelated := lvaSIMDRelated s |}.

(** The state after a spill of the entry below the top of the stack. *)
Definition spilledSecond (s : ImpState) (op2 op1 : GenTree) (rest : list GenTree)
  : ImpState :=
  if gtHasSideEffects op1 then
    {| esStack := op2 :: GT_LCL_VAR (TypeGet op1) (lvaCount s) :: rest;
       impStmts := (lvaCount s, op1) :: impStmts s;
       lvaCount := S (lvaCount s);
       lvaSIMDRelated := lvaSIMDRelated s |}
  else s.

(** The shifts [impNonConstFallback] rewrites. *)
Definition shift_family : list NamedIntrinsic :=
  [ NI_SSE2_ShiftLeftLogical; NI_SSE2_ShiftRightArithmetic; NI_SSE2_ShiftRightLogical;
    NI_AVX2_ShiftLeftLogical; NI_AVX2_ShiftRightArithmetic; NI_AVX2_ShiftRightLogical;
    NI_AVX512F_ShiftLeftLogical; NI_AVX512F_ShiftRightArithmetic;
    NI_AVX512F_ShiftRightLogical; NI_AVX512F_VL_ShiftRightArithmetic;
    NI_AVX512BW_ShiftLeftLogical; NI_AVX512BW_ShiftRightArithmetic;
    NI_AVX512BW_ShiftRightLogical ].

(** [simdBaseType] as the prologue of [impSpecialIntrinsic] leaves it. *)
Definition simdBaseTypeOf (simdBaseJitType : CorInfoType) (simdSize : Z) : var_types :=
  if simdSize =? 0 then TYP_UNKNOWN else JitType2PreciseVarType simdBaseJitType.

(** The six labels of the addition case. *)
Definition Add_intrinsics : list NamedIntrinsic :=
  [ NI_Vector128_Add; NI_Vector256_Add; NI_Vector512_Add;
    NI_Vector128_op_Addition; NI_Vector256_op_Addition; NI_Vector512_op_Addition ].

Definition WithElement_intrinsics : list NamedIntrinsic :=
  [ NI_Vector128_WithElement; NI_Vector256_WithElement; NI_Vector512_WithElement ].

Definition GetElement_intrinsics : list NamedIntrinsic :=
  [ NI_Vector128_GetElement; NI_Vector256_GetElement; NI_Vector512_GetElement ].

(** The capability gate of the [GetElement] case. *)
Definition GetElement_supported (simdBaseType : var_types) : bool :=
  match simdBaseType with
  | TYP_BYTE | TYP_UBYTE | TYP_INT | TYP_UINT | TYP_LONG | TYP_ULONG =>
      compExactlyDependsOn InstructionSet_SSE41
  | _ => true
  end.

Definition Shuffle_intrinsics : list NamedIntrinsic :=
  [ NI_Vector128_Shuffle; NI_Vector256_Shuffle ].

(** An index in range whose source is in the other 128-bit half. *)
Definition crossesLane (simdBaseType : var_types) (indices : GenTree) (elementCount : Z)
  (index : Z) : Prop :=
  let value := GetIntegralVectorConstElement indices index simdBaseType in
  value < elementCount
  /\ ((index < elementCount / 2 /\ elementCount / 2 <= value)
      \/ (elementCount / 2 <= index /\ value < elementCount / 2)).

(** A computation that, when it returns null, has left the state alone;
    one that never returns null; one that never changes the state. *)
Definition neutral (m : Imp (option GenTree)) : Prop :=
  forall s s', m s = Done (None, s') -> s' = s.

Definition builds (m : Imp (option GenTree)) : Prop :=
  forall s s', m s <> Done (None, s').

Definition readonly {A : Type} (m : Imp A) : Prop :=
  forall s a s', m s = Done (a, s') -> s' = s.

Definition Create_intrinsics : list NamedIntrinsic :=
  [ NI_Vector128_Create; NI_Vector256_Create; NI_Vector512_Create ].

Definition iconOf (t : GenTree) : Z :=
  match t with GT_CNS_INT _ v => v | _ => 0 end.

Definition dconOf (t : GenTree) : Z :=
  match t with GT_CNS_DBL _ v => v | _ => 0 end.

(** The argument is a constant of the kind the element type asks for. *)
Definition constantOfKind (simdBaseType : var_types) (t : GenTree) : bool :=
  if varTypeIsFloating simdBaseType then IsCnsFltOrDbl t else IsIntegralConst t.

(** The value of a constant argument as a lane of the element type holds
    it: the integer converted to the unsigned type of the lane, the double
    converted to [float], or the double itself; as bits. *)
Definition laneValue (simdBaseType : var_types) (t : GenTree) : Z :=
  match simdBaseType with
  | TYP_BYTE | TYP_UBYTE => wrap 8 (iconOf t)
  | TYP_SHORT | TYP_USHORT => wrap 16 (iconOf t)
  | TYP_INT | TYP_UINT => wrap 32 (iconOf t)
  | TYP_LONG | TYP_ULONG => wrap 64 (iconOf t)
  | TYP_FLOAT => wrap 32 (double_to_float (dconOf t))
  | TYP_DOUBLE => wrap 64 (dconOf t)
  | _ => 0
  end.

Definition elementBytes (simdBaseType : var_types) : nat :=
  Z.to_nat (genTypeSize simdBaseType).

End Vocabulary.

(** [static_cast<float>] on the target: the IEEE-754 conversion of a
    binary64 to the nearest binary32, ties to even, on the bits. *)
Definition decode_binary64 (bits : Z) : spec_float :=
  let sign := Z.odd (bits / 2 ^ 63) in
  let e := (bits / 2 ^ 52) mod 2 ^ 11 in
  let m := bits mod 2 ^ 52 in
  if e =? 0 then
    match m with
    | Zpos p => S754_finite sign p (-1074)
    | _ => S754_zero sign
    end
  else if e =? 2047 then
    if m =? 0 then S754_infinity sign else S754_nan
  else
    match m + 2 ^ 52 with
    | Zpos p => S754_finite sign p (e - 1075)
    | _ => S754_nan
    end.

Definition encode_binary32 (f : spec_float) : Z :=
  let sign (s : bool) := if s then 2 ^ 31 else 0 in
  match f with
  | S754_zero s => sign s
  | S754_infinity s => sign s + 255 * 2 ^ 23
  | S754_nan => 255 * 2 ^ 23 + 2 ^ 22
  | S754_finite s m e =>
      if Zpos m <? 2 ^ 23 then sign s + Zpos m
      else sign s + (e + 150) * 2 ^ 23 + (Zpos m - 2 ^ 23)
  end.

Definition ieee_double_to_float (bits : Z) : Z :=
  encode_binary32
    match decode_binary64 bits with
    | S754_finite s m e => binary_round 24 128 s m e
    | f => f
    end.

(** ** Concrete compilations and calls

    [x64_debug] is a DEBUG build for a 64-bit target with every capability
    granted and a Vector<T> of 32 bytes; [x64_release_sse2] is a release
    build in which no capability beyond the baseline is exact. *)

Definition sample_category (id : NamedIntrinsic) : HWIntrinsicCategory :=
  match id with
  | NI_AVX_Compare | NI_AVX_CompareScalar
  | NI_AVX2_GatherVector128 | NI_AVX2_GatherVector256
  | NI_AVX2_GatherMaskVector128 | NI_AVX2_GatherMaskVector256
  | NI_SSE2_ShiftLeftLogical | NI_SSE2_ShiftRightArithmetic | NI_SSE2_ShiftRightLogical
  | NI_AVX2_ShiftLeftLogical | NI_AVX2_ShiftRightArithmetic | NI_AVX2_ShiftRightLogical
  | NI_AVX2_Permute4x64 => HW_Category_IMM
  | _ => HW_Category_SimpleSIMD
  end.

Definition sample_fullRangeImm (id : NamedIntrinsic) : bool :=
  match id with
  | NI_SSE2_ShiftLeftLogical | NI_SSE2_ShiftRightArithmetic | NI_SSE2_ShiftRightLogical
  | NI_AVX2_ShiftLeftLogical | NI_AVX2_ShiftRightArithmetic | NI_AVX2_ShiftRightLogical
  | NI_AVX2_Permute4x64 => true
  | _ => false
  end.

Definition sample_sideEffects (t : GenTree) : bool :=
  match t with
  | GT_OTHER _ _ => true
  | _ => false
  end.

Definition x64_debug : Jit := {|
  DEBUG := true;
  TARGET_X86 := false;
  compExactlyDependsOn := fun _ => true;
  compOpportunisticallyDependsOn := fun _ => true;
  compIsaSupportedDebugOnly := fun _ => true;
  IsBaselineVector512IsaSupported := true;
  IsBaselineVector512IsaSupportedDebugOnly := true;
  getSIMDVectorRegisterByteLength := 32;
  lookupCategory := sample_category;
  HasFullRangeImm := sample_fullRangeImm;
  NoJmpTableImm := sample_fullRangeImm;
  BaseTypeFromFirstArg := fun _ => true;
  IsMultiReg := fun _ => true;
  lookupIval := fun _ _ => 0;
  double_to_float := ieee_double_to_float;
  gtHasSideEffects := sample_sideEffects;
  areArgumentsContiguous := fun _ _ => false
|}.

Definition x64_release_sse2 : Jit := {|
  DEBUG := false;
  TARGET_X86 := false;
  compExactlyDependsOn := fun _ => false;
  compOpportunisticallyDependsOn := fun _ => false;
  compIsaSupportedDebugOnly := fun _ => false;
  IsBaselineVector512IsaSupported := false;
  IsBaselineVector512IsaSupportedDebugOnly := false;
  getSIMDVectorRegisterByteLength := 16;
  lookupCategory := sample_category;
  HasFullRangeImm := sample_fullRangeImm;
  NoJmpTableImm := sample_fullRangeImm;
  BaseTypeFromFirstArg := fun _ => true;
  IsMultiReg := fun _ => true;
  lookupIval := fun _ _ => 0;
  double_to_float := ieee_double_to_float;
  gtHasSideEffects := sample_sideEffects;
  areArgumentsContiguous := fun _ _ => false
|}.

Definition importerState (stack : list GenTree) : ImpState :=
  {| esStack := stack; impStmts := []; lvaCount := 0; lvaSIMDRelated := [] |}.

Definition signature (n : Z) : CORINFO_SIG_INFO :=
  {| numArgs := n; sigRetType := TYP_STRUCT;
     retTypeClass := undef_class; retTypeSigClass := undef_class; sigArgs := [] |}.

Definition icon (v : Z) : GenTree := GT_CNS_INT TYP_INT v.
Definition dcon (bits : Z) : GenTree := GT_CNS_DBL TYP_DOUBLE bits.
Definition local (ty : var_types) (n : nat) : GenTree := GT_LCL_VAR ty n.

(** [Vector128.Create(1, 2, 3, 4)] over [int]: the vector 1, 2, 3, 4. *)
Definition vector_1234 : simd_t :=
  ([1; 0; 0; 0; 2; 0; 0; 0; 3; 0; 0; 0; 4; 0; 0; 0] ++ repeat 0 48)%list.

(** Shuffles: 32 byte lanes, lane 0 taking its source from lane 16. *)
Definition indices_crossing : simd_t :=
  ([16; 1; 2; 3; 4; 5; 6; 7; 8; 9; 10; 11; 12; 13; 14; 15;
    16; 17; 18; 19; 20; 21; 22; 23; 24; 25; 26; 27; 28; 29; 30; 31] ++ repeat 0 32)%list.

Definition indices_in_lane : simd_t :=
  ([15; 14; 13; 12; 11; 10; 9; 8; 7; 6; 5; 4; 3; 2; 1; 0;
    16; 17; 18; 19; 20; 21; 22; 23; 24; 25; 26; 27; 28; 29; 30; 255] ++ repeat 0 32)%list.

(** ** Vocabulary of the further properties *)

(** *** Instruction sets and their names *)

(** The 64-bit versions of the AVX-512 VL sets. *)
Definition VL_X64_sets : list CORINFO_InstructionSet :=
  [ InstructionSet_AVX512BW_VL_X64; InstructionSet_AVX512CD_VL_X64;
    InstructionSet_AVX512DQ_VL_X64; InstructionSet_AVX512F_VL_X64 ].

(** The classes [VLVersionOfIsa] has an answer for. *)
Definition VL_class_names : list (string * CORINFO_InstructionSet) :=
  [ ("Avx512BW"%string, InstructionSet_AVX512BW); ("Avx512CD"%string, InstructionSet_AVX512CD);
    ("Avx512DQ"%string, InstructionSet_AVX512DQ); ("Avx512F"%string, InstructionSet_AVX512F) ].

(** Every value [lookupInstructionSet] has a [return] for. *)
Definition class_instruction_sets : list CORINFO_InstructionSet :=
  InstructionSet_ILLEGAL :: InstructionSet_Vector128 :: InstructionSet_Vector256
  :: InstructionSet_Vector512 :: map snd isa_class_names.

(** *** What a comparison mode says

    The four results a floating-point comparison of [(op1, op2)] can have,
    and the same comparison seen from [(op2, op1)]. *)
Inductive ComparisonOutcome : Type := Less | Equal | Greater | Unordered.

Definition swapOperands (o : ComparisonOutcome) : ComparisonOutcome :=
  match o with
  | Less => Greater
  | Greater => Less
  | Equal => Equal
  | Unordered => Unordered
  end.

Definition isLess (o : ComparisonOutcome) : bool :=
  match o with Less => true | _ => false end.

Definition isEqual (o : ComparisonOutcome) : bool :=
  match o with Equal => true | _ => false end.

Definition isGreater (o : ComparisonOutcome) : bool :=
  match o with Greater => true | _ => false end.

Definition isUnordered (o : ComparisonOutcome) : bool :=
  match o with Unordered => true | _ => false end.

(** The predicate a mode names, as its name reads: [OrderedLessThan] holds
    of [Less] alone, [UnorderedNotLessThan] of everything but [Less], and so
    on; [Signaling] and [NonSignaling] modes name the same predicate. *)
Definition comparisonHolds (mode : FloatComparisonMode.t) (o : ComparisonOutcome) : bool :=
  match mode with
  | FloatComparisonMode.OrderedEqualNonSignaling
  | FloatComparisonMode.OrderedEqualSignaling => isEqual o
  | FloatComparisonMode.UnorderedNonSignaling
  | FloatComparisonMode.UnorderedSignaling => isUnordered o
  | FloatComparisonMode.UnorderedNotEqualNonSignaling
  | FloatComparisonMode.UnorderedNotEqualSignaling => negb (isEqual o)
  | FloatComparisonMode.OrderedNonSignaling
  | FloatComparisonMode.OrderedSignaling => negb (isUnordered o)
  | FloatComparisonMode.UnorderedEqualNonSignaling
  | FloatComparisonMode.UnorderedEqualSignaling => isEqual o || isUnordered o
  | FloatComparisonMode.OrderedFalseNonSignaling
  | FloatComparisonMode.OrderedFalseSignaling => false
  | FloatComparisonMode.OrderedNotEqualNonSignaling
  | FloatComparisonMode.OrderedNotEqualSignaling => negb (isEqual o) && negb (isUnordered o)
  | FloatComparisonMode.UnorderedTrueNonSignaling
  | FloatComparisonMode.UnorderedTrueSignaling => true
  | FloatComparisonMode.OrderedLessThanSignaling
  | FloatComparisonMode.OrderedLessThanNonSignaling => isLess o
  | FloatComparisonMode.OrderedGreaterThanSignaling
  | FloatComparisonMode.OrderedGreaterThanNonSignaling => isGreater o
  | FloatComparisonMode.OrderedLessThanOrEqualSignaling
  | FloatComparisonMode.OrderedLessThanOrEqualNonSignaling => isLess o || isEqual o
  | FloatComparisonMode.OrderedGreaterThanOrEqualSignaling
  | FloatComparisonMode.OrderedGreaterThanOrEqualNonSignaling => isGreater o || isEqual o
  | FloatComparisonMode.UnorderedNotLessThanSignaling
  | FloatComparisonMode.UnorderedNotLessThanNonSignaling => negb (isLess o)
  | FloatComparisonMode.UnorderedNotGreaterThanSignaling
  | FloatComparisonMode.UnorderedNotGreaterThanNonSignaling => negb (isGreater o)
  | FloatComparisonMode.UnorderedNotLessThanOrEqualSignaling
  | FloatComparisonMode.UnorderedNotLessThanOrEqualNonSignaling =>
      negb (isLess o || isEqual o)
  | FloatComparisonMode.UnorderedNotGreaterThanOrEqualSignaling
  | FloatComparisonMode.UnorderedNotGreaterThanOrEqualNonSignaling =>
      negb (isGreater o || isEqual o)
  end.

(** The mode is one of the [...Signaling] ones. *)
Definition isSignaling (mode : FloatComparisonMode.t) : bool :=
  match mode with
  | FloatComparisonMode.OrderedEqualSignaling
  | FloatComparisonMode.UnorderedSignaling
  | FloatComparisonMode.UnorderedNotEqualSignaling
  | FloatComparisonMode.OrderedSignaling
  | FloatComparisonMode.UnorderedEqualSignaling
  | FloatComparisonMode.OrderedFalseSignaling
  | FloatComparisonMode.OrderedNotEqualSignaling
  | FloatComparisonMode.UnorderedTrueSignaling
  | FloatComparisonMode.OrderedLessThanSignaling
  | FloatComparisonMode.OrderedGreaterThanSignaling
  | FloatComparisonMode.OrderedLessThanOrEqualSignaling
  | FloatComparisonMode.OrderedGreaterThanOrEqualSignaling
  | FloatComparisonMode.UnorderedNotLessThanSignaling
  | FloatComparisonMode.UnorderedNotGreaterThanSignaling
  | FloatComparisonMode.UnorderedNotLessThanOrEqualSignaling
  | FloatComparisonMode.UnorderedNotGreaterThanOrEqualSignaling => true
  | _ => false
  end.

(** *** What an import does to the stack *)

(** A successful run removes the top [k] entries and nothing else. *)
Definition consumesAt (k : nat) (m : Imp (option GenTree)) (s : ImpState) : Prop :=
  forall t s', m s = Done (Some t, s') ->
    (k <= List.length (esStack s))%nat /\ esStack s' = skipn k (esStack s).

(** Every run that returns removes the top [n] entries and nothing else. *)
Definition popsExactly {A : Type} (n : nat) (m : Imp A) : Prop :=
  forall s a s', m s = Done (a, s') ->
    (n <= List.length (esStack s))%nat /\ esStack s' = skipn n (esStack s).

(** A successful run removes some top entries, [z] at least, and nothing
    else. *)
Definition trimsAt (z : nat) (m : Imp (option GenTree)) (s : ImpState) : Prop :=
  forall t s', m s = Done (Some t, s') ->
    exists k, (z <= k <= List.length (esStack s))%nat /\ esStack s' = skipn k (esStack s).

(** The number of entries a call is to consume: the argument count of the
    signature, but for the two cases that never look at it. *)
Definition arity (intrinsic : NamedIntrinsic) (sig : CORINFO_SIG_INFO) : nat :=
  match intrinsic with
  | NI_Vector512_ExtractMostSignificantBits => 1
  | NI_AVX2_PermuteVar8x32 => 2
  | _ => Z.to_nat (numArgs sig)
  end.

(** A computation that returns null whenever it returns. *)
Definition declines (m : Imp (option GenTree)) : Prop :=
  forall s r s', m s = Done (r, s') -> r = None.

(** The operand subtrees of a node, in the order the node has them. *)
Definition operandsOf (t : GenTree) : list GenTree :=
  match t with
  | GT_HWINTRINSIC _ ops _ _ _ _ => ops
  | GT_HELPER _ _ args =>
      flat_map (fun a => match a with A_tree op => [op] | _ => [] end) args
  | _ => []
  end.

(** A successful run builds a node over the [k] top entries, the deepest
    one first, and leaves the entries below them. *)
Definition operandsInOrder (m : Imp (option GenTree)) (s : ImpState) : Prop :=
  forall node s', m s = Done (Some node, s') ->
    exists k, (k <= List.length (esStack s))%nat
              /\ operandsOf node = rev (firstn k (esStack s))
              /\ esStack s' = skipn k (esStack s).

(** *** Families of case labels *)

(** The cases behind [(simdSize != 32) || varTypeIsFloating(simdBaseType) ||
    compExactlyDependsOn(InstructionSet_AVX2)] and nothing else. *)
Definition floating_or_AVX2_gated : list NamedIntrinsic :=
  [ NI_Vector128_Add; NI_Vector256_Add; NI_Vector512_Add; NI_Vector128_op_Addition;
    NI_Vector256_op_Addition; NI_Vector512_op_Addition; NI_Vector128_Equals;
    NI_Vector256_Equals; NI_Vector512_Equals; NI_Vector128_EqualsAll;
    NI_Vector256_EqualsAll; NI_Vector128_op_Equality; NI_Vector256_op_Equality;
    NI_Vector128_GreaterThan; NI_Vector256_GreaterThan; NI_Vector128_GreaterThanOrEqual;
    NI_Vector256_GreaterThanOrEqual; NI_Vector128_LessThan; NI_Vector256_LessThan;
    NI_Vector128_LessThanOrEqual; NI_Vector256_LessThanOrEqual; NI_Vector128_Max;
    NI_Vector256_Max; NI_Vector128_Min; NI_Vector256_Min; NI_Vector128_Narrow;
    NI_Vector256_Narrow; NI_Vector512_Narrow; NI_Vector128_Negate; NI_Vector256_Negate;
    NI_Vector128_op_UnaryNegation; NI_Vector256_op_UnaryNegation;
    NI_Vector128_op_Inequality; NI_Vector256_op_Inequality; NI_Vector128_Subtract;
    NI_Vector256_Subtract; NI_Vector512_Subtract; NI_Vector128_op_Subtraction;
    NI_Vector256_op_Subtraction; NI_Vector512_op_Subtraction; NI_Vector128_WidenLower;
    NI_Vector256_WidenLower; NI_Vector512_WidenLower; NI_Vector128_WidenUpper;
    NI_Vector256_WidenUpper; NI_Vector512_WidenUpper ].

(** The cases behind [(simdSize != 32) ||
    compExactlyDependsOn(InstructionSet_AVX2)] and nothing else. *)
Definition AVX2_gated : list NamedIntrinsic :=
  [ NI_Vector128_EqualsAny; NI_Vector256_EqualsAny; NI_Vector128_GreaterThanAll;
    NI_Vector256_GreaterThanAll; NI_Vector128_GreaterThanAny; NI_Vector256_GreaterThanAny;
    NI_Vector128_GreaterThanOrEqualAll; NI_Vector256_GreaterThanOrEqualAll;
    NI_Vector128_GreaterThanOrEqualAny; NI_Vector256_GreaterThanOrEqualAny;
    NI_Vector128_LessThanAll; NI_Vector256_LessThanAll; NI_Vector128_LessThanAny;
    NI_Vector256_LessThanAny; NI_Vector128_LessThanOrEqualAll;
    NI_Vector256_LessThanOrEqualAll; NI_Vector128_LessThanOrEqualAny;
    NI_Vector256_LessThanOrEqualAny ].

(** The labels of the case that folds the cast away. *)
Definition As_intrinsics : list NamedIntrinsic :=
  [ NI_Vector128_As; NI_Vector128_AsByte; NI_Vector128_AsDouble; NI_Vector128_AsInt16;
    NI_Vector128_AsInt32; NI_Vector128_AsInt64; NI_Vector128_AsNInt; NI_Vector128_AsNUInt;
    NI_Vector128_AsSByte; NI_Vector128_AsSingle; NI_Vector128_AsUInt16;
    NI_Vector128_AsUInt32; NI_Vector128_AsUInt64; NI_Vector128_AsVector4; NI_Vector256_As;
    NI_Vector256_AsByte; NI_Vector256_AsDouble; NI_Vector256_AsInt16; NI_Vector256_AsInt32;
    NI_Vector256_AsInt64; NI_Vector256_AsNInt; NI_Vector256_AsNUInt; NI_Vector256_AsSByte;
    NI_Vector256_AsSingle; NI_Vector256_AsUInt16; NI_Vector256_AsUInt32;
    NI_Vector256_AsUInt64; NI_Vector512_As; NI_Vector512_AsByte; NI_Vector512_AsDouble;
    NI_Vector512_AsInt16; NI_Vector512_AsInt32; NI_Vector512_AsInt64; NI_Vector512_AsNInt;
    NI_Vector512_AsNUInt; NI_Vector512_AsSByte; NI_Vector512_AsSingle;
    NI_Vector512_AsUInt16; NI_Vector512_AsUInt32; NI_Vector512_AsUInt64 ].

Definition CreateScalar_intrinsics : list NamedIntrinsic :=
  [ NI_Vector128_CreateScalar; NI_Vector256_CreateScalar; NI_Vector512_CreateScalar ].

Definition CreateScalarUnsafe_intrinsics : list NamedIntrinsic :=
  [ NI_Vector128_CreateScalarUnsafe; NI_Vector256_CreateScalarUnsafe;
    NI_Vector512_CreateScalarUnsafe ].

Definition AndNot_intrinsics : list NamedIntrinsic :=
  [ NI_Vector128_AndNot; NI_Vector256_AndNot; NI_Vector512_AndNot ].

(** The labels of the three cases that store a vector through a pointer
    after a spill. *)
Definition Store_intrinsics : list NamedIntrinsic :=
  [ NI_Vector128_Store; NI_Vector256_Store; NI_Vector512_Store;
    NI_Vector128_StoreUnsafe; NI_Vector256_StoreUnsafe; NI_Vector512_StoreUnsafe;
    NI_Vector128_StoreAligned; NI_Vector256_StoreAligned; NI_Vector512_StoreAligned;
    NI_Vector128_StoreAlignedNonTemporal; NI_Vector256_StoreAlignedNonTemporal;
    NI_Vector512_StoreAlignedNonTemporal ].

(** The cases whose node takes the popped entries as they are, first
    argument first. *)
Definition operands_in_argument_order : list NamedIntrinsic :=
  [ NI_Vector128_Abs; NI_Vector256_Abs; NI_Vector128_Add; NI_Vector256_Add;
    NI_Vector512_Add; NI_Vector128_op_Addition; NI_Vector256_op_Addition;
    NI_Vector512_op_Addition; NI_Vector128_AsVector2; NI_Vector128_AsVector3;
    NI_Vector128_BitwiseAnd; NI_Vector256_BitwiseAnd; NI_Vector512_BitwiseAnd;
    NI_Vector128_op_BitwiseAnd; NI_Vector256_op_BitwiseAnd; NI_Vector512_op_BitwiseAnd;
    NI_Vector128_BitwiseOr; NI_Vector256_BitwiseOr; NI_Vector512_BitwiseOr;
    NI_Vector128_op_BitwiseOr; NI_Vector256_op_BitwiseOr; NI_Vector512_op_BitwiseOr;
    NI_Vector128_Ceiling; NI_Vector256_Ceiling; NI_Vector128_ConditionalSelect;
    NI_Vector256_ConditionalSelect; NI_Vector128_ConvertToInt32;
    NI_Vector256_ConvertToInt32; NI_Vector128_ConvertToSingle; NI_Vector256_ConvertToSingle;
    NI_Vector128_CreateScalar; NI_Vector256_CreateScalar; NI_Vector512_CreateScalar;
    NI_Vector128_CreateScalarUnsafe; NI_Vector256_CreateScalarUnsafe;
    NI_Vector512_CreateScalarUnsafe; NI_Vector128_Divide; NI_Vector256_Divide;
    NI_Vector128_op_Division; NI_Vector256_op_Division; NI_Vector128_Dot; NI_Vector256_Dot;
    NI_Vector128_Equals; NI_Vector256_Equals; NI_Vector512_Equals; NI_Vector512_EqualsAll;
    NI_Vector512_op_Equality; NI_Vector128_EqualsAll; NI_Vector256_EqualsAll;
    NI_Vector128_op_Equality; NI_Vector256_op_Equality; NI_Vector512_EqualsAny;
    NI_Vector128_EqualsAny; NI_Vector256_EqualsAny; NI_Vector512_ExtractMostSignificantBits;
    NI_Vector128_Floor; NI_Vector256_Floor; NI_Vector128_get_AllBitsSet;
    NI_Vector256_get_AllBitsSet; NI_Vector512_get_AllBitsSet; NI_Vector128_get_One;
    NI_Vector256_get_One; NI_Vector512_get_One; NI_Vector128_get_Zero;
    NI_Vector256_get_Zero; NI_Vector512_get_Zero; NI_Vector128_GetElement;
    NI_Vector256_GetElement; NI_Vector512_GetElement; NI_Vector128_GreaterThan;
    NI_Vector256_GreaterThan; NI_Vector128_GreaterThanAll; NI_Vector256_GreaterThanAll;
    NI_Vector128_GreaterThanAny; NI_Vector256_GreaterThanAny;
    NI_Vector128_GreaterThanOrEqual; NI_Vector256_GreaterThanOrEqual;
    NI_Vector128_GreaterThanOrEqualAll; NI_Vector256_GreaterThanOrEqualAll;
    NI_Vector128_GreaterThanOrEqualAny; NI_Vector256_GreaterThanOrEqualAny;
    NI_Vector128_LessThan; NI_Vector256_LessThan; NI_Vector128_LessThanAll;
    NI_Vector256_LessThanAll; NI_Vector128_LessThanAny; NI_Vector256_LessThanAny;
    NI_Vector128_LessThanOrEqual; NI_Vector256_LessThanOrEqual;
    NI_Vector128_LessThanOrEqualAll; NI_Vector256_LessThanOrEqualAll;
    NI_Vector128_LessThanOrEqualAny; NI_Vector256_LessThanOrEqualAny; NI_Vector128_Max;
    NI_Vector256_Max; NI_Vector128_Min; NI_Vector256_Min; NI_Vector128_Multiply;
    NI_Vector256_Multiply; NI_Vector128_op_Multiply; NI_Vector256_op_Multiply;
    NI_Vector128_Narrow; NI_Vector256_Narrow; NI_Vector512_Narrow; NI_Vector128_Negate;
    NI_Vector256_Negate; NI_Vector128_op_UnaryNegation; NI_Vector256_op_UnaryNegation;
    NI_Vector128_OnesComplement; NI_Vector256_OnesComplement; NI_Vector512_OnesComplement;
    NI_Vector128_op_OnesComplement; NI_Vector256_op_OnesComplement;
    NI_Vector512_op_OnesComplement; NI_Vector128_op_Inequality; NI_Vector256_op_Inequality;
    NI_Vector512_op_Inequality; NI_Vector128_Subtract; NI_Vector256_Subtract;
    NI_Vector512_Subtract; NI_Vector128_op_Subtraction; NI_Vector256_op_Subtraction;
    NI_Vector512_op_Subtraction; NI_Vector128_ShiftLeft; NI_Vector256_ShiftLeft;
    NI_Vector128_op_LeftShift; NI_Vector256_op_LeftShift; NI_Vector128_ShiftRightArithmetic;
    NI_Vector256_ShiftRightArithmetic; NI_Vector128_op_RightShift;
    NI_Vector256_op_RightShift; NI_Vector128_ShiftRightLogical;
    NI_Vector256_ShiftRightLogical; NI_Vector128_op_UnsignedRightShift;
    NI_Vector256_op_UnsignedRightShift; NI_Vector128_Shuffle; NI_Vector256_Shuffle;
    NI_Vector128_Sqrt; NI_Vector256_Sqrt; NI_Vector128_Sum; NI_Vector256_Sum;
    NI_Vector128_ToScalar; NI_Vector256_ToScalar; NI_Vector512_ToScalar;
    NI_Vector128_ToVector256; NI_Vector128_ToVector256Unsafe; NI_Vector256_GetLower;
    NI_Vector256_GetUpper; NI_Vector512_GetLower; NI_Vector512_GetUpper;
    NI_Vector128_ToVector512; NI_Vector256_ToVector512; NI_Vector256_ToVector512Unsafe;
    NI_Vector512_GetLower128; NI_Vector128_WidenLower; NI_Vector256_WidenLower;
    NI_Vector512_WidenLower; NI_Vector128_WidenUpper; NI_Vector256_WidenUpper;
    NI_Vector512_WidenUpper; NI_Vector256_WithLower; NI_Vector256_WithUpper;
    NI_Vector512_WithLower; NI_Vector512_WithUpper; NI_Vector128_Xor; NI_Vector256_Xor;
    NI_Vector512_Xor; NI_Vector128_op_ExclusiveOr; NI_Vector256_op_ExclusiveOr;
    NI_Vector512_op_ExclusiveOr; NI_X86Base_Pause; NI_X86Serialize_Serialize;
    NI_SSE_Prefetch0; NI_SSE_Prefetch1; NI_SSE_Prefetch2; NI_SSE_PrefetchNonTemporal;
    NI_SSE_StoreFence; NI_SSE2_LoadFence; NI_SSE2_MemoryFence; NI_SSE2_StoreNonTemporal;
    NI_AVX2_GatherMaskVector128; NI_AVX2_GatherMaskVector256 ].

(** The cases that pop two entries and hand them over last argument
    first. *)
Definition operands_swapped : list NamedIntrinsic :=
  [ NI_BMI2_ZeroHighBits; NI_BMI2_X64_ZeroHighBits; NI_BMI1_BitFieldExtract;
    NI_BMI1_X64_BitFieldExtract ].

Section FurtherVocabulary.

Context {jit : Jit}.

Local Open Scope string_scope.
Local Open Scope Z_scope.

(** The state after [SetOpLclRelatedToSIMDIntrinsic(op)]. *)
Definition markSIMDRelated (s : ImpState) (op : GenTree) : ImpState :=
  match op with
  | GT_LCL_VAR _ lclNum =>
      {| esStack := esStack s; impStmts := impStmts s; lvaCount := lvaCount s;
         lvaSIMDRelated := lclNum :: lvaSIMDRelated s |}
  | _ => s
  end.

(** The calls that are a cast between vector types of one width: the [As]
    family, and [AsVector] where [Vector<T>] has the width of the class. *)
Definition reinterprets (intrinsic : NamedIntrinsic) : Prop :=
  In intrinsic As_intrinsics
  \/ (intrinsic = NI_Vector128_AsVector
      /\ getSIMDVectorRegisterByteLength = XMM_REGSIZE_BYTES)
  \/ ((intrinsic = NI_Vector256_AsVector \/ intrinsic = NI_Vector256_AsVector256)
      /\ getSIMDVectorRegisterByteLength = YMM_REGSIZE_BYTES).

(** The resize an [AsVector] call is treated as, with the size it is
    imported at, where [Vector<T>] has another width than the class. *)
Definition AsVector_target (intrinsic : NamedIntrinsic) (simdSize : Z)
  : option (NamedIntrinsic * Z) :=
  let vectorT := getSIMDVectorRegisterByteLength in
  match intrinsic with
  | NI_Vector128_AsVector =>
      if vectorT =? YMM_REGSIZE_BYTES then Some (NI_Vector128_ToVector256, simdSize)
      else None
  | NI_Vector256_AsVector =>
      if vectorT =? YMM_REGSIZE_BYTES then None
      else if (vectorT =? XMM_REGSIZE_BYTES) && compExactlyDependsOn InstructionSet_AVX
      then Some (NI_Vector256_GetLower, simdSize) else None
  | NI_Vector256_AsVector256 =>
      if vectorT =? YMM_REGSIZE_BYTES then None
      else if (vectorT =? XMM_REGSIZE_BYTES) && compExactlyDependsOn InstructionSet_AVX
      then Some (NI_Vector128_ToVector256, 16) else None
  | NI_Vector512_AsVector =>
      if vectorT =? YMM_REGSIZE_BYTES then Some (NI_Vector512_GetLower, simdSize)
      else if (vectorT =? XMM_REGSIZE_BYTES) && compExactlyDependsOn InstructionSet_AVX512F
      then Some (NI_Vector512_GetLower128, simdSize) else None
  | NI_Vector512_AsVector512 =>
      if vectorT =? YMM_REGSIZE_BYTES then Some (NI_Vector256_ToVector512, 32)
      else if (vectorT =? XMM_REGSIZE_BYTES) && compExactlyDependsOn InstructionSet_AVX512F
      then Some (NI_Vector128_ToVector512, 16) else None
  | _ => None
  end.

(** The constructor a one-argument creation calls. *)
Definition createsFromOne (intrinsic : NamedIntrinsic)
  (build : var_types -> list GenTree -> CorInfoType -> Z -> GenTree) : Prop :=
  (In intrinsic Create_intrinsics /\ build = gtNewSimdCreateBroadcastNode)
  \/ (In intrinsic CreateScalar_intrinsics /\ build = gtNewSimdCreateScalarNode)
  \/ (In intrinsic CreateScalarUnsafe_intrinsics
      /\ build = gtNewSimdCreateScalarUnsafeNode).

(** Each argument is contiguous in memory with the next one. *)
Fixpoint adjacentContiguous (args : list GenTree) : bool :=
  match args with
  | a :: (b :: _) as rest => areArgumentsContiguous a b && adjacentContiguous rest
  | _ => true
  end.

(** The capability gate of the [WithElement] case. *)
Definition WithElement_supported (simdBaseType : var_types) : bool :=
  match simdBaseType with
  | TYP_BYTE | TYP_UBYTE | TYP_INT | TYP_UINT =>
      compExactlyDependsOn InstructionSet_SSE41
  | TYP_LONG | TYP_ULONG =>
      compExactlyDependsOn InstructionSet_SSE41_X64
  | _ => true
  end.

(** What is left of a stack entry once its side effects are spilled: a use
    of the temporary it went to, or the entry itself. *)
Definition spilledUse (s : ImpState) (t : GenTree) : GenTree :=
  if gtHasSideEffects t then GT_LCL_VAR (TypeGet t) (lvaCount s) else t.

End FurtherVocabulary.

(** Calls the further properties are evaluated on: a class of a width and
    an element type, a signature whose return class and parameters are
    given, and a [Vector2] constant of two lanes. *)
Definition vector_class (simdBaseJitType : CorInfoType) (size : Z) : CORINFO_CLASS :=
  {| clsBaseJitType := simdBaseJitType; clsSize := size |}.

Definition signature_of (n : Z) (ret : CORINFO_CLASS)
  (args : list (CorInfoType * CORINFO_CLASS)) : CORINFO_SIG_INFO :=
  {| numArgs := n; sigRetType := TYP_STRUCT;
     retTypeClass := ret; retTypeSigClass := ret; sigArgs := args |}.

Definition vector2_12 : simd_t :=
  ([0; 0; 128; 63; 0; 0; 0; 64; 7; 7; 7; 7; 9; 9; 9; 9] ++ repeat 0 48)%list.

(** * Properties *)

(** ** Comparison modes under swapped operands *)

Lemma all_FloatComparisonModes_complete (p : FloatComparisonMode.t) :
  In p all_FloatComparisonModes.
Proof. destruct p; simpl; tauto. Qed.

Lemma all_FloatComparisonModes_NoDup : NoDup all_FloatComparisonModes.
Proof.
  unfold all_FloatComparisonModes.
  repeat (constructor; [simpl; intuition discriminate |]).
  constructor.
Qed.

(** C2. [lookupFloatComparisonModeForSwappedArgs] is an involution on the
    32 comparison modes, and exactly 16 of them are fixed points: the
    enumeration lists each mode once, 32 in all, and its members that the
    function maps to themselves are 16. *)
Theorem lookupFloatComparisonModeForSwappedArgs_involution :
  (forall p, lookupFloatComparisonModeForSwappedArgs
               (lookupFloatComparisonModeForSwappedArgs p) = p)
  /\ List.length all_FloatComparisonModes = 32%nat
  /\ NoDup all_FloatComparisonModes
  /\ (forall p, In p all_FloatComparisonModes)
  /\ List.length swap_fixed_points = 16%nat
  /\ (forall p, In p swap_fixed_points <-> lookupFloatComparisonModeForSwappedArgs p = p).
Proof.
  split; [intros p; destruct p; reflexivity |].
  split; [reflexivity |].
  split; [exact all_FloatComparisonModes_NoDup |].
  split; [exact all_FloatComparisonModes_complete |].
  split; [reflexivity |].
  intros p; unfold swap_fixed_points; rewrite filter_In; split.
  - intros [_ H]. destruct p; simpl in H; try discriminate; reflexivity.
  - intros H; split; [apply all_FloatComparisonModes_complete |].
    destruct p; simpl in H; try discriminate; reflexivity.
Qed.

(** ** The immediate upper bound *)

Section ImmUpperBound.

Context {jit : Jit}.

Lemma isAVX2GatherIntrinsic_iff (id : NamedIntrinsic) :
  isAVX2GatherIntrinsic id = true <->
  id = NI_AVX2_GatherVector128 \/ id = NI_AVX2_GatherVector256 \/
  id = NI_AVX2_GatherMaskVector128 \/ id = NI_AVX2_GatherMaskVector256.
Proof.
  split.
  - destruct id; simpl; intros H; try discriminate; tauto.
  - intros [H | [H | [H | H]]]; subst; reflexivity.
Qed.

Lemma is_AVX_Compare_iff (id : NamedIntrinsic) :
  is_AVX_Compare id = true <-> id = NI_AVX_Compare \/ id = NI_AVX_CompareScalar.
Proof.
  split.
  - destruct id; simpl; intros H; try discriminate; tauto.
  - intros [H | H]; subst; reflexivity.
Qed.

Lemma lookupImmUpperBound_value (id : NamedIntrinsic) :
  lookupCategory id = HW_Category_IMM ->
  (DEBUG = true -> isAVX2GatherIntrinsic id = false ->
   HasFullRangeImm id = negb (is_AVX_Compare id)) ->
  lookupImmUpperBound id =
  Done (if is_AVX_Compare id then 31 else if isAVX2GatherIntrinsic id then 8 else 255).
Proof.
  intros Hcat Hflag.
  unfold lookupImmUpperBound, assertC.
  rewrite Hcat; simpl HWIntrinsicCategory_eqb.
  rewrite andb_false_r; simpl bindC.
  destruct id; simpl in Hflag |- *; try reflexivity;
    (destruct DEBUG; simpl; [rewrite (Hflag eq_refl eq_refl) |]; reflexivity).
Qed.

(** C3. For an intrinsic of the immediate category, [lookupImmUpperBound]
    returns 31 for [NI_AVX_Compare] and [NI_AVX_CompareScalar], 8 for the
    four gather intrinsics, which are the ones [isAVX2GatherIntrinsic]
    accepts, and 255 for every other one: one of 8, 31 and 255 in all.  The
    second premise is what the function asserts of the flag table in a
    DEBUG build. *)
Theorem lookupImmUpperBound_table (id : NamedIntrinsic) :
  lookupCategory id = HW_Category_IMM ->
  (DEBUG = true -> isAVX2GatherIntrinsic id = false ->
   HasFullRangeImm id = negb (is_AVX_Compare id)) ->
  exists bound,
    lookupImmUpperBound id = Done bound
    /\ (bound = 8 \/ bound = 31 \/ bound = 255)
    /\ (bound = 31 <-> id = NI_AVX_Compare \/ id = NI_AVX_CompareScalar)
    /\ (bound = 8 <-> isAVX2GatherIntrinsic id = true)
    /\ (isAVX2GatherIntrinsic id = true <->
        id = NI_AVX2_GatherVector128 \/ id = NI_AVX2_GatherVector256 \/
        id = NI_AVX2_GatherMaskVector128 \/ id = NI_AVX2_GatherMaskVector256)
    /\ (bound = 255 <-> is_AVX_Compare id = false /\ isAVX2GatherIntrinsic id = false).
Proof.
  intros Hcat Hflag.
  eexists; split; [apply lookupImmUpperBound_value; assumption |].
  pose proof (isAVX2GatherIntrinsic_iff id) as Hg.
  pose proof (is_AVX_Compare_iff id) as Hc.
  assert (Hexcl : is_AVX_Compare id = true -> isAVX2GatherIntrinsic id = false)
    by (destruct id; simpl; intros H; (discriminate H || reflexivity)).
  destruct (is_AVX_Compare id) eqn:Ecmp;
    [rewrite (Hexcl eq_refl) in * | destruct (isAVX2GatherIntrinsic id) eqn:Egat];
    repeat split; intros; try lia; try tauto; try discriminate;
    try (apply Hc in H; discriminate); try (destruct H; discriminate).
Qed.

End ImmUpperBound.

Lemma lookupImmUpperBound_table_witness :
  exists bound,
    @lookupImmUpperBound x64_debug NI_AVX2_GatherMaskVector256 = Done bound
    /\ (bound = 8 \/ bound = 31 \/ bound = 255)
    /\ (bound = 31 <-> NI_AVX2_GatherMaskVector256 = NI_AVX_Compare
                      \/ NI_AVX2_GatherMaskVector256 = NI_AVX_CompareScalar)
    /\ (bound = 8 <-> isAVX2GatherIntrinsic NI_AVX2_GatherMaskVector256 = true)
    /\ (isAVX2GatherIntrinsic NI_AVX2_GatherMaskVector256 = true <->
        NI_AVX2_GatherMaskVector256 = NI_AVX2_GatherVector128
        \/ NI_AVX2_GatherMaskVector256 = NI_AVX2_GatherVector256
        \/ NI_AVX2_GatherMaskVector256 = NI_AVX2_GatherMaskVector128
        \/ NI_AVX2_GatherMaskVector256 = NI_AVX2_GatherMaskVector256)
    /\ (bound = 255 <-> is_AVX_Compare NI_AVX2_GatherMaskVector256 = false
                       /\ isAVX2GatherIntrinsic NI_AVX2_GatherMaskVector256 = false).
Proof.
  apply (@lookupImmUpperBound_table x64_debug NI_AVX2_GatherMaskVector256).
  - reflexivity.
  - intros _ H; simpl in H; discriminate H.
Defined.

Example lookupImmUpperBound_compare :
  @lookupImmUpperBound x64_debug NI_AVX_CompareScalar = Done 31.
Proof. reflexivity. Qed.

Example lookupImmUpperBound_shift :
  @lookupImmUpperBound x64_debug NI_AVX2_ShiftLeftLogical = Done 255.
Proof. reflexivity. Qed.

Example lookupImmUpperBound_not_imm :
  @lookupImmUpperBound x64_debug NI_Vector128_Add
  = Fatal "HWIntrinsicInfo::lookupCategory(id) == HW_Category_IMM".
Proof. reflexivity. Qed.

(** ** Instruction-set names *)

Section InstructionSetNames.

Context {jit : Jit}.

Local Open Scope string_scope.
Local Open Scope Z_scope.

Lemma assertC_true (msg : string) : assertC true msg = Done tt.
Proof. unfold assertC; simpl; rewrite andb_false_r; reflexivity. Qed.

Lemma lookupInstructionSet_known (className : string) (isa : CORINFO_InstructionSet) :
  In (className, isa) isa_class_names ->
  lookupInstructionSet (Some className) = Done isa.
Proof.
  intros H; unfold lookupInstructionSet; rewrite assertC_true; simpl bindC.
  simpl in H.
  repeat (destruct H as [H | H]; [inversion H; subst; reflexivity |]).
  contradiction.
Qed.

Lemma lookupInstructionSet_returns (className : string) :
  className <> "VL" ->
  exists isa, lookupInstructionSet (Some className) = Done isa.
Proof.
  intros Hvl; unfold lookupInstructionSet; rewrite assertC_true; simpl bindC.
  repeat match goal with
         | |- context [if ?c then _ else _] => destruct c eqn:?
         end;
    try (eexists; reflexivity).
  exfalso; apply Hvl; apply String.eqb_eq; assumption.
Qed.

Lemma lookupInstructionSet_unrecognized (className : string) :
  unrecognized className ->
  lookupInstructionSet (Some className) = Done InstructionSet_ILLEGAL.
Proof.
  intros (Hname & Hprefix & Hvl).
  unfold lookupInstructionSet; rewrite assertC_true; simpl bindC.
  repeat match goal with
         | |- context [if ?c then _ else _] => destruct c eqn:?
         end;
    try reflexivity; exfalso;
    try match goal with
        | H : strcmp_eq className "VL" = true |- _ =>
            apply Hvl; apply String.eqb_eq; exact H
        end;
    try match goal with
        | H : strcmp_eq className ?n = true |- _ =>
            apply String.eqb_eq in H; subst className;
            eapply Hname; simpl; repeat ((left; reflexivity) || right)
        end;
    match goal with
    | H : strncmp_eq className ?p = true |- _ =>
        unfold strncmp_eq in H;
        erewrite Hprefix in H; [discriminate H | simpl; repeat ((left; reflexivity) || right)]
    end.
Qed.

Lemma lookupInstructionSet_VL :
  lookupInstructionSet (Some "VL") =
  if DEBUG then Fatal VL_not_implemented else Done InstructionSet_ILLEGAL.
Proof.
  unfold lookupInstructionSet; rewrite assertC_true; simpl.
  unfold assertC; simpl; rewrite andb_true_r.
  destruct DEBUG; reflexivity.
Qed.

(** C9, as amended.  [lookupInstructionSet] never stops on a name other
    than "VL" and gives [InstructionSet_ILLEGAL] for every name it does not
    recognize.  For "VL" it gives no sentinel of its own: a DEBUG build
    stops on the not-yet-implemented assertion and any other build returns
    the same [InstructionSet_ILLEGAL]. *)
Theorem lookupInstructionSet_unrecognized_or_VL :
  (forall className, className <> "VL" ->
     exists isa, lookupInstructionSet (Some className) = Done isa)
  /\ (forall className, unrecognized className ->
        lookupInstructionSet (Some className) = Done InstructionSet_ILLEGAL)
  /\ lookupInstructionSet (Some "VL") =
     (if DEBUG then Fatal VL_not_implemented else Done InstructionSet_ILLEGAL).
Proof.
  split; [exact lookupInstructionSet_returns |].
  split; [exact lookupInstructionSet_unrecognized | exact lookupInstructionSet_VL].
Qed.

End InstructionSetNames.

Lemma unrecognized_Avx1024 : unrecognized "Avx1024".
Proof.
  unfold unrecognized; repeat split.
  - intros isa H; simpl in H.
    repeat (destruct H as [H | H]; [discriminate H |]); contradiction.
  - intros p isa H; simpl in H.
    repeat (destruct H as [H | H]; [inversion H; subst; reflexivity |]); contradiction.
  - discriminate.
Qed.

Lemma lookupInstructionSet_unrecognized_or_VL_witness :
  (exists isa, @lookupInstructionSet x64_debug (Some "Avx1024"%string) = Done isa)
  /\ @lookupInstructionSet x64_debug (Some "Avx1024"%string) = Done InstructionSet_ILLEGAL
  /\ @lookupInstructionSet x64_debug (Some "VL"%string) = Fatal VL_not_implemented.
Proof.
  destruct (@lookupInstructionSet_unrecognized_or_VL x64_debug) as (Hret & Hill & Hvl).
  split; [apply Hret; discriminate |].
  split; [apply Hill; exact unrecognized_Avx1024 | exact Hvl].
Defined.

(** C9, as stated, fails: what a release build returns for "VL" is the
    sentinel of an unrecognized name, and a DEBUG build returns nothing. *)
Lemma lookupInstructionSet_VL_not_distinguished :
  @lookupInstructionSet x64_release_sse2 (Some "VL"%string) = Done InstructionSet_ILLEGAL
  /\ @lookupInstructionSet x64_release_sse2 (Some "VL"%string)
     = @lookupInstructionSet x64_release_sse2 (Some "Avx1024"%string)
  /\ @lookupInstructionSet x64_debug (Some "VL"%string) = Fatal VL_not_implemented.
Proof. repeat split. Qed.

Example lookupIsa_X64 :
  @lookupIsa x64_debug (Some "X64"%string) (Some "Avx2"%string) = Done InstructionSet_AVX2_X64.
Proof. reflexivity. Qed.

Example lookupIsa_VL :
  @lookupIsa x64_debug (Some "VL"%string) (Some "Avx512F"%string) = Done InstructionSet_AVX512F_VL.
Proof. reflexivity. Qed.

Example lookupIsa_VL_X64 :
  @lookupIsa x64_release_sse2 (Some "X64"%string) (Some "VL"%string) = Done InstructionSet_NONE.
Proof. reflexivity. Qed.

Example lookupInstructionSet_generic_vector :
  @lookupInstructionSet x64_debug (Some "Vector256`1"%string) = Done InstructionSet_Vector256.
Proof. reflexivity. Qed.

(** ** Running the importer's operations *)

Section StackLemmas.

Context {jit : Jit}.

Local Open Scope string_scope.
Local Open Scope Z_scope.

Lemma withStack_same (s : ImpState) : withStack s (esStack s) = s.
Proof. destruct s; reflexivity. Qed.

Lemma assert_true (msg : string) (s : ImpState) : assert_ true msg s = Done (tt, s).
Proof. unfold assert_, liftC; rewrite assertC_true; reflexivity. Qed.

(** An assertion whose condition holds in DEBUG builds does nothing. *)
Lemma assert_holds (cond : bool) (msg : string) (s : ImpState) :
  (DEBUG = true -> cond = true) -> assert_ cond msg s = Done (tt, s).
Proof.
  intros H; unfold assert_, liftC, assertC.
  destruct DEBUG; [rewrite (H eq_refl) |]; reflexivity.
Qed.

Lemma impPopStack_cons (s : ImpState) (t : GenTree) (rest : list GenTree) :
  esStack s = t :: rest -> impPopStack s = Done (t, withStack s rest).
Proof. intros H; unfold impPopStack; rewrite H; reflexivity. Qed.

Lemma impSpillSideEffect_second (s : ImpState) (op2 op1 : GenTree) (rest : list GenTree) :
  esStack s = op2 :: op1 :: rest ->
  impSpillSideEffect true (esStackDepth s - 2) s = Done (tt, spilledSecond s op2 op1 rest).
Proof.
  intros H; unfold impSpillSideEffect, spilledSecond, esStackDepth.
  rewrite H; cbn [List.length].
  replace (Z.of_nat (S (S (List.length rest))) - 2) with (Z.of_nat (List.length rest)) by lia.
  replace (Z.of_nat (List.length rest) <? 0) with false by (symmetry; apply Z.ltb_ge; lia).
  replace (Z.of_nat (S (S (List.length rest))) <=? Z.of_nat (List.length rest)) with false
    by (symmetry; apply Z.leb_gt; lia).
  replace (Z.to_nat (Z.of_nat (S (S (List.length rest))) - 1 - Z.of_nat (List.length rest)))
    with 1%nat by lia.
  simpl. destruct (gtHasSideEffects op1); reflexivity.
Qed.

End StackLemmas.

(** ** The fallback for a shift by a count that is no constant *)

Section FallbackProperties.

Context {jit : Jit}.

Local Open Scope string_scope.
Local Open Scope Z_scope.

(** C7.  On a shift of the family, with the count [op2] on top of the
    stack and the vector [op1] below it, [impNonConstFallback] first spills
    the side effects of [op1], the entry below the top, then pops both and
    returns the same shift applied to [op1] (the temporary, if it was
    spilled) and to [ConvertScalarToVector128Int32] of the count, a 16-byte
    node over [int]; the spill adds one statement at most.  On any other
    intrinsic it returns null and leaves the state alone. *)
Theorem impNonConstFallback_shift_family
  (intrinsic : NamedIntrinsic) (simdType : var_types) (simdBaseJitType : CorInfoType)
  (s : ImpState) (op2 op1 : GenTree) (rest : list GenTree) :
  (DEBUG = true -> NoJmpTableImm intrinsic = true) ->
  (In intrinsic shift_family ->
   esStack s = op2 :: op1 :: rest ->
   let s1 := spilledSecond s op2 op1 rest in
   let op1' := if gtHasSideEffects op1
               then GT_LCL_VAR (TypeGet op1) (lvaCount s) else op1 in
   let tmpOp := GT_HWINTRINSIC TYP_SIMD16 [op2] NI_SSE2_ConvertScalarToVector128Int32
                               CORINFO_TYPE_INT 16 CORINFO_TYPE_UNDEF in
   impNonConstFallback intrinsic simdType simdBaseJitType s =
   Done (Some (GT_HWINTRINSIC simdType [op1'; tmpOp] intrinsic simdBaseJitType
                              (genTypeSize simdType) CORINFO_TYPE_UNDEF),
         withStack s1 rest)
   /\ (List.length (impStmts s1) <= S (List.length (impStmts s)))%nat)
  /\ (~ In intrinsic shift_family ->
      impNonConstFallback intrinsic simdType simdBaseJitType s = Done (None, s)).
Proof.
  intros Hflag; split.
  - intros Hin Hstack s1 op1'.
    assert (Hrun :
      (depth <- getStackDepth;;
       impSpillSideEffect true (depth - 2);;
       op2 <- impPopStack;;
       op1 <- impSIMDPopStack simdType;;
       let tmpOp :=
         gtNewSimdHWIntrinsicNode TYP_SIMD16 [op2] NI_SSE2_ConvertScalarToVector128Int32
                                  CORINFO_TYPE_INT 16 in
       ret (Some (gtNewSimdHWIntrinsicNode simdType [op1; tmpOp] intrinsic simdBaseJitType
                                           (genTypeSize simdType))))%imp s
      = Done (Some (GT_HWINTRINSIC simdType
                      [op1'; GT_HWINTRINSIC TYP_SIMD16 [op2]
                               NI_SSE2_ConvertScalarToVector128Int32
                               CORINFO_TYPE_INT 16 CORINFO_TYPE_UNDEF]
                      intrinsic simdBaseJitType (genTypeSize simdType) CORINFO_TYPE_UNDEF),
              withStack s1 rest)).
    { unfold bind at 1; unfold getStackDepth.
      unfold bind at 1; rewrite (impSpillSideEffect_second s op2 op1 rest Hstack).
      fold s1. subst op1'. unfold s1, spilledSecond, impSIMDPopStack.
      destruct (gtHasSideEffects op1); unfold bind, impPopStack; simpl;
        [| rewrite Hstack]; reflexivity. }
    split.
    + unfold impNonConstFallback, bind at 1.
      rewrite (assert_holds _ _ s Hflag).
      simpl in Hin.
      repeat (destruct Hin as [Hin | Hin]; [subst intrinsic; exact Hrun |]).
      contradiction.
    + unfold s1, spilledSecond; destruct (gtHasSideEffects op1); simpl; lia.
  - intros Hnot.
    unfold impNonConstFallback, bind at 1.
    rewrite (assert_holds _ _ s Hflag).
    destruct intrinsic; try reflexivity; exfalso; apply Hnot; simpl; tauto.
Qed.

End FallbackProperties.

Lemma impNonConstFallback_shift_family_witness :
  @impNonConstFallback x64_debug NI_SSE2_ShiftLeftLogical TYP_SIMD16 CORINFO_TYPE_INT
    (importerState [GT_LCL_VAR TYP_INT 1; GT_OTHER TYP_SIMD16 7; GT_LCL_VAR TYP_INT 2])
  = Done (Some (GT_HWINTRINSIC TYP_SIMD16
                  [GT_LCL_VAR TYP_SIMD16 0;
                   GT_HWINTRINSIC TYP_SIMD16 [GT_LCL_VAR TYP_INT 1]
                     NI_SSE2_ConvertScalarToVector128Int32 CORINFO_TYPE_INT 16
                     CORINFO_TYPE_UNDEF]
                  NI_SSE2_ShiftLeftLogical CORINFO_TYPE_INT 16 CORINFO_TYPE_UNDEF),
          {| esStack := [GT_LCL_VAR TYP_INT 2];
             impStmts := [(0%nat, GT_OTHER TYP_SIMD16 7)];
             lvaCount := 1;
             lvaSIMDRelated := [] |}).
Proof.
  apply (@impNonConstFallback_shift_family x64_debug NI_SSE2_ShiftLeftLogical TYP_SIMD16
           CORINFO_TYPE_INT
           (importerState [GT_LCL_VAR TYP_INT 1; GT_OTHER TYP_SIMD16 7; GT_LCL_VAR TYP_INT 2])
           (GT_LCL_VAR TYP_INT 1) (GT_OTHER TYP_SIMD16 7) [GT_LCL_VAR TYP_INT 2]).
  - reflexivity.
  - simpl; tauto.
  - reflexivity.
Defined.

Example impNonConstFallback_other :
  @impNonConstFallback x64_debug NI_AVX2_Permute4x64 TYP_SIMD32 CORINFO_TYPE_LONG
    (importerState [GT_LCL_VAR TYP_INT 1; GT_LCL_VAR TYP_SIMD32 2])
  = Done (None, importerState [GT_LCL_VAR TYP_INT 1; GT_LCL_VAR TYP_SIMD32 2]).
Proof. reflexivity. Qed.

(** ** Running [impSpecialIntrinsic] *)

Section EngineRuns.

Context {jit : Jit}.

Local Open Scope string_scope.
Local Open Scope Z_scope.

Lemma bind_Done {A B : Type} (m : Imp A) (k : A -> Imp B) (s s1 : ImpState) (a : A) :
  m s = Done (a, s1) -> bind m k s = k a s1.
Proof. intros H; unfold bind; rewrite H; reflexivity. Qed.

Lemma getSimdBaseType_run (simdBaseJitType : CorInfoType) (simdSize : Z) (s : ImpState) :
  (DEBUG = true -> simdSize <> 0 ->
   varTypeIsArithmetic (JitType2PreciseVarType simdBaseJitType) = true) ->
  getSimdBaseType simdBaseJitType simdSize s
  = Done (simdBaseTypeOf simdBaseJitType simdSize, s).
Proof.
  intros H; unfold getSimdBaseType, simdBaseTypeOf.
  destruct (simdSize =? 0) eqn:E; simpl; [reflexivity |].
  apply Z.eqb_neq in E.
  rewrite (bind_Done _ _ s s tt); [reflexivity |].
  apply assert_holds; intros Hd; exact (H Hd E).
Qed.

Lemma impSpecialIntrinsic_Add (intrinsic : NamedIntrinsic) (sig : CORINFO_SIG_INFO)
  (simdBaseJitType : CorInfoType) (retType : var_types) (simdSize : Z) :
  In intrinsic Add_intrinsics ->
  impSpecialIntrinsic intrinsic sig simdBaseJitType retType simdSize
  = (simdBaseType <- getSimdBaseType simdBaseJitType simdSize;;
     case_Add sig simdBaseJitType retType simdSize simdBaseType).
Proof.
  intros H; simpl in H.
  repeat (destruct H as [H | H]; [subst intrinsic; reflexivity |]).
  contradiction.
Qed.

Lemma binary_run (type : var_types) (build : GenTree -> GenTree -> GenTree)
  (s : ImpState) (op2 op1 : GenTree) (rest : list GenTree) :
  esStack s = op2 :: op1 :: rest ->
  binary type build s = Done (Some (build op1 op2), withStack s rest).
Proof.
  intros H; unfold binary, impSIMDPopStack.
  rewrite (bind_Done _ _ s (withStack s (op1 :: rest)) op2 (impPopStack_cons s op2 _ H)).
  rewrite (bind_Done _ _ _ (withStack s rest) op1); reflexivity.
Qed.

(** C4.  Vector addition, for each of its six labels.  On the 32-byte
    shape with an integer element type and AVX2 not exactly depended on, the
    import declines: it returns null and the state is as it was.  When the
    width is not 32 bytes, or the element type is floating point, or AVX2
    is exactly depended on, it pops two operands, the second argument [op2]
    from the top and the first argument [op1] below it, and returns the
    binary node [GT_ADD] over [op1] and [op2] in that order.  In a DEBUG
    build the call is assumed to pass the assertions on its signature. *)
Theorem Vector_Add_import
  (intrinsic : NamedIntrinsic) (sig : CORINFO_SIG_INFO) (simdBaseJitType : CorInfoType)
  (retType : var_types) (simdSize : Z) (s : ImpState) :
  In intrinsic Add_intrinsics ->
  (DEBUG = true -> numArgs sig = 2) ->
  (DEBUG = true -> simdSize <> 0 ->
   varTypeIsArithmetic (JitType2PreciseVarType simdBaseJitType) = true) ->
  let simdBaseType := JitType2PreciseVarType simdBaseJitType in
  (simdSize = 32 -> varTypeIsIntegral simdBaseType = true ->
   compExactlyDependsOn InstructionSet_AVX2 = false ->
   impSpecialIntrinsic intrinsic sig simdBaseJitType retType simdSize s = Done (None, s))
  /\ (simdSize <> 32 \/ varTypeIsFloating simdBaseType = true
      \/ compExactlyDependsOn InstructionSet_AVX2 = true ->
      forall op1 op2 rest,
        esStack s = op2 :: op1 :: rest ->
        impSpecialIntrinsic intrinsic sig simdBaseJitType retType simdSize s
        = Done (Some (GT_HELPER "gtNewSimdBinOpNode" retType
                        [A_oper GT_ADD; A_tree op1; A_tree op2;
                         A_jitType simdBaseJitType; A_size simdSize]),
                withStack s rest)).
Proof.
  intros Hin Hargs Harith simdBaseType.
  rewrite (impSpecialIntrinsic_Add intrinsic sig simdBaseJitType retType simdSize Hin).
  rewrite (bind_Done _ _ s s _ (getSimdBaseType_run simdBaseJitType simdSize s Harith)).
  unfold case_Add.
  rewrite (bind_Done _ _ s s tt)
    by (apply assert_holds; intros Hd; rewrite (Hargs Hd); reflexivity).
  unfold not32_or_floating_or_AVX2, simdBaseTypeOf.
  split.
  - intros -> Hint Havx2; simpl.
    fold simdBaseType. rewrite Havx2.
    replace (varTypeIsFloating simdBaseType) with false
      by (destruct simdBaseType; simpl in Hint |- *; (discriminate Hint || reflexivity)).
    reflexivity.
  - intros Hgate op1 op2 rest Hstack.
    assert (Hg : negb (simdSize =? 32)
                 || varTypeIsFloating (if simdSize =? 0 then TYP_UNKNOWN
                                       else JitType2PreciseVarType simdBaseJitType)
                 || compExactlyDependsOn InstructionSet_AVX2 = true).
    { destruct (simdSize =? 32) eqn:E32; simpl; [| reflexivity].
      apply Z.eqb_eq in E32; subst simdSize; simpl.
      destruct Hgate as [H | [H | H]]; [contradiction | |].
      - fold simdBaseType; rewrite H; reflexivity.
      - rewrite H; apply orb_true_r. }
    rewrite Hg.
    rewrite (binary_run _ _ s op2 op1 rest Hstack); reflexivity.
Qed.

(** *** Element access *)

Lemma impSpecialIntrinsic_WithElement (intrinsic : NamedIntrinsic) (sig : CORINFO_SIG_INFO)
  (simdBaseJitType : CorInfoType) (retType : var_types) (simdSize : Z) :
  In intrinsic WithElement_intrinsics ->
  impSpecialIntrinsic intrinsic sig simdBaseJitType retType simdSize
  = (simdBaseType <- getSimdBaseType simdBaseJitType simdSize;;
     case_WithElement sig simdBaseJitType retType simdSize simdBaseType).
Proof.
  intros H; simpl in H.
  repeat (destruct H as [H | H]; [subst intrinsic; reflexivity |]).
  contradiction.
Qed.

Lemma impSpecialIntrinsic_GetElement (intrinsic : NamedIntrinsic) (sig : CORINFO_SIG_INFO)
  (simdBaseJitType : CorInfoType) (retType : var_types) (simdSize : Z) :
  In intrinsic GetElement_intrinsics ->
  impSpecialIntrinsic intrinsic sig simdBaseJitType retType simdSize
  = (simdBaseType <- getSimdBaseType simdBaseJitType simdSize;;
     case_GetElement sig simdBaseJitType retType simdSize simdBaseType).
Proof.
  intros H; simpl in H.
  repeat (destruct H as [H | H]; [subst intrinsic; reflexivity |]).
  contradiction.
Qed.

Lemma impStackTop_1 (s : ImpState) (t0 t1 : GenTree) (rest : list GenTree) :
  esStack s = t0 :: t1 :: rest -> impStackTop 1 s = Done (t1, s).
Proof. intros H; unfold impStackTop; simpl; rewrite H; reflexivity. Qed.

Lemma impStackTop_0 (s : ImpState) (t0 : GenTree) (rest : list GenTree) :
  esStack s = t0 :: rest -> impStackTop 0 s = Done (t0, s).
Proof. intros H; unfold impStackTop; simpl; rewrite H; reflexivity. Qed.

Lemma genTypeSize_arithmetic (ty : var_types) :
  varTypeIsArithmetic ty = true -> 0 < genTypeSize ty.
Proof. destruct ty; simpl; intros H; (discriminate H || lia). Qed.

(** C5, as amended.  [WithElement], at each width: when the index operand,
    the entry below the top of the stack, is no constant, or is an integer
    constant below zero or not below the lane count, the import declines
    and the state is as it was.  [GetElement], at each width: the import
    never looks at the index; once the capability gate of the element kind
    is passed it pops the index and the vector and hands both to
    [gtNewSimdGetElementNode], whatever the index is. *)
Theorem WithElement_checks_index_GetElement_does_not
  (intrinsic : NamedIntrinsic) (sig : CORINFO_SIG_INFO) (simdBaseJitType : CorInfoType)
  (retType : var_types) (simdSize : Z) (s : ImpState) :
  simdSize <> 0 ->
  varTypeIsArithmetic (JitType2PreciseVarType simdBaseJitType) = true ->
  let simdBaseType := JitType2PreciseVarType simdBaseJitType in
  (In intrinsic WithElement_intrinsics ->
   (DEBUG = true -> numArgs sig = 3) ->
   forall valueOp indexOp rest,
     esStack s = valueOp :: indexOp :: rest ->
     OperIsConst indexOp = false
     \/ (exists ty imm8, indexOp = GT_CNS_INT ty imm8
                         /\ (imm8 < 0 \/ simdSize / genTypeSize simdBaseType <= imm8)) ->
     impSpecialIntrinsic intrinsic sig simdBaseJitType retType simdSize s = Done (None, s))
  /\ (In intrinsic GetElement_intrinsics ->
      (DEBUG = true -> numArgs sig = 2) ->
      GetElement_supported simdBaseType = true ->
      In simdSize [16; 32; 64] ->
      forall op2 op1 rest,
        esStack s = op2 :: op1 :: rest ->
        impSpecialIntrinsic intrinsic sig simdBaseJitType retType simdSize s
        = Done (Some (GT_HELPER "gtNewSimdGetElementNode" retType
                        [A_tree op1; A_tree op2;
                         A_jitType simdBaseJitType; A_size simdSize]),
                withStack s rest)).
Proof.
  intros Hsize Harith simdBaseType.
  assert (Hbase : getSimdBaseType simdBaseJitType simdSize s = Done (simdBaseType, s)).
  { rewrite getSimdBaseType_run by (intros; exact Harith).
    unfold simdBaseTypeOf. apply Z.eqb_neq in Hsize; rewrite Hsize; reflexivity. }
  change (varTypeIsArithmetic simdBaseType = true) in Harith.
  clearbody simdBaseType.
  split.
  - intros Hin Hargs valueOp indexOp rest Hstack Hindex.
    rewrite (impSpecialIntrinsic_WithElement intrinsic sig simdBaseJitType retType simdSize Hin).
    rewrite (bind_Done _ _ s s _ Hbase).
    unfold case_WithElement.
    rewrite (bind_Done _ _ s s tt)
      by (apply assert_holds; intros Hd; rewrite (Hargs Hd); reflexivity).
    rewrite (bind_Done _ _ s s indexOp (impStackTop_1 s valueOp indexOp rest Hstack)).
    destruct Hindex as [Hnc | (ty & imm8 & -> & Hrange)].
    + rewrite Hnc; reflexivity.
    + cbn [OperIsConst negb].
      rewrite (bind_Done _ _ s s imm8) by reflexivity.
      pose proof (genTypeSize_arithmetic simdBaseType Harith) as Hpos.
      replace (genTypeSize simdBaseType =? 0) with false by (symmetry; apply Z.eqb_neq; lia).
      replace ((simdSize / genTypeSize simdBaseType <=? imm8) || (imm8 <? 0)) with true;
        [reflexivity |].
      symmetry; apply orb_true_iff.
      destruct Hrange as [H | H]; [right; apply Z.ltb_lt | left; apply Z.leb_le]; exact H.
  - intros Hin Hargs Hgate Hsz op2 op1 rest Hstack.
    rewrite (impSpecialIntrinsic_GetElement intrinsic sig simdBaseJitType retType simdSize Hin).
    rewrite (bind_Done _ _ s s _ Hbase).
    unfold case_GetElement.
    rewrite (bind_Done _ _ s s tt)
      by (apply assert_holds; intros Hd; rewrite (Hargs Hd); reflexivity).
    rewrite (bind_Done _ _ s s true).
    + cbn [negb].
      rewrite (bind_Done _ _ s (withStack s (op1 :: rest)) op2 (impPopStack_cons s op2 _ Hstack)).
      assert (Hty : exists simdType, getSIMDTypeForSize simdSize = Done simdType).
      { simpl in Hsz; destruct Hsz as [<- | [<- | [<- | []]]]; eexists; reflexivity. }
      destruct Hty as (simdType & Hty).
      rewrite (bind_Done _ _ _ (withStack s (op1 :: rest)) simdType)
        by (unfold liftC; rewrite Hty; reflexivity).
      unfold impSIMDPopStack.
      rewrite (bind_Done _ _ _ (withStack s rest) op1) by reflexivity.
      reflexivity.
    + unfold GetElement_supported in Hgate.
      destruct simdBaseType; simpl in Harith; try discriminate Harith;
        try rewrite Hgate; reflexivity.
Qed.

(** *** Shuffles *)

Lemma impSpecialIntrinsic_Shuffle (intrinsic : NamedIntrinsic) (sig : CORINFO_SIG_INFO)
  (simdBaseJitType : CorInfoType) (retType : var_types) (simdSize : Z) :
  In intrinsic Shuffle_intrinsics ->
  impSpecialIntrinsic intrinsic sig simdBaseJitType retType simdSize
  = (simdBaseType <- getSimdBaseType simdBaseJitType simdSize;;
     case_Shuffle sig simdBaseJitType retType simdSize simdBaseType).
Proof.
  intros H; simpl in H.
  repeat (destruct H as [H | H]; [subst intrinsic; reflexivity |]).
  contradiction.
Qed.

Lemma crossLaneLoop_finds (simdBaseType : var_types) (indices : GenTree)
  (elementCount index : Z) :
  crossesLane simdBaseType indices elementCount index ->
  forall n start,
    start <= index < start + Z.of_nat n ->
    crossLaneLoop simdBaseType indices elementCount n start = true.
Proof.
  intros (Hin & Hcross) n; induction n as [| n IH]; intros start Hrange.
  - lia.
  - cbn [crossLaneLoop].
    destruct (Z.eq_dec start index) as [-> | Hne].
    + replace (elementCount <=? GetIntegralVectorConstElement indices index simdBaseType)
        with false by (symmetry; apply Z.leb_gt; exact Hin).
      destruct Hcross as [[Hi Hv] | [Hi Hv]].
      * replace (index <? elementCount / 2) with true by (symmetry; apply Z.ltb_lt; exact Hi).
        replace (elementCount / 2 <=? GetIntegralVectorConstElement indices index simdBaseType)
          with true by (symmetry; apply Z.leb_le; exact Hv).
        reflexivity.
      * replace (index <? elementCount / 2) with false by (symmetry; apply Z.ltb_ge; exact Hi).
        replace (GetIntegralVectorConstElement indices index simdBaseType <? elementCount / 2)
          with true by (symmetry; apply Z.ltb_lt; exact Hv).
        reflexivity.
    + assert (Hrec : crossLaneLoop simdBaseType indices elementCount n (start + 1) = true)
        by (apply IH; lia).
      rewrite Hrec.
      repeat match goal with
             | |- (if ?c then _ else _) = true => destruct c
             end; reflexivity.
Qed.

(** C6.  A shuffle of the 32-byte shape over 1- or 2-byte integers whose
    index vector is a constant: if some lane [index] holds an in-range
    value that lies in the other 128-bit half than [index] itself, the
    import declines and the state is as it was, whether AVX2 is there or
    not. *)
Theorem Shuffle_cross_lane_declines
  (intrinsic : NamedIntrinsic) (sig : CORINFO_SIG_INFO) (simdBaseJitType : CorInfoType)
  (retType : var_types) (s : ImpState) (ty : var_types) (v : simd_t)
  (rest : list GenTree) (index : Z) :
  In intrinsic Shuffle_intrinsics ->
  (DEBUG = true -> numArgs sig = 2 \/ numArgs sig = 3) ->
  let simdBaseType := JitType2PreciseVarType simdBaseJitType in
  let elementCount := 32 / genTypeSize simdBaseType in
  varTypeIsSmallInt simdBaseType = true ->
  esStack s = GT_CNS_VEC ty v :: rest ->
  0 <= index < elementCount ->
  crossesLane simdBaseType (GT_CNS_VEC ty v) elementCount index ->
  impSpecialIntrinsic intrinsic sig simdBaseJitType retType 32 s = Done (None, s).
Proof.
  intros Hin Hargs simdBaseType elementCount Hsmall Hstack Hrange Hcross.
  assert (Harith : varTypeIsArithmetic simdBaseType = true)
    by (destruct simdBaseType; simpl in Hsmall |- *; (discriminate Hsmall || reflexivity)).
  rewrite (impSpecialIntrinsic_Shuffle intrinsic sig simdBaseJitType retType 32 Hin).
  rewrite (bind_Done _ _ s s simdBaseType)
    by (rewrite getSimdBaseType_run by (intros; exact Harith); reflexivity).
  unfold case_Shuffle.
  rewrite (bind_Done _ _ s s tt).
  2:{ apply assert_holds; intros Hd.
      destruct (Hargs Hd) as [-> | ->]; reflexivity. }
  rewrite (bind_Done _ _ s s tt) by (apply assert_true).
  rewrite (bind_Done _ _ s s _ (impStackTop_0 s _ rest Hstack)).
  cbn [IsVectorConst IsCnsVec negb].
  pose proof (genTypeSize_arithmetic simdBaseType Harith) as Hpos.
  replace (genTypeSize simdBaseType =? 0) with false by (symmetry; apply Z.eqb_neq; lia).
  cbv zeta. rewrite Z.eqb_refl.
  destruct (compExactlyDependsOn InstructionSet_AVX2); cbn [negb]; [| reflexivity].
  rewrite Hsmall.
  fold elementCount.
  rewrite (crossLaneLoop_finds simdBaseType (GT_CNS_VEC ty v) elementCount index Hcross);
    [reflexivity | lia].
Qed.

End EngineRuns.

(** ** Declining leaves the stack alone *)

Section Neutral.

Context {jit : Jit}.

Local Open Scope string_scope.
Local Open Scope Z_scope.

Lemma neutral_ret (r : option GenTree) : neutral (ret r).
Proof. intros s s' H; inversion H; reflexivity. Qed.

Lemma builds_ret (t : GenTree) : builds (ret (Some t)).
Proof. intros s s' H; inversion H. Qed.

Lemma builds_fatal (msg : string) : builds (fatal msg).
Proof. intros s s' H; inversion H. Qed.

Lemma builds_neutral (m : Imp (option GenTree)) : builds m -> neutral m.
Proof. intros Hb s s' H; destruct (Hb s s' H). Qed.

Lemma builds_bind {A : Type} (m : Imp A) (k : A -> Imp (option GenTree)) :
  (forall a, builds (k a)) -> builds (bind m k).
Proof.
  intros Hk s s' H; unfold bind in H.
  destruct (m s) as [[a s1] | msg]; [exact (Hk a s1 s' H) | discriminate H].
Qed.

Lemma neutral_bind {A : Type} (m : Imp A) (k : A -> Imp (option GenTree)) :
  readonly m -> (forall a, neutral (k a)) -> neutral (bind m k).
Proof.
  intros Hm Hk s s' H; unfold bind in H.
  destruct (m s) as [[a s1] | msg] eqn:E; [| discriminate H].
  rewrite (Hm s a s1 E) in H; exact (Hk a s s' H).
Qed.

Lemma readonly_ret {A : Type} (a : A) : readonly (ret a).
Proof. intros s a' s' H; inversion H; reflexivity. Qed.

Lemma readonly_fatal {A : Type} (msg : string) : readonly (@fatal A msg).
Proof. intros s a' s' H; inversion H. Qed.

Lemma readonly_liftC {A : Type} (c : Checked A) : readonly (liftC c).
Proof. intros s a s' H; unfold liftC in H; destruct c; inversion H; reflexivity. Qed.

Lemma readonly_bind {A B : Type} (m : Imp A) (k : A -> Imp B) :
  readonly m -> (forall a, readonly (k a)) -> readonly (bind m k).
Proof.
  intros Hm Hk s b s' H; unfold bind in H.
  destruct (m s) as [[a s1] | msg] eqn:E; [| discriminate H].
  rewrite (Hm s a s1 E) in H; exact (Hk a s b s' H).
Qed.

Lemma readonly_assert (c : bool) (msg : string) : readonly (assert_ c msg).
Proof. apply readonly_liftC. Qed.

Lemma readonly_assertM (c : Checked bool) (msg : string) : readonly (assertM c msg).
Proof.
  unfold assertM; destruct DEBUG; [| apply readonly_ret].
  apply readonly_bind; [apply readonly_liftC |].
  intros []; [apply readonly_ret | apply readonly_fatal].
Qed.

Lemma readonly_impStackTop (n : Z) : readonly (impStackTop n).
Proof.
  intros s a s' H; unfold impStackTop in H.
  destruct (n <? 0); [discriminate H |].
  destruct (nth_error (esStack s) (Z.to_nat n)); inversion H; reflexivity.
Qed.

Lemma readonly_getStackDepth : readonly getStackDepth.
Proof. intros s a s' H; inversion H; reflexivity. Qed.

Lemma readonly_allArgsAre (pred : GenTree -> bool) (n : nat) :
  forall index, readonly (allArgsAre pred n index).
Proof.
  induction n as [| n IH]; intros index; simpl.
  - apply readonly_ret.
  - apply readonly_bind; [apply readonly_impStackTop |].
    intros arg; destruct (negb (pred arg)); [apply readonly_ret | apply IH].
Qed.

Ltac readonly_tac :=
  repeat first
    [ apply readonly_ret
    | apply readonly_fatal
    | apply readonly_assert
    | apply readonly_assertM
    | apply readonly_liftC
    | apply readonly_impStackTop
    | apply readonly_getStackDepth
    | apply readonly_allArgsAre
    | apply readonly_bind; [| intros ?]
    | match goal with
      | |- readonly (if ?c then _ else _) => destruct c
      | |- readonly (match ?x with _ => _ end) => destruct x
      end ].

Ltac builds_tac :=
  repeat first
    [ apply builds_ret
    | apply builds_fatal
    | apply builds_bind; intros ?
    | progress cbv zeta
    | match goal with
      | |- builds (if ?c then _ else _) => destruct c
      | |- builds (match ?x with _ => _ end) => destruct x
      end ].

Ltac neutral_tac :=
  repeat first
    [ apply neutral_ret
    | apply neutral_bind; [solve [readonly_tac] | intros ?]
    | apply builds_neutral; solve [builds_tac]
    | progress cbv zeta
    | match goal with
      | |- neutral (if ?c then _ else _) => destruct c
      | |- neutral (match ?x with _ => _ end) => destruct x
      end ].

Variable self :
  NamedIntrinsic -> CORINFO_SIG_INFO -> CorInfoType -> var_types -> Z -> Imp (option GenTree).
Hypothesis self_neutral : forall i sg b r z, neutral (self i sg b r z).

Variable sig : CORINFO_SIG_INFO.
Variable simdBaseJitType : CorInfoType.
Variable retType : var_types.
Variable simdSize : Z.
Variable simdBaseType : var_types.

Ltac unfold_cases :=
  unfold case_Abs, case_Add, case_AndNot, case_As, case_Vector128_AsVector,
    case_Vector128_AsVector2, case_Vector128_AsVector128, case_Vector256_AsVector,
    case_Vector512_AsVector, case_BitwiseAnd, case_BitwiseOr, case_Ceiling,
    case_ConditionalSelect, case_ConvertToDouble, case_ConvertToInt32, case_ConvertToSingle,
    case_Create, case_CreateScalar, case_CreateScalarUnsafe, case_Divide, case_Dot,
    case_CmpOp, case_Vector512_EqualsAll, case_EqualsAll, case_Vector512_EqualsAny,
    case_CmpOpAny, case_CmpOpAll, case_Vector512_ExtractMostSignificantBits,
    case_ExtractMostSignificantBits, case_Floor, case_get_AllBitsSet, case_get_One,
    case_get_Zero, case_GetElement, case_Load, case_LoadAligned,
    case_LoadAlignedNonTemporal, case_Max, case_Min, case_Multiply, case_Narrow,
    case_Negate, case_OnesComplement, case_op_Inequality, case_Vector512_op_Inequality,
    case_op_UnaryPlus, case_Subtract, case_ShiftLeft, case_ShiftRightArithmetic,
    case_ShiftRightLogical, case_Shuffle, case_Sqrt, case_SSE_Store, case_Store,
    case_StoreAligned, case_StoreAlignedNonTemporal, case_Sum, case_ToScalar,
    case_ToVector256, case_Vector256_GetLower, case_Vector256_GetUpper,
    case_Vector512_GetLower, case_Vector512_GetUpper, case_ToVector512, case_WidenLower,
    case_WidenUpper, case_WithElement, case_Vector256_WithLower, case_Vector256_WithUpper,
    case_Vector512_WithLower, case_Vector512_WithUpper, case_Xor, case_X86Base_Pause,
    case_X86Base_DivRem, case_SSE_CompareScalarGreaterThan, case_SSE_Prefetch,
    case_SSE_StoreFence, case_SSE2_CompareScalarGreaterThan, case_SSE2_LoadFence,
    case_SSE2_StoreNonTemporal, case_AVX2_PermuteVar8x32, case_AVX2_GatherMaskVector,
    case_BMI2_ZeroHighBits, case_BMI1_BitFieldExtract,
    compareScalarGreater, foldAwayCast, unary, binary, binaryScalar2, popArg,
    x86_long_nonconstant, unreached.

Lemma dispatch_neutral (intrinsic : NamedIntrinsic) :
  neutral (dispatch self intrinsic sig simdBaseJitType retType simdSize simdBaseType).
Proof.
  destruct intrinsic; cbn [dispatch]; unfold_cases; neutral_tac; apply self_neutral.
Qed.

End Neutral.

Section DeclineLeavesStack.

Context {jit : Jit}.

Local Open Scope string_scope.
Local Open Scope Z_scope.

Lemma readonly_getSimdBaseType (simdBaseJitType : CorInfoType) (simdSize : Z) :
  readonly (getSimdBaseType simdBaseJitType simdSize).
Proof.
  unfold getSimdBaseType; destruct (negb (simdSize =? 0)); [| apply readonly_ret].
  apply readonly_bind; [apply readonly_assert | intros; apply readonly_ret].
Qed.

Lemma impSpecialIntrinsic_depth_neutral (depth : nat) :
  forall intrinsic sig simdBaseJitType retType simdSize,
    neutral (impSpecialIntrinsic_depth depth intrinsic sig simdBaseJitType retType simdSize).
Proof.
  induction depth as [| depth IH]; intros; simpl.
  - apply builds_neutral, builds_fatal.
  - unfold impSpecialIntrinsic_body.
    apply neutral_bind; [apply readonly_getSimdBaseType |].
    intros simdBaseType; apply dispatch_neutral; exact IH.
Qed.

(** C8.  Whenever [impSpecialIntrinsic] returns null, the importer's state
    after the call is the state before it: the expression stack has the
    same depth and the same entries, and no statement or temporary was
    added. *)
Theorem impSpecialIntrinsic_decline_leaves_stack
  (intrinsic : NamedIntrinsic) (sig : CORINFO_SIG_INFO) (simdBaseJitType : CorInfoType)
  (retType : var_types) (simdSize : Z) (s s' : ImpState) :
  impSpecialIntrinsic intrinsic sig simdBaseJitType retType simdSize s = Done (None, s') ->
  s' = s.
Proof. apply impSpecialIntrinsic_depth_neutral. Qed.

(** Two open calls are enough: a deeper bound changes nothing. *)
Lemma impSpecialIntrinsic_depth_enough (n : nat) (intrinsic : NamedIntrinsic)
  (sig : CORINFO_SIG_INFO) (simdBaseJitType : CorInfoType) (retType : var_types)
  (simdSize : Z) (s : ImpState) :
  impSpecialIntrinsic_depth (S (S n)) intrinsic sig simdBaseJitType retType simdSize s
  = impSpecialIntrinsic intrinsic sig simdBaseJitType retType simdSize s.
Proof.
  destruct intrinsic; reflexivity.
Qed.
End DeclineLeavesStack.

(** ** Lanes of a vector constant *)

Lemma list_set_length (l : list Z) (i : nat) (x : Z) :
  List.length (list_set l i x) = List.length l.
Proof.
  revert i; induction l as [| h t IH]; intros [| i]; simpl; try reflexivity.
  rewrite IH; reflexivity.
Qed.

Lemma nth_list_set (l : list Z) (i j : nat) (x : Z) :
  (i < List.length l)%nat ->
  nth j (list_set l i x) 0 = if Nat.eqb j i then x else nth j l 0.
Proof.
  revert i j; induction l as [| h t IH]; intros i j Hi; simpl in Hi; [lia |].
  destruct i as [| i], j as [| j]; simpl; try reflexivity.
  apply IH; lia.
Qed.

Lemma simd_blit_length (bs : list Z) :
  forall v off, List.length (simd_blit v off bs) = List.length v.
Proof.
  induction bs as [| b t IH]; intros v off; simpl; [reflexivity |].
  rewrite IH, list_set_length; reflexivity.
Qed.

Ltac nat_cases :=
  repeat match goal with
         | |- context [Nat.leb ?a ?b] => destruct (Nat.leb_spec a b)
         | |- context [Nat.ltb ?a ?b] => destruct (Nat.ltb_spec a b)
         | |- context [Nat.eqb ?a ?b] => destruct (Nat.eqb_spec a b)
         end;
  cbn [andb]; try lia.

Lemma nth_simd_blit (bs : list Z) :
  forall v off j,
    (off + List.length bs <= List.length v)%nat ->
    nth j (simd_blit v off bs) 0
    = if (Nat.leb off j && Nat.ltb j (off + List.length bs))%bool
      then nth (j - off) bs 0 else nth j v 0.
Proof.
  induction bs as [| b t IH]; intros v off j Hlen; cbn [simd_blit List.length] in *.
  - nat_cases; reflexivity.
  - rewrite IH by (rewrite list_set_length; lia).
    rewrite nth_list_set by lia.
    nat_cases; try reflexivity.
    + replace (j - off)%nat with (S (j - S off)) by lia; reflexivity.
    + subst j; rewrite Nat.sub_diag; reflexivity.
Qed.

Lemma simd_bytes_ext (w : nat) :
  forall v v' off,
    (forall k, (off <= k < off + w)%nat -> nth k v 0 = nth k v' 0) ->
    simd_bytes v off w = simd_bytes v' off w.
Proof.
  induction w as [| w IH]; intros v v' off H; simpl; [reflexivity |].
  rewrite (H off) by lia.
  rewrite (IH v v' (S off)) by (intros k Hk; apply H; lia).
  reflexivity.
Qed.

Lemma simd_bytes_blit_same (bs : list Z) :
  forall v off,
    (off + List.length bs <= List.length v)%nat ->
    simd_bytes (simd_blit v off bs) off (List.length bs) = bs.
Proof.
  intros v off Hlen.
  assert (H : forall (w : nat) (cs : list Z) (o : nat),
             List.length cs = w ->
             (forall k, (k < w)%nat -> nth (o + k) (simd_blit v off bs) 0 = nth k cs 0) ->
             simd_bytes (simd_blit v off bs) o w = cs).
  { induction w as [| w IH]; intros cs o Hcs Hnth.
    - destruct cs; [reflexivity | discriminate Hcs].
    - destruct cs as [| c cs]; [discriminate Hcs |]; simpl.
      f_equal.
      + rewrite <- (Nat.add_0_r o); apply (Hnth 0%nat); lia.
      + apply IH; [simpl in Hcs; lia |].
        intros k Hk. replace (S o + k)%nat with (o + S k)%nat by lia.
        apply (Hnth (S k)); lia. }
  apply H; [reflexivity |].
  intros k Hk. rewrite nth_simd_blit by exact Hlen.
  nat_cases. f_equal; lia.
Qed.

Lemma le_bytes_length (w : nat) : forall x, List.length (le_bytes w x) = w.
Proof. induction w as [| w IH]; intros x; simpl; [| rewrite IH]; reflexivity. Qed.

Lemma le_value_le_bytes (w : nat) :
  forall x, le_value (le_bytes w x) = x mod 2 ^ (8 * Z.of_nat w).
Proof.
  induction w as [| w IH]; intros x; simpl le_bytes; simpl le_value.
  - simpl; rewrite Z.mod_1_r; reflexivity.
  - rewrite IH.
    replace (8 * Z.of_nat (S w)) with (8 + 8 * Z.of_nat w) by lia.
    rewrite Z.pow_add_r by lia.
    change (2 ^ 8) with 256.
    rewrite Z.rem_mul_r by lia.
    reflexivity.
Qed.

Lemma simd_store_length (w : nat) (v : simd_t) (i x : Z) :
  List.length (simd_store w v i x) = List.length v.
Proof.
  unfold simd_store; destruct (i <? 0); [reflexivity | apply simd_blit_length].
Qed.

(** Reading a lane back: the lane written holds the value, wrapped to the
    width of the lane, and every other lane is untouched. *)
Lemma simd_load_store (w : nat) (v : simd_t) (i j x : Z) :
  0 <= i -> 0 <= j ->
  (Z.to_nat i * w + w <= List.length v)%nat ->
  simd_load w (simd_store w v i x) j
  = if j =? i then x mod 2 ^ (8 * Z.of_nat w) else simd_load w v j.
Proof.
  intros Hi Hj Hlen.
  unfold simd_load, simd_store.
  replace (i <? 0) with false by (symmetry; apply Z.ltb_ge; exact Hi).
  replace (j <? 0) with false by (symmetry; apply Z.ltb_ge; exact Hj).
  destruct (j =? i) eqn:E.
  - apply Z.eqb_eq in E; subst j.
    pose proof (simd_bytes_blit_same (le_bytes w x) v (Z.to_nat i * w)) as Hsame.
    rewrite le_bytes_length in Hsame.
    rewrite (Hsame Hlen).
    apply le_value_le_bytes.
  - apply Z.eqb_neq in E. f_equal.
    apply simd_bytes_ext. intros k Hk.
    rewrite nth_simd_blit by (rewrite le_bytes_length; exact Hlen).
    rewrite le_bytes_length.
    assert (Hdis : (k < Z.to_nat i * w \/ Z.to_nat i * w + w <= k)%nat).
    { destruct (Z.lt_ge_cases j i) as [Hlt | Hge].
      - left. assert (Z.to_nat j + 1 <= Z.to_nat i)%nat by lia. nia.
      - right. assert (Z.to_nat i + 1 <= Z.to_nat j)%nat by lia. nia. }
    nat_cases; reflexivity.
Qed.

(** ** Folding a vector constant *)

Section ConstantFold.

Context {jit : Jit}.

Local Open Scope string_scope.
Local Open Scope Z_scope.

Lemma impSpecialIntrinsic_Create (intrinsic : NamedIntrinsic) (sig : CORINFO_SIG_INFO)
  (simdBaseJitType : CorInfoType) (retType : var_types) (simdSize : Z) :
  In intrinsic Create_intrinsics ->
  impSpecialIntrinsic intrinsic sig simdBaseJitType retType simdSize
  = (simdBaseType <- getSimdBaseType simdBaseJitType simdSize;;
     case_Create intrinsic sig simdBaseJitType retType simdSize simdBaseType).
Proof.
  intros H; simpl in H.
  repeat (destruct H as [H | H]; [subst intrinsic; reflexivity |]).
  contradiction.
Qed.

Lemma allArgsAre_true (pred : GenTree -> bool) (s : ImpState) (n : nat) :
  forall index,
    0 <= index ->
    (forall k, (Z.to_nat index <= k < Z.to_nat index + n)%nat ->
               exists t, nth_error (esStack s) k = Some t /\ pred t = true) ->
    allArgsAre pred n index s = Done (true, s).
Proof.
  induction n as [| n IH]; intros index Hindex Hall; cbn [allArgsAre]; [reflexivity |].
  destruct (Hall (Z.to_nat index)) as (t & Hnth & Hpred); [lia |].
  rewrite (bind_Done _ _ s s t).
  - rewrite Hpred; cbn [negb]. apply IH; [lia |].
    intros k Hk; apply Hall; lia.
  - unfold impStackTop.
    replace (index <? 0) with false by (symmetry; apply Z.ltb_ge; exact Hindex).
    rewrite Hnth; reflexivity.
Qed.

(** What [foldLanes] leaves: [n] entries are popped, the entry [k] below
    the top going to lane [simdLength - 1 - index - k]. *)
Lemma foldLanes_lanes (w : nat) (cast : GenTree -> Checked Z) (value : GenTree -> Z)
  (simdLength : Z) (ty : var_types) (rest : list GenTree) (n : nat) :
  forall (popped : list GenTree) (index cnsVal : Z) (v : simd_t) (s : ImpState),
    List.length popped = n ->
    (forall t, In t popped -> cast t = Done (value t)) ->
    esStack s = (popped ++ rest)%list ->
    0 <= index -> index + Z.of_nat n <= simdLength -> simdLength < 2 ^ 32 ->
    (Z.to_nat simdLength * w <= List.length v)%nat ->
    exists cnsVal' v',
      foldLanes w cast simdLength n index cnsVal (GT_CNS_VEC ty v) s
      = Done ((cnsVal', GT_CNS_VEC ty v'), withStack s rest)
      /\ List.length v' = List.length v
      /\ forall j, 0 <= j < simdLength ->
           simd_load w v' j
           = if (simdLength - index - Z.of_nat n <=? j) && (j <? simdLength - index)
             then value (nth (Z.to_nat (simdLength - 1 - index - j)) popped (GT_OTHER TYP_UNDEF 0))
                  mod 2 ^ (8 * Z.of_nat w)
             else simd_load w v j.
Proof.
  induction n as [| n IH]; intros popped index cnsVal v s Hlen Hcast Hstack Hi Hn Hmax Hv.
  - destruct popped; [| discriminate Hlen].
    exists cnsVal, v; cbn [foldLanes]. split; [| split].
    + unfold ret. simpl in Hstack. rewrite <- Hstack, withStack_same. reflexivity.
    + reflexivity.
    + intros j Hj.
      replace ((simdLength - index - Z.of_nat 0 <=? j) && (j <? simdLength - index))
        with false; [reflexivity |].
      symmetry; apply andb_false_iff.
      destruct (Z.lt_ge_cases j (simdLength - index));
        [left; apply Z.leb_gt | right; apply Z.ltb_ge]; lia.
  - destruct popped as [| t popped]; [discriminate Hlen |].
    cbn [foldLanes].
    rewrite (bind_Done _ _ s (withStack s (popped ++ rest)%list) t)
      by (apply impPopStack_cons; exact Hstack).
    rewrite (bind_Done _ _ _ (withStack s (popped ++ rest)%list) (value t))
      by (unfold liftC; rewrite (Hcast t (or_introl eq_refl)); reflexivity).
    cbv zeta. cbn [vecCon_store].
    assert (Hwrap : wrap 32 (simdLength - 1 - index) = simdLength - 1 - index)
      by (unfold wrap; apply Z.mod_small; lia).
    rewrite Hwrap.
    destruct (IH popped (index + 1) (value t)
                 (simd_store w v (simdLength - 1 - index) (value t))
                 (withStack s (popped ++ rest)%list))
      as (c' & v' & Hrun & Hlen' & Hlanes).
    + simpl in Hlen; lia.
    + intros t' Ht'; apply Hcast; right; exact Ht'.
    + reflexivity.
    + lia.
    + lia.
    + exact Hmax.
    + rewrite simd_store_length; exact Hv.
    + exists c', v'. split; [exact Hrun |].
      split; [rewrite Hlen', simd_store_length; reflexivity |].
      intros j Hj. rewrite (Hlanes j Hj).
      rewrite simd_load_store; [| lia | lia |].
      2:{ assert (Z.to_nat (simdLength - 1 - index) + 1 <= Z.to_nat simdLength)%nat by lia.
          nia. }
      destruct (Z.eq_dec j (simdLength - 1 - index)) as [-> | Hne].
      * rewrite Z.eqb_refl.
        replace ((simdLength - (index + 1) - Z.of_nat n <=? simdLength - 1 - index)
                 && (simdLength - 1 - index <? simdLength - (index + 1)))
          with false by (symmetry; apply andb_false_iff; right; apply Z.ltb_ge; lia).
        replace ((simdLength - index - Z.of_nat (S n) <=? simdLength - 1 - index)
                 && (simdLength - 1 - index <? simdLength - index))
          with true
          by (symmetry; apply andb_true_iff; split; [apply Z.leb_le | apply Z.ltb_lt]; lia).
        replace (simdLength - 1 - index - (simdLength - 1 - index)) with 0 by lia.
        reflexivity.
      * replace (j =? simdLength - 1 - index) with false
          by (symmetry; apply Z.eqb_neq; exact Hne).
        replace (simdLength - (index + 1) - Z.of_nat n) with (simdLength - index - Z.of_nat (S n))
          by lia.
        destruct (simdLength - index - Z.of_nat (S n) <=? j) eqn:E1; cbn [andb]; [| reflexivity].
        destruct (j <? simdLength - (index + 1)) eqn:E2.
        -- apply Z.ltb_lt in E2.
           replace (j <? simdLength - index) with true by (symmetry; apply Z.ltb_lt; lia).
           replace (Z.to_nat (simdLength - 1 - index - j))
             with (S (Z.to_nat (simdLength - 1 - (index + 1) - j))) by lia.
           reflexivity.
        -- apply Z.ltb_ge in E2.
           replace (j <? simdLength - index) with false by (symmetry; apply Z.ltb_ge; lia).
           reflexivity.
Qed.

(** The loop of the [TYP_DOUBLE] case against the loop without the inner
    declaration: the same vector and the same stack; only the outer
    [cnsVal], which nothing reads, differs. *)
Lemma foldLanes_double_shadow (simdLength : Z) (n : nat) :
  forall (index cnsVal : Z) (vecCon : GenTree) (s : ImpState),
    match foldLanes_double simdLength n index cnsVal vecCon s,
          foldLanes 8 DconValue simdLength n index cnsVal vecCon s with
    | Done ((outer, vecCon1), s1), Done ((_, vecCon2), s2) =>
        outer = cnsVal /\ vecCon1 = vecCon2 /\ s1 = s2
    | Fatal msg1, Fatal msg2 => msg1 = msg2
    | _, _ => False
    end.
Proof.
  induction n as [| n IH]; intros index cnsVal vecCon s.
  - cbn [foldLanes_double foldLanes]; unfold ret; repeat split.
  - cbn [foldLanes_double foldLanes]; unfold bind.
    destruct (impPopStack s) as [[arg s1] | msg]; [| reflexivity].
    destruct (liftC (DconValue arg) s1) as [[d s2] | msg]; [| reflexivity].
    cbv zeta.
    specialize (IH (index + 1) cnsVal
                   (vecCon_store 8 vecCon (wrap 32 (simdLength - 1 - index)) d) s2).
    (* the run without the inner declaration carries [d] as its [cnsVal] *)
    assert (Hsame : forall c1 c2 k i vc st,
              match foldLanes 8 DconValue simdLength k i c1 vc st,
                    foldLanes 8 DconValue simdLength k i c2 vc st with
              | Done ((_, a), sa), Done ((_, b), sb) => a = b /\ sa = sb
              | Fatal m1, Fatal m2 => m1 = m2
              | _, _ => False
              end).
    { clear. intros c1 c2 k; revert c1 c2.
      induction k as [| k IHk]; intros c1 c2 i vc st.
      - cbn [foldLanes]; unfold ret; repeat split.
      - cbn [foldLanes]; unfold bind.
        destruct (impPopStack st) as [[arg st1] | msg]; [| reflexivity].
        destruct (liftC (DconValue arg) st1) as [[d st2] | msg]; [| reflexivity].
        cbv zeta.
        destruct (foldLanes 8 DconValue simdLength k (i + 1) d
                    (vecCon_store 8 vc (wrap 32 (simdLength - 1 - i)) d) st2)
          as [[[c a] sa] | m]; repeat split. }
    specialize (Hsame cnsVal d n (index + 1)
                      (vecCon_store 8 vecCon (wrap 32 (simdLength - 1 - index)) d) s2).
    destruct (foldLanes_double simdLength n (index + 1) cnsVal
                (vecCon_store 8 vecCon (wrap 32 (simdLength - 1 - index)) d) s2)
      as [[[o1 v1] t1] | m1];
      destruct (foldLanes 8 DconValue simdLength n (index + 1) cnsVal
                  (vecCon_store 8 vecCon (wrap 32 (simdLength - 1 - index)) d) s2)
        as [[[o2 v2] t2] | m2];
      destruct (foldLanes 8 DconValue simdLength n (index + 1) d
                  (vecCon_store 8 vecCon (wrap 32 (simdLength - 1 - index)) d) s2)
        as [[[o3 v3] t3] | m3];
      try contradiction; try discriminate.
    + destruct IH as (-> & -> & ->), Hsame as (-> & ->); repeat split.
    + congruence.
Qed.

End ConstantFold.

Section CreateConstant.

Context {jit : Jit}.

Local Open Scope string_scope.
Local Open Scope Z_scope.

Lemma wrap_wrap (bits x : Z) : 0 <= bits -> wrap bits x mod 2 ^ bits = wrap bits x.
Proof.
  intros H; unfold wrap; apply Z.mod_mod.
  apply Z.pow_nonzero; lia.
Qed.

(** One [case] of the [switch (simdBaseType)] in the constant fold. *)
Lemma foldLanes_branch (w : nat) (cast : GenTree -> Checked Z) (value : GenTree -> Z)
  (retType : var_types) (args rest : list GenTree) (s : ImpState) (N : Z) :
  (forall t, In t args -> cast t = Done (value t)) ->
  esStack s = (rev args ++ rest)%list ->
  Z.of_nat (List.length args) = N ->
  (0 < w)%nat ->
  (Z.to_nat N * w <= 64)%nat ->
  exists v,
    (r <- foldLanes w cast N (Z.to_nat N) 0 0 (gtNewVconNode retType);;
     ret (Some (snd r)))%imp s
    = Done (Some (GT_CNS_VEC retType v), withStack s rest)
    /\ forall i, 0 <= i < N ->
         simd_load w v i
         = value (nth (Z.to_nat i) args (GT_OTHER TYP_UNDEF 0)) mod 2 ^ (8 * Z.of_nat w).
Proof.
  intros Hcast Hstack Hlen Hw Hfit.
  destruct (foldLanes_lanes w cast value N retType rest (Z.to_nat N)
              (rev args) 0 0 simd_zero s)
    as (c' & v' & Hrun & _ & Hlanes).
  - rewrite length_rev; lia.
  - intros t Ht; apply Hcast; apply in_rev; exact Ht.
  - exact Hstack.
  - lia.
  - lia.
  - assert (HN : (Z.to_nat N <= 64)%nat) by nia.
    lia.
  - exact Hfit.
  - exists v'. split.
    + unfold gtNewVconNode. rewrite (bind_Done _ _ s (withStack s rest) _ Hrun). reflexivity.
    + intros i Hi. rewrite (Hlanes i Hi).
      replace ((N - 0 - Z.of_nat (Z.to_nat N) <=? i) && (i <? N - 0)) with true
        by (symmetry; apply andb_true_iff; split; [apply Z.leb_le | apply Z.ltb_lt]; lia).
      rewrite rev_nth by lia.
      replace (List.length args - S (Z.to_nat (N - 1 - 0 - i)))%nat with (Z.to_nat i) by lia.
      reflexivity.
Qed.

Lemma stack_args_satisfy (pred : GenTree -> bool) (args rest : list GenTree) (s : ImpState) :
  Forall (fun t => pred t = true) args ->
  esStack s = (rev args ++ rest)%list ->
  forall k, (k < List.length args)%nat ->
            exists t, nth_error (esStack s) k = Some t /\ pred t = true.
Proof.
  intros Hall Hstack k Hk.
  exists (nth k (rev args) (GT_OTHER TYP_UNDEF 0)). split.
  - rewrite Hstack, nth_error_app1 by (rewrite length_rev; exact Hk).
    apply nth_error_nth'; rewrite length_rev; exact Hk.
  - rewrite Forall_forall in Hall. apply Hall, in_rev.
    apply nth_In. rewrite length_rev; exact Hk.
Qed.

Lemma castIntegral_constant (bits : Z) (t : GenTree) :
  IsIntegralConst t = true -> castIntegral bits t = Done (wrap bits (iconOf t)).
Proof. destruct t; simpl; intros H; (discriminate H || reflexivity). Qed.

Lemma castFloat_constant (t : GenTree) :
  IsCnsFltOrDbl t = true -> castFloat t = Done (double_to_float (dconOf t)).
Proof. destruct t; simpl; intros H; (discriminate H || reflexivity). Qed.

Lemma DconValue_constant (t : GenTree) :
  IsCnsFltOrDbl t = true -> DconValue t = Done (dconOf t).
Proof. destruct t; simpl; intros H; (discriminate H || reflexivity). Qed.

Ltac integral_branch w bits retType args rest s sig Hcast Hstack Hlen Hw Hfit :=
  let v := fresh "v" in
  let Hrun := fresh "Hrun" in
  let Hlanes := fresh "Hlanes" in
  destruct (foldLanes_branch w (castIntegral bits) (fun t => wrap bits (iconOf t))
              retType args rest s (numArgs sig) Hcast Hstack Hlen Hw Hfit)
    as (v & Hrun & Hlanes);
  exists v; split;
  [ exact Hrun
  | intros i Hi; etransitivity; [exact (Hlanes i Hi) |];
    exact (wrap_wrap bits _ ltac:(lia)) ].

(** The constant fold of [Create]: with the arguments [args], in the order
    they are written, all constants of the element kind and as many as
    there are lanes, the import pops them all and returns a vector constant
    whose lane [i] holds argument [i]. *)
Lemma Create_folds_constants
  (intrinsic : NamedIntrinsic) (sig : CORINFO_SIG_INFO) (simdBaseJitType : CorInfoType)
  (retType : var_types) (simdSize : Z) (s : ImpState) (args rest : list GenTree) :
  In intrinsic Create_intrinsics ->
  In simdSize [16; 32; 64] ->
  varTypeIsArithmetic (JitType2PreciseVarType simdBaseJitType) = true ->
  numArgs sig = simdSize / genTypeSize (JitType2PreciseVarType simdBaseJitType) ->
  Z.of_nat (List.length args) = numArgs sig ->
  Forall (fun t => constantOfKind (JitType2PreciseVarType simdBaseJitType) t = true) args ->
  esStack s = (rev args ++ rest)%list ->
  exists v,
    impSpecialIntrinsic intrinsic sig simdBaseJitType retType simdSize s
    = Done (Some (GT_CNS_VEC retType v), withStack s rest)
    /\ forall i, 0 <= i < numArgs sig ->
         simd_load (elementBytes (JitType2PreciseVarType simdBaseJitType)) v i
         = laneValue (JitType2PreciseVarType simdBaseJitType)
                     (nth (Z.to_nat i) args (GT_OTHER TYP_UNDEF 0)).
Proof.
  intros Hin Hsz Harith Hn Hlen Hconst Hstack.
  set (simdBaseType := JitType2PreciseVarType simdBaseJitType) in *.
  assert (Hbase : getSimdBaseType simdBaseJitType simdSize s = Done (simdBaseType, s)).
  { rewrite getSimdBaseType_run by (intros; exact Harith).
    unfold simdBaseTypeOf.
    replace (simdSize =? 0) with false
      by (simpl in Hsz; destruct Hsz as [<- | [<- | [<- | []]]]; reflexivity).
    reflexivity. }
  clearbody simdBaseType.
  rewrite (impSpecialIntrinsic_Create intrinsic sig simdBaseJitType retType simdSize Hin).
  rewrite (bind_Done _ _ s s _ Hbase).
  assert (Hfit : 2 <= numArgs sig
                 /\ (0 < elementBytes simdBaseType)%nat
                 /\ (Z.to_nat (numArgs sig) * elementBytes simdBaseType <= 64)%nat).
  { rewrite Hn.
    destruct simdBaseType; try discriminate Harith;
      simpl in Hsz; destruct Hsz as [<- | [<- | [<- | []]]];
      cbv; repeat split; try discriminate; lia. }
  destruct Hfit as (Hn2 & Hw & Hfit).
  unfold case_Create.
  replace (numArgs sig =? 1) with false by (symmetry; apply Z.eqb_neq; lia).
  cbv zeta.
  rewrite (bind_Done _ _ s s tt)
    by (apply assert_holds; intros _; unfold getSIMDVectorLength; apply Z.eqb_eq; exact Hn).
  rewrite (bind_Done _ _ s s true).
  2:{ unfold constantOfKind in Hconst.
      destruct (varTypeIsFloating simdBaseType) eqn:Efl.
      - apply allArgsAre_true; [lia |].
        intros k Hk. apply (stack_args_satisfy _ args rest s Hconst Hstack). lia.
      - rewrite (bind_Done _ _ s s tt).
        + apply allArgsAre_true; [lia |].
          intros k Hk. apply (stack_args_satisfy _ args rest s Hconst Hstack). lia.
        + apply assert_holds; intros _.
          unfold varTypeIsArithmetic in Harith; rewrite Efl, orb_false_r in Harith.
          exact Harith. }
  rewrite (bind_Done _ _ s s tt).
  2:{ apply assert_holds; intros _.
      simpl in Hsz; destruct Hsz as [<- | [<- | [<- | []]]]; reflexivity. }
  unfold getSIMDVectorLength; rewrite <- Hn.
  rewrite Forall_forall in Hconst.
  destruct simdBaseType; try discriminate Harith; unfold constantOfKind in Hconst;
    cbn [varTypeIsFloating elementBytes genTypeSize laneValue] in *.
  - assert (Hcast : forall t, In t args -> castIntegral 8 t = Done (wrap 8 (iconOf t)))
      by (intros t Ht; apply castIntegral_constant, Hconst, Ht).
    integral_branch 1%nat 8 retType args rest s sig Hcast Hstack Hlen Hw Hfit.
  - assert (Hcast : forall t, In t args -> castIntegral 8 t = Done (wrap 8 (iconOf t)))
      by (intros t Ht; apply castIntegral_constant, Hconst, Ht).
    integral_branch 1%nat 8 retType args rest s sig Hcast Hstack Hlen Hw Hfit.
  - assert (Hcast : forall t, In t args -> castIntegral 16 t = Done (wrap 16 (iconOf t)))
      by (intros t Ht; apply castIntegral_constant, Hconst, Ht).
    integral_branch 2%nat 16 retType args rest s sig Hcast Hstack Hlen Hw Hfit.
  - assert (Hcast : forall t, In t args -> castIntegral 16 t = Done (wrap 16 (iconOf t)))
      by (intros t Ht; apply castIntegral_constant, Hconst, Ht).
    integral_branch 2%nat 16 retType args rest s sig Hcast Hstack Hlen Hw Hfit.
  - assert (Hcast : forall t, In t args -> castIntegral 32 t = Done (wrap 32 (iconOf t)))
      by (intros t Ht; apply castIntegral_constant, Hconst, Ht).
    integral_branch 4%nat 32 retType args rest s sig Hcast Hstack Hlen Hw Hfit.
  - assert (Hcast : forall t, In t args -> castIntegral 32 t = Done (wrap 32 (iconOf t)))
      by (intros t Ht; apply castIntegral_constant, Hconst, Ht).
    integral_branch 4%nat 32 retType args rest s sig Hcast Hstack Hlen Hw Hfit.
  - assert (Hcast : forall t, In t args -> castIntegral 64 t = Done (wrap 64 (iconOf t)))
      by (intros t Ht; apply castIntegral_constant, Hconst, Ht).
    integral_branch 8%nat 64 retType args rest s sig Hcast Hstack Hlen Hw Hfit.
  - assert (Hcast : forall t, In t args -> castIntegral 64 t = Done (wrap 64 (iconOf t)))
      by (intros t Ht; apply castIntegral_constant, Hconst, Ht).
    integral_branch 8%nat 64 retType args rest s sig Hcast Hstack Hlen Hw Hfit.
  - assert (Hcast : forall t, In t args -> castFloat t = Done (double_to_float (dconOf t)))
      by (intros t Ht; apply castFloat_constant, Hconst, Ht).
    destruct (foldLanes_branch 4%nat castFloat (fun t => double_to_float (dconOf t))
                retType args rest s (numArgs sig) Hcast Hstack Hlen Hw Hfit)
      as (v & Hrun & Hlanes).
    exists v; split; [exact Hrun |].
    intros i Hi; etransitivity; [exact (Hlanes i Hi) | reflexivity].
  - assert (Hcast : forall t, In t args -> DconValue t = Done (dconOf t))
      by (intros t Ht; apply DconValue_constant, Hconst, Ht).
    destruct (foldLanes_branch 8%nat DconValue dconOf
                retType args rest s (numArgs sig) Hcast Hstack Hlen Hw Hfit)
      as (v & Hrun & Hlanes).
    exists v; split.
    + pose proof (foldLanes_double_shadow (numArgs sig) (Z.to_nat (numArgs sig)) 0 0
                    (gtNewVconNode retType) s) as Hshadow.
      unfold bind in Hrun |- *.
      destruct (foldLanes_double (numArgs sig) (Z.to_nat (numArgs sig)) 0 0
                  (gtNewVconNode retType) s) as [[[o1 v1] s1] | m1];
        destruct (foldLanes 8 DconValue (numArgs sig) (Z.to_nat (numArgs sig)) 0 0
                    (gtNewVconNode retType) s) as [[[o2 v2] s2] | m2];
        try contradiction; try discriminate Hrun.
      destruct Hshadow as (_ & -> & ->). exact Hrun.
    + intros i Hi; etransitivity; [exact (Hlanes i Hi) | reflexivity].
Qed.

End CreateConstant.

Section CreateClaims.

Context {jit : Jit}.

Local Open Scope string_scope.
Local Open Scope Z_scope.

(** C1, as amended.  [Create] at each of the three widths, with as many
    arguments as the shape has lanes, all of them constants of the element
    kind: the import pops them all and returns a vector constant whose lane
    [i], counted from the least significant, holds the value of argument
    [i] in the order the arguments are written (not of argument
    [N - 1 - i]), converted to the element type. *)
Theorem Create_constant_fold_lane_order
  (intrinsic : NamedIntrinsic) (sig : CORINFO_SIG_INFO) (simdBaseJitType : CorInfoType)
  (retType : var_types) (simdSize : Z) (s : ImpState) (args rest : list GenTree) :
  In intrinsic Create_intrinsics ->
  In simdSize [16; 32; 64] ->
  varTypeIsArithmetic (JitType2PreciseVarType simdBaseJitType) = true ->
  numArgs sig = simdSize / genTypeSize (JitType2PreciseVarType simdBaseJitType) ->
  Z.of_nat (List.length args) = numArgs sig ->
  Forall (fun t => constantOfKind (JitType2PreciseVarType simdBaseJitType) t = true) args ->
  esStack s = (rev args ++ rest)%list ->
  exists v,
    impSpecialIntrinsic intrinsic sig simdBaseJitType retType simdSize s
    = Done (Some (GT_CNS_VEC retType v), withStack s rest)
    /\ forall i, 0 <= i < numArgs sig ->
         simd_load (elementBytes (JitType2PreciseVarType simdBaseJitType)) v i
         = laneValue (JitType2PreciseVarType simdBaseJitType)
                     (nth (Z.to_nat i) args (GT_OTHER TYP_UNDEF 0)).
Proof.
  intros Hin Hsz Harith Hn Hlen Hconst Hstack.
  exact (Create_folds_constants intrinsic sig simdBaseJitType retType simdSize s args rest
           Hin Hsz Harith Hn Hlen Hconst Hstack).
Qed.

(** C10.  The constant fold of [Create] over [double]: the inner [cnsVal]
    of the loop hides the outer one, and every lane is written from the
    inner one, that is from the argument just popped.  Lane [i] holds
    argument [i], by the rule of the [float] branch for its own element
    kind; and the loop leaves the vector and the stack that the loop
    without the inner declaration leaves, the outer [cnsVal] staying as it
    was. *)
Theorem Create_double_fold_uses_popped_value
  (intrinsic : NamedIntrinsic) (sig : CORINFO_SIG_INFO) (simdBaseJitType : CorInfoType)
  (retType : var_types) (simdSize : Z) (s : ImpState) (args rest : list GenTree) :
  In intrinsic Create_intrinsics ->
  In simdSize [16; 32; 64] ->
  In simdBaseJitType [CORINFO_TYPE_FLOAT; CORINFO_TYPE_DOUBLE] ->
  numArgs sig = simdSize / genTypeSize (JitType2PreciseVarType simdBaseJitType) ->
  Z.of_nat (List.length args) = numArgs sig ->
  Forall (fun t => IsCnsFltOrDbl t = true) args ->
  esStack s = (rev args ++ rest)%list ->
  (exists v,
     impSpecialIntrinsic intrinsic sig simdBaseJitType retType simdSize s
     = Done (Some (GT_CNS_VEC retType v), withStack s rest)
     /\ forall i, 0 <= i < numArgs sig ->
          simd_load (elementBytes (JitType2PreciseVarType simdBaseJitType)) v i
          = laneValue (JitType2PreciseVarType simdBaseJitType)
                      (nth (Z.to_nat i) args (GT_OTHER TYP_UNDEF 0)))
  /\ (forall simdLength n index cnsVal vecCon s0,
        match foldLanes_double simdLength n index cnsVal vecCon s0,
              foldLanes 8 DconValue simdLength n index cnsVal vecCon s0 with
        | Done ((outer, vecCon1), s1), Done ((_, vecCon2), s2) =>
            outer = cnsVal /\ vecCon1 = vecCon2 /\ s1 = s2
        | Fatal msg1, Fatal msg2 => msg1 = msg2
        | _, _ => False
        end).
Proof.
  intros Hin Hsz Hkind Hn Hlen Hconst Hstack.
  split; [| intros; apply foldLanes_double_shadow].
  apply (Create_folds_constants intrinsic sig simdBaseJitType retType simdSize s args rest
           Hin Hsz); try assumption.
  - simpl in Hkind; destruct Hkind as [<- | [<- | []]]; reflexivity.
  - simpl in Hkind; destruct Hkind as [<- | [<- | []]]; exact Hconst.
Qed.

End CreateClaims.

(** ** The claims on concrete calls *)

(** C1, as stated, fails: it puts argument [N - 1 - i] in lane [i], so
    the last argument, 4, in lane 0; lane 0 holds the first argument, 1. *)
Lemma Create_lane_order_not_reversed :
  @impSpecialIntrinsic x64_debug NI_Vector128_Create (signature 4) CORINFO_TYPE_INT
    TYP_SIMD16 16 (importerState (rev [icon 1; icon 2; icon 3; icon 4]))
  = Done (Some (GT_CNS_VEC TYP_SIMD16 vector_1234), importerState [])
  /\ simd_load 4 vector_1234 0 = 1
  /\ @laneValue x64_debug TYP_INT (nth (Z.to_nat (4 - 1 - 0)) [icon 1; icon 2; icon 3; icon 4]
                            (GT_OTHER TYP_UNDEF 0)) = 4
  /\ simd_load 4 vector_1234 0
     <> @laneValue x64_debug TYP_INT (nth (Z.to_nat (4 - 1 - 0)) [icon 1; icon 2; icon 3; icon 4]
                               (GT_OTHER TYP_UNDEF 0)).
Proof.
  split; [vm_compute; reflexivity |].
  split; [reflexivity |].
  split; [reflexivity |].
  vm_compute; discriminate.
Qed.

Lemma Create_constant_fold_lane_order_witness :
  exists v,
    @impSpecialIntrinsic x64_debug NI_Vector128_Create (signature 4) CORINFO_TYPE_INT
      TYP_SIMD16 16 (importerState (rev [icon 1; icon 2; icon 3; icon 4] ++ [local TYP_INT 9]))
    = Done (Some (GT_CNS_VEC TYP_SIMD16 v),
            withStack (importerState (rev [icon 1; icon 2; icon 3; icon 4] ++ [local TYP_INT 9]))
                      [local TYP_INT 9])
    /\ forall i, 0 <= i < numArgs (signature 4) ->
         simd_load (elementBytes (@JitType2PreciseVarType x64_debug CORINFO_TYPE_INT)) v i
         = @laneValue x64_debug (@JitType2PreciseVarType x64_debug CORINFO_TYPE_INT)
                     (nth (Z.to_nat i) [icon 1; icon 2; icon 3; icon 4] (GT_OTHER TYP_UNDEF 0)).
Proof.
  apply (@Create_constant_fold_lane_order x64_debug NI_Vector128_Create (signature 4)
           CORINFO_TYPE_INT TYP_SIMD16 16
           (importerState (rev [icon 1; icon 2; icon 3; icon 4] ++ [local TYP_INT 9]))
           [icon 1; icon 2; icon 3; icon 4] [local TYP_INT 9]).
  - simpl; tauto.
  - simpl; tauto.
  - reflexivity.
  - reflexivity.
  - reflexivity.
  - repeat constructor.
  - reflexivity.
Defined.

(** [Vector128.Create(1.5, -2.0)] over [double]. *)
Lemma Create_double_fold_uses_popped_value_witness :
  exists v,
    @impSpecialIntrinsic x64_debug NI_Vector128_Create (signature 2) CORINFO_TYPE_DOUBLE
      TYP_SIMD16 16
      (importerState (rev [dcon 0x3FF8000000000000; dcon 0xC000000000000000]))
    = Done (Some (GT_CNS_VEC TYP_SIMD16 v),
            withStack (importerState (rev [dcon 0x3FF8000000000000; dcon 0xC000000000000000]))
                      [])
    /\ forall i, 0 <= i < numArgs (signature 2) ->
         simd_load (elementBytes (@JitType2PreciseVarType x64_debug CORINFO_TYPE_DOUBLE)) v i
         = @laneValue x64_debug (@JitType2PreciseVarType x64_debug CORINFO_TYPE_DOUBLE)
                     (nth (Z.to_nat i) [dcon 0x3FF8000000000000; dcon 0xC000000000000000]
                          (GT_OTHER TYP_UNDEF 0)).
Proof.
  apply (@Create_double_fold_uses_popped_value x64_debug NI_Vector128_Create (signature 2)
           CORINFO_TYPE_DOUBLE TYP_SIMD16 16
           (importerState (rev [dcon 0x3FF8000000000000; dcon 0xC000000000000000]))
           [dcon 0x3FF8000000000000; dcon 0xC000000000000000] []).
  - simpl; tauto.
  - simpl; tauto.
  - simpl; tauto.
  - reflexivity.
  - reflexivity.
  - repeat constructor.
  - reflexivity.
Defined.

Example Create_float_fold :
  @impSpecialIntrinsic x64_debug NI_Vector128_Create (signature 4) CORINFO_TYPE_FLOAT
    TYP_SIMD16 16
    (importerState (rev [dcon 0x3FF0000000000000; dcon 0x3FB999999999999A;
                         dcon 0xC000000000000000; dcon 0x3FF8000000000000]))
  = Done (Some (GT_CNS_VEC TYP_SIMD16
                  (le_bytes 4 0x3F800000 ++ le_bytes 4 0x3DCCCCCD ++ le_bytes 4 0xC0000000
                   ++ le_bytes 4 0x3FC00000 ++ repeat 0 48)%list),
          importerState []).
Proof. vm_compute; reflexivity. Qed.

Example Create_double_fold :
  @impSpecialIntrinsic x64_debug NI_Vector128_Create (signature 2) CORINFO_TYPE_DOUBLE
    TYP_SIMD16 16
    (importerState (rev [dcon 0x3FF8000000000000; dcon 0xC000000000000000]))
  = Done (Some (GT_CNS_VEC TYP_SIMD16
                  (le_bytes 8 0x3FF8000000000000 ++ le_bytes 8 0xC000000000000000
                   ++ repeat 0 48)%list),
          importerState []).
Proof. vm_compute; reflexivity. Qed.

(** Addition. *)
Lemma Vector_Add_import_witness :
  @impSpecialIntrinsic x64_release_sse2 NI_Vector256_Add (signature 2) CORINFO_TYPE_INT
    TYP_SIMD32 32 (importerState [local TYP_SIMD32 2; local TYP_SIMD32 1])
  = Done (None, importerState [local TYP_SIMD32 2; local TYP_SIMD32 1])
  /\ @impSpecialIntrinsic x64_debug NI_Vector256_op_Addition (signature 2) CORINFO_TYPE_INT
       TYP_SIMD32 32 (importerState [local TYP_SIMD32 2; local TYP_SIMD32 1])
     = Done (Some (GT_HELPER "gtNewSimdBinOpNode" TYP_SIMD32
                     [A_oper GT_ADD; A_tree (local TYP_SIMD32 1); A_tree (local TYP_SIMD32 2);
                      A_jitType CORINFO_TYPE_INT; A_size 32]),
             withStack (importerState [local TYP_SIMD32 2; local TYP_SIMD32 1]) []).
Proof.
  split.
  - apply (@Vector_Add_import x64_release_sse2 NI_Vector256_Add (signature 2)
             CORINFO_TYPE_INT TYP_SIMD32 32
             (importerState [local TYP_SIMD32 2; local TYP_SIMD32 1])).
    + simpl; tauto.
    + intros H; discriminate H.
    + intros H; discriminate H.
    + reflexivity.
    + reflexivity.
    + reflexivity.
  - apply (@Vector_Add_import x64_debug NI_Vector256_op_Addition (signature 2)
             CORINFO_TYPE_INT TYP_SIMD32 32
             (importerState [local TYP_SIMD32 2; local TYP_SIMD32 1])).
    + simpl; tauto.
    + reflexivity.
    + reflexivity.
    + right; right; reflexivity.
    + reflexivity.
Defined.

Example Vector_Add_float_without_AVX2 :
  @impSpecialIntrinsic x64_release_sse2 NI_Vector256_Add (signature 2) CORINFO_TYPE_FLOAT
    TYP_SIMD32 32 (importerState [local TYP_SIMD32 2; local TYP_SIMD32 1])
  = Done (Some (GT_HELPER "gtNewSimdBinOpNode" TYP_SIMD32
                  [A_oper GT_ADD; A_tree (local TYP_SIMD32 1); A_tree (local TYP_SIMD32 2);
                   A_jitType CORINFO_TYPE_FLOAT; A_size 32]),
          importerState []).
Proof. reflexivity. Qed.

(** Element access. *)

(** C5, as stated, fails for [GetElement]: with the constant index 100 on
    a vector of four [int] the import does not decline; it pops both
    operands and builds the node with that index. *)
Lemma GetElement_out_of_range_is_imported :
  @impSpecialIntrinsic x64_debug NI_Vector128_GetElement (signature 2) CORINFO_TYPE_INT
    TYP_INT 16 (importerState [icon 100; local TYP_SIMD16 1])
  = Done (Some (GT_HELPER "gtNewSimdGetElementNode" TYP_INT
                  [A_tree (local TYP_SIMD16 1); A_tree (icon 100);
                   A_jitType CORINFO_TYPE_INT; A_size 16]),
          importerState [])
  /\ 16 / genTypeSize TYP_INT <= 100.
Proof. split; [reflexivity | vm_compute; discriminate]. Qed.

Lemma WithElement_checks_index_GetElement_does_not_witness :
  @impSpecialIntrinsic x64_debug NI_Vector128_WithElement (signature 3) CORINFO_TYPE_INT
    TYP_SIMD16 16 (importerState [icon 7; icon 4; local TYP_SIMD16 1])
  = Done (None, importerState [icon 7; icon 4; local TYP_SIMD16 1])
  /\ @impSpecialIntrinsic x64_debug NI_Vector256_GetElement (signature 2) CORINFO_TYPE_SHORT
       TYP_SHORT 32 (importerState [icon (-1); local TYP_SIMD32 1])
     = Done (Some (GT_HELPER "gtNewSimdGetElementNode" TYP_SHORT
                     [A_tree (local TYP_SIMD32 1); A_tree (icon (-1));
                      A_jitType CORINFO_TYPE_SHORT; A_size 32]),
             withStack (importerState [icon (-1); local TYP_SIMD32 1]) []).
Proof.
  split.
  - apply (@WithElement_checks_index_GetElement_does_not x64_debug NI_Vector128_WithElement
             (signature 3) CORINFO_TYPE_INT TYP_SIMD16 16
             (importerState [icon 7; icon 4; local TYP_SIMD16 1]))
      with (valueOp := icon 7) (indexOp := icon 4) (rest := [local TYP_SIMD16 1]).
    + discriminate.
    + reflexivity.
    + simpl; tauto.
    + reflexivity.
    + reflexivity.
    + right; exists TYP_INT, 4; split; [reflexivity |].
      right; vm_compute; discriminate.
  - apply (@WithElement_checks_index_GetElement_does_not x64_debug NI_Vector256_GetElement
             (signature 2) CORINFO_TYPE_SHORT TYP_SHORT 32
             (importerState [icon (-1); local TYP_SIMD32 1])).
    + discriminate.
    + reflexivity.
    + simpl; tauto.
    + reflexivity.
    + reflexivity.
    + simpl; tauto.
    + reflexivity.
Defined.

Example WithElement_in_range :
  @impSpecialIntrinsic x64_debug NI_Vector128_WithElement (signature 3) CORINFO_TYPE_INT
    TYP_SIMD16 16 (importerState [icon 7; icon 3; local TYP_SIMD16 1])
  = Done (Some (GT_HELPER "gtNewSimdWithElementNode" TYP_SIMD16
                  [A_tree (local TYP_SIMD16 1); A_tree (icon 3); A_tree (icon 7);
                   A_jitType CORINFO_TYPE_INT; A_size 16]),
          importerState []).
Proof. reflexivity. Qed.

Example WithElement_variable_index :
  @impSpecialIntrinsic x64_debug NI_Vector128_WithElement (signature 3) CORINFO_TYPE_INT
    TYP_SIMD16 16 (importerState [icon 7; local TYP_INT 2; local TYP_SIMD16 1])
  = Done (None, importerState [icon 7; local TYP_INT 2; local TYP_SIMD16 1]).
Proof. reflexivity. Qed.

Lemma Shuffle_cross_lane_declines_witness :
  @impSpecialIntrinsic x64_debug NI_Vector256_Shuffle (signature 2) CORINFO_TYPE_UBYTE
    TYP_SIMD32 32 (importerState [GT_CNS_VEC TYP_SIMD32 indices_crossing; local TYP_SIMD32 1])
  = Done (None, importerState [GT_CNS_VEC TYP_SIMD32 indices_crossing; local TYP_SIMD32 1]).
Proof.
  apply (@Shuffle_cross_lane_declines x64_debug NI_Vector256_Shuffle (signature 2)
           CORINFO_TYPE_UBYTE TYP_SIMD32
           (importerState [GT_CNS_VEC TYP_SIMD32 indices_crossing; local TYP_SIMD32 1])
           TYP_SIMD32 indices_crossing [local TYP_SIMD32 1] 0).
  - simpl; tauto.
  - left; reflexivity.
  - reflexivity.
  - reflexivity.
  - vm_compute; split; [discriminate | reflexivity].
  - unfold crossesLane; vm_compute.
    split; [reflexivity |].
    left; split; [reflexivity | discriminate].
Defined.

Example Shuffle_within_lanes :
  @impSpecialIntrinsic x64_debug NI_Vector256_Shuffle (signature 2) CORINFO_TYPE_UBYTE
    TYP_SIMD32 32 (importerState [GT_CNS_VEC TYP_SIMD32 indices_in_lane; local TYP_SIMD32 1])
  = Done (Some (GT_HELPER "gtNewSimdShuffleNode" TYP_SIMD32
                  [A_tree (local TYP_SIMD32 1); A_tree (GT_CNS_VEC TYP_SIMD32 indices_in_lane);
                   A_jitType CORINFO_TYPE_UBYTE; A_size 32]),
          importerState []).
Proof. vm_compute; reflexivity. Qed.

(** Declines. *)
Lemma impSpecialIntrinsic_decline_leaves_stack_witness :
  exists s',
    @impSpecialIntrinsic x64_release_sse2 NI_Vector256_Dot (signature 2) CORINFO_TYPE_INT
      TYP_INT 32 (importerState [local TYP_SIMD32 2; local TYP_SIMD32 1])
    = Done (None, s')
    /\ s' = importerState [local TYP_SIMD32 2; local TYP_SIMD32 1].
Proof.
  exists (importerState [local TYP_SIMD32 2; local TYP_SIMD32 1]).
  split; [reflexivity |].
  apply (@impSpecialIntrinsic_decline_leaves_stack x64_release_sse2 NI_Vector256_Dot
           (signature 2) CORINFO_TYPE_INT TYP_INT 32).
  reflexivity.
Defined.

Example AsVector_redispatches :
  @impSpecialIntrinsic x64_debug NI_Vector128_AsVector (signature 1) CORINFO_TYPE_INT
    TYP_SIMD32 16 (importerState [local TYP_SIMD16 1])
  = Done (Some (GT_HWINTRINSIC TYP_SIMD32 [local TYP_SIMD16 1] NI_Vector128_ToVector256
                               CORINFO_TYPE_INT 16 CORINFO_TYPE_UNDEF),
          importerState []).
Proof. reflexivity. Qed.

(** * Further properties *)

(** ** Instruction sets and their versions *)

(** X1.  The 64-bit and the VL version compose one way only: no set has a
    64-bit version of a 64-bit version, a VL version of a VL version, or a
    VL version of a 64-bit version, while every VL version has a 64-bit
    version of its own. *)
Theorem X64VersionOfIsa_VLVersionOfIsa_compose (isa : CORINFO_InstructionSet) :
  X64VersionOfIsa (X64VersionOfIsa isa) = InstructionSet_NONE
  /\ VLVersionOfIsa (VLVersionOfIsa isa) = InstructionSet_NONE
  /\ VLVersionOfIsa (X64VersionOfIsa isa) = InstructionSet_NONE
  /\ (X64VersionOfIsa (VLVersionOfIsa isa) = InstructionSet_NONE
      <-> VLVersionOfIsa isa = InstructionSet_NONE).
Proof.
  destruct isa; cbn; repeat split; intros; try reflexivity; try discriminate.
Qed.

(** X2.  Two instruction sets never share a 64-bit version, nor a VL
    version: where [X64VersionOfIsa], or [VLVersionOfIsa], has an answer,
    the answer names the set it was asked about. *)
Theorem X64VersionOfIsa_VLVersionOfIsa_injective (a b : CORINFO_InstructionSet) :
  (X64VersionOfIsa a = X64VersionOfIsa b ->
   X64VersionOfIsa a <> InstructionSet_NONE -> a = b)
  /\ (VLVersionOfIsa a = VLVersionOfIsa b ->
      VLVersionOfIsa a <> InstructionSet_NONE -> a = b).
Proof.
  split; destruct a; cbn; intros H Hn; try (exfalso; apply Hn; reflexivity);
    destruct b; cbn in H; try discriminate H; reflexivity.
Qed.

Lemma X64VersionOfIsa_VLVersionOfIsa_injective_witness :
  (X64VersionOfIsa InstructionSet_AVX2 = X64VersionOfIsa InstructionSet_AVX2 ->
   X64VersionOfIsa InstructionSet_AVX2 <> InstructionSet_NONE ->
   InstructionSet_AVX2 = InstructionSet_AVX2)
  /\ VLVersionOfIsa InstructionSet_AVX512F <> InstructionSet_NONE.
Proof.
  split.
  - exact (proj1 (X64VersionOfIsa_VLVersionOfIsa_injective
                    InstructionSet_AVX2 InstructionSet_AVX2)).
  - discriminate.
Defined.

(** X3.  The two tables of instruction sets agree with the versions: a
    scalar set is fully implemented; a set that has a 64-bit version is
    fully implemented, and so is the version, which is scalar exactly when
    the set is; a set that has a VL version is fully implemented, and so is
    the version, which is never scalar. *)
Theorem isScalarIsa_isFullyImplementedIsa_closed (isa : CORINFO_InstructionSet) :
  (isScalarIsa isa = true -> isFullyImplementedIsa isa = true)
  /\ (X64VersionOfIsa isa <> InstructionSet_NONE ->
      isFullyImplementedIsa isa = true
      /\ isFullyImplementedIsa (X64VersionOfIsa isa) = true
      /\ isScalarIsa (X64VersionOfIsa isa) = isScalarIsa isa)
  /\ (VLVersionOfIsa isa <> InstructionSet_NONE ->
      isFullyImplementedIsa isa = true
      /\ isFullyImplementedIsa (VLVersionOfIsa isa) = true
      /\ isScalarIsa (VLVersionOfIsa isa) = false).
Proof.
  destruct isa; cbn; repeat split; intros; try reflexivity; try discriminate;
    try congruence; exfalso; auto.
Qed.

Lemma isScalarIsa_isFullyImplementedIsa_closed_witness :
  isFullyImplementedIsa InstructionSet_BMI1 = true
  /\ isFullyImplementedIsa (X64VersionOfIsa InstructionSet_BMI1) = true
  /\ isScalarIsa (X64VersionOfIsa InstructionSet_BMI1) = isScalarIsa InstructionSet_BMI1.
Proof.
  apply (proj1 (proj2 (isScalarIsa_isFullyImplementedIsa_closed InstructionSet_BMI1))).
  discriminate.
Defined.

(** ** Class names *)

Section ClassNames.

Context {jit : Jit}.

Local Open Scope string_scope.
Local Open Scope Z_scope.

Lemma prefix_split (p s : string) :
  String.prefix p s = true -> exists suffix, s = p ++ suffix.
Proof.
  revert s; induction p as [| c p IH]; intros s H.
  - exists s; reflexivity.
  - destruct s as [| d s]; simpl in H; [discriminate H |].
    destruct (ascii_dec c d) as [<- | _]; [| discriminate H].
    destruct (IH s H) as (suffix & ->); exists suffix; reflexivity.
Qed.

Lemma lookupInstructionSet_vector (p : string) (isa : CORINFO_InstructionSet)
  (suffix : string) :
  In (p, isa) vector_class_prefixes ->
  lookupInstructionSet (Some (p ++ suffix)) = Done isa.
Proof.
  intros H; simpl in H.
  unfold lookupInstructionSet; rewrite assertC_true; simpl bindC.
  destruct H as [H | [H | [H | []]]]; inversion H; subst; destruct suffix; reflexivity.
Qed.

Lemma lookupInstructionSet_from_table (className : string) (isa : CORINFO_InstructionSet) :
  lookupInstructionSet (Some className) = Done isa ->
  isa <> InstructionSet_ILLEGAL ->
  In (className, isa) isa_class_names
  \/ exists p, In (p, isa) vector_class_prefixes /\ String.prefix p className = true.
Proof.
  unfold lookupInstructionSet; rewrite assertC_true; simpl bindC.
  intros H Hne.
  repeat match type of H with
         | context [if ?c then _ else _] => destruct c eqn:?
         end;
    try (unfold assertC, bindC in H; destruct (DEBUG && negb false); try discriminate H);
    injection H as <-;
    try (exfalso; apply Hne; reflexivity);
    try match goal with
        | E : strcmp_eq className ?n = true |- _ =>
            apply String.eqb_eq in E; subst className; left; simpl; tauto
        end;
    match goal with
    | E : strncmp_eq className ?p = true |- _ =>
        right; exists p; split; [simpl; tauto | exact E]
    end.
Qed.

(** X4.  [lookupInstructionSet] is its table and nothing more: a name gets
    an instruction set other than [InstructionSet_ILLEGAL] exactly when it
    is one of the 22 class names, spelled out in full, which then gives the
    set of that name, or starts with [Vector128], [Vector256] or
    [Vector512], whatever follows.  The dispatch on the first letter hides
    no name and lets none in. *)
Theorem lookupInstructionSet_exact (className : string) (isa : CORINFO_InstructionSet) :
  (lookupInstructionSet (Some className) = Done isa /\ isa <> InstructionSet_ILLEGAL)
  <-> (In (className, isa) isa_class_names
       \/ exists p, In (p, isa) vector_class_prefixes /\ String.prefix p className = true).
Proof.
  split.
  - intros [H Hne]; exact (lookupInstructionSet_from_table className isa H Hne).
  - intros [H | (p & Hin & Hp)].
    + split; [exact (lookupInstructionSet_known className isa H) |].
      simpl in H.
      repeat (destruct H as [H | H]; [inversion H; discriminate |]); contradiction.
    + destruct (prefix_split p className Hp) as (suffix & ->).
      split; [exact (lookupInstructionSet_vector p isa suffix Hin) |].
      simpl in Hin.
      repeat (destruct Hin as [Hin | Hin]; [inversion Hin; discriminate |]); contradiction.
Qed.

Lemma lookupInstructionSet_range (className : option string) (isa : CORINFO_InstructionSet) :
  lookupInstructionSet className = Done isa ->
  In isa class_instruction_sets.
Proof.
  destruct className as [className |].
  2:{ unfold lookupInstructionSet, bindC; destruct (assertC _ _); discriminate. }
  intros H.
  destruct isa; try (left; reflexivity);
    (destruct (lookupInstructionSet_from_table className _ H ltac:(discriminate))
       as [Hin | (p & Hin & _)];
     simpl in Hin;
     repeat (destruct Hin as [Hin | Hin]; [inversion Hin; subst; simpl; tauto |]);
     contradiction).
Qed.

Lemma lookupIsa_cases (className enclosingClassName : option string)
  (r : CORINFO_InstructionSet) :
  lookupIsa className enclosingClassName = Done r ->
  (className = Some "X64" /\ exists isa, lookupInstructionSet enclosingClassName = Done isa
                                        /\ r = X64VersionOfIsa isa)
  \/ (className = Some "VL" /\ exists isa, lookupInstructionSet enclosingClassName = Done isa
                                          /\ r = VLVersionOfIsa isa)
  \/ (className <> Some "X64" /\ className <> Some "VL"
      /\ lookupInstructionSet className = Done r).
Proof.
  unfold lookupIsa; intros H.
  destruct className as [name |].
  2:{ unfold bindC in H; destruct (assertC _ _); discriminate. }
  rewrite assertC_true in H; simpl bindC in H.
  destruct (strcmp_eq name "X64") eqn:E1.
  { apply String.eqb_eq in E1; subst name; left; split; [reflexivity |].
    unfold bindC in H. destruct (assertC _ _); [| discriminate H].
    destruct (lookupInstructionSet enclosingClassName) as [isa | msg]; [| discriminate H].
    injection H as <-; exists isa; split; reflexivity. }
  destruct (strcmp_eq name "VL") eqn:E2.
  { apply String.eqb_eq in E2; subst name; right; left; split; [reflexivity |].
    unfold bindC in H. destruct (assertC _ _); [| discriminate H].
    destruct (lookupInstructionSet enclosingClassName) as [isa | msg]; [| discriminate H].
    injection H as <-; exists isa; split; reflexivity. }
  right; right; repeat split; try exact H.
  - intros E; injection E as ->; discriminate E1.
  - intros E; injection E as ->; discriminate E2.
Qed.

Lemma lookupIsa_nested (enclosingClassName : string) (isa : CORINFO_InstructionSet) :
  lookupInstructionSet (Some enclosingClassName) = Done isa ->
  lookupIsa (Some "X64") (Some enclosingClassName) = Done (X64VersionOfIsa isa)
  /\ lookupIsa (Some "VL") (Some enclosingClassName) = Done (VLVersionOfIsa isa).
Proof.
  intros H; unfold lookupIsa; rewrite !assertC_true; simpl; rewrite H; split; reflexivity.
Qed.

Ltac range_cases H :=
  simpl in H;
  repeat (destruct H as [H | H]; [subst |]); try contradiction.

(** X5.  The nested classes: [lookupIsa] of [X64] inside a class gives a
    set other than [InstructionSet_NONE] exactly when the enclosing class
    is one of the 22 named ones, and then the 64-bit version of its set;
    [lookupIsa] of [VL] does so exactly for [Avx512BW], [Avx512CD],
    [Avx512DQ] and [Avx512F], and then gives the VL version. *)
Theorem lookupIsa_nested_exact (enclosingClassName : string) (r : CORINFO_InstructionSet) :
  ((lookupIsa (Some "X64") (Some enclosingClassName) = Done r /\ r <> InstructionSet_NONE)
   <-> exists isa, In (enclosingClassName, isa) isa_class_names /\ r = X64VersionOfIsa isa)
  /\ ((lookupIsa (Some "VL") (Some enclosingClassName) = Done r /\ r <> InstructionSet_NONE)
      <-> exists isa, In (enclosingClassName, isa) VL_class_names /\ r = VLVersionOfIsa isa).
Proof.
  split; split.
  - intros [H Hne].
    destruct (lookupIsa_cases _ _ _ H)
      as [(_ & isa & Hl & ->) | [(E & _) | (E & _)]]; try discriminate E;
      [| exfalso; apply E; reflexivity].
    exists isa; split; [| reflexivity].
    pose proof (lookupInstructionSet_range _ _ Hl) as Hr; range_cases Hr;
      try (exfalso; apply Hne; reflexivity);
      (destruct (lookupInstructionSet_from_table _ _ Hl ltac:(discriminate))
         as [Hin | (p & Hin & _)]; [exact Hin |];
       simpl in Hin;
       repeat (destruct Hin as [Hin | Hin]; [discriminate Hin |]); contradiction).
  - intros (isa & Hin & ->).
    split; [apply lookupIsa_nested, lookupInstructionSet_known; exact Hin |].
    simpl in Hin.
    repeat (destruct Hin as [Hin | Hin]; [inversion Hin; discriminate |]); contradiction.
  - intros [H Hne].
    destruct (lookupIsa_cases _ _ _ H)
      as [(E & _) | [(_ & isa & Hl & ->) | (_ & E & _)]]; try discriminate E;
      [| exfalso; apply E; reflexivity].
    exists isa; split; [| reflexivity].
    pose proof (lookupInstructionSet_range _ _ Hl) as Hr; range_cases Hr;
      try (exfalso; apply Hne; reflexivity);
      (destruct (lookupInstructionSet_from_table _ _ Hl ltac:(discriminate))
         as [Hin | (p & Hin & _)];
       simpl in Hin;
       repeat (destruct Hin as [Hin | Hin];
               [first [discriminate Hin
                      | injection Hin as <-; simpl; repeat ((left; reflexivity) || right)] |]);
       contradiction).
  - intros (isa & Hin & ->).
    assert (Hin' : In (enclosingClassName, isa) isa_class_names)
      by (simpl in Hin |- *; tauto).
    split; [apply lookupIsa_nested, lookupInstructionSet_known; exact Hin' |].
    simpl in Hin.
    repeat (destruct Hin as [Hin | Hin]; [inversion Hin; discriminate |]); contradiction.
Qed.

(** X6.  [lookupIsa] has two ways of saying no, and the class name decides
    which: for the nested classes [X64] and [VL] it never returns
    [InstructionSet_ILLEGAL], an enclosing class without such a version
    giving [InstructionSet_NONE]; for any other class name it never returns
    [InstructionSet_NONE]. *)
Theorem lookupIsa_failure_values (className enclosingClassName : option string)
  (r : CORINFO_InstructionSet) :
  lookupIsa className enclosingClassName = Done r ->
  if (match className with
      | Some name => strcmp_eq name "X64" || strcmp_eq name "VL"
      | None => false
      end)
  then r <> InstructionSet_ILLEGAL
  else r <> InstructionSet_NONE.
Proof.
  intros H.
  destruct (lookupIsa_cases _ _ _ H)
    as [(-> & isa & Hl & ->) | [(-> & isa & Hl & ->) | (H1 & H2 & Hl)]].
  - simpl. pose proof (lookupInstructionSet_range _ _ Hl) as Hr; range_cases Hr;
      cbn; discriminate.
  - simpl. pose proof (lookupInstructionSet_range _ _ Hl) as Hr; range_cases Hr;
      cbn; discriminate.
  - destruct className as [name |].
    + destruct (strcmp_eq name "X64") eqn:E1;
        [apply String.eqb_eq in E1; subst; contradiction |].
      destruct (strcmp_eq name "VL") eqn:E2;
        [apply String.eqb_eq in E2; subst; contradiction |].
      simpl. pose proof (lookupInstructionSet_range _ _ Hl) as Hr; range_cases Hr;
      discriminate.
    + pose proof (lookupInstructionSet_range _ _ Hl) as Hr; range_cases Hr; discriminate.
Qed.


(** X8.  [lookupIsa] never names the 64-bit version of a VL set, though
    [X64VersionOfIsa] and [isFullyImplementedIsa] know the four of them:
    [X64] is looked up inside the class that encloses it, and [VL] as an
    enclosing class resolves to no set. *)
Theorem lookupIsa_never_VL_X64 (className enclosingClassName : option string)
  (r : CORINFO_InstructionSet) :
  lookupIsa className enclosingClassName = Done r ->
  ~ In r VL_X64_sets.
Proof.
  intros H.
  destruct (lookupIsa_cases _ _ _ H)
    as [(_ & isa & Hl & ->) | [(_ & isa & Hl & ->) | (_ & _ & Hl)]];
    pose proof (lookupInstructionSet_range _ _ Hl) as Hr; range_cases Hr;
    cbn; intros Hin; repeat (destruct Hin as [Hin | Hin]; [discriminate Hin |]);
    contradiction.
Qed.

End ClassNames.

Lemma lookupIsa_failure_values_witness :
  InstructionSet_NONE <> InstructionSet_ILLEGAL.
Proof.
  apply (@lookupIsa_failure_values x64_release_sse2 (Some "X64"%string) (Some "VL"%string)).
  reflexivity.
Defined.


Lemma lookupIsa_never_VL_X64_witness :
  ~ In InstructionSet_AVX512F_X64 VL_X64_sets.
Proof.
  apply (@lookupIsa_never_VL_X64 x64_debug (Some "X64"%string) (Some "Avx512F"%string)).
  reflexivity.
Defined.

(** ** The immediate upper bound, checked and unchecked *)

Section ImmUpperBoundOutcome.

Context {jit : Jit}.

Local Open Scope string_scope.
Local Open Scope Z_scope.

(** X9.  What [lookupImmUpperBound] does on any intrinsic.  A DEBUG build
    stops when the intrinsic is not of the immediate category, and when the
    full-range flag of the table is set for a comparison or clear for an
    intrinsic that is neither a comparison nor a gather.  In every other
    case, so always in a release build, the function returns 31, 8 or 255
    by the intrinsic alone, whatever its category. *)
Theorem lookupImmUpperBound_outcome (id : NamedIntrinsic) :
  let checks :=
    HWIntrinsicCategory_eqb (lookupCategory id) HW_Category_IMM
    && (isAVX2GatherIntrinsic id
        || Bool.eqb (HasFullRangeImm id) (negb (is_AVX_Compare id))) in
  if DEBUG && negb checks
  then exists msg, lookupImmUpperBound id = Fatal msg
  else lookupImmUpperBound id
       = Done (if is_AVX_Compare id then 31
               else if isAVX2GatherIntrinsic id then 8 else 255).
Proof.
  unfold lookupImmUpperBound, assertC.
  destruct DEBUG; cbn [andb].
  2:{ destruct id; reflexivity. }
  destruct (HWIntrinsicCategory_eqb (lookupCategory id) HW_Category_IMM);
    cbn [andb negb bindC]; [| eexists; reflexivity].
  destruct id; cbn [isAVX2GatherIntrinsic is_AVX_Compare orb negb];
    try reflexivity;
    match goal with
    | |- context [HasFullRangeImm ?i] => destruct (HasFullRangeImm i)
    end; cbn; try reflexivity; eexists; reflexivity.
Qed.

End ImmUpperBoundOutcome.

(** ** The swapped comparison, by what the modes say *)

(** X10.  [lookupFloatComparisonModeForSwappedArgs] returns the mode to
    use for [(op2, op1)]: the one mode that is signaling exactly when the
    given mode is, and that holds of a comparison seen from [(op2, op1)]
    exactly when the given mode holds of it seen from [(op1, op2)]. *)
Theorem lookupFloatComparisonModeForSwappedArgs_mirrors (p q : FloatComparisonMode.t) :
  q = lookupFloatComparisonModeForSwappedArgs p
  <-> (isSignaling q = isSignaling p
       /\ forall o, comparisonHolds q (swapOperands o) = comparisonHolds p o).
Proof.
  split.
  - intros ->; split; [destruct p; reflexivity |].
    intros o; destruct p, o; reflexivity.
  - intros [Hs Hh].
    pose proof (Hh Less) as H1; pose proof (Hh Equal) as H2;
      pose proof (Hh Greater) as H3; pose proof (Hh Unordered) as H4.
    destruct p, q; try reflexivity; discriminate.
Qed.

(** ** When the fallback stops *)

Section FallbackStops.

Context {jit : Jit}.

Local Open Scope string_scope.
Local Open Scope Z_scope.

Lemma shift_family_dec (intrinsic : NamedIntrinsic) :
  In intrinsic shift_family \/ ~ In intrinsic shift_family.
Proof.
  destruct intrinsic;
    first [ left; simpl; tauto
          | right; simpl; intros H;
            repeat (destruct H as [H | H]; [discriminate H |]); exact H ].
Qed.

Lemma impNonConstFallback_family (intrinsic : NamedIntrinsic) (simdType : var_types)
  (simdBaseJitType : CorInfoType) :
  In intrinsic shift_family ->
  impNonConstFallback intrinsic simdType simdBaseJitType
  = (assert_ (NoJmpTableImm intrinsic) "HWIntrinsicInfo::NoJmpTableImm(intrinsic)";;
     depth <- getStackDepth;;
     impSpillSideEffect true (depth - 2);;
     op2 <- impPopStack;;
     op1 <- impSIMDPopStack simdType;;
     ret (Some (gtNewSimdHWIntrinsicNode simdType
                  [op1; gtNewSimdHWIntrinsicNode TYP_SIMD16 [op2]
                          NI_SSE2_ConvertScalarToVector128Int32 CORINFO_TYPE_INT 16]
                  intrinsic simdBaseJitType (genTypeSize simdType))))%imp.
Proof.
  intros H; simpl in H.
  repeat (destruct H as [H | H]; [subst intrinsic; reflexivity |]).
  contradiction.
Qed.

Lemma impNonConstFallback_not_family (intrinsic : NamedIntrinsic) (simdType : var_types)
  (simdBaseJitType : CorInfoType) :
  ~ In intrinsic shift_family ->
  impNonConstFallback intrinsic simdType simdBaseJitType
  = (assert_ (NoJmpTableImm intrinsic) "HWIntrinsicInfo::NoJmpTableImm(intrinsic)";;
     ret None)%imp.
Proof.
  intros H; destruct intrinsic; try reflexivity; exfalso; apply H; simpl; tauto.
Qed.

(** X11.  [impNonConstFallback] stops the compilation in two cases and no
    other: a DEBUG build finds the intrinsic without the no-jump-table
    flag, or a shift of the family finds fewer than two entries on the
    stack. *)
Theorem impNonConstFallback_stops_iff (intrinsic : NamedIntrinsic) (simdType : var_types)
  (simdBaseJitType : CorInfoType) (s : ImpState) :
  (exists msg, impNonConstFallback intrinsic simdType simdBaseJitType s = Fatal msg)
  <-> ((DEBUG = true /\ NoJmpTableImm intrinsic = false)
       \/ (In intrinsic shift_family /\ (List.length (esStack s) < 2)%nat)).
Proof.
  destruct (shift_family_dec intrinsic) as [Hin | Hout].
  - rewrite (impNonConstFallback_family intrinsic simdType simdBaseJitType Hin).
    unfold bind at 1, assert_, liftC, assertC.
    destruct DEBUG, (NoJmpTableImm intrinsic); cbn [andb negb];
      try (split; [intros _; left; split; reflexivity | intros _; eexists; reflexivity]).
    all: unfold bind at 1, getStackDepth.
    all: destruct (esStack s) as [| op2 [| op1 rest]] eqn:Hstack.
    all: try (split;
              [ intros _; right; split; [exact Hin | simpl; lia]
              | intros _; unfold bind, impSpillSideEffect, esStackDepth; rewrite Hstack;
                cbn; eexists; reflexivity ]).
    all: split;
      [ intros (msg & H); exfalso;
        unfold bind at 1 in H;
        rewrite (impSpillSideEffect_second s op2 op1 rest Hstack) in H;
        unfold spilledSecond, impSIMDPopStack, bind, impPopStack in H;
        destruct (gtHasSideEffects op1); cbn in H; try rewrite Hstack in H; discriminate H
      | intros [[Hd Hn] | [_ Hlen]]; [congruence | simpl in Hlen; lia] ].
  - rewrite (impNonConstFallback_not_family intrinsic simdType simdBaseJitType Hout).
    unfold bind, assert_, liftC, assertC, ret.
    destruct DEBUG, (NoJmpTableImm intrinsic); cbn [andb negb]; split;
      try (intros (msg & H); discriminate H);
      try (intros [[Hd Hn] | [Hin _]]; [congruence | contradiction]);
      try (intros _; left; split; reflexivity);
      try (intros _; eexists; reflexivity).
Qed.

End FallbackStops.

(** ** What a successful import does to the stack *)

Section Consumes.

Context {jit : Jit}.

Local Open Scope string_scope.
Local Open Scope Z_scope.

Lemma consumes_ret_None (k : nat) (s : ImpState) : consumesAt k (ret None) s.
Proof. intros t s' H; inversion H. Qed.

Lemma consumes_ret_Some (t : GenTree) (s : ImpState) : consumesAt 0 (ret (Some t)) s.
Proof. intros t' s' H; inversion H; subst; split; [lia | reflexivity]. Qed.

Lemma consumes_fatal (k : nat) (msg : string) (s : ImpState) : consumesAt k (fatal msg) s.
Proof. intros t s' H; inversion H. Qed.

Lemma consumes_bind_readonly {A : Type} (k : nat) (m : Imp A)
  (f : A -> Imp (option GenTree)) (s : ImpState) :
  readonly m -> (forall a, consumesAt k (f a) s) -> consumesAt k (bind m f) s.
Proof.
  intros Hm Hf t s' H; unfold bind in H.
  destruct (m s) as [[a s1] | msg] eqn:E; [| discriminate H].
  rewrite (Hm s a s1 E) in H; exact (Hf a t s' H).
Qed.

Lemma consumes_bind_assert (k : nat) (c : bool) (msg : string)
  (f : unit -> Imp (option GenTree)) (s : ImpState) :
  DEBUG = true -> (c = true -> consumesAt k (f tt) s) ->
  consumesAt k (bind (assert_ c msg) f) s.
Proof.
  intros Hd Hf t s' H; unfold bind, assert_, liftC, assertC in H; rewrite Hd in H.
  destruct c; simpl in H; [exact (Hf eq_refl t s' H) | discriminate H].
Qed.

Lemma consumes_bind_pops {A : Type} (n k : nat) (m : Imp A)
  (f : A -> Imp (option GenTree)) (s : ImpState) :
  popsExactly n m -> (forall a s1, consumesAt k (f a) s1) ->
  consumesAt (n + k) (bind m f) s.
Proof.
  intros Hm Hf t s' H; unfold bind in H.
  destruct (m s) as [[a s1] | msg] eqn:E; [| discriminate H].
  destruct (Hm s a s1 E) as [Hn Hs1].
  destruct (Hf a s1 t s' H) as [Hk Hs'].
  rewrite Hs1 in Hk, Hs'. rewrite length_skipn in Hk.
  split; [lia |].
  rewrite Hs', skipn_skipn. f_equal; lia.
Qed.

Lemma popsExactly_impPopStack : popsExactly 1 impPopStack.
Proof.
  intros s a s' H; unfold impPopStack in H.
  destruct (esStack s) as [| t rest]; [discriminate H |].
  inversion H; subst; simpl; split; [lia | reflexivity].
Qed.

Lemma consumes_bind_pop (k : nat) (f : GenTree -> Imp (option GenTree)) (s : ImpState) :
  (forall a s1, consumesAt k (f a) s1) -> consumesAt (S k) (bind impPopStack f) s.
Proof. intros Hf; exact (consumes_bind_pops 1 k _ f s popsExactly_impPopStack Hf). Qed.

Lemma consumes_bind_keep {A : Type} (k : nat) (m : Imp A)
  (f : A -> Imp (option GenTree)) (s : ImpState) :
  popsExactly 0 m -> (forall a s1, consumesAt k (f a) s1) -> consumesAt k (bind m f) s.
Proof. intros Hm Hf; exact (consumes_bind_pops 0 k m f s Hm Hf). Qed.

Lemma consumes_bind_all {A : Type} (n : nat) (m : Imp A)
  (f : A -> Imp (option GenTree)) (s : ImpState) :
  popsExactly n m -> (forall a s1, consumesAt 0 (f a) s1) -> consumesAt n (bind m f) s.
Proof.
  intros Hm Hf. pose proof (consumes_bind_pops n 0 m f s Hm Hf) as H.
  rewrite Nat.add_0_r in H; exact H.
Qed.

Lemma consumes_bind_getStackDepth (k : nat) (f : Z -> Imp (option GenTree)) (s : ImpState) :
  consumesAt k (f (esStackDepth s)) s -> consumesAt k (bind getStackDepth f) s.
Proof. intros Hf t s' H; exact (Hf t s' H). Qed.

Lemma skipn_list_set_tree (l : list GenTree) (i k : nat) (x : GenTree) :
  (i < k)%nat -> skipn k (list_set_tree l i x) = skipn k l.
Proof.
  revert i k; induction l as [| h t IH]; intros i k Hik.
  - destruct i; reflexivity.
  - destruct k as [| k]; [lia |].
    destruct i as [| i]; simpl; [reflexivity |].
    apply IH; lia.
Qed.

Lemma length_list_set_tree (l : list GenTree) (i : nat) (x : GenTree) :
  List.length (list_set_tree l i x) = List.length l.
Proof.
  revert i; induction l as [| h t IH]; intros [| i]; simpl; try reflexivity.
  rewrite IH; reflexivity.
Qed.

Lemma impSpillSideEffect_keeps (z : Z) (k : nat) (s : ImpState) (s1 : ImpState) :
  1 <= z <= Z.of_nat k ->
  impSpillSideEffect true (esStackDepth s - z) s = Done (tt, s1) ->
  List.length (esStack s1) = List.length (esStack s)
  /\ skipn k (esStack s1) = skipn k (esStack s).
Proof.
  intros Hz H; unfold impSpillSideEffect in H.
  destruct ((esStackDepth s - z <? 0) || (esStackDepth s <=? esStackDepth s - z));
    [discriminate H |].
  replace (esStackDepth s - 1 - (esStackDepth s - z)) with (z - 1) in H by lia.
  destruct (nth_error (esStack s) (Z.to_nat (z - 1))) as [tree |]; [| discriminate H].
  destruct (gtHasSideEffects tree); inversion H; subst; simpl;
    [| split; reflexivity].
  split; [apply length_list_set_tree | apply skipn_list_set_tree; lia].
Qed.

Lemma consumes_bind_spill (z : Z) (k : nat) (f : unit -> Imp (option GenTree))
  (s : ImpState) :
  1 <= z <= Z.of_nat k ->
  (forall s1, consumesAt k (f tt) s1) ->
  consumesAt k (bind (impSpillSideEffect true (esStackDepth s - z)) f) s.
Proof.
  intros Hz Hf t s' H; unfold bind in H.
  destruct (impSpillSideEffect true (esStackDepth s - z) s) as [[[] s1] | msg] eqn:E;
    [| discriminate H].
  destruct (impSpillSideEffect_keeps z k s s1 Hz E) as [Hlen Hskip].
  destruct (Hf s1 t s' H) as [Hk Hs'].
  rewrite Hlen in Hk; rewrite Hskip in Hs'; split; assumption.
Qed.

Lemma popsExactly_SetOpLcl (op : GenTree) : popsExactly 0 (SetOpLclRelatedToSIMDIntrinsic op).
Proof.
  intros s a s' H; unfold SetOpLclRelatedToSIMDIntrinsic in H.
  destruct op; inversion H; subst; simpl; split; (lia || reflexivity).
Qed.

Lemma popsExactly_impCloneExpr (t : GenTree) : popsExactly 0 (impCloneExpr t).
Proof.
  intros s a s' H; unfold impCloneExpr in H.
  destruct (gtHasSideEffects t); inversion H; subst; simpl; split; (lia || reflexivity).
Qed.

Lemma popsExactly_impAssignMultiRegTypeToVar (op : GenTree) (c : CORINFO_CLASS) :
  popsExactly 0 (impAssignMultiRegTypeToVar op c).
Proof.
  intros s a s' H; unfold impAssignMultiRegTypeToVar in H.
  inversion H; subst; simpl; split; (lia || reflexivity).
Qed.

Lemma popsExactly_ret {A : Type} (a : A) : popsExactly 0 (ret a).
Proof. intros s a' s' H; inversion H; subst; simpl; split; (lia || reflexivity). Qed.

Lemma popsExactly_bind {A B : Type} (n k : nat) (m : Imp A) (f : A -> Imp B) :
  popsExactly n m -> (forall a, popsExactly k (f a)) -> popsExactly (n + k) (bind m f).
Proof.
  intros Hm Hf s b s' H; unfold bind in H.
  destruct (m s) as [[a s1] | msg] eqn:E; [| discriminate H].
  destruct (Hm s a s1 E) as [Hn Hs1].
  destruct (Hf a s1 b s' H) as [Hk Hs'].
  rewrite Hs1 in Hk, Hs'. rewrite length_skipn in Hk.
  split; [lia |].
  rewrite Hs', skipn_skipn. f_equal; lia.
Qed.

Lemma popsExactly_liftC {A : Type} (c : Checked A) : popsExactly 0 (liftC c).
Proof.
  intros s a s' H; unfold liftC in H; destruct c; inversion H; subst; simpl;
    split; (lia || reflexivity).
Qed.

Lemma popsExactly_foldLanes (w : nat) (cast : GenTree -> Checked Z) (simdLength : Z)
  (n : nat) :
  forall index cnsVal vecCon,
    popsExactly n (foldLanes w cast simdLength n index cnsVal vecCon).
Proof.
  induction n as [| n IH]; intros index cnsVal vecCon; cbn [foldLanes].
  - apply popsExactly_ret.
  - apply (popsExactly_bind 1 n); [exact popsExactly_impPopStack |].
    intros arg. apply (popsExactly_bind 0 n); [apply popsExactly_liftC |].
    intros v; apply IH.
Qed.

Lemma popsExactly_foldLanes_double (simdLength : Z) (n : nat) :
  forall index cnsVal vecCon,
    popsExactly n (foldLanes_double simdLength n index cnsVal vecCon).
Proof.
  induction n as [| n IH]; intros index cnsVal vecCon; cbn [foldLanes_double].
  - apply popsExactly_ret.
  - apply (popsExactly_bind 1 n); [exact popsExactly_impPopStack |].
    intros arg. apply (popsExactly_bind 0 n); [apply popsExactly_liftC |].
    intros v; apply IH.
Qed.

Lemma popsExactly_popCreateArgs (n : nat) :
  forall prevArg contiguous operands,
    popsExactly n (popCreateArgs n prevArg contiguous operands).
Proof.
  induction n as [| n IH]; intros prevArg contiguous operands; cbn [popCreateArgs].
  - apply popsExactly_ret.
  - apply (popsExactly_bind 1 n); [exact popsExactly_impPopStack |].
    intros arg. apply IH.
Qed.

End Consumes.

Ltac readonly_steps :=
  repeat first
    [ apply readonly_ret
    | apply readonly_fatal
    | apply readonly_assert
    | apply readonly_assertM
    | apply readonly_liftC
    | apply readonly_impStackTop
    | apply readonly_getStackDepth
    | apply readonly_allArgsAre
    | apply readonly_bind; [| intros ?]
    | match goal with
      | |- readonly (if ?c then _ else _) => destruct c
      | |- readonly (match ?x with _ => _ end) => destruct x
      end ].

Ltac unfold_all_cases :=
  unfold case_Abs, case_Add, case_AndNot, case_As, case_Vector128_AsVector,
    case_Vector128_AsVector2, case_Vector128_AsVector128, case_Vector256_AsVector,
    case_Vector512_AsVector, case_BitwiseAnd, case_BitwiseOr, case_Ceiling,
    case_ConditionalSelect, case_ConvertToDouble, case_ConvertToInt32, case_ConvertToSingle,
    case_Create, case_CreateScalar, case_CreateScalarUnsafe, case_Divide, case_Dot,
    case_CmpOp, case_Vector512_EqualsAll, case_EqualsAll, case_Vector512_EqualsAny,
    case_CmpOpAny, case_CmpOpAll, case_Vector512_ExtractMostSignificantBits,
    case_ExtractMostSignificantBits, case_Floor, case_get_AllBitsSet, case_get_One,
    case_get_Zero, case_GetElement, case_Load, case_LoadAligned,
    case_LoadAlignedNonTemporal, case_Max, case_Min, case_Multiply, case_Narrow,
    case_Negate, case_OnesComplement, case_op_Inequality, case_Vector512_op_Inequality,
    case_op_UnaryPlus, case_Subtract, case_ShiftLeft, case_ShiftRightArithmetic,
    case_ShiftRightLogical, case_Shuffle, case_Sqrt, case_SSE_Store, case_Store,
    case_StoreAligned, case_StoreAlignedNonTemporal, case_Sum, case_ToScalar,
    case_ToVector256, case_Vector256_GetLower, case_Vector256_GetUpper,
    case_Vector512_GetLower, case_Vector512_GetUpper, case_ToVector512, case_WidenLower,
    case_WidenUpper, case_WithElement, case_Vector256_WithLower, case_Vector256_WithUpper,
    case_Vector512_WithLower, case_Vector512_WithUpper, case_Xor, case_X86Base_Pause,
    case_X86Base_DivRem, case_SSE_CompareScalarGreaterThan, case_SSE_Prefetch,
    case_SSE_StoreFence, case_SSE2_CompareScalarGreaterThan, case_SSE2_LoadFence,
    case_SSE2_StoreNonTemporal, case_AVX2_PermuteVar8x32, case_AVX2_GatherMaskVector,
    case_BMI2_ZeroHighBits, case_BMI1_BitFieldExtract,
    compareScalarGreater, foldAwayCast, unary, binary, binaryScalar2, popArg,
    getArgForHWIntrinsic, impSIMDPopStack, x86_long_nonconstant, unreached.

(** Use what an assertion on the argument count says about the entries the
    call is to consume. *)
Ltac count_from H :=
  match type of H with
  | (numArgs ?sig =? ?c) = true =>
      apply Z.eqb_eq in H;
      try match goal with
          | |- consumesAt (Z.to_nat (numArgs sig)) _ _ =>
              let n := eval vm_compute in (Z.to_nat c) in
              replace (Z.to_nat (numArgs sig)) with n by (rewrite H; reflexivity)
          end
  | (?a || ?b) = true => idtac
  | _ => idtac
  end.

Ltac consumes_step use_self Hd :=
  first
    [ apply consumes_ret_None
    | apply consumes_ret_Some
    | apply consumes_fatal
    | apply (consumes_bind_assert _ _ _ _ _ Hd);
      let H := fresh "Hassert" in intros H; count_from H
    | apply consumes_bind_getStackDepth
    | apply consumes_bind_spill; [lia | intros ?]
    | apply consumes_bind_pop; intros ? ?
    | apply consumes_bind_readonly; [solve [readonly_steps] | intros ?]
    | apply consumes_bind_keep;
      [ first [ apply popsExactly_SetOpLcl | apply popsExactly_impCloneExpr
              | apply popsExactly_impAssignMultiRegTypeToVar | apply popsExactly_ret ]
      | intros ? ? ]
    | apply consumes_bind_all;
      [ first [ apply popsExactly_foldLanes | apply popsExactly_foldLanes_double
              | apply popsExactly_popCreateArgs ]
      | intros ? ? ]
    | progress cbv zeta
    | match goal with
      | |- consumesAt _ (bind (if ?c then _ else _) _) _ => destruct c
      | |- consumesAt _ (if ?c then _ else _) _ =>
          let E := fresh "Econd" in destruct c eqn:E; try count_from E
      | |- consumesAt _ (match ?x with _ => _ end) _ => destruct x
      end
    | use_self ].

Section ConsumesDispatch.

Context {jit : Jit}.

Local Open Scope string_scope.
Local Open Scope Z_scope.

Hypothesis Hdebug : DEBUG = true.

Variable self :
  NamedIntrinsic -> CORINFO_SIG_INFO -> CorInfoType -> var_types -> Z -> Imp (option GenTree).
Hypothesis self_consumes :
  forall i sg b r z s, consumesAt (arity i sg) (self i sg b r z) s.

Variable sig : CORINFO_SIG_INFO.
Variable simdBaseJitType : CorInfoType.
Variable retType : var_types.
Variable simdSize : Z.
Variable simdBaseType : var_types.

Ltac use_self :=
  idtac; match goal with
  | H : numArgs sig = ?c |- consumesAt ?n (self ?i sig ?b ?r ?z) ?s =>
      replace n with (arity i sig) by (unfold arity; rewrite H; reflexivity);
      apply self_consumes
  end.

Lemma dispatch_consumes (intrinsic : NamedIntrinsic) (s : ImpState) :
  consumesAt (arity intrinsic sig)
    (dispatch self intrinsic sig simdBaseJitType retType simdSize simdBaseType) s.
Proof.
  destruct intrinsic; cbn [dispatch arity]; unfold_all_cases;
    repeat consumes_step ltac:(use_self) Hdebug.
Qed.
End ConsumesDispatch.

Section ConsumesArguments.

Context {jit : Jit}.

Hypothesis Hdebug : DEBUG = true.

Lemma impSpecialIntrinsic_depth_consumes (depth : nat) :
  forall intrinsic sig simdBaseJitType retType simdSize s,
    consumesAt (arity intrinsic sig)
      (impSpecialIntrinsic_depth depth intrinsic sig simdBaseJitType retType simdSize) s.
Proof.
  induction depth as [| depth IH]; intros; simpl.
  - apply consumes_fatal.
  - unfold impSpecialIntrinsic_body.
    apply consumes_bind_readonly; [apply readonly_getSimdBaseType |].
    intros simdBaseType; apply dispatch_consumes; [exact Hdebug | exact IH].
Qed.
End ConsumesArguments.

(** X12.  In a DEBUG build a successful import consumes its arguments and
    nothing else: whenever [impSpecialIntrinsic] returns a node, the stack
    held at least as many entries as the signature has arguments, and what
    is left is the stack without exactly that many top entries.  The
    count is 1 for [Vector512.ExtractMostSignificantBits] and 2 for
    [Avx2.PermuteVar8x32], the two cases that never look at the signature's
    count. *)
Theorem impSpecialIntrinsic_consumes_arguments {jit : Jit}
  (intrinsic : NamedIntrinsic) (sig : CORINFO_SIG_INFO) (simdBaseJitType : CorInfoType)
  (retType : var_types) (simdSize : Z) (s s' : ImpState) (node : GenTree) :
  DEBUG = true ->
  impSpecialIntrinsic intrinsic sig simdBaseJitType retType simdSize s
  = Done (Some node, s') ->
  (arity intrinsic sig <= List.length (esStack s))%nat
  /\ esStack s' = skipn (arity intrinsic sig) (esStack s).
Proof.
  intros Hd H.
  exact (impSpecialIntrinsic_depth_consumes Hd 2 intrinsic sig simdBaseJitType retType
           simdSize s node s' H).
Qed.

Section Trims.

Context {jit : Jit}.

Local Open Scope string_scope.
Local Open Scope Z_scope.

Lemma trims_ret_None (z : nat) (s : ImpState) : trimsAt z (ret None) s.
Proof. intros t s' H; inversion H. Qed.

Lemma trims_ret_Some (t : GenTree) (s : ImpState) : trimsAt 0 (ret (Some t)) s.
Proof. intros t' s' H; inversion H; subst; exists 0%nat; split; [lia | reflexivity]. Qed.

Lemma trims_fatal (z : nat) (msg : string) (s : ImpState) : trimsAt z (fatal msg) s.
Proof. intros t s' H; inversion H. Qed.

Lemma trims_bind_readonly {A : Type} (z : nat) (m : Imp A)
  (f : A -> Imp (option GenTree)) (s : ImpState) :
  readonly m -> (forall a, trimsAt z (f a) s) -> trimsAt z (bind m f) s.
Proof.
  intros Hm Hf t s' H; unfold bind in H.
  destruct (m s) as [[a s1] | msg] eqn:E; [| discriminate H].
  rewrite (Hm s a s1 E) in H; exact (Hf a t s' H).
Qed.

Lemma trims_bind_pops {A : Type} (n z : nat) (m : Imp A)
  (f : A -> Imp (option GenTree)) (s : ImpState) :
  popsExactly n m -> (forall a s1, trimsAt (z - n) (f a) s1) ->
  trimsAt z (bind m f) s.
Proof.
  intros Hm Hf t s' H; unfold bind in H.
  destruct (m s) as [[a s1] | msg] eqn:E; [| discriminate H].
  destruct (Hm s a s1 E) as [Hn Hs1].
  destruct (Hf a s1 t s' H) as (k & Hk & Hs').
  rewrite Hs1 in Hk, Hs'. rewrite length_skipn in Hk.
  exists (n + k)%nat; split; [lia |].
  rewrite Hs', skipn_skipn. f_equal; lia.
Qed.

Lemma trims_bind_getStackDepth (z : nat) (f : Z -> Imp (option GenTree)) (s : ImpState) :
  trimsAt z (f (esStackDepth s)) s -> trimsAt z (bind getStackDepth f) s.
Proof. intros Hf t s' H; exact (Hf t s' H). Qed.

Lemma trims_bind_spill (zc : Z) (z : nat) (f : unit -> Imp (option GenTree))
  (s : ImpState) :
  1 <= zc ->
  (forall s1, trimsAt (Nat.max z (Z.to_nat zc)) (f tt) s1) ->
  trimsAt z (bind (impSpillSideEffect true (esStackDepth s - zc)) f) s.
Proof.
  intros Hz Hf t s' H; unfold bind in H.
  destruct (impSpillSideEffect true (esStackDepth s - zc) s) as [[[] s1] | msg] eqn:E;
    [| discriminate H].
  destruct (Hf s1 t s' H) as (k & Hk & Hs').
  destruct (impSpillSideEffect_keeps zc k s s1 ltac:(lia) E) as [Hlen Hskip].
  exists k; rewrite <- Hlen, <- Hskip; split; [lia | exact Hs'].
Qed.

End Trims.

Ltac trims_step use_self :=
  first
    [ apply trims_ret_None
    | apply trims_ret_Some
    | apply trims_fatal
    | apply trims_bind_getStackDepth
    | apply trims_bind_spill; [lia | intros ?]
    | apply trims_bind_readonly; [solve [readonly_steps] | intros ?]
    | apply (trims_bind_pops 1); [exact popsExactly_impPopStack | intros ? ?]
    | apply (trims_bind_pops 0);
      [ first [ apply popsExactly_SetOpLcl | apply popsExactly_impCloneExpr
              | apply popsExactly_impAssignMultiRegTypeToVar | apply popsExactly_ret ]
      | intros ? ? ]
    | eapply trims_bind_pops;
      [ first [ apply popsExactly_foldLanes | apply popsExactly_foldLanes_double
              | apply popsExactly_popCreateArgs ]
      | intros ? ? ]
    | progress cbv zeta
    | match goal with
      | |- trimsAt _ (bind (if ?c then _ else _) _) _ => destruct c
      | |- trimsAt _ (if ?c then _ else _) _ => destruct c
      | |- trimsAt _ (match ?x with _ => _ end) _ => destruct x
      end
    | use_self ].

Section TrimsDispatch.

Context {jit : Jit}.

Local Open Scope string_scope.
Local Open Scope Z_scope.

Variable self :
  NamedIntrinsic -> CORINFO_SIG_INFO -> CorInfoType -> var_types -> Z -> Imp (option GenTree).
Hypothesis self_trims : forall i sg b r z s, trimsAt 0 (self i sg b r z) s.

Variable sig : CORINFO_SIG_INFO.
Variable simdBaseJitType : CorInfoType.
Variable retType : var_types.
Variable simdSize : Z.
Variable simdBaseType : var_types.

Ltac use_self := idtac; apply self_trims.

Lemma dispatch_trims (intrinsic : NamedIntrinsic) (s : ImpState) :
  trimsAt 0 (dispatch self intrinsic sig simdBaseJitType retType simdSize simdBaseType) s.
Proof.
  destruct intrinsic; cbn [dispatch]; unfold_all_cases;
    repeat trims_step ltac:(use_self).
Qed.
End TrimsDispatch.

Lemma impSpecialIntrinsic_depth_trims {jit : Jit} (depth : nat) :
  forall intrinsic sig simdBaseJitType retType simdSize s,
    trimsAt 0
      (impSpecialIntrinsic_depth depth intrinsic sig simdBaseJitType retType simdSize) s.
Proof.
  induction depth as [| depth IH]; intros; simpl.
  - apply trims_fatal.
  - unfold impSpecialIntrinsic_body.
    apply trims_bind_readonly; [apply readonly_getSimdBaseType |].
    intros simdBaseType; apply dispatch_trims; exact IH.
Qed.


(** ** The AVX2 gate *)

Ltac builds_steps :=
  repeat first
    [ apply builds_ret
    | apply builds_fatal
    | apply builds_bind; intros ?
    | progress cbv zeta
    | match goal with
      | |- builds (if ?c then _ else _) => destruct c
      | |- builds (match ?x with _ => _ end) => destruct x
      end ].

Section Gates.

Context {jit : Jit}.

Local Open Scope string_scope.
Local Open Scope Z_scope.

Lemma declines_ret_None : declines (ret None).
Proof. intros s r s' H; inversion H; reflexivity. Qed.

Lemma declines_bind {A : Type} (m : Imp A) (f : A -> Imp (option GenTree)) :
  (forall a, declines (f a)) -> declines (bind m f).
Proof.
  intros Hf s r s' H; unfold bind in H.
  destruct (m s) as [[a s1] | msg]; [exact (Hf a s1 r s' H) | discriminate H].
Qed.

Lemma gate_decides (gate : bool) (m : Imp (option GenTree)) :
  (gate = true -> builds m) -> (gate = false -> declines m) ->
  forall s r s', m s = Done (r, s') -> (r = None <-> gate = false).
Proof.
  intros Hb Hd s r s' H; destruct gate.
  - split; [| discriminate]. intros ->. destruct (Hb eq_refl s s' H).
  - split; [reflexivity |]. intros _; exact (Hd eq_refl s r s' H).
Qed.

Lemma getSimdBaseType_value (simdBaseJitType : CorInfoType) (simdSize : Z)
  (s s' : ImpState) (simdBaseType : var_types) :
  getSimdBaseType simdBaseJitType simdSize s = Done (simdBaseType, s') ->
  simdBaseType = simdBaseTypeOf simdBaseJitType simdSize /\ s' = s.
Proof.
  unfold getSimdBaseType, simdBaseTypeOf; intros H.
  destruct (simdSize =? 0); cbn [negb] in H.
  - inversion H; split; reflexivity.
  - unfold bind, assert_, liftC in H.
    destruct (assertC _ _); inversion H; split; reflexivity.
Qed.

Lemma impSpecialIntrinsic_dispatch (intrinsic : NamedIntrinsic) (sig : CORINFO_SIG_INFO)
  (simdBaseJitType : CorInfoType) (retType : var_types) (simdSize : Z)
  (s s' : ImpState) (r : option GenTree) :
  impSpecialIntrinsic intrinsic sig simdBaseJitType retType simdSize s = Done (r, s') ->
  dispatch (impSpecialIntrinsic_depth 1) intrinsic sig simdBaseJitType retType simdSize
           (simdBaseTypeOf simdBaseJitType simdSize) s = Done (r, s').
Proof.
  intros H. change (impSpecialIntrinsic intrinsic sig simdBaseJitType retType simdSize)
    with (impSpecialIntrinsic_body (impSpecialIntrinsic_depth 1) intrinsic sig
            simdBaseJitType retType simdSize) in H.
  unfold impSpecialIntrinsic_body, bind in H.
  destruct (getSimdBaseType simdBaseJitType simdSize s) as [[bt s1] | msg] eqn:E;
    [| discriminate H].
  destruct (getSimdBaseType_value _ _ _ _ _ E) as [-> ->]; exact H.
Qed.

Variable self :
  NamedIntrinsic -> CORINFO_SIG_INFO -> CorInfoType -> var_types -> Z -> Imp (option GenTree).
Variable sig : CORINFO_SIG_INFO.
Variable simdBaseJitType : CorInfoType.
Variable retType : var_types.
Variable simdSize : Z.
Variable simdBaseType : var_types.

Ltac gate_cases :=
  apply gate_decides; intros Hgate;
  unfold case_Add, case_CmpOp, case_EqualsAll, case_Max, case_Min, case_Narrow,
    case_Negate, case_op_Inequality, case_Subtract, case_WidenLower, case_WidenUpper,
    case_CmpOpAny, case_CmpOpAll, unary, binary;
  rewrite Hgate;
  [ builds_steps
  | apply declines_bind; intros ?; apply declines_ret_None ].

Lemma dispatch_floating_or_AVX2_gated (intrinsic : NamedIntrinsic) :
  In intrinsic floating_or_AVX2_gated ->
  forall s r s',
    dispatch self intrinsic sig simdBaseJitType retType simdSize simdBaseType s
    = Done (r, s') ->
    (r = None <-> not32_or_floating_or_AVX2 simdSize simdBaseType = false).
Proof.
  intros Hin; simpl in Hin.
  repeat (destruct Hin as [Hin | Hin]; [subst intrinsic; cbn [dispatch]; gate_cases |]).
  contradiction.
Qed.

Lemma dispatch_AVX2_gated (intrinsic : NamedIntrinsic) :
  In intrinsic AVX2_gated ->
  forall s r s',
    dispatch self intrinsic sig simdBaseJitType retType simdSize simdBaseType s
    = Done (r, s') ->
    (r = None <-> not32_or_AVX2 simdSize = false).
Proof.
  intros Hin; simpl in Hin.
  repeat (destruct Hin as [Hin | Hin]; [subst intrinsic; cbn [dispatch]; gate_cases |]).
  contradiction.
Qed.

End Gates.

(** X14.  The AVX2 gate, for every case that has it and no other: when the
    import of an element-wise operation, comparison, widening or narrowing
    returns, it has declined exactly when the vector is 32 bytes wide, the
    elements are not floating point and AVX2 is not exactly depended on;
    for the comparisons over all or any lane, exactly when the vector is 32
    bytes wide and AVX2 is not exactly depended on, whatever the
    elements. *)
Theorem import_declines_exactly_without_AVX2 {jit : Jit}
  (intrinsic : NamedIntrinsic) (sig : CORINFO_SIG_INFO) (simdBaseJitType : CorInfoType)
  (retType : var_types) (simdSize : Z) (s s' : ImpState) (r : option GenTree) :
  impSpecialIntrinsic intrinsic sig simdBaseJitType retType simdSize s = Done (r, s') ->
  (In intrinsic floating_or_AVX2_gated ->
   (r = None <->
    simdSize = 32
    /\ varTypeIsFloating (simdBaseTypeOf simdBaseJitType simdSize) = false
    /\ compExactlyDependsOn InstructionSet_AVX2 = false))
  /\ (In intrinsic AVX2_gated ->
      (r = None <->
       simdSize = 32 /\ compExactlyDependsOn InstructionSet_AVX2 = false)).
Proof.
  intros H; apply impSpecialIntrinsic_dispatch in H.
  split; intros Hin.
  - rewrite (dispatch_floating_or_AVX2_gated _ _ _ _ _ _ _ Hin _ _ _ H).
    unfold not32_or_floating_or_AVX2.
    rewrite !orb_false_iff, negb_false_iff, Z.eqb_eq; tauto.
  - rewrite (dispatch_AVX2_gated _ _ _ _ _ _ _ Hin _ _ _ H).
    unfold not32_or_AVX2.
    rewrite !orb_false_iff, negb_false_iff, Z.eqb_eq; tauto.
Qed.

Lemma impSpecialIntrinsic_consumes_arguments_witness :
  (arity NI_Vector128_Subtract (signature 2)
   <= List.length [local TYP_SIMD16 2; local TYP_SIMD16 1; icon 7])%nat
  /\ [icon 7] = skipn (arity NI_Vector128_Subtract (signature 2))
                      [local TYP_SIMD16 2; local TYP_SIMD16 1; icon 7].
Proof.
  apply (@impSpecialIntrinsic_consumes_arguments x64_debug NI_Vector128_Subtract
           (signature 2) CORINFO_TYPE_INT TYP_SIMD16 16
           (importerState [local TYP_SIMD16 2; local TYP_SIMD16 1; icon 7])
           (importerState [icon 7])
           (gtNewSimdBinOpNode GT_SUB TYP_SIMD16 [local TYP_SIMD16 1; local TYP_SIMD16 2]
                               CORINFO_TYPE_INT 16));
    reflexivity.
Defined.


Lemma import_declines_exactly_without_AVX2_witness :
  (In NI_Vector256_Max floating_or_AVX2_gated ->
   (@None GenTree = None <->
    32 = 32
    /\ varTypeIsFloating (@simdBaseTypeOf x64_release_sse2 CORINFO_TYPE_INT 32) = false
    /\ @compExactlyDependsOn x64_release_sse2 InstructionSet_AVX2 = false))
  /\ (In NI_Vector256_Max AVX2_gated ->
      (@None GenTree = None <->
       32 = 32 /\ @compExactlyDependsOn x64_release_sse2 InstructionSet_AVX2 = false)).
Proof.
  apply (@import_declines_exactly_without_AVX2 x64_release_sse2 NI_Vector256_Max
           (signature 2) CORINFO_TYPE_INT TYP_SIMD32 32
           (importerState [local TYP_SIMD32 2; local TYP_SIMD32 1])
           (importerState [local TYP_SIMD32 2; local TYP_SIMD32 1]) None).
  reflexivity.
Defined.

(** ** Casts and resizes *)

Section Casts.

Context {jit : Jit}.

Local Open Scope string_scope.
Local Open Scope Z_scope.

Lemma assertM_holds (cond : Checked bool) (msg : string) (s : ImpState) :
  (DEBUG = true -> cond = Done true) -> assertM cond msg s = Done (tt, s).
Proof.
  intros H; unfold assertM.
  destruct DEBUG; [rewrite (H eq_refl) |]; reflexivity.
Qed.

Lemma SetOpLclRelatedToSIMDIntrinsic_run (op : GenTree) (s : ImpState) :
  SetOpLclRelatedToSIMDIntrinsic op s = Done (tt, markSIMDRelated s op).
Proof. destruct op; reflexivity. Qed.

Lemma foldAwayCast_run (sig : CORINFO_SIG_INFO) (retType : var_types) (s : ImpState)
  (op : GenTree) (rest : list GenTree) :
  (DEBUG = true ->
   getSIMDTypeForSize (getSIMDTypeSizeInBytes (retTypeSigClass sig)) = Done (TypeGet op)) ->
  esStack s = op :: rest ->
  foldAwayCast sig retType s = Done (Some op, markSIMDRelated (withStack s rest) op).
Proof.
  intros Hty Hstack; unfold foldAwayCast, impSIMDPopStack.
  rewrite (bind_Done _ _ s (withStack s rest) op (impPopStack_cons s op rest Hstack)).
  rewrite (bind_Done _ _ _ _ tt (SetOpLclRelatedToSIMDIntrinsic_run op _)).
  rewrite (bind_Done _ _ _ (markSIMDRelated (withStack s rest) op) tt); [reflexivity |].
  apply assertM_holds; intros Hd; rewrite (Hty Hd); simpl.
  destruct (TypeGet op); reflexivity.
Qed.

(** X15.  A cast between vector types of one width builds nothing: for
    each label of the [As] family, and for [AsVector] and [AsVector256]
    where [Vector<T>] has the width of the class, the import pops the
    operand and returns that very tree, having marked the local it reads,
    if it is one, as used by a SIMD intrinsic.  In a DEBUG build the
    operand must have the type of the signature's return class. *)
Theorem reinterpret_cast_is_its_operand
  (intrinsic : NamedIntrinsic) (sig : CORINFO_SIG_INFO) (simdBaseJitType : CorInfoType)
  (retType : var_types) (simdSize : Z) (s : ImpState) (op : GenTree)
  (rest : list GenTree) :
  reinterprets intrinsic ->
  (DEBUG = true ->
   numArgs sig = 1
   /\ (simdSize <> 0 ->
       varTypeIsArithmetic (JitType2PreciseVarType simdBaseJitType) = true)
   /\ getSIMDTypeForSize (getSIMDTypeSizeInBytes (retTypeSigClass sig))
      = Done (TypeGet op)) ->
  esStack s = op :: rest ->
  impSpecialIntrinsic intrinsic sig simdBaseJitType retType simdSize s
  = Done (Some op, markSIMDRelated (withStack s rest) op).
Proof.
  intros Hcast Hdebug Hstack.
  assert (Hbase : getSimdBaseType simdBaseJitType simdSize s
                  = Done (simdBaseTypeOf simdBaseJitType simdSize, s))
    by (apply getSimdBaseType_run; intros Hd; exact (proj1 (proj2 (Hdebug Hd)))).
  assert (Hargs : assert_ (numArgs sig =? 1) "sig->numArgs == 1" s = Done (tt, s))
    by (apply assert_holds; intros Hd; rewrite (proj1 (Hdebug Hd)); reflexivity).
  assert (Hfold : foldAwayCast sig retType s
                  = Done (Some op, markSIMDRelated (withStack s rest) op))
    by (apply foldAwayCast_run; [intros Hd; exact (proj2 (proj2 (Hdebug Hd))) | exact Hstack]).
  change (impSpecialIntrinsic intrinsic sig simdBaseJitType retType simdSize)
    with (impSpecialIntrinsic_body (impSpecialIntrinsic_depth 1) intrinsic sig
            simdBaseJitType retType simdSize).
  unfold impSpecialIntrinsic_body.
  rewrite (bind_Done _ _ s s _ Hbase).
  destruct Hcast as [Hin | [[-> Hreg] | [[-> | ->] Hreg]]].
  - simpl in Hin.
    repeat (destruct Hin as [Hin | Hin];
            [subst intrinsic; cbn [dispatch]; unfold case_As;
             rewrite (bind_Done _ _ s s tt Hargs); exact Hfold |]).
    contradiction.
  - cbn [dispatch]; unfold case_Vector128_AsVector.
    rewrite (bind_Done _ _ s s tt Hargs), Hreg. cbn.
    rewrite (bind_Done _ _ s s tt) by (apply assert_true). exact Hfold.
  - cbn [dispatch]; unfold case_Vector256_AsVector.
    rewrite (bind_Done _ _ s s tt Hargs), Hreg. cbn. exact Hfold.
  - cbn [dispatch]; unfold case_Vector256_AsVector.
    rewrite (bind_Done _ _ s s tt Hargs), Hreg. cbn. exact Hfold.
Qed.

(** X16.  Where [Vector<T>] has another width than the class, an
    [AsVector] call is the resize it stands for: [Vector128.AsVector] is
    imported as [Vector128.ToVector256] is, [Vector256.AsVector] as
    [Vector256.GetLower], [Vector256.AsVector256] as [Vector128.ToVector256]
    at 16 bytes, and likewise for the 512-bit class; the two imports give
    the same outcome on every state. *)
Theorem AsVector_is_the_resize
  (intrinsic : NamedIntrinsic) (sig : CORINFO_SIG_INFO) (simdBaseJitType : CorInfoType)
  (retType : var_types) (simdSize : Z) (target : NamedIntrinsic) (size : Z)
  (s : ImpState) :
  AsVector_target intrinsic simdSize = Some (target, size) ->
  (DEBUG = true ->
   numArgs sig = 1
   /\ (simdSize <> 0 ->
       varTypeIsArithmetic (JitType2PreciseVarType simdBaseJitType) = true)
   /\ (getSIMDVectorRegisterByteLength = YMM_REGSIZE_BYTES ->
       intrinsic = NI_Vector512_AsVector \/ intrinsic = NI_Vector512_AsVector512 ->
       IsBaselineVector512IsaSupported = true)) ->
  impSpecialIntrinsic intrinsic sig simdBaseJitType retType simdSize s
  = impSpecialIntrinsic target sig simdBaseJitType retType size s.
Proof.
  intros Htarget Hdebug.
  assert (Hbase : getSimdBaseType simdBaseJitType simdSize s
                  = Done (simdBaseTypeOf simdBaseJitType simdSize, s))
    by (apply getSimdBaseType_run; intros Hd; exact (proj1 (proj2 (Hdebug Hd)))).
  assert (Hargs : assert_ (numArgs sig =? 1) "sig->numArgs == 1" s = Done (tt, s))
    by (apply assert_holds; intros Hd; rewrite (proj1 (Hdebug Hd)); reflexivity).
  change (impSpecialIntrinsic intrinsic sig simdBaseJitType retType simdSize)
    with (impSpecialIntrinsic_body (impSpecialIntrinsic_depth 1) intrinsic sig
            simdBaseJitType retType simdSize).
  unfold impSpecialIntrinsic_body.
  rewrite (bind_Done _ _ s s _ Hbase).
  unfold AsVector_target in Htarget.
  destruct intrinsic; try discriminate Htarget; cbn [dispatch];
    unfold case_Vector128_AsVector, case_Vector256_AsVector, case_Vector512_AsVector;
    rewrite (bind_Done _ _ s s tt Hargs);
    destruct (getSIMDVectorRegisterByteLength =? YMM_REGSIZE_BYTES) eqn:Ey;
    try destruct (getSIMDVectorRegisterByteLength =? XMM_REGSIZE_BYTES) eqn:Ex;
    cbn [andb] in Htarget;
    try match type of Htarget with
        | (if ?c then _ else _) = _ => destruct c eqn:Ecap
        end;
    try discriminate Htarget;
    try (exfalso; apply Z.eqb_eq in Ey; apply Z.eqb_eq in Ex;
         unfold YMM_REGSIZE_BYTES, XMM_REGSIZE_BYTES in *; lia);
    injection Htarget as <- <-;
    repeat (rewrite (bind_Done _ _ s s tt);
            [| apply assert_holds; intros Hd;
               first [ reflexivity
                     | apply Z.eqb_eq in Ey;
                       apply (proj2 (proj2 (Hdebug Hd)) Ey);
                       first [left; reflexivity | right; reflexivity] ] ]);
    reflexivity.
Qed.

End Casts.

(** ** Creations *)

Section CreateFromOne.

Context {jit : Jit}.

Local Open Scope string_scope.
Local Open Scope Z_scope.

(** X18.  A creation from one argument, [Create] with a single argument,
    [CreateScalar] or [CreateScalarUnsafe]: the import pops the argument and
    hands it to the constructor of the call, constant or not; only on a
    32-bit target, for 64-bit elements and an argument that is no integer
    constant, does it decline, leaving the state as it was. *)
Theorem one_argument_creation
  (intrinsic : NamedIntrinsic) (sig : CORINFO_SIG_INFO) (simdBaseJitType : CorInfoType)
  (retType : var_types) (simdSize : Z) (s : ImpState) (op : GenTree)
  (rest : list GenTree)
  (build : var_types -> list GenTree -> CorInfoType -> Z -> GenTree) :
  createsFromOne intrinsic build ->
  numArgs sig = 1 ->
  (DEBUG = true -> simdSize <> 0 ->
   varTypeIsArithmetic (JitType2PreciseVarType simdBaseJitType) = true) ->
  esStack s = op :: rest ->
  impSpecialIntrinsic intrinsic sig simdBaseJitType retType simdSize s
  = if TARGET_X86 && varTypeIsLong (simdBaseTypeOf simdBaseJitType simdSize)
       && negb (IsIntegralConst op)
    then Done (None, s)
    else Done (Some (build retType [op] simdBaseJitType simdSize), withStack s rest).
Proof.
  intros Hbuild Hargs Harith Hstack.
  assert (Hbase : getSimdBaseType simdBaseJitType simdSize s
                  = Done (simdBaseTypeOf simdBaseJitType simdSize, s))
    by (apply getSimdBaseType_run; exact Harith).
  assert (Hassert : assert_ (numArgs sig =? 1) "sig->numArgs == 1" s = Done (tt, s))
    by (apply assert_holds; intros _; rewrite Hargs; reflexivity).
  change (impSpecialIntrinsic intrinsic sig simdBaseJitType retType simdSize)
    with (impSpecialIntrinsic_body (impSpecialIntrinsic_depth 1) intrinsic sig
            simdBaseJitType retType simdSize).
  unfold impSpecialIntrinsic_body.
  rewrite (bind_Done _ _ s s _ Hbase).
  set (simdBaseType := simdBaseTypeOf simdBaseJitType simdSize).
  assert (Hskip : forall k : bool -> Imp (option GenTree),
            bind (x86_long_nonconstant simdBaseType) k s
            = k (TARGET_X86 && varTypeIsLong simdBaseType && negb (IsIntegralConst op)) s).
  { intros k; unfold x86_long_nonconstant.
    destruct (TARGET_X86 && varTypeIsLong simdBaseType); cbn [andb]; [| reflexivity].
    unfold bind; rewrite (impStackTop_0 s op rest Hstack); reflexivity. }
  assert (Hpop : forall k : GenTree -> Imp (option GenTree),
            bind impPopStack k s = k op (withStack s rest))
    by (intros k; apply bind_Done, impPopStack_cons; exact Hstack).
  destruct Hbuild as [[Hin ->] | [[Hin ->] | [Hin ->]]]; simpl in Hin;
    repeat (destruct Hin as [Hin | Hin];
            [ subst intrinsic; cbn [dispatch];
              unfold case_Create, case_CreateScalar, case_CreateScalarUnsafe;
              try rewrite (bind_Done _ _ s s tt Hassert);
              try rewrite Hargs; cbn [Z.eqb Pos.eqb];
              rewrite Hskip;
              destruct (TARGET_X86 && varTypeIsLong simdBaseType
                        && negb (IsIntegralConst op));
              [reflexivity | rewrite Hpop; reflexivity] |]);
    contradiction.
Qed.

End CreateFromOne.

Section CreateFromMany.

Context {jit : Jit}.

Local Open Scope string_scope.
Local Open Scope Z_scope.

Lemma adjacentContiguous_snoc (l : list GenTree) (a b : GenTree) :
  adjacentContiguous (l ++ [a; b])
  = adjacentContiguous (l ++ [a]) && areArgumentsContiguous a b.
Proof.
  induction l as [| x l IH].
  - simpl. rewrite andb_true_r; reflexivity.
  - destruct l as [| y l].
    + simpl. rewrite !andb_true_r; reflexivity.
    + change (adjacentContiguous ((x :: y :: l) ++ [a; b]))
        with (areArgumentsContiguous x y && adjacentContiguous ((y :: l) ++ [a; b])).
      change (adjacentContiguous ((x :: y :: l) ++ [a]))
        with (areArgumentsContiguous x y && adjacentContiguous ((y :: l) ++ [a])).
      rewrite IH, andb_assoc; reflexivity.
Qed.

Lemma adjacentContiguous_app (l m : list GenTree) (a : GenTree) :
  adjacentContiguous (l ++ a :: m)
  = adjacentContiguous (l ++ [a]) && adjacentContiguous (a :: m).
Proof.
  induction l as [| x l IH].
  - reflexivity.
  - destruct l as [| y l].
    + simpl. destruct m; rewrite ?andb_true_r; reflexivity.
    + change (adjacentContiguous ((x :: y :: l) ++ a :: m))
        with (areArgumentsContiguous x y && adjacentContiguous ((y :: l) ++ a :: m)).
      change (adjacentContiguous ((x :: y :: l) ++ [a]))
        with (areArgumentsContiguous x y && adjacentContiguous ((y :: l) ++ [a])).
      rewrite IH, andb_assoc; reflexivity.
Qed.

(** The loop that pops the arguments of a [Create]: the operands come out
    in the order of the arguments, and the flag says whether the loop
    found each one contiguous with the next. *)
Lemma popCreateArgs_run (rest : list GenTree) (popped : list GenTree) :
  forall (s : ImpState) (prevArg : option GenTree) (contiguous : bool)
         (operands : list GenTree),
    esStack s = (popped ++ rest)%list ->
    (contiguous = true ->
     adjacentContiguous operands = true
     /\ match prevArg with
        | Some prev => exists tl, operands = prev :: tl
        | None => operands = []
        end) ->
    popCreateArgs (List.length popped) prevArg contiguous operands s
    = Done ((contiguous && adjacentContiguous (rev popped ++ operands),
             (rev popped ++ operands)%list),
            withStack s rest).
Proof.
  induction popped as [| arg popped IH]; intros s prevArg contiguous operands Hstack Hprev.
  - cbn [List.length popCreateArgs rev app]. simpl in Hstack.
    unfold ret. rewrite <- Hstack, withStack_same.
    destruct contiguous; cbn [andb]; [| reflexivity].
    rewrite (proj1 (Hprev eq_refl)); reflexivity.
  - cbn [List.length popCreateArgs].
    rewrite (bind_Done _ _ s (withStack s (popped ++ rest)) arg
               (impPopStack_cons s arg _ Hstack)).
    cbn [rev]. rewrite <- app_assoc. cbn [app].
    destruct contiguous.
    + destruct (Hprev eq_refl) as [Hadj Hshape].
      destruct prevArg as [prev |].
      * destruct Hshape as (tl & ->).
        rewrite IH; [| reflexivity |].
        -- destruct (areArgumentsContiguous arg prev) eqn:E; cbn [andb]; [reflexivity |].
           rewrite adjacentContiguous_app.
           change (adjacentContiguous (arg :: prev :: tl))
             with (areArgumentsContiguous arg prev && adjacentContiguous (prev :: tl)).
           rewrite E, andb_false_r; reflexivity.
        -- intros E; split; [| exists (prev :: tl); reflexivity].
           change (adjacentContiguous (arg :: prev :: tl))
             with (areArgumentsContiguous arg prev && adjacentContiguous (prev :: tl)).
           rewrite E, Hadj; reflexivity.
      * subst operands.
        rewrite IH; [reflexivity | reflexivity |].
        intros _; split; [reflexivity | exists []; reflexivity].
    + rewrite IH; [reflexivity | reflexivity | discriminate].
Qed.

Lemma allArgsAre_false (pred : GenTree -> bool) (s : ImpState) (n : nat) :
  forall index,
    0 <= index ->
    (Z.to_nat index + n <= List.length (esStack s))%nat ->
    (exists k t, (Z.to_nat index <= k < Z.to_nat index + n)%nat
                 /\ nth_error (esStack s) k = Some t /\ pred t = false) ->
    allArgsAre pred n index s = Done (false, s).
Proof.
  induction n as [| n IH]; intros index Hindex Hlen (k & t & Hk & Hnth & Hpred);
    cbn [allArgsAre]; [lia |].
  destruct (nth_error (esStack s) (Z.to_nat index)) as [t0 |] eqn:E0.
  2:{ apply nth_error_None in E0; lia. }
  rewrite (bind_Done _ _ s s t0).
  2:{ unfold impStackTop.
      replace (index <? 0) with false by (symmetry; apply Z.ltb_ge; exact Hindex).
      rewrite E0; reflexivity. }
  destruct (pred t0) eqn:Ep; cbn [negb]; [| reflexivity].
  apply IH; [lia | lia |].
  exists k, t; split; [| split; assumption].
  assert (k <> Z.to_nat index) by (intros ->; congruence).
  lia.
Qed.

(** X19.  [Create] from as many arguments as there are lanes, one of them
    at least no constant of the element kind: the import pops them all and
    builds the intrinsic node over the arguments in their order, first
    argument first; but when the elements are [float] and each argument is
    contiguous in memory with the next, it builds the load of the vector at
    the address of the first argument instead. *)
Theorem Create_keeps_argument_order
  (intrinsic : NamedIntrinsic) (sig : CORINFO_SIG_INFO) (simdBaseJitType : CorInfoType)
  (retType : var_types) (simdSize : Z) (s : ImpState) (args rest : list GenTree) :
  let simdBaseType := simdBaseTypeOf simdBaseJitType simdSize in
  In intrinsic Create_intrinsics ->
  (DEBUG = true ->
   (simdSize <> 0 -> varTypeIsArithmetic (JitType2PreciseVarType simdBaseJitType) = true)
   /\ numArgs sig = getSIMDVectorLength simdSize simdBaseType
   /\ (varTypeIsFloating simdBaseType = false -> varTypeIsIntegral simdBaseType = true)) ->
  Z.of_nat (List.length args) = numArgs sig ->
  (2 <= List.length args)%nat ->
  esStack s = (rev args ++ rest)%list ->
  Exists (fun t => constantOfKind simdBaseType t = false) args ->
  TARGET_X86 && varTypeIsLong simdBaseType = false ->
  impSpecialIntrinsic intrinsic sig simdBaseJitType retType simdSize s
  = Done (Some (if var_types_beq simdBaseType TYP_FLOAT && adjacentContiguous args
                then gtNewOperNode GT_IND retType
                       [CreateAddressNodeForSimdHWIntrinsicCreate
                          (hd (GT_OTHER TYP_UNDEF 0) args) simdBaseType simdSize]
                else gtNewSimdHWIntrinsicNode retType args intrinsic simdBaseJitType
                                              simdSize),
          withStack s rest).
Proof.
  intros simdBaseType Hin Hdebug Hlen Hmany Hstack Hnonconst Hx86.
  assert (Hbase : getSimdBaseType simdBaseJitType simdSize s = Done (simdBaseType, s))
    by (apply getSimdBaseType_run; intros Hd; exact (proj1 (Hdebug Hd))).
  rewrite (impSpecialIntrinsic_Create intrinsic sig simdBaseJitType retType simdSize Hin).
  rewrite (bind_Done _ _ s s _ Hbase).
  clearbody simdBaseType.
  unfold case_Create.
  replace (numArgs sig =? 1) with false by (symmetry; apply Z.eqb_neq; lia).
  cbv zeta.
  rewrite (bind_Done _ _ s s tt)
    by (apply assert_holds; intros Hd; apply Z.eqb_eq; exact (proj1 (proj2 (Hdebug Hd)))).
  assert (Hn : Z.to_nat (numArgs sig) = List.length args) by lia.
  rewrite Hn.
  assert (Hfalse : forall pred : GenTree -> bool,
            (forall t, pred t = constantOfKind simdBaseType t) ->
            allArgsAre pred (List.length args) 0 s = Done (false, s)).
  { intros pred Hpred. apply allArgsAre_false; [lia | |].
    - rewrite Hstack, length_app, length_rev; simpl; lia.
    - apply Exists_exists in Hnonconst. destruct Hnonconst as (t & Ht & Hc).
      apply in_rev in Ht. apply In_nth_error in Ht. destruct Ht as (k & Hk).
      exists k, t. assert (k < List.length (rev args))%nat
        by (apply nth_error_Some; congruence).
      rewrite length_rev in H.
      split; [simpl; lia |]. split; [| rewrite Hpred; exact Hc].
      rewrite Hstack, nth_error_app1 by (rewrite length_rev; exact H). exact Hk. }
  rewrite (bind_Done _ _ s s false).
  2:{ unfold constantOfKind in Hfalse.
      destruct (varTypeIsFloating simdBaseType) eqn:Ef.
      - apply Hfalse; reflexivity.
      - rewrite (bind_Done _ _ s s tt)
          by (apply assert_holds; intros Hd; exact (proj2 (proj2 (Hdebug Hd)) eq_refl)).
        apply Hfalse; reflexivity. }
  rewrite Hx86.
  rewrite <- (length_rev args).
  rewrite (bind_Done _ _ s (withStack s rest)
             (var_types_beq simdBaseType TYP_FLOAT
              && adjacentContiguous (rev (rev args) ++ []),
              (rev (rev args) ++ [])%list)).
  2:{ apply popCreateArgs_run; [exact Hstack |].
      intros _; split; reflexivity. }
  rewrite app_nil_r, rev_involutive. cbn [fst snd].
  destruct (var_types_beq simdBaseType TYP_FLOAT && adjacentContiguous args);
    [| reflexivity].
  destruct args as [| a args]; [simpl in Hmany; lia | reflexivity].
Qed.
End CreateFromMany.

(** ** What an import tells about the call *)

Section ImportConditions.

Context {jit : Jit}.

Local Open Scope string_scope.
Local Open Scope Z_scope.

Lemma bind_inv {A B : Type} (m : Imp A) (f : A -> Imp B) (s s' : ImpState) (b : B) :
  bind m f s = Done (b, s') ->
  exists a s1, m s = Done (a, s1) /\ f a s1 = Done (b, s').
Proof.
  unfold bind; intros H.
  destruct (m s) as [[a s1] | msg]; [| discriminate H].
  exists a, s1; split; [reflexivity | exact H].
Qed.

Lemma bind_readonly_inv {A B : Type} (m : Imp A) (f : A -> Imp B) (s s' : ImpState)
  (b : B) :
  readonly m ->
  bind m f s = Done (b, s') ->
  exists a, m s = Done (a, s) /\ f a s = Done (b, s').
Proof.
  intros Hm H. destruct (bind_inv m f s s' b H) as (a & s1 & Hrun & Hf).
  pose proof (Hm s a s1 Hrun) as ->.
  exists a; split; assumption.
Qed.

Lemma assert_inv (cond : bool) (msg : string) (s s' : ImpState) (u : unit) :
  assert_ cond msg s = Done (u, s') -> DEBUG = true -> cond = true.
Proof.
  unfold assert_, liftC, assertC; intros H Hd; rewrite Hd in H.
  destruct cond; [reflexivity | discriminate H].
Qed.

Lemma impStackTop_0_inv (s s' : ImpState) (t : GenTree) :
  impStackTop 0 s = Done (t, s') -> exists rest, esStack s = t :: rest.
Proof.
  unfold impStackTop; simpl; intros H.
  destruct (esStack s) as [| t0 rest]; [discriminate H |].
  inversion H; subst; exists rest; reflexivity.
Qed.

Lemma impPopStack_inv (s s' : ImpState) (t : GenTree) :
  impPopStack s = Done (t, s') ->
  exists rest, esStack s = t :: rest /\ s' = withStack s rest.
Proof.
  unfold impPopStack; intros H.
  destruct (esStack s) as [| t0 rest]; [discriminate H |].
  inversion H; subst; exists rest; split; reflexivity.
Qed.

Lemma binary_inv (type : var_types) (build : GenTree -> GenTree -> GenTree)
  (s s' : ImpState) (r : option GenTree) :
  binary type build s = Done (r, s') ->
  exists op2 op1 rest,
    esStack s = op2 :: op1 :: rest /\ r = Some (build op1 op2) /\ s' = withStack s rest.
Proof.
  unfold binary, impSIMDPopStack; intros H.
  destruct (bind_inv _ _ _ _ _ H) as (op2 & s1 & Hpop2 & H1).
  destruct (bind_inv _ _ _ _ _ H1) as (op1 & s2 & Hpop1 & H2).
  destruct (impPopStack_inv _ _ _ Hpop2) as (rest2 & Hs & ->).
  destruct (impPopStack_inv _ _ _ Hpop1) as (rest & Hs1 & ->).
  simpl in Hs1; subst rest2.
  inversion H2; subst.
  exists op2, op1, rest; repeat split; assumption.
Qed.

Lemma crossLaneLoop_none (simdBaseType : var_types) (indices : GenTree)
  (elementCount : Z) (n : nat) :
  forall start,
    crossLaneLoop simdBaseType indices elementCount n start = false ->
    forall index, start <= index < start + Z.of_nat n ->
                  ~ crossesLane simdBaseType indices elementCount index.
Proof.
  induction n as [| n IH]; intros start Hloop index Hrange; [lia |].
  cbn [crossLaneLoop] in Hloop. cbv zeta in Hloop.
  destruct (Z.eq_dec index start) as [-> | Hne].
  - intros (Hin & Hcross). clear IH.
    destruct (elementCount <=? GetIntegralVectorConstElement indices start simdBaseType)
      eqn:E1; [apply Z.leb_le in E1; lia |].
    destruct (start <? elementCount / 2) eqn:E2.
    + apply Z.ltb_lt in E2.
      destruct (elementCount / 2 <=? GetIntegralVectorConstElement indices start simdBaseType)
        eqn:E3; [discriminate Hloop |].
      apply Z.leb_gt in E3. lia.
    + apply Z.ltb_ge in E2.
      destruct (GetIntegralVectorConstElement indices start simdBaseType <? elementCount / 2)
        eqn:E3; [discriminate Hloop |].
      apply Z.ltb_ge in E3. lia.
  - apply (IH (start + 1)); [| lia].
    repeat match type of Hloop with
           | (if ?c then _ else _) = false => destruct c
           end; first [exact Hloop | discriminate Hloop].
Qed.

(** X20.  What a successful [Shuffle] import says about the call: the
    index vector on top of the stack is a vector constant, there are two
    arguments, the node is the shuffle of the entry below by that constant,
    and both are popped; at 32 bytes AVX2 is exactly depended on and, for
    1- and 2-byte elements, no in-range index takes its source from the
    other 128-bit half; at any other width 1- and 2-byte elements have
    SSSE3. *)
Theorem Shuffle_import_conditions
  (intrinsic : NamedIntrinsic) (sig : CORINFO_SIG_INFO) (simdBaseJitType : CorInfoType)
  (retType : var_types) (simdSize : Z) (s s' : ImpState) (node : GenTree) :
  In intrinsic Shuffle_intrinsics ->
  impSpecialIntrinsic intrinsic sig simdBaseJitType retType simdSize s
  = Done (Some node, s') ->
  let simdBaseType := simdBaseTypeOf simdBaseJitType simdSize in
  let elementCount := simdSize / genTypeSize simdBaseType in
  exists indices op1 rest,
    esStack s = indices :: op1 :: rest
    /\ IsVectorConst indices = true
    /\ numArgs sig = 2
    /\ node = gtNewSimdShuffleNode retType [op1; indices] simdBaseJitType simdSize
    /\ s' = withStack s rest
    /\ (if simdSize =? 32
        then compExactlyDependsOn InstructionSet_AVX2 = true
             /\ (varTypeIsSmallInt simdBaseType = true ->
                 forall index, 0 <= index < elementCount ->
                   ~ crossesLane simdBaseType indices elementCount index)
        else varTypeIsSmallInt simdBaseType = true ->
             compExactlyDependsOn InstructionSet_SSSE3 = true).
Proof.
  intros Hin H simdBaseType elementCount.
  apply impSpecialIntrinsic_dispatch in H. fold simdBaseType in H.
  assert (Hcase : case_Shuffle sig simdBaseJitType retType simdSize simdBaseType s
                  = Done (Some node, s')).
  { simpl in Hin. destruct Hin as [<- | [<- | []]]; exact H. }
  clear H Hin. unfold case_Shuffle in Hcase.
  destruct (bind_readonly_inv _ _ _ _ _ (readonly_assert _ _) Hcase) as ([] & _ & H1).
  destruct (bind_readonly_inv _ _ _ _ _ (readonly_assert _ _) H1) as ([] & _ & H2).
  destruct (bind_readonly_inv _ _ _ _ _ (readonly_impStackTop _) H2)
    as (indices & Htop & H3).
  destruct (impStackTop_0_inv _ _ _ Htop) as (rest0 & Hstack0).
  clear Hcase H1 H2.
  destruct (IsVectorConst indices) eqn:Econst; cbn [negb] in H3; [| discriminate H3].
  destruct (genTypeSize simdBaseType =? 0); [discriminate H3 |].
  cbv zeta in H3. fold elementCount in H3.
  assert (Hpops :
    (if numArgs sig =? 2
     then binary retType (fun op1 op2 =>
            gtNewSimdShuffleNode retType [op1; op2] simdBaseJitType simdSize)
     else ret None) s = Done (Some node, s') ->
    exists op1 rest,
      esStack s = indices :: op1 :: rest /\ numArgs sig = 2
      /\ node = gtNewSimdShuffleNode retType [op1; indices] simdBaseJitType simdSize
      /\ s' = withStack s rest).
  { destruct (numArgs sig =? 2) eqn:E2; [| discriminate].
    intros Hb. destruct (binary_inv _ _ _ _ _ Hb) as (op2 & op1 & rest & Hs & Hr & ->).
    rewrite Hstack0 in Hs. injection Hs as <- ->. injection Hr as ->.
    exists op1, rest; repeat split; try reflexivity.
    - exact Hstack0.
    - apply Z.eqb_eq; exact E2. }
  destruct (simdSize =? 32) eqn:E32.
  - destruct (compExactlyDependsOn InstructionSet_AVX2); cbn [negb] in H3;
      [| discriminate H3].
    destruct (varTypeIsSmallInt simdBaseType) eqn:Esmall.
    + destruct (crossLaneLoop simdBaseType indices elementCount (Z.to_nat elementCount) 0)
        eqn:Eloop; [discriminate H3 |].
      destruct (Hpops H3) as (op1 & rest & Hs & Hn & Hnode & Hs').
      exists indices, op1, rest; repeat split; try assumption.
      intros _ index Hrange.
      apply (crossLaneLoop_none _ _ _ _ 0 Eloop); lia.
    + destruct (Hpops H3) as (op1 & rest & Hs & Hn & Hnode & Hs').
      exists indices, op1, rest; repeat split; try assumption.
      discriminate.
  - destruct (bind_readonly_inv _ _ _ _ _ (readonly_assert _ _) H3) as ([] & _ & H4).
    destruct (varTypeIsSmallInt simdBaseType) eqn:Esmall; cbn [andb] in H4.
    + destruct (compExactlyDependsOn InstructionSet_SSSE3); cbn [negb] in H4;
        [| discriminate H4].
      destruct (Hpops H4) as (op1 & rest & Hs & Hn & Hnode & Hs').
      exists indices, op1, rest; repeat split; try assumption.
    + destruct (Hpops H4) as (op1 & rest & Hs & Hn & Hnode & Hs').
      exists indices, op1, rest; repeat split; try assumption.
      discriminate.
Qed.

End ImportConditions.

Section ElementRuns.

Context {jit : Jit}.

Local Open Scope string_scope.
Local Open Scope Z_scope.

(** X21.  [WithElement] with a constant index within the lanes: the import
    turns on the capability gate of the element kind alone.  With the
    capability it pops value, index and vector and builds the node over
    vector, index and value, in the order of the arguments; without it, it
    declines and the state is as it was. *)
Theorem WithElement_import
  (intrinsic : NamedIntrinsic) (sig : CORINFO_SIG_INFO) (simdBaseJitType : CorInfoType)
  (retType : var_types) (simdSize : Z) (s : ImpState)
  (valueOp vectorOp : GenTree) (ty : var_types) (imm8 : Z) (rest : list GenTree) :
  let simdBaseType := JitType2PreciseVarType simdBaseJitType in
  In intrinsic WithElement_intrinsics ->
  (DEBUG = true -> numArgs sig = 3) ->
  In simdSize [16; 32; 64] ->
  varTypeIsArithmetic simdBaseType = true ->
  esStack s = valueOp :: GT_CNS_INT ty imm8 :: vectorOp :: rest ->
  0 <= imm8 < simdSize / genTypeSize simdBaseType ->
  impSpecialIntrinsic intrinsic sig simdBaseJitType retType simdSize s
  = if WithElement_supported simdBaseType
    then Done (Some (gtNewSimdWithElementNode retType
                       [vectorOp; GT_CNS_INT ty imm8; valueOp]
                       simdBaseJitType simdSize),
               withStack s rest)
    else Done (None, s).
Proof.
  intros simdBaseType Hin Hargs Hsize Harith Hstack Hrange.
  assert (Hnz : simdSize <> 0)
    by (simpl in Hsize; destruct Hsize as [<- | [<- | [<- | []]]]; discriminate).
  assert (Hbase : getSimdBaseType simdBaseJitType simdSize s = Done (simdBaseType, s)).
  { rewrite getSimdBaseType_run by (intros; exact Harith).
    unfold simdBaseTypeOf. apply Z.eqb_neq in Hnz; rewrite Hnz; reflexivity. }
  clearbody simdBaseType.
  rewrite (impSpecialIntrinsic_WithElement intrinsic sig simdBaseJitType retType simdSize Hin).
  rewrite (bind_Done _ _ s s _ Hbase).
  unfold case_WithElement.
  rewrite (bind_Done _ _ s s tt)
    by (apply assert_holds; intros Hd; rewrite (Hargs Hd); reflexivity).
  rewrite (bind_Done _ _ s s _ (impStackTop_1 s valueOp _ _ Hstack)).
  cbn [OperIsConst negb].
  rewrite (bind_Done _ _ s s imm8) by reflexivity.
  pose proof (genTypeSize_arithmetic simdBaseType Harith) as Hpos.
  replace (genTypeSize simdBaseType =? 0) with false by (symmetry; apply Z.eqb_neq; lia).
  cbv zeta.
  replace ((simdSize / genTypeSize simdBaseType <=? imm8) || (imm8 <? 0)) with false
    by (symmetry; apply orb_false_iff; split; [apply Z.leb_gt | apply Z.ltb_ge]; lia).
  assert (Hty : exists simdType, getSIMDTypeForSize simdSize = Done simdType).
  { simpl in Hsize; destruct Hsize as [<- | [<- | [<- | []]]]; eexists; reflexivity. }
  destruct Hty as (simdType & Hty).
  assert (Hpops :
    (valueOp0 <- impPopStack;;
     impPopStack;;
     simdType <- liftC (getSIMDTypeForSize simdSize);;
     vectorOp0 <- impSIMDPopStack simdType;;
     ret (Some (gtNewSimdWithElementNode retType
                  [vectorOp0; GT_CNS_INT ty imm8; valueOp0] simdBaseJitType simdSize)))%imp s
    = Done (Some (gtNewSimdWithElementNode retType
                    [vectorOp; GT_CNS_INT ty imm8; valueOp] simdBaseJitType simdSize),
            withStack s rest)).
  { rewrite (bind_Done _ _ s (withStack s (GT_CNS_INT ty imm8 :: vectorOp :: rest)) valueOp
               (impPopStack_cons s _ _ Hstack)).
    rewrite (bind_Done _ _ _ (withStack s (vectorOp :: rest)) (GT_CNS_INT ty imm8))
      by reflexivity.
    rewrite (bind_Done _ _ _ (withStack s (vectorOp :: rest)) simdType)
      by (unfold liftC; rewrite Hty; reflexivity).
    unfold impSIMDPopStack.
    rewrite (bind_Done _ _ _ (withStack s rest) vectorOp) by reflexivity.
    reflexivity. }
  unfold WithElement_supported.
  destruct simdBaseType; simpl in Harith; try discriminate Harith;
    match goal with
    | |- context [compExactlyDependsOn ?i] =>
        rewrite (bind_Done _ _ s s (compExactlyDependsOn i)) by reflexivity;
        destruct (compExactlyDependsOn i); cbn [negb]; [exact Hpops | reflexivity]
    | |- _ =>
        rewrite (bind_Done _ _ s s true) by reflexivity; cbn [negb]; exact Hpops
    end.
Qed.

Lemma simd_load_store_other (w : nat) (v : simd_t) (i j x : Z) :
  0 <= i -> 0 <= j -> j <> i ->
  (Z.to_nat i * w + w <= List.length v)%nat ->
  simd_load w (simd_store w v i x) j = simd_load w v j.
Proof.
  intros Hi Hj Hne Hlen. rewrite simd_load_store by assumption.
  replace (j =? i) with false by (symmetry; apply Z.eqb_neq; exact Hne). reflexivity.
Qed.

(** X17.  [AsVector128] of a constant [Vector2] or [Vector3]: the import
    pops the constant and returns it as a 16-byte constant whose [float]
    lanes below the width of the source are the lanes of the source and
    whose lanes above are zero. *)
Theorem AsVector128_constant_zero_extends
  (sig : CORINFO_SIG_INFO) (simdBaseJitType : CorInfoType) (retType : var_types)
  (simdSize : Z) (s : ImpState) (ty : var_types) (v : simd_t) (rest : list GenTree)
  (width : Z) :
  width = 8 \/ width = 12 ->
  getSIMDTypeSizeInBytes (snd (sigArg sig 0)) = width ->
  List.length v = 64%nat ->
  esStack s = GT_CNS_VEC ty v :: rest ->
  (DEBUG = true ->
   numArgs sig = 1 /\ retType = TYP_SIMD16
   /\ BaseTypeFromFirstArg NI_Vector128_AsVector128 = true
   /\ simdBaseJitType = getBaseJitTypeOfSIMDType (snd (sigArg sig 0))
   /\ simdSize <> 0
   /\ JitType2PreciseVarType simdBaseJitType = TYP_FLOAT) ->
  exists v',
    impSpecialIntrinsic NI_Vector128_AsVector128 sig simdBaseJitType retType simdSize s
    = Done (Some (GT_CNS_VEC TYP_SIMD16 v'), withStack s rest)
    /\ List.length v' = 64%nat
    /\ forall lane, 0 <= lane < 4 ->
         simd_load 4 v' lane = if 4 * lane <? width then simd_load 4 v lane else 0.
Proof.
  intros Hwidth Hsize Hlen Hstack Hdebug.
  assert (Hbase : getSimdBaseType simdBaseJitType simdSize s
                  = Done (simdBaseTypeOf simdBaseJitType simdSize, s)).
  { apply getSimdBaseType_run; intros Hd _.
    destruct (Hdebug Hd) as (_ & _ & _ & _ & _ & ->); reflexivity. }
  assert (Hfloat : DEBUG = true -> simdBaseTypeOf simdBaseJitType simdSize = TYP_FLOAT).
  { intros Hd. destruct (Hdebug Hd) as (_ & _ & _ & _ & Hnz & Hf).
    unfold simdBaseTypeOf. apply Z.eqb_neq in Hnz; rewrite Hnz; exact Hf. }
  change (impSpecialIntrinsic NI_Vector128_AsVector128 sig simdBaseJitType retType simdSize)
    with (impSpecialIntrinsic_body (impSpecialIntrinsic_depth 1) NI_Vector128_AsVector128
            sig simdBaseJitType retType simdSize).
  unfold impSpecialIntrinsic_body.
  rewrite (bind_Done _ _ s s _ Hbase).
  cbn [dispatch]. unfold case_Vector128_AsVector128.
  rewrite (bind_Done _ _ s s tt)
    by (apply assert_holds; intros Hd; rewrite (proj1 (Hdebug Hd)); reflexivity).
  rewrite (bind_Done _ _ s s tt)
    by (apply assert_holds; intros Hd;
        rewrite (proj1 (proj2 (Hdebug Hd))); reflexivity).
  rewrite (bind_Done _ _ s s tt)
    by (apply assert_holds; intros Hd;
        exact (proj1 (proj2 (proj2 (Hdebug Hd))))).
  cbv zeta.
  rewrite (bind_Done _ _ s s tt).
  2:{ apply assert_holds; intros Hd.
      destruct (Hdebug Hd) as (_ & _ & _ & <- & _).
      destruct simdBaseJitType; reflexivity. }
  rewrite Hsize.
  assert (Hpop : forall (t : var_types) (k : GenTree -> Imp (option GenTree)),
            bind (impSIMDPopStack t) k s = k (GT_CNS_VEC ty v) (withStack s rest))
    by (intros t k; apply bind_Done, impPopStack_cons; exact Hstack).
  assert (Hlanes : forall lanes v0,
            List.length (fold_left (fun v i => simd_store 4 v i 0) lanes v0)
            = List.length v0).
  { induction lanes as [| l lanes IH]; intros v0; simpl; [reflexivity |].
    rewrite IH, simd_store_length; reflexivity. }
  destruct Hwidth as [-> | ->].
  - rewrite (bind_Done _ _ s s TYP_SIMD8) by reflexivity.
    rewrite (bind_Done _ _ s s tt)
      by (apply assert_holds; intros Hd; rewrite (Hfloat Hd); reflexivity).
    rewrite Hpop. cbn [IsCnsVec set_f32_zero fold_left].
    eexists; split; [reflexivity |]. split.
    + rewrite !simd_store_length; exact Hlen.
    + intros lane Hlane.
      assert (lane = 0 \/ lane = 1 \/ lane = 2 \/ lane = 3) as [-> | [-> | [-> | ->]]]
        by lia; cbn [Z.mul Z.ltb Z.compare Pos.compare Pos.compare_cont].
      * rewrite !simd_load_store_other; rewrite ?simd_store_length, ?Hlen;
          (reflexivity || lia || discriminate || (simpl; lia)).
      * rewrite !simd_load_store_other; rewrite ?simd_store_length, ?Hlen;
          (reflexivity || lia || discriminate || (simpl; lia)).
      * rewrite simd_load_store_other; rewrite ?simd_store_length, ?Hlen;
          try (lia || discriminate || (simpl; lia)).
        rewrite simd_load_store; rewrite ?Hlen; try (lia || (simpl; lia)). reflexivity.
      * rewrite simd_load_store; rewrite ?simd_store_length, ?Hlen;
          try (lia || (simpl; lia)). reflexivity.
  - rewrite (bind_Done _ _ s s TYP_SIMD12) by reflexivity.
    rewrite (bind_Done _ _ s s tt)
      by (apply assert_holds; intros Hd; rewrite (Hfloat Hd); reflexivity).
    rewrite Hpop. cbn [IsCnsVec set_f32_zero fold_left].
    eexists; split; [reflexivity |]. split.
    + rewrite !simd_store_length; exact Hlen.
    + intros lane Hlane.
      assert (lane = 0 \/ lane = 1 \/ lane = 2 \/ lane = 3) as [-> | [-> | [-> | ->]]]
        by lia; cbn [Z.mul Z.ltb Z.compare Pos.compare Pos.compare_cont].
      * rewrite !simd_load_store_other; rewrite ?simd_store_length, ?Hlen;
          (reflexivity || lia || discriminate || (simpl; lia)).
      * rewrite !simd_load_store_other; rewrite ?simd_store_length, ?Hlen;
          (reflexivity || lia || discriminate || (simpl; lia)).
      * rewrite !simd_load_store_other; rewrite ?simd_store_length, ?Hlen;
          (reflexivity || lia || discriminate || (simpl; lia)).
      * rewrite simd_load_store; rewrite ?simd_store_length, ?Hlen;
          try (lia || (simpl; lia)). reflexivity.
Qed.

End ElementRuns.

(** ** Operand order *)

Section Inversions.

Context {jit : Jit}.

Local Open Scope string_scope.
Local Open Scope Z_scope.

Lemma liftC_inv {A : Type} (c : Checked A) (s s' : ImpState) (a : A) :
  liftC c s = Done (a, s') -> s' = s.
Proof. unfold liftC; destruct c; intros H; inversion H; reflexivity. Qed.

Lemma SetOpLcl_inv (op : GenTree) (s s' : ImpState) (u : unit) :
  SetOpLclRelatedToSIMDIntrinsic op s = Done (u, s') ->
  esStack s' = esStack s.
Proof. destruct op; intros H; inversion H; reflexivity. Qed.

Lemma withStack_withStack (s : ImpState) (a b : list GenTree) :
  withStack (withStack s a) b = withStack s b.
Proof. reflexivity. Qed.

End Inversions.

(** Take a successful run apart: each assertion passed, each pop took the
    top entry. *)
Ltac invert_run H :=
  idtac;
  repeat first
    [ match type of H with
      | ret _ _ = Done _ => unfold ret in H; inversion H; clear H; subst
      | fatal _ _ = Done _ => discriminate H
      | Done _ = Done _ => inversion H; clear H; subst
      | Fatal _ = Done _ => discriminate H
      | bind (assert_ _ _) _ _ = Done _ =>
          let H1 := fresh "Hrun" in
          destruct (bind_readonly_inv _ _ _ _ _ (readonly_assert _ _) H) as ([] & _ & H1);
          clear H; rename H1 into H
      | bind (liftC _) _ _ = Done _ =>
          let H1 := fresh "Hrun" in
          destruct (bind_readonly_inv _ _ _ _ _ (readonly_liftC _) H) as (? & _ & H1);
          clear H; rename H1 into H
      | bind (impStackTop _) _ _ = Done _ =>
          let H1 := fresh "Hrun" in
          destruct (bind_readonly_inv _ _ _ _ _ (readonly_impStackTop _) H) as (? & _ & H1);
          clear H; rename H1 into H
      | bind impPopStack _ ?s = Done _ =>
          let H1 := fresh "Hrun" in
          let Hp := fresh "Hpop" in
          let Hs := fresh "Hstack" in
          let t := fresh "op" in
          let s1 := fresh "s" in
          let rest := fresh "rest" in
          destruct (bind_inv _ _ _ _ _ H) as (t & s1 & Hp & H1);
          destruct (impPopStack_inv _ _ _ Hp) as (rest & Hs & ->);
          clear H Hp; rename H1 into H
      | bind (SetOpLclRelatedToSIMDIntrinsic _) _ ?s = Done _ =>
          let H1 := fresh "Hrun" in
          let Hp := fresh "Hset" in
          let s1 := fresh "s" in
          destruct (bind_inv _ _ _ _ _ H) as ([] & s1 & Hp & H1);
          clear H; rename H1 into H
      | bind (ret _) _ _ = Done _ => unfold bind at 1, ret at 1 in H
      | bind (fatal _) _ _ = Done _ => discriminate H
      | bind (bind _ _) _ _ = Done _ =>
          let H1 := fresh "Hrun" in
          let H2 := fresh "Hrun" in
          destruct (bind_inv _ _ _ _ _ H) as (? & ? & H1 & H2);
          clear H; invert_run H1; rename H2 into H
      | (if ?c then _ else _) _ = Done _ => destruct c
      | (match ?x with _ => _ end) _ = Done _ => destruct x
      | bind (if ?c then _ else _) _ _ = Done _ => destruct c
      | bind (match ?x with _ => _ end) _ _ = Done _ => destruct x
      end
    | progress cbv zeta in H ].

Section OperandOrder.

Context {jit : Jit}.

Local Open Scope string_scope.
Local Open Scope Z_scope.

Variable self :
  NamedIntrinsic -> CORINFO_SIG_INFO -> CorInfoType -> var_types -> Z -> Imp (option GenTree).
Variable sig : CORINFO_SIG_INFO.
Variable simdBaseJitType : CorInfoType.
Variable retType : var_types.
Variable simdSize : Z.
Variable simdBaseType : var_types.

Ltac order_case :=
  unfold operandsInOrder; cbn [dispatch]; unfold_all_cases;
  let H := fresh "H" in
  intros ? ? H; invert_run H;
  repeat match goal with
         | Hs : SetOpLclRelatedToSIMDIntrinsic _ _ = Done _ |- _ =>
             apply SetOpLcl_inv in Hs
         end;
  cbn [esStack withStack] in *;
  repeat match goal with
         | H1 : esStack ?x = _, H2 : esStack ?x = _ |- _ => rewrite H1 in H2
         | H1 : ?r = _ :: _ |- _ => is_var r; subst r
         | H1 : _ :: _ = ?r |- _ => is_var r; subst r
         | H1 : _ :: _ = _ :: _ |- _ => injection H1 as ? ?
         end;
  repeat match goal with
         | Hs : esStack ?s = _ |- context [esStack ?s] => rewrite Hs
         end;
  first [ exists 0%nat; split; [simpl; lia | split; reflexivity]
        | exists 1%nat; split; [simpl; lia | split; reflexivity]
        | exists 2%nat; split; [simpl; lia | split; reflexivity]
        | exists 3%nat; split; [simpl; lia | split; reflexivity]
        | exists 5%nat; split; [simpl; lia | split; reflexivity] ].

Lemma dispatch_operands_in_order (intrinsic : NamedIntrinsic) (s : ImpState) :
  In intrinsic operands_in_argument_order ->
  operandsInOrder
    (dispatch self intrinsic sig simdBaseJitType retType simdSize simdBaseType) s.
Proof.
  intros Hin; simpl in Hin.
  repeat (destruct Hin as [Hin | Hin]; [subst intrinsic; order_case |]).
  contradiction.
Qed.

Lemma dispatch_operands_swapped (intrinsic : NamedIntrinsic) (s s' : ImpState)
  (node : GenTree) :
  In intrinsic operands_swapped ->
  dispatch self intrinsic sig simdBaseJitType retType simdSize simdBaseType s
  = Done (Some node, s') ->
  (2 <= List.length (esStack s))%nat
  /\ operandsOf node = firstn 2 (esStack s)
  /\ esStack s' = skipn 2 (esStack s).
Proof.
  intros Hin; simpl in Hin.
  repeat (destruct Hin as [Hin | Hin];
          [ subst intrinsic; cbn [dispatch]; unfold_all_cases;
            intros H; invert_run H;
            cbn [esStack withStack] in *; subst;
            match goal with
            | Hs : esStack ?s = _ |- context [esStack ?s] => rewrite Hs
            end;
            split; [simpl; lia | split; reflexivity] |]).
  contradiction.
Qed.
End OperandOrder.

(** X22.  Operand order.  For every case that hands the popped entries to
    its node as they are (182 labels), the node a successful import returns
    has as operands the top entries of the stack it found, the deepest
    first: the first argument of the call is the first operand.  The
    bit-field extraction and zero-high-bits cases do the opposite: their
    node takes the two entries last argument first. *)
Theorem import_operand_order {jit : Jit}
  (intrinsic : NamedIntrinsic) (sig : CORINFO_SIG_INFO) (simdBaseJitType : CorInfoType)
  (retType : var_types) (simdSize : Z) (s s' : ImpState) (node : GenTree) :
  impSpecialIntrinsic intrinsic sig simdBaseJitType retType simdSize s
  = Done (Some node, s') ->
  (In intrinsic operands_in_argument_order ->
   exists k, (k <= List.length (esStack s))%nat
             /\ operandsOf node = rev (firstn k (esStack s))
             /\ esStack s' = skipn k (esStack s))
  /\ (In intrinsic operands_swapped ->
      (2 <= List.length (esStack s))%nat
      /\ operandsOf node = firstn 2 (esStack s)
      /\ esStack s' = skipn 2 (esStack s)).
Proof.
  intros H; apply impSpecialIntrinsic_dispatch in H; split; intros Hin.
  - exact (dispatch_operands_in_order _ _ _ _ _ _ intrinsic s Hin node s' H).
  - exact (dispatch_operands_swapped _ _ _ _ _ _ intrinsic s s' node Hin H).
Qed.

(** ** Spills *)

Section Spills.

Context {jit : Jit}.

Local Open Scope string_scope.
Local Open Scope Z_scope.

Lemma impSpillSideEffect_second_inv (s s1 : ImpState) (u : unit) :
  impSpillSideEffect true (esStackDepth s - 2) s = Done (u, s1) ->
  exists top below rest,
    esStack s = top :: below :: rest /\ s1 = spilledSecond s top below rest.
Proof.
  intros H.
  destruct (esStack s) as [| top [| below rest]] eqn:Hstack.
  - unfold impSpillSideEffect, esStackDepth in H; rewrite Hstack in H; discriminate H.
  - unfold impSpillSideEffect, esStackDepth in H; rewrite Hstack in H; discriminate H.
  - rewrite (impSpillSideEffect_second s top below rest Hstack) in H.
    inversion H; subst. exists top, below, rest; split; reflexivity.
Qed.

Lemma spilledSecond_stack (s : ImpState) (top below : GenTree) (rest : list GenTree) :
  esStack s = top :: below :: rest ->
  esStack (spilledSecond s top below rest) = top :: spilledUse s below :: rest.
Proof.
  intros H; unfold spilledSecond, spilledUse.
  destruct (gtHasSideEffects below); [reflexivity | exact H].
Qed.

Variable self :
  NamedIntrinsic -> CORINFO_SIG_INFO -> CorInfoType -> var_types -> Z -> Imp (option GenTree).
Variable sig : CORINFO_SIG_INFO.
Variable simdBaseJitType : CorInfoType.
Variable retType : var_types.
Variable simdSize : Z.
Variable simdBaseType : var_types.

Ltac spill_case :=
  cbn [dispatch]; unfold_all_cases;
  let H := fresh "H" in
  intros H; invert_run H;
  repeat match goal with
         | H : bind getStackDepth _ _ = Done _ |- _ =>
             unfold bind at 1, getStackDepth at 1 in H; invert_run H
         | H : bind (impSpillSideEffect true (esStackDepth ?s - 2)) _ ?s = Done _ |- _ =>
             let H1 := fresh "Hrun" in
             let Hsp := fresh "Hspill" in
             let Hst := fresh "Hstack" in
             destruct (bind_inv _ _ _ _ _ H) as ([] & ? & Hsp & H1);
             destruct (impSpillSideEffect_second_inv _ _ _ Hsp) as (? & ? & ? & Hst & ->);
             clear H Hsp; invert_run H1
         end.

Lemma dispatch_spills (intrinsic : NamedIntrinsic) (s s' : ImpState) (node : GenTree) :
  numArgs sig = 2 ->
  dispatch self intrinsic sig simdBaseJitType retType simdSize simdBaseType s
  = Done (Some node, s') ->
  In intrinsic AndNot_intrinsics \/ In intrinsic Store_intrinsics
  \/ intrinsic = NI_AVX2_PermuteVar8x32 ->
  exists top below rest,
    esStack s = top :: below :: rest
    /\ s' = withStack (spilledSecond s top below rest) rest
    /\ operandsOf node
       = if match intrinsic with
            | NI_Vector128_AndNot | NI_Vector256_AndNot | NI_Vector512_AndNot => true
            | _ => false
            end
         then [spilledUse s below; top]
         else [match intrinsic with
               | NI_AVX2_PermuteVar8x32 => top
               | _ => throwAwayByrefCast top
               end; spilledUse s below].
Proof.
  intros Hargs H Hin.
  assert (H3 : (numArgs sig =? 3) = false) by (rewrite Hargs; reflexivity).
  assert (Hdone : forall top below rest op rest1 op0 rest0 (ops expected : list GenTree),
            esStack s = top :: below :: rest ->
            esStack (spilledSecond s top below rest) = op :: rest1 ->
            esStack (withStack (spilledSecond s top below rest) rest1) = op0 :: rest0 ->
            (op = top -> op0 = spilledUse s below -> ops = expected) ->
            esStack s = top :: below :: rest
            /\ withStack (withStack (spilledSecond s top below rest) rest1) rest0
               = withStack (spilledSecond s top below rest) rest
            /\ ops = expected).
  { intros top below rest op rest1 op0 rest0 ops expected Hs Hs0 Hs1 Hops.
    rewrite (spilledSecond_stack s top below rest Hs) in Hs0.
    injection Hs0 as <- <-. cbn [esStack withStack] in Hs1. injection Hs1 as <- <-.
    repeat split; [exact Hs | apply Hops; reflexivity]. }
  destruct Hin as [Hin | [Hin | ->]]; [simpl in Hin .. |].
  - repeat (destruct Hin as [Hin | Hin];
            [ subst intrinsic; revert H; spill_case |]); try contradiction.
    all: match goal with
         | Hs : esStack ?s = ?top :: ?below :: ?rest |- _ =>
             exists top, below, rest; eapply Hdone; try eassumption;
             intros -> ->; reflexivity
         end.
  - repeat (destruct Hin as [Hin | Hin];
            [ subst intrinsic; revert H; spill_case |]); try contradiction.
    all: try discriminate.
    all: match goal with
         | Hs : esStack ?s = ?top :: ?below :: ?rest |- _ =>
             exists top, below, rest; eapply Hdone; try eassumption;
             intros -> ->; reflexivity
         end.
  - revert H; spill_case.
    match goal with
    | Hs : esStack ?s = ?top :: ?below :: ?rest |- _ =>
        exists top, below, rest; eapply Hdone; try eassumption;
        intros -> ->; reflexivity
    end.
Qed.
End Spills.

(** X23.  The cases that spill before they pop, with two arguments:
    [AndNot], the stores through a pointer and [Avx2.PermuteVar8x32].  A
    successful import found two entries, stored the one below the top to a
    fresh temporary when it had side effects, and popped both; the node has
    the use of that temporary, or the entry itself, where the lower entry
    goes: first for [AndNot], second, after the upper entry, for the
    others, the stores taking their address out of a cast to a byref. *)
Theorem spilling_imports_protect_evaluation_order {jit : Jit}
  (intrinsic : NamedIntrinsic) (sig : CORINFO_SIG_INFO) (simdBaseJitType : CorInfoType)
  (retType : var_types) (simdSize : Z) (s s' : ImpState) (node : GenTree) :
  In intrinsic AndNot_intrinsics \/ In intrinsic Store_intrinsics
  \/ intrinsic = NI_AVX2_PermuteVar8x32 ->
  numArgs sig = 2 ->
  impSpecialIntrinsic intrinsic sig simdBaseJitType retType simdSize s
  = Done (Some node, s') ->
  exists top below rest,
    esStack s = top :: below :: rest
    /\ s' = withStack (spilledSecond s top below rest) rest
    /\ operandsOf node
       = if match intrinsic with
            | NI_Vector128_AndNot | NI_Vector256_AndNot | NI_Vector512_AndNot => true
            | _ => false
            end
         then [spilledUse s below; top]
         else [match intrinsic with
               | NI_AVX2_PermuteVar8x32 => top
               | _ => throwAwayByrefCast top
               end; spilledUse s below].
Proof.
  intros Hin Hargs H; apply impSpecialIntrinsic_dispatch in H.
  exact (dispatch_spills _ _ _ _ _ _ intrinsic s s' node Hargs H Hin).
Qed.

(** ** The further properties on concrete calls *)

Lemma reinterpret_cast_is_its_operand_witness :
  @impSpecialIntrinsic x64_debug NI_Vector128_AsInt32
    (signature_of 1 (vector_class CORINFO_TYPE_INT 16) []) CORINFO_TYPE_FLOAT TYP_SIMD16 16
    (importerState [local TYP_SIMD16 1; icon 7])
  = Done (Some (local TYP_SIMD16 1),
          markSIMDRelated (withStack (importerState [local TYP_SIMD16 1; icon 7]) [icon 7])
                          (local TYP_SIMD16 1)).
Proof.
  apply (@reinterpret_cast_is_its_operand x64_debug NI_Vector128_AsInt32
           (signature_of 1 (vector_class CORINFO_TYPE_INT 16) []) CORINFO_TYPE_FLOAT
           TYP_SIMD16 16 (importerState [local TYP_SIMD16 1; icon 7])
           (local TYP_SIMD16 1) [icon 7]).
  - left; simpl; tauto.
  - intros _; repeat split; reflexivity.
  - reflexivity.
Defined.

Lemma AsVector_is_the_resize_witness :
  @impSpecialIntrinsic x64_debug NI_Vector512_AsVector512 (signature 1) CORINFO_TYPE_INT
    TYP_SIMD64 64 (importerState [local TYP_SIMD32 1])
  = @impSpecialIntrinsic x64_debug NI_Vector256_ToVector512 (signature 1) CORINFO_TYPE_INT
      TYP_SIMD64 32 (importerState [local TYP_SIMD32 1]).
Proof.
  apply (@AsVector_is_the_resize x64_debug NI_Vector512_AsVector512 (signature 1)
           CORINFO_TYPE_INT TYP_SIMD64 64 NI_Vector256_ToVector512 32
           (importerState [local TYP_SIMD32 1])).
  - reflexivity.
  - intros _; repeat split; reflexivity.
Defined.

Lemma AsVector128_constant_zero_extends_witness :
  exists v',
    @impSpecialIntrinsic x64_debug NI_Vector128_AsVector128
      (signature_of 1 (vector_class CORINFO_TYPE_FLOAT 16)
                    [(CORINFO_TYPE_UNDEF, vector_class CORINFO_TYPE_FLOAT 8)])
      CORINFO_TYPE_FLOAT TYP_SIMD16 16
      (importerState [GT_CNS_VEC TYP_SIMD8 vector2_12; icon 7])
    = Done (Some (GT_CNS_VEC TYP_SIMD16 v'),
            withStack (importerState [GT_CNS_VEC TYP_SIMD8 vector2_12; icon 7]) [icon 7])
    /\ List.length v' = 64%nat
    /\ forall lane, 0 <= lane < 4 ->
         simd_load 4 v' lane = if 4 * lane <? 8 then simd_load 4 vector2_12 lane else 0.
Proof.
  apply (@AsVector128_constant_zero_extends x64_debug
           (signature_of 1 (vector_class CORINFO_TYPE_FLOAT 16)
                         [(CORINFO_TYPE_UNDEF, vector_class CORINFO_TYPE_FLOAT 8)])
           CORINFO_TYPE_FLOAT TYP_SIMD16 16
           (importerState [GT_CNS_VEC TYP_SIMD8 vector2_12; icon 7])
           TYP_SIMD8 vector2_12 [icon 7] 8).
  - left; reflexivity.
  - reflexivity.
  - reflexivity.
  - reflexivity.
  - intros _; repeat split; try reflexivity; discriminate.
Defined.

Lemma one_argument_creation_witness :
  @impSpecialIntrinsic x64_debug NI_Vector128_Create (signature 1) CORINFO_TYPE_LONG
    TYP_SIMD16 16 (importerState [icon 5; local TYP_INT 1])
  = if @TARGET_X86 x64_debug
       && varTypeIsLong (@simdBaseTypeOf x64_debug CORINFO_TYPE_LONG 16)
       && negb (IsIntegralConst (icon 5))
    then Done (None, importerState [icon 5; local TYP_INT 1])
    else Done (Some (gtNewSimdCreateBroadcastNode TYP_SIMD16 [icon 5] CORINFO_TYPE_LONG 16),
               withStack (importerState [icon 5; local TYP_INT 1]) [local TYP_INT 1]).
Proof.
  apply (@one_argument_creation x64_debug NI_Vector128_Create (signature 1)
           CORINFO_TYPE_LONG TYP_SIMD16 16 (importerState [icon 5; local TYP_INT 1])
           (icon 5) [local TYP_INT 1] gtNewSimdCreateBroadcastNode).
  - left; split; [simpl; tauto | reflexivity].
  - reflexivity.
  - intros _ _; reflexivity.
  - reflexivity.
Defined.

Lemma Create_keeps_argument_order_witness :
  @impSpecialIntrinsic x64_debug NI_Vector128_Create (signature 4) CORINFO_TYPE_INT
    TYP_SIMD16 16
    (importerState [icon 4; icon 3; local TYP_INT 1; icon 1; local TYP_INT 9])
  = Done (Some (if var_types_beq (@simdBaseTypeOf x64_debug CORINFO_TYPE_INT 16) TYP_FLOAT
                   && @adjacentContiguous x64_debug
                        [icon 1; local TYP_INT 1; icon 3; icon 4]
                then gtNewOperNode GT_IND TYP_SIMD16
                       [CreateAddressNodeForSimdHWIntrinsicCreate
                          (hd (GT_OTHER TYP_UNDEF 0)
                              [icon 1; local TYP_INT 1; icon 3; icon 4])
                          (@simdBaseTypeOf x64_debug CORINFO_TYPE_INT 16) 16]
                else gtNewSimdHWIntrinsicNode TYP_SIMD16
                       [icon 1; local TYP_INT 1; icon 3; icon 4]
                       NI_Vector128_Create CORINFO_TYPE_INT 16),
          withStack (importerState [icon 4; icon 3; local TYP_INT 1; icon 1;
                                    local TYP_INT 9])
                    [local TYP_INT 9]).
Proof.
  apply (@Create_keeps_argument_order x64_debug NI_Vector128_Create (signature 4)
           CORINFO_TYPE_INT TYP_SIMD16 16
           (importerState [icon 4; icon 3; local TYP_INT 1; icon 1; local TYP_INT 9])
           [icon 1; local TYP_INT 1; icon 3; icon 4] [local TYP_INT 9]).
  - simpl; tauto.
  - intros _; repeat split; reflexivity.
  - reflexivity.
  - simpl; lia.
  - reflexivity.
  - apply Exists_cons_tl, Exists_cons_hd; reflexivity.
  - reflexivity.
Defined.

Lemma Shuffle_import_conditions_witness :
  exists indices op1 rest,
    [GT_CNS_VEC TYP_SIMD32 indices_in_lane; local TYP_SIMD32 1] = indices :: op1 :: rest
    /\ IsVectorConst indices = true
    /\ 2 = 2
    /\ gtNewSimdShuffleNode TYP_SIMD32
         [local TYP_SIMD32 1; GT_CNS_VEC TYP_SIMD32 indices_in_lane] CORINFO_TYPE_UBYTE 32
       = gtNewSimdShuffleNode TYP_SIMD32 [op1; indices] CORINFO_TYPE_UBYTE 32
    /\ importerState []
       = withStack (importerState [GT_CNS_VEC TYP_SIMD32 indices_in_lane;
                                   local TYP_SIMD32 1]) rest
    /\ (@compExactlyDependsOn x64_debug InstructionSet_AVX2 = true
        /\ (varTypeIsSmallInt (@simdBaseTypeOf x64_debug CORINFO_TYPE_UBYTE 32) = true ->
            forall index,
              0 <= index
              < 32 / genTypeSize (@simdBaseTypeOf x64_debug CORINFO_TYPE_UBYTE 32) ->
              ~ crossesLane (@simdBaseTypeOf x64_debug CORINFO_TYPE_UBYTE 32) indices
                  (32 / genTypeSize (@simdBaseTypeOf x64_debug CORINFO_TYPE_UBYTE 32))
                  index)).
Proof.
  apply (@Shuffle_import_conditions x64_debug NI_Vector256_Shuffle (signature 2)
           CORINFO_TYPE_UBYTE TYP_SIMD32 32
           (importerState [GT_CNS_VEC TYP_SIMD32 indices_in_lane; local TYP_SIMD32 1])
           (importerState [])
           (gtNewSimdShuffleNode TYP_SIMD32
              [local TYP_SIMD32 1; GT_CNS_VEC TYP_SIMD32 indices_in_lane]
              CORINFO_TYPE_UBYTE 32)).
  - simpl; tauto.
  - vm_compute; reflexivity.
Defined.

Lemma WithElement_import_witness :
  @impSpecialIntrinsic x64_debug NI_Vector128_WithElement (signature 3) CORINFO_TYPE_INT
    TYP_SIMD16 16 (importerState [icon 9; icon 2; local TYP_SIMD16 1; icon 7])
  = if @WithElement_supported x64_debug (@JitType2PreciseVarType x64_debug CORINFO_TYPE_INT)
    then Done (Some (gtNewSimdWithElementNode TYP_SIMD16
                       [local TYP_SIMD16 1; GT_CNS_INT TYP_INT 2; icon 9]
                       CORINFO_TYPE_INT 16),
               withStack (importerState [icon 9; icon 2; local TYP_SIMD16 1; icon 7])
                         [icon 7])
    else Done (None, importerState [icon 9; icon 2; local TYP_SIMD16 1; icon 7]).
Proof.
  apply (@WithElement_import x64_debug NI_Vector128_WithElement (signature 3)
           CORINFO_TYPE_INT TYP_SIMD16 16
           (importerState [icon 9; icon 2; local TYP_SIMD16 1; icon 7])
           (icon 9) (local TYP_SIMD16 1) TYP_INT 2 [icon 7]).
  - simpl; tauto.
  - intros _; reflexivity.
  - simpl; tauto.
  - reflexivity.
  - reflexivity.
  - cbv; split; [discriminate | reflexivity].
Defined.

Lemma import_operand_order_witness :
  (In NI_Vector128_Divide operands_in_argument_order ->
   exists k, (k <= List.length [local TYP_SIMD16 2; local TYP_SIMD16 1; icon 7])%nat
             /\ operandsOf (gtNewSimdBinOpNode GT_DIV TYP_SIMD16
                              [local TYP_SIMD16 1; local TYP_SIMD16 2]
                              CORINFO_TYPE_FLOAT 16)
                = rev (firstn k [local TYP_SIMD16 2; local TYP_SIMD16 1; icon 7])
             /\ [icon 7] = skipn k [local TYP_SIMD16 2; local TYP_SIMD16 1; icon 7])
  /\ (In NI_Vector128_Divide operands_swapped ->
      (2 <= List.length [local TYP_SIMD16 2; local TYP_SIMD16 1; icon 7])%nat
      /\ operandsOf (gtNewSimdBinOpNode GT_DIV TYP_SIMD16
                       [local TYP_SIMD16 1; local TYP_SIMD16 2] CORINFO_TYPE_FLOAT 16)
         = firstn 2 [local TYP_SIMD16 2; local TYP_SIMD16 1; icon 7]
      /\ [icon 7] = skipn 2 [local TYP_SIMD16 2; local TYP_SIMD16 1; icon 7]).
Proof.
  apply (@import_operand_order x64_debug NI_Vector128_Divide (signature 2)
           CORINFO_TYPE_FLOAT TYP_SIMD16 16
           (importerState [local TYP_SIMD16 2; local TYP_SIMD16 1; icon 7])
           (importerState [icon 7])
           (gtNewSimdBinOpNode GT_DIV TYP_SIMD16 [local TYP_SIMD16 1; local TYP_SIMD16 2]
                               CORINFO_TYPE_FLOAT 16)).
  reflexivity.
Defined.

Lemma spilling_imports_protect_evaluation_order_witness :
  exists top below rest,
    [local TYP_SIMD16 2; GT_OTHER TYP_SIMD16 5; icon 7] = top :: below :: rest
    /\ {| esStack := [icon 7]; impStmts := [(0%nat, GT_OTHER TYP_SIMD16 5)];
          lvaCount := 1; lvaSIMDRelated := [] |}
       = withStack (@spilledSecond x64_debug
                      (importerState [local TYP_SIMD16 2; GT_OTHER TYP_SIMD16 5; icon 7])
                      top below rest) rest
    /\ operandsOf (gtNewSimdBinOpNode GT_AND_NOT TYP_SIMD16
                     [GT_LCL_VAR TYP_SIMD16 0; local TYP_SIMD16 2] CORINFO_TYPE_INT 16)
       = [@spilledUse x64_debug
            (importerState [local TYP_SIMD16 2; GT_OTHER TYP_SIMD16 5; icon 7]) below;
          top].
Proof.
  apply (@spilling_imports_protect_evaluation_order x64_debug NI_Vector128_AndNot
           (signature 2) CORINFO_TYPE_INT TYP_SIMD16 16
           (importerState [local TYP_SIMD16 2; GT_OTHER TYP_SIMD16 5; icon 7])
           {| esStack := [icon 7]; impStmts := [(0%nat, GT_OTHER TYP_SIMD16 5)];
              lvaCount := 1; lvaSIMDRelated := [] |}
           (gtNewSimdBinOpNode GT_AND_NOT TYP_SIMD16
              [GT_LCL_VAR TYP_SIMD16 0; local TYP_SIMD16 2] CORINFO_TYPE_INT 16)).
  - left; simpl; tauto.
  - reflexivity.
  - reflexivity.
Defined.
